(* ===== verification/_CoqProject ===== *)
-Q . S2P
Prelude.v
GoErrors.v
GoStrings.v
Utf8.v
Duration.v
Logging.v
RetryAfter.v
NetAddr.v
Safedial.v
Crypto.v
Http.v
Json.v
JsonFacts.v
Rfc3339.v
HttpDate.v
Httpsig.v
Httpsend.v
Transport.v
Executor.v
Config.v
Expansion.v
Register.v
Runtime.v
Server.v
Shutdown.v
Startup.v
Ownership.v
Lifecycle.v
HttpExec.v
ApDeliver.v
Signers.v
KeyCache.v
Standalone.v
Delivery.v
RemoteDelivery.v
Embedded.v
Tabwriter.v
Flags.v
Cli.v
Output.v
OutputShape.v
Main.v
Commands.v
