(* ===== verification/Prelude.v ===== *)
(** * mkqd: a verification development

    mkqd is a standalone worker for queues in BullMQ's Redis layout. A process
    reads a YAML file, registers queues (from the file and from code), resolves
    the tuning of each, starts one mkq worker per queue and hands every job to
    an executor; executors post jobs over HTTP (http, webhook) or deliver signed
    ActivityPub activities. The development models the program's own logic, from
    the sources under src/, and proves what makes each part correct. A Go value
    is carried as it is: integers as [Z] with [wrap64] where they may wrap,
    strings and byte slices as byte strings, errors as values with the chain
    that [errors.Is] walks, maps as finite maps with an explicit iteration order
    where the program ranges over one, and everything outside the process as an
    abstract world threaded through the code.

    ** Files, and the sources they model

    - Prelude: scopes, hint databases, tactics, 64-bit integers, byte strings.
    - GoErrors: error values, [errors.Is]/[As]/[Join], [fmt.Errorf], the result
      monad of fallible code; RetryAfterError of retry_after.go.
    - GoStrings, Utf8, Duration, Crypto, Http, HttpDate, Rfc3339, NetAddr, Json,
      Tabwriter, Flags: the parts of Go's standard library the program computes
      with (strings, strconv, unicode/utf8, durations, encoding/hex and base64,
      SHA-256 and HMAC, headers and requests, HTTP and RFC 3339 dates, net/netip,
      encoding/json, text/tabwriter, package flag), written as executable
      definitions. JsonFacts proves what the JSON of the executors and commands
      rests on: layout leaves the tokens alone, and what is marshalled parses back.
    - Logging (logging.go): the logger's configuration and what is logged.
    - RetryAfter (retry_after.go): the header's parser, the error that carries the
      delay, and the hook that hands it to mkq.
    - Safedial (internal/safedial): the prefix tables, [IsPublic], [CheckAddr] and
      the dialer's control hook.
    - Httpsig (httpsig/httpsig.go): the signing string, [SignRequest], the header's
      parser, [Verify], local signers; RSA is the interface [RSA] with [RSALaws].
    - Httpsend (internal/httpsend): client settings, the bounded read, rune-safe
      truncation, the HMAC; the class [Net] is the outside of an executor.
    - Transport: net/http's client one level down - resolve, dial through the
      guard's hook, exchange, redirects - as an instance of [Net] over the class
      [Dialing]; it records every address connected to.
    - Executor (executor.go, version.go): jobs, the registry of executor types.
    - Config (config.go): the node tree, environment expansion, defaults,
      validation, pool sizing, strict decoding. Expansion: what expanding a document
      means, by a grammar of references and a relation.
    - Register (register.go): options, the three layers of tuning, the registry of
      queues and the queues the file adds.
    - Runtime (runtime.go): [New], [Start] with its rollback, the pool warning and
      [Check].
    - Server (server.go): the health server's routes, from method and path to the
      reply.
    - Shutdown (runtime.go): [Shutdown] as a step relation and as a function, and
      [Run].
    - Startup (runtime.go, register.go): registrations and starts from several
      goroutines.
    - Ownership (runtime.go): those schedules with a shutdown that takes the
      workers; which place each launched worker is in.
    - Lifecycle (runtime.go, server.go): probes that interleave with a shutdown.
    - HttpExec (executor/httpexec): the http and webhook executors.
    - ApDeliver (executor/apdeliver/apdeliver.go): the delivery executor.
    - Signers (executor/apdeliver/signer.go, remote.go): the file, directory and
      remote signers and the builder that chooses one; [SignerLaws] is the
      interface the delivery relies on, the class [FS] the file system. KeyCache:
      the directory signer's load step by step, with concurrent loads that share
      its cache.
    - Standalone (the init functions of executor.go, executor/httpexec and
      executor/apdeliver): the factories the binary links, and the path from a
      queue's block in the file to the sockets its handler opens and the verdict
      on its jobs.
    - Delivery (executor/apdeliver): sequences of deliveries with a key directory
      whose files are replaced meanwhile. RemoteDelivery: a delivery signed by a
      remote endpoint that honours its documented contract.
    - Embedded (examples/embedded/main.go): the embedding example.
    - Cli (cmd/mkqd/inspect.go, admin.go) and Main (cmd/mkqd/main.go): the commands
      after their flags are parsed; the class [MkqClient] is mkq as the inspector
      commands use it. Output: the JSON, the tables and the text they print.
      OutputShape: the documents of --json as their reader finds them.
      Commands: each command's flags, the table and the dispatch of main.go.

    A definition has the name of the function or type it models; methods are
    plain functions on the record of their receiver. Where two records share a
    field name, the model's has a short prefix (q_, d_, wp_, js_ and so on).

    ** How the parts meet

    The configuration (Config) feeds registration (Register), which the runtime
    (Runtime) builds its workers from; executors (HttpExec, ApDeliver) are
    factories in the registry of Executor; both send through Httpsend, whose
    dialer is Safedial's, and return the errors RetryAfter's hook reads. The
    delivery signs with Httpsig through a [Signer], a record of one operation
    that the three signers of Signers implement; what a delivery relies on is the
    class [SignsUnder] (its signatures verify under a key that was good), which the
    local signer keeps, the directory signer over any disk that follows a history
    ([FollowsHistory]), and the remote signer with an endpoint that honours its
    contract ([honours_contract]). Standalone links them: each
    factory decodes its block (Config), builds its executor and is found in the
    registry by the queue that names it, and the executors run over Transport.
    Shutdown is modelled twice: as
    a step relation in which the goroutines that drain the workers interleave,
    and as a sequential function; the second is proved to give the result of
    every run of the first.

    ** What the theorems show

    - The guard: [IsPublic] is the table of address ranges, a guarded dial reaches
      public addresses only, the check fails closed; zoned addresses are the
      exception, shown by a lemma. A configured queue whose block does not open
      the private network connects to public addresses only, whatever its jobs
      hold, and a job aimed elsewhere fails for good.
    - Signatures: what [SignRequest] signs, [Verify] accepts; a verified signature
      cannot move to another request; every configured signer keeps the
      interface's promises; the directory signer never serves a stale key, however
      its loads interleave; a delivery is signed or not sent; in a sequence of
      deliveries each request verifies under a key its file held at the time, and one
      signed by a remote endpoint under the endpoint's key.
    - Life cycle: a start is all or nothing, and concurrent registrations and starts
      come to one sequential start; the clients close after the workers;
      the interleavings refine the sequential shutdown, which terminates, and is
      carried through in every execution; every launched worker has one owner in
      every schedule of starts and a shutdown; a run leaves no worker behind; a probe
      answered as ready finds every worker up; every route answers as documented.
    - Configuration and tuning: validation is exact, parsing yields valid
      configurations, every document has one expansion by the grammar of references
      and it is the one computed, tuning has its
      documented precedence, registration keeps its invariant, the automatic
      pool is large enough; a duration written to YAML is read back.
    - Executors: how each answer is classified and which jobs are defective (by
      conditions of their own: RFC 9110's field names and values, web URLs with a
      host), which answers of a signing endpoint lose a delivery, which
      headers an executor owns, how much of a response is read, which delay is
      applied to a retry, from the answer to the delay mkq is told; the envelope an endpoint gets
      and the request a signing endpoint gets read back as what they were made of.
    - Commands: an unknown queue is never created by looking at it, the drain
      needs --yes among its flags and reports what it removed, an option after an
      argument is an argument itself (and one too many is refused), a reader of
      --json finds what the command found under the documented names, or the command
      fails, the check reports what it built. The embedding example always ends,
      and its worker is left running only when an Add fails.

    Theorems without a claim number are supporting lemmas, or record a defect on
    a concrete input ([ParseRetryAfter_accepts_garbage_tail],
    [SignRequest_algorithm_injection], [mergeHeaders_case_order],
    [zoned_address_bypass], [list_range_wraps], [ready_after_drain],
    [start_after_shutdown], [shutdown_overlaps_start]).

    ** Bounds and fuel

    [IsPublic_go] has fuel for the recursion into an embedded IPv4 address: two
    calls are always enough ([IsPublic_terminates]), because an IPv4 address is
    in no embedding prefix. [dec_go] prints one digit per unit of fuel and has one
    per bit. [hex_go] likewise. [dedupe_loop] reads one cell per unit, and [dedupe_first]
    shows that the length of the list is enough. [parse_groups] has the eight
    groups of an address as its source's loop bound. [sha_blocks] has one unit per
    word of the padded message. [parse_components] has one unit per component of a
    duration. [parse_tokens] has two units per token and one more, and [parse_takes] shows that no
    parse needs more. [columns] has one unit per cell of the longest line
    ([column_left]). A shutdown takes at most four steps and two per worker
    ([shutdown_terminates]); with probes in flight a measure bounds its steps
    ([shutdown_inevitable]). A load of the key directory takes at most four steps
    ([next_rank]). [follow] has nine redirects, as http.Client has. The example's
    [wait] has 201 looks, which ten seconds of 50 ms turns never exceed
    ([wait_ends]). Every other recursion is structural.

    ** What is taken from outside, and what is not modelled

    mkq, Redis, the YAML library, RSA, PEM and X.509, the name service, sockets and
    the file system are parameters or classes; a theorem that relies on documented
    behaviour of one has it as a named hypothesis, and a witness instantiates it.
    [url.Parse], case mapping outside ASCII, the local time zone and the RFC 850
    date layout are parameters too. Not modelled: the delivery of signals, the
    help text of a command's flags, the metrics registry and what /metrics exposes,
    the text of JSON syntax errors, keep-alive connections (a reused one was
    dialled like any other), a response whose reader reports an error together with
    the last byte of the limit ([ReadBody] reports an error only when it reads past
    the body's end), the difference between an empty and an absent raw message, the
    re-escaping of a redirect and the 400 for a request target of an asterisk in
    ServeMux, the mutexes as such (each critical section is one
    step), the deployment files. The file system under the key directory reads a file
    at once and fails only because there is none; that a replaced key is noticed rests
    on its modification time or size being different ([stamps_fresh]). *)

From stdpp Require Export base tactics option list gmap sets strings sorting.
From Stdlib Require Export ZArith Ascii Lia Bool Btauto.

(** Scope and notations of the development. *)
Declare Scope go_scope.
Delimit Scope go_scope with go.
#[global] Open Scope go_scope.
#[global] Open Scope Z_scope.

Create HintDb mkqd.
Create HintDb mkqd_ascii.
Create Rewrite HintDb mkqd.

(** ** Machine integers *)

(** Go's [int] (on the 64-bit platforms mkqd ships for), [int64] and
    [time.Duration] are two's complement 64-bit integers; they are carried as
    [Z] and every operation of the source that can leave the range is followed
    by [wrap64]. *)
Definition MaxInt64 : Z := 9223372036854775807.
Definition MinInt64 : Z := -9223372036854775808.

Definition wrap64 (z : Z) : Z := (z + 2 ^ 63) mod 2 ^ 64 - 2 ^ 63.

Definition in_int64 (z : Z) : Prop := MinInt64 <= z <= MaxInt64.

#[global] Instance in_int64_dec z : Decision (in_int64 z).
Proof. unfold in_int64. apply _. Defined.

Lemma wrap64_id z : in_int64 z -> wrap64 z = z.
Proof.
  unfold in_int64, MinInt64, MaxInt64, wrap64. intros H.
  rewrite Z.mod_small; lia.
Qed.

Lemma wrap64_range z : in_int64 (wrap64 z).
Proof.
  unfold in_int64, MinInt64, MaxInt64, wrap64.
  pose proof (Z.mod_pos_bound (z + 2 ^ 63) (2 ^ 64) ltac:(lia)). lia.
Qed.

Lemma wrap64_cong a b : a mod 2 ^ 64 = b mod 2 ^ 64 -> wrap64 a = wrap64 b.
Proof.
  intros H. unfold wrap64. f_equal.
  rewrite (Z.add_mod a), (Z.add_mod b), H by lia. done.
Qed.

#[export] Hint Resolve wrap64_range : mkqd.

(** Durations, in nanoseconds as [time.Duration] counts them. *)
Definition Second : Z := 1000000000.
Definition Minute : Z := 60 * Second.
Definition Hour : Z := 60 * Minute.

(** ** Bytes *)

(** A Go [byte] is a Rocq [ascii]; comparisons are on its value. *)
Definition b2n (c : ascii) : N := N_of_ascii c.

Lemma b2n_inj a b : b2n a = b2n b -> a = b.
Proof.
  intros H. rewrite <- (ascii_N_embedding a), <- (ascii_N_embedding b).
  unfold b2n in H. by rewrite H.
Qed.

Lemma b2n_lt c : (b2n c < 256)%N.
Proof. apply N_ascii_bounded. Qed.

(** [quote] is the double quote, which the source writes as a byte literal. *)
Definition quote : ascii := "034"%char.
Definition backslash : ascii := "092"%char.
Definition newline : ascii := "010"%char.
Definition tab : ascii := "009"%char.

Definition byte_in (lo hi : N) (c : ascii) : bool :=
  ((lo <=? b2n c) && (b2n c <=? hi))%N.

(** Every statement about one byte is decided by its 256 cases. *)
Ltac byte_cases c := destruct c as [[] [] [] [] [] [] [] []].

(** [lia] with quotients and remainders by constants. *)
Ltac div_lia := zify; Z.to_euclidean_division_equations; lia.

(** A boolean statement about the numbers below a bound, by enumeration. *)
Lemma below_forallb (p : N -> bool) (n : nat) :
  List.forallb p (map N.of_nat (seq 0 n)) = true ->
  forall d, (d < N.of_nat n)%N -> p d = true.
Proof.
  intros H d Hd. eapply List.forallb_forall in H; [exact H|].
  apply in_map_iff. exists (N.to_nat d). split; [lia|]. apply in_seq. lia.
Qed.

(** Open every nested boolean connective of the context. *)
Ltac split_bool :=
  repeat match goal with
         | H : (_ && _) = true |- _ => apply andb_prop in H as [? ?]
         | H : (_ || _) = false |- _ => apply orb_false_iff in H as [? ?]
         | H : negb _ = true |- _ => apply negb_true_iff in H
         | H : negb _ = false |- _ => apply negb_false_iff in H
         end.

(** ** Strings as byte sequences *)

(** Go strings and byte slices are byte sequences: Rocq's [string]. *)

Definition slen (s : string) : Z := Z.of_nat (String.length s).

Fixpoint str_forallb (p : ascii -> bool) (s : string) : bool :=
  match s with
  | EmptyString => true
  | String c s' => p c && str_forallb p s'
  end.

Fixpoint str_take (n : nat) (s : string) : string :=
  match n, s with
  | S n', String c s' => String c (str_take n' s')
  | _, _ => EmptyString
  end.

Fixpoint str_drop (n : nat) (s : string) : string :=
  match n, s with
  | S n', String _ s' => str_drop n' s'
  | _, _ => s
  end.

Fixpoint str_map (f : ascii -> ascii) (s : string) : string :=
  match s with
  | EmptyString => EmptyString
  | String c s' => String (f c) (str_map f s')
  end.

Fixpoint str_rev_go (acc s : string) : string :=
  match s with
  | EmptyString => acc
  | String c s' => str_rev_go (String c acc) s'
  end.
Definition str_rev (s : string) : string := str_rev_go EmptyString s.

Lemma str_app_cons c s t : String c s +:+ t = String c (s +:+ t).
Proof. done. Qed.

Lemma str_app_nil_r s : s +:+ "" = s.
Proof. induction s as [|c s IH]; [done|]. by rewrite str_app_cons, IH. Qed.

Lemma str_app_assoc s t u : (s +:+ t) +:+ u = s +:+ (t +:+ u).
Proof.
  induction s as [|c s IH]; [done|].
  rewrite !str_app_cons. by rewrite IH.
Qed.

Lemma str_length_app s t :
  String.length (s +:+ t) = (String.length s + String.length t)%nat.
Proof.
  induction s as [|c s IH]; [done|].
  rewrite str_app_cons. cbn [String.length]. by rewrite IH.
Qed.

Lemma slen_app s t : slen (s +:+ t) = slen s + slen t.
Proof. unfold slen. rewrite str_length_app. lia. Qed.

Lemma slen_nonneg s : 0 <= slen s.
Proof. unfold slen. lia. Qed.

Lemma str_forallb_app p s t :
  str_forallb p (s +:+ t) = str_forallb p s && str_forallb p t.
Proof.
  induction s as [|c s IH]; [done|].
  rewrite str_app_cons. cbn [str_forallb]. by rewrite IH, andb_assoc.
Qed.

Lemma str_forallb_impl p q s :
  (forall c, p c = true -> q c = true) ->
  str_forallb p s = true -> str_forallb q s = true.
Proof.
  intros Hpq. induction s as [|c s IH]; [done|].
  cbn [str_forallb]. intros [Hc Hs]%andb_prop.
  by rewrite (Hpq c Hc), IH.
Qed.

Lemma str_forallb_map p f s :
  (forall c, p (f c) = true) -> str_forallb p (str_map f s) = true.
Proof.
  intros H. induction s as [|c s IH]; [done|].
  cbn [str_map str_forallb]. by rewrite H, IH.
Qed.

Lemma str_length_map f s : String.length (str_map f s) = String.length s.
Proof. induction s as [|c s IH]; cbn; congruence. Qed.

Lemma str_take_drop n s : str_take n s +:+ str_drop n s = s.
Proof.
  revert s. induction n as [|n IH]; intros [|c s]; try done.
  cbn [str_take str_drop]. by rewrite str_app_cons, IH.
Qed.

Lemma str_length_take n s :
  String.length (str_take n s) = Nat.min n (String.length s).
Proof.
  revert s. induction n as [|n IH]; intros [|c s]; cbn; try done.
  by rewrite IH.
Qed.

Lemma str_take_app s t : str_take (String.length s) (s +:+ t) = s.
Proof.
  induction s as [|c s IH]; [by destruct t|].
  rewrite str_app_cons. cbn. by rewrite IH.
Qed.

Lemma str_drop_app s t : str_drop (String.length s) (s +:+ t) = t.
Proof.
  induction s as [|c s IH]; [by destruct t|].
  rewrite str_app_cons. cbn. by rewrite IH.
Qed.

Lemma str_take_all n s : (String.length s <= n)%nat -> str_take n s = s.
Proof.
  revert s. induction n as [|n IH]; intros [|c s] H; cbn in *; try done; try lia.
  rewrite IH; [done|lia].
Qed.

Lemma str_forallb_take p n s :
  str_forallb p s = true -> str_forallb p (str_take n s) = true.
Proof.
  intros H. rewrite <- (str_take_drop n s), str_forallb_app in H.
  by apply andb_prop in H as [? _].
Qed.

Lemma str_app_inj_l s t u : s +:+ t = s +:+ u -> t = u.
Proof. induction s as [|c s IH]; [done|]. rewrite !str_app_cons. intros [=]. auto. Qed.

Lemma str_rev_go_app acc s : str_rev_go acc s = str_rev s +:+ acc.
Proof.
  unfold str_rev. revert acc. induction s as [|c s IH]; intros acc; [done|].
  cbn [str_rev_go]. rewrite IH, (IH (String c "")), str_app_assoc. done.
Qed.

Lemma str_rev_cons c s : str_rev (String c s) = str_rev s +:+ String c "".
Proof. unfold str_rev. cbn [str_rev_go]. by rewrite str_rev_go_app. Qed.

Lemma str_rev_app s t : str_rev (s +:+ t) = str_rev t +:+ str_rev s.
Proof.
  induction s as [|c s IH]; [by rewrite str_app_nil_r|].
  by rewrite str_app_cons, !str_rev_cons, IH, str_app_assoc.
Qed.

Lemma str_rev_involutive s : str_rev (str_rev s) = s.
Proof. induction s as [|c s IH]; [done|]. by rewrite str_rev_cons, str_rev_app, IH. Qed.

Lemma str_forallb_rev p s : str_forallb p (str_rev s) = str_forallb p s.
Proof.
  induction s as [|c s IH]; [done|].
  rewrite str_rev_cons, str_forallb_app, IH. cbn [str_forallb].
  by rewrite andb_true_r, andb_comm.
Qed.

#[export] Hint Rewrite str_app_nil_r str_app_assoc str_length_app slen_app
  str_forallb_app str_length_map str_length_take : mkqd.
#[export] Hint Resolve slen_nonneg : mkqd.

(** ** Lists *)

(** The first element satisfying a boolean test, as a [for] loop with an early
    [return] finds it. *)
Lemma find_none_forall {A} (f : A -> bool) l :
  List.find f l = None <-> Forall (fun x => f x = false) l.
Proof.
  split.
  - intros H. apply Forall_forall. intros x Hx.
    by apply (List.find_none f l H), list_elem_of_In.
  - induction 1 as [|x l Hx _ IH]; cbn; [done|by rewrite Hx].
Qed.

(** Membership of a string in a list, as [slices.Contains] computes it. *)
Definition str_mem (x : string) (l : list string) : bool := bool_decide (x ∈ l).

Lemma str_mem_spec x l : str_mem x l = true <-> x ∈ l.
Proof. unfold str_mem. apply bool_decide_eq_true. Qed.

Lemma str_mem_false x l : str_mem x l = false <-> x ∉ l.
Proof. unfold str_mem. apply bool_decide_eq_false. Qed.

Lemma filter_elem {A} (p : A -> bool) l x : x ∈ List.filter p l <-> x ∈ l /\ p x = true.
Proof. rewrite !list_elem_of_In. apply filter_In. Qed.

(** ** Inevitability

    Every execution of [R] from a state comes to satisfy [P]: it does already,
    or it can move and does so wherever it moves. *)
Inductive inevitable {S} (R : S -> S -> Prop) (P : S -> Prop) : S -> Prop :=
| inevitable_now s : P s -> inevitable R P s
| inevitable_later s :
    (exists s', R s s') -> (forall s', R s s' -> inevitable R P s') -> inevitable R P s.

(** A measure that every step decreases until [P] holds. *)
Lemma inevitable_measure {S} (R : S -> S -> Prop) (P I : S -> Prop) (m : S -> nat) :
  (forall s, I s -> P s \/ exists s', R s s') ->
  (forall s s', I s -> R s s' -> I s' /\ (m s' < m s)%nat) ->
  forall s, I s -> inevitable R P s.
Proof.
  intros Hp Hstep s. remember (m s) as n eqn:Hn. revert s Hn.
  induction (lt_wf n) as [n _ IH]. intros s -> HI.
  destruct (Hp s HI) as [?|Hmove]; [by apply inevitable_now|]. apply inevitable_later; [done|].
  intros s' Hs'. destruct (Hstep s s' HI Hs') as [HI' Hlt]. by eapply IH.
Qed.
