(* ===== verification/GoErrors.v ===== *)
(** * Error values

    Go's [error] interface as mkqd uses it: opaque errors, the sentinels the
    program tests with [errors.Is], [fmt.Errorf] with its operands, the
    [RetryAfterError] of retry_after.go, and [errors.Join]. [errors.Is] and
    [errors.As] are the depth-first searches of package errors; a nil error is
    [None]. *)

From S2P Require Import Prelude.

#[local] Set Warnings "-register-all".

(** The sentinel errors of the program and of the packages it uses. *)
Inductive sentinel : Set :=
| ErrUnrecoverable      (* mkq.ErrUnrecoverable *)
| ErrJobDetached        (* mkq.ErrJobDetached *)
| ErrUnknownKey         (* httpsig.ErrUnknownKey *)
| ErrBlocked            (* safedial.ErrBlocked *)
| ErrHelp               (* flag.ErrHelp *)
| ErrNotExist           (* os.ErrNotExist *)
| ErrRange              (* strconv.ErrRange *)
| ErrSyntax             (* strconv.ErrSyntax *)
| ErrEOF                (* io.EOF *)
| ErrDeadlineExceeded   (* context.DeadlineExceeded *)
| ErrCanceled           (* context.Canceled *)
| ErrServerClosed.      (* http.ErrServerClosed *)

#[global] Instance sentinel_eq_dec : EqDecision sentinel.
Proof. solve_decision. Defined.

(** An operand of a format string. Only a [%w] operand is reachable through
    [Unwrap]; an error printed with [%v] is text. *)
Inductive operand (E : Type) : Type :=
| OStr (s : string)
| OInt (z : Z)
| OVal (e : E)                                     (* error under [%v] *)
| OWrap (e : E)                                    (* error under [%w] *)
| OSprintf (format : string) (ops : list (operand E)).
Arguments OStr {E} s.
Arguments OInt {E} z.
Arguments OVal {E} e.
Arguments OWrap {E} e.
Arguments OSprintf {E} format ops.

Inductive error : Type :=
| New (msg : string)                               (* errors.New, or a library's error *)
| Sentinel (s : sentinel)
| Errorf (format : string) (ops : list (operand error))
| RetryAfterError (After : Z) (Err : option error) (* retry_after.go *)
| Joined (errs : list error).                      (* errors.Join *)

(** The [%w] operands, in order. *)
Definition wrapped_of (o : operand error) : option error :=
  match o with OWrap e => Some e | _ => None end.

(** The children [Unwrap] exposes. *)
Definition Unwrap (e : error) : list error :=
  match e with
  | New _ | Sentinel _ => []
  | Errorf _ ops => omap wrapped_of ops
  | RetryAfterError _ oe => option_list oe
  | Joined es => es
  end.

Definition is_sentinel (e : error) (t : sentinel) : bool :=
  match e with Sentinel s => bool_decide (s = t) | _ => false end.

(** [errors.Is(e, t)]. *)
Fixpoint errors_Is (e : error) (t : sentinel) {struct e} : bool :=
  match e with
  | New _ => false
  | Sentinel s => bool_decide (s = t)
  | Errorf _ ops =>
      List.existsb
        (fun o => match o with OWrap e' => errors_Is e' t | _ => false end) ops
  | RetryAfterError _ oe =>
      match oe with Some e' => errors_Is e' t | None => false end
  | Joined es => List.existsb (fun e' => errors_Is e' t) es
  end.

(** The first defined result along a list. *)
Section first_some.
Context {A B : Type} (f : A -> option B).
Fixpoint first_some (l : list A) : option B :=
  match l with
  | [] => None
  | x :: l' => match f x with Some y => Some y | None => first_some l' end
  end.
End first_some.

(** [errors.As(e, &ra)] with [ra : *RetryAfterError]: the first one met in a
    depth-first, pre-order walk. *)
Fixpoint errors_As_RetryAfter (e : error) {struct e} : option (Z * option error) :=
  match e with
  | RetryAfterError d oe => Some (d, oe)
  | Errorf _ ops =>
      first_some
        (fun o => match o with OWrap e' => errors_As_RetryAfter e' | _ => None end) ops
  | Joined es => first_some errors_As_RetryAfter es
  | New _ | Sentinel _ => None
  end.

(** [errors.Join]: nil when every argument is nil. *)
Definition errors_Join (errs : list (option error)) : option error :=
  match omap id errs with
  | [] => None
  | es => Some (Joined es)
  end.

(** [errors.Is] and [errors.As] are defined on a nil error too. *)
Definition errors_Is_opt (oe : option error) (t : sentinel) : bool :=
  match oe with Some e => errors_Is e t | None => false end.

Definition errors_As_opt (oe : option error) : option (Z * option error) :=
  oe ≫= errors_As_RetryAfter.

(** ** Fallible results *)

Inductive res (A : Type) : Type :=
| Ok (a : A)
| Fail (e : error).
Arguments Ok {A} a.
Arguments Fail {A} e.

#[global] Instance res_ret : MRet res := fun A a => Ok a.
#[global] Instance res_bind : MBind res := fun A B f m =>
  match m with Ok a => f a | Fail e => Fail e end.
#[global] Instance res_fmap : FMap res := fun A B f m =>
  match m with Ok a => Ok (f a) | Fail e => Fail e end.

(** Rewrite an error the way [fmt.Errorf] call sites do. *)
Definition map_err {A} (f : error -> error) (m : res A) : res A :=
  match m with Ok a => Ok a | Fail e => Fail (f e) end.

Definition is_ok {A} (m : res A) : bool :=
  match m with Ok _ => true | Fail _ => false end.

(** The error half of a result, [None] for success. *)
Definition err_of {A} (m : res A) : option error :=
  match m with Ok _ => None | Fail e => Some e end.

(** ** Lemmas *)

Lemma errors_Is_unwrap e t :
  errors_Is e t = is_sentinel e t || List.existsb (fun c => errors_Is c t) (Unwrap e).
Proof.
  destruct e as [m|s|f ops|d [e|]|es]; cbn; rewrite ?orb_false_r; try done.
  induction ops as [|o ops IH]; [done|].
  destruct o; cbn; rewrite ?IH; done.
Qed.

Lemma errors_As_unwrap e :
  errors_As_RetryAfter e =
  match e with
  | RetryAfterError d oe => Some (d, oe)
  | _ => first_some errors_As_RetryAfter (Unwrap e)
  end.
Proof.
  destruct e as [m|s|f ops|d oe|es]; cbn; try done.
  induction ops as [|o ops IH]; [done|].
  destruct o; cbn; rewrite ?IH; done.
Qed.

Lemma errors_Is_wrap format ops t :
  errors_Is (Errorf format ops) t =
  List.existsb (fun c => errors_Is c t) (omap wrapped_of ops).
Proof. by rewrite errors_Is_unwrap. Qed.

Lemma errors_Join_None errs : errors_Join errs = None <-> Forall (fun e => e = None) errs.
Proof.
  unfold errors_Join. induction errs as [|[e|] errs IH]; cbn; split; try done.
  - inversion 1; subst. done.
  - intros H. constructor; [done|]. by apply IH.
  - intros H. inversion H; subst. by apply IH.
Qed.

Lemma errors_Join_Is errs t :
  errors_Is_opt (errors_Join errs) t =
  List.existsb (fun oe => errors_Is_opt oe t) errs.
Proof.
  unfold errors_Join. induction errs as [|[e|] errs IH]; [done| |].
  - cbn. f_equal. rewrite <- IH. cbn. by destruct (omap id errs).
  - cbn. apply IH.
Qed.

Lemma bind_ok_inv {A B} (m : res A) (f : A -> res B) b :
  (m ≫= f) = Ok b -> exists a, m = Ok a /\ f a = Ok b.
Proof. destruct m as [a|e]; [by exists a|done]. Qed.

Lemma bind_fail_inv {A B} (m : res A) (f : A -> res B) e :
  (m ≫= f) = Fail e -> m = Fail e \/ exists a, m = Ok a /\ f a = Fail e.
Proof. destruct m as [a|e']; [right; by exists a|intros [= ->]; by left]. Qed.

(** Open a successful bind: names the intermediate result. *)
Ltac inv_bind H :=
  let a := fresh "r" in let H1 := fresh H in
  apply bind_ok_inv in H as (a & H1 & H).

(** Reduce a bind whose first half is known. *)
Lemma bind_Ok {A B} (a : A) (f : A -> res B) : (Ok a ≫= f) = f a.
Proof. done. Qed.
Lemma bind_Fail {A B} (e : error) (f : A -> res B) : (Fail e ≫= f) = Fail e.
Proof. done. Qed.

#[export] Hint Rewrite @bind_Ok @bind_Fail : mkqd.
