(* ===== verification/GoStrings.v ===== *)
(** * Strings

    The functions of packages strings, bytes, strconv and unicode/utf8 that
    the program calls, on byte sequences. Case mapping outside ASCII needs the
    Unicode tables and is a parameter ([Unicode]); white space outside ASCII is
    the fixed set [unicode.IsSpace] accepts and is written out. *)

From S2P Require Import Prelude.

(** ** Case *)

Definition is_ascii_byte (c : ascii) : bool := (b2n c <? 128)%N.
Definition is_ascii (s : string) : bool := str_forallb is_ascii_byte s.

Definition lower_byte (c : ascii) : ascii :=
  if byte_in 65 90 c then ascii_of_N (b2n c + 32) else c.
Definition upper_byte (c : ascii) : ascii :=
  if byte_in 97 122 c then ascii_of_N (b2n c - 32) else c.

(** The case tables of package unicode, reached only when an operand has a byte
    outside ASCII. *)
Class Unicode := {
  uni_ToLower : string -> string;
  uni_EqualFold : string -> string -> bool;
}.

(** A table-free instance, for the concrete runs of the witnesses. *)
Definition ascii_only : Unicode :=
  {| uni_ToLower s := s; uni_EqualFold s t := bool_decide (s = t) |}.

Section case.
Context {U : Unicode}.

(** [strings.ToLower] *)
Definition ToLower (s : string) : string :=
  if is_ascii s then str_map lower_byte s else uni_ToLower s.

(** [strings.EqualFold] *)
Definition EqualFold (s t : string) : bool :=
  if is_ascii s && is_ascii t
  then bool_decide (str_map lower_byte s = str_map lower_byte t)
  else uni_EqualFold s t.
End case.

(** ** Searching *)

(** [strings.HasPrefix(s, p)] *)
Definition HasPrefix (s p : string) : bool := String.prefix p s.

(** [strings.Contains(s, sub)] *)
Fixpoint Contains (s sub : string) : bool :=
  String.prefix sub s ||
  match s with EmptyString => false | String _ s' => Contains s' sub end.

(** [strings.IndexByte(s, b) >= 0] *)
Fixpoint has_byte (s : string) (b : ascii) : bool :=
  match s with
  | EmptyString => false
  | String c s' => bool_decide (c = b) || has_byte s' b
  end.

(** [strings.Cut(s, sep)] for a one-byte separator. *)
Fixpoint Cut (s : string) (sep : ascii) : string * string * bool :=
  match s with
  | EmptyString => (EmptyString, EmptyString, false)
  | String c s' =>
      if bool_decide (c = sep) then (EmptyString, s', true)
      else let '(before, after, found) := Cut s' sep in (String c before, after, found)
  end.

(** [strings.Join(l, sep)] *)
Fixpoint Join (l : list string) (sep : string) : string :=
  match l with
  | [] => EmptyString
  | [x] => x
  | x :: l' => x +:+ sep +:+ Join l' sep
  end.

(** [strings.ReplaceAll(s, old, new)] for one-byte [old], [new]. *)
Definition ReplaceByte (s : string) (old new : ascii) : string :=
  str_map (fun c => if bool_decide (c = old) then new else c) s.

(** The longest prefix of bytes satisfying [p], and the rest. *)
Fixpoint span (p : ascii -> bool) (s : string) : string * string :=
  match s with
  | EmptyString => ("", "")
  | String c s' =>
      if p c then let '(a, b) := span p s' in (String c a, b) else ("", s)
  end.

(** ** White space *)

Definition is_space_byte (c : ascii) : bool := byte_in 9 13 c || (b2n c =? 32)%N.

(** The third byte of the three-byte spaces U+2000..U+200A, U+2028, U+2029 and
    U+202F, which all start with E2 80. *)
Definition is_e280_space (c : ascii) : bool :=
  byte_in 128 138 c || (b2n c =? 168)%N || (b2n c =? 169)%N || (b2n c =? 175)%N.

(** The length of the two-byte space (U+0085, U+00A0) with these bytes. *)
Definition space2 (a b : ascii) : bool :=
  (b2n a =? 194)%N && ((b2n b =? 133)%N || (b2n b =? 160)%N).

(** The three-byte spaces: U+1680, the E2 80 family, U+205F and U+3000. *)
Definition space3 (a b c : ascii) : bool :=
  ((b2n a =? 225) && (b2n b =? 154) && (b2n c =? 128))%N
  || ((b2n a =? 226) && (b2n b =? 128))%N && is_e280_space c
  || ((b2n a =? 226) && (b2n b =? 129) && (b2n c =? 159))%N
  || ((b2n a =? 227) && (b2n b =? 128) && (b2n c =? 128))%N.

(** How many bytes the white-space rune at the front of [s] takes, 0 for none. *)
Definition space_len (s : string) : nat :=
  match s with
  | EmptyString => 0
  | String a s1 =>
      if is_space_byte a then 1
      else match s1 with
           | EmptyString => 0
           | String b s2 =>
               if space2 a b then 2
               else match s2 with
                    | EmptyString => 0
                    | String c _ => if space3 a b c then 3 else 0
                    end
           end
  end.

(** The same at the end of a string, given reversed. *)
Definition rspace_len (s : string) : nat :=
  match s with
  | EmptyString => 0
  | String c s1 =>
      if is_space_byte c then 1
      else match s1 with
           | EmptyString => 0
           | String b s2 =>
               if space2 b c then 2
               else match s2 with
                    | EmptyString => 0
                    | String a _ => if space3 a b c then 3 else 0
                    end
           end
  end.

(** Drop leading runs recognised by [len], having [skip] bytes left of one. *)
Fixpoint trim_go (len : string -> nat) (skip : nat) (s : string) : string :=
  match s with
  | EmptyString => EmptyString
  | String _ s' =>
      match skip with
      | S k => trim_go len k s'
      | O => match len s with O => s | S k => trim_go len k s' end
      end
  end.

(** [strings.TrimSpace], [bytes.TrimSpace] *)
Definition TrimSpace (s : string) : string :=
  str_rev (trim_go rspace_len 0 (str_rev (trim_go space_len 0 s))).

Definition byte_len (b : ascii) (s : string) : nat :=
  match s with String c _ => if bool_decide (c = b) then 1 else 0 | _ => 0 end.

(** [strings.Trim(s, cutset)] for a cutset of one byte. *)
Definition TrimByte (s : string) (b : ascii) : string :=
  str_rev (trim_go (byte_len b) 0 (str_rev (trim_go (byte_len b) 0 s))).

(** [strings.Fields] *)
Fixpoint fields_go (skip : nat) (cur s : string) : list string :=
  let flush := if bool_decide (cur = "") then [] else [cur] in
  match s with
  | EmptyString => flush
  | String c s' =>
      match skip with
      | S k => fields_go k cur s'
      | O => match space_len s with
             | O => fields_go 0 (cur +:+ String c "") s'
             | S k => flush ++ fields_go k "" s'
             end
      end
  end.
Definition Fields (s : string) : list string := fields_go 0 "" s.

(** ** Decimal integers *)

Definition digit_byte (d : N) : ascii := ascii_of_N (48 + d).
Definition is_digit (c : ascii) : bool := byte_in 48 57 c.
Definition digit_val (c : ascii) : N := (b2n c - 48)%N.

(** The value of a hexadecimal digit. *)
Definition hex_val (c : ascii) : option N :=
  if is_digit c then Some (digit_val c)
  else if byte_in 97 102 c then Some (b2n c - 87)%N
  else if byte_in 65 70 c then Some (b2n c - 55)%N
  else None.

Fixpoint dec_go (fuel : nat) (n : N) (acc : string) : string :=
  match fuel with
  | O => acc
  | S f =>
      let acc' := String (digit_byte (n mod 10)) acc in
      if (n <? 10)%N then acc' else dec_go f (n / 10) acc'
  end.

(** One digit per halving is more than enough. *)
Definition FormatUint (n : N) : string := dec_go (S (N.to_nat (N.log2 n))) n "".

(** [strconv.FormatInt(z, 10)], [strconv.Itoa] *)
Definition FormatInt (z : Z) : string :=
  if z <? 0 then String "-" (FormatUint (Z.to_N (- z))) else FormatUint (Z.to_N z).
Definition Itoa : Z -> string := FormatInt.

(** What [strconv.ParseUint] and [strconv.ParseInt] report: a value, a syntax
    error, or a range error with the value they saturate at. *)
Inductive num_result : Type :=
| NumOk (z : Z)
| NumSyntax
| NumRange (z : Z).

Definition MaxUint64 : Z := 18446744073709551615.

(** The digit loop. An overflow ends it at once, whatever bytes follow. *)
Fixpoint ParseUint_go (n : Z) (s : string) : num_result :=
  match s with
  | EmptyString => NumOk n
  | String c s' =>
      if is_digit c then
        if MaxUint64 / 10 + 1 <=? n then NumRange MaxUint64
        else
          let n1 := n * 10 + Z.of_N (digit_val c) in
          if MaxUint64 <? n1 then NumRange MaxUint64 else ParseUint_go n1 s'
      else NumSyntax
  end.

Definition ParseUint (s : string) : num_result :=
  if bool_decide (s = "") then NumSyntax else ParseUint_go 0 s.

(** [strconv.ParseInt(s, 10, 64)] *)
Definition ParseInt (s : string) : num_result :=
  let '(neg, rest) :=
    match s with
    | String "+" r => (false, r)
    | String "-" r => (true, r)
    | _ => (false, s)
    end in
  match ParseUint rest with
  | NumSyntax => NumSyntax
  | NumOk un | NumRange un =>
      if negb neg && (2 ^ 63 <=? un) then NumRange MaxInt64
      else if neg && (2 ^ 63 <? un) then NumRange MinInt64
      else NumOk (if neg then - un else un)
  end.

(** ** Lemmas: decimal round trip *)

Lemma digit_byte_digit d : (d < 10)%N -> is_digit (digit_byte d) = true /\ digit_val (digit_byte d) = d.
Proof.
  intros H. unfold is_digit, digit_val, digit_byte, byte_in, b2n.
  rewrite N_ascii_embedding by lia. split; [|lia].
  apply andb_true_intro. split; apply N.leb_le; lia.
Qed.

Lemma dec_go_app fuel n acc : dec_go fuel n acc = dec_go fuel n "" +:+ acc.
Proof.
  revert n acc. induction fuel as [|f IH]; intros n acc; [done|].
  cbn. case_match; [done|].
  rewrite IH, (IH _ (String _ "")), str_app_assoc. done.
Qed.

Lemma dec_go_digits fuel n acc :
  str_forallb is_digit acc = true -> str_forallb is_digit (dec_go fuel n acc) = true.
Proof.
  revert n acc. induction fuel as [|f IH]; intros n acc Hacc; [done|].
  assert (Hd : is_digit (digit_byte (n mod 10)) = true)
    by (apply digit_byte_digit, N.mod_lt; lia).
  cbn. case_match; [cbn; by rewrite Hd|]. apply IH. cbn. by rewrite Hd.
Qed.

Lemma FormatUint_digits n : str_forallb is_digit (FormatUint n) = true.
Proof. by apply dec_go_digits. Qed.

Lemma FormatUint_nonempty n : FormatUint n <> "".
Proof.
  unfold FormatUint. cbn. case_match; [done|].
  rewrite dec_go_app. by destruct (dec_go _ _ _).
Qed.

Lemma ParseUint_go_app a s t :
  ParseUint_go a (s +:+ t) =
  match ParseUint_go a s with NumOk v => ParseUint_go v t | r => r end.
Proof.
  revert a. induction s as [|c s IH]; intros a; [done|].
  rewrite str_app_cons. cbn -[Z.mul Z.add]. rewrite IH. repeat case_match; done.
Qed.

Lemma ParseUint_go_dec_go fuel n :
  Z.of_N n <= MaxUint64 -> (n < 2 ^ N.of_nat fuel)%N ->
  ParseUint_go 0 (dec_go fuel n "") = NumOk (Z.of_N n).
Proof.
  revert n. induction fuel as [|f IH]; intros n Hmax Hf.
  { change (n < 1)%N in Hf. assert (n = 0%N) as -> by lia. done. }
  assert (Hstep : forall v, v * 10 + Z.of_N (n mod 10) = Z.of_N n ->
            ParseUint_go v (String (digit_byte (n mod 10)) "") = NumOk (Z.of_N n)).
  { intros v Hv. cbn -[Z.mul Z.add Z.div].
    destruct (digit_byte_digit (n mod 10)) as [-> ->]; [apply N.mod_lt; lia|].
    unfold MaxUint64 in *. rewrite Hv.
    destruct (Z.leb_spec (18446744073709551615 / 10 + 1) v) as [Hc|_].
    { div_lia. }
    by destruct (Z.ltb_spec 18446744073709551615 (Z.of_N n)); [lia|]. }
  cbn [dec_go]. destruct (N.ltb_spec n 10) as [Hlt|Hge].
  { apply Hstep. rewrite N.mod_small by lia. lia. }
  rewrite dec_go_app, ParseUint_go_app, IH.
  - apply Hstep. div_lia.
  - unfold MaxUint64 in *. div_lia.
  - rewrite Nat2N.inj_succ, N.pow_succ_r' in Hf. div_lia.
Qed.

Lemma ParseUint_FormatUint n :
  Z.of_N n <= MaxUint64 -> ParseUint (FormatUint n) = NumOk (Z.of_N n).
Proof.
  intros Hmax. unfold ParseUint.
  rewrite bool_decide_eq_false_2 by apply FormatUint_nonempty.
  unfold FormatUint. apply ParseUint_go_dec_go; [done|].
  rewrite Nat2N.inj_succ, N2Nat.id.
  destruct (N.eq_dec n 0) as [->|Hn]; [done|].
  apply N.log2_spec. lia.
Qed.

(** Parsing what was printed gives the number back. *)
Lemma ParseInt_FormatInt z : in_int64 z -> ParseInt (FormatInt z) = NumOk z.
Proof.
  unfold in_int64, MinInt64, MaxInt64. intros Hz. unfold FormatInt.
  destruct (Z.ltb_spec z 0) as [Hneg|Hpos].
  - cbn -[ParseUint FormatUint Z.ltb Z.leb Z.pow]. rewrite ParseUint_FormatUint; unfold MaxUint64; [|lia].
    rewrite Z2N.id by lia. cbn [negb andb].
    destruct (Z.ltb_spec (2 ^ 63) (- z)); [lia|]. f_equal. lia.
  - pose proof (FormatUint_digits (Z.to_N z)) as Hd.
    pose proof (FormatUint_nonempty (Z.to_N z)) as Hne.
    pose proof (ParseUint_FormatUint (Z.to_N z)) as Hp.
    destruct (FormatUint (Z.to_N z)) as [|c s]; [done|].
    cbn in Hd. apply andb_prop in Hd as [Hc _].
    assert (Hsign : (match String c s with
                     | String "+" r => (false, r)
                     | String "-" r => (true, r)
                     | _ => (false, String c s) end) = (false, String c s)).
    { byte_cases c; try done. }
    unfold ParseInt. rewrite Hsign, Hp by (unfold MaxUint64; lia).
    rewrite Z2N.id by lia. cbn [negb andb].
    by destruct (Z.leb_spec (2 ^ 63) z); [lia|].
Qed.

(** ** Lemmas: digit strings of any length *)

(** The number a digit string denotes, with no limit. *)
Fixpoint dec_value (a : Z) (s : string) : Z :=
  match s with
  | EmptyString => a
  | String c s' => dec_value (a * 10 + Z.of_N (digit_val c)) s'
  end.

Lemma dec_value_ge a s : 0 <= a -> a <= dec_value a s.
Proof.
  revert a. induction s as [|c s IH]; intros a Ha; cbn [dec_value]; [lia|].
  pose proof (IH (a * 10 + Z.of_N (digit_val c)) ltac:(lia)). lia.
Qed.

(** [ParseUint] on digits: the value, or a range error when it exceeds 64 bits. *)
Lemma ParseUint_go_digits a s :
  0 <= a -> str_forallb is_digit s = true ->
  a <= MaxUint64 ->
  ParseUint_go a s =
  if dec_value a s <=? MaxUint64 then NumOk (dec_value a s) else NumRange MaxUint64.
Proof.
  revert a. induction s as [|c s IH]; intros a Ha Hd Hmax.
  { cbn. by destruct (Z.leb_spec a MaxUint64); [|lia]. }
  cbn in Hd. apply andb_prop in Hd as [Hc Hd].
  cbn -[Z.mul Z.add Z.div]. rewrite Hc.
  pose proof (dec_value_ge (a * 10 + Z.of_N (digit_val c)) s ltac:(lia)) as Hge.
  destruct (Z.leb_spec (MaxUint64 / 10 + 1) a) as [Hov|Hok].
  { destruct (Z.leb_spec (dec_value (a * 10 + Z.of_N (digit_val c)) s) MaxUint64); [|done].
    exfalso. unfold MaxUint64 in *. div_lia. }
  destruct (Z.ltb_spec MaxUint64 (a * 10 + Z.of_N (digit_val c))) as [Hov|Hok'].
  { by destruct (Z.leb_spec (dec_value (a * 10 + Z.of_N (digit_val c)) s) MaxUint64); [lia|]. }
  apply IH; done || lia.
Qed.

(** Once the digits read exceed 64 bits the rest of the text is not looked at. *)
Lemma ParseUint_go_overflow a s t :
  0 <= a -> a <= MaxUint64 -> str_forallb is_digit s = true ->
  MaxUint64 < dec_value a s -> ParseUint_go a (s +:+ t) = NumRange MaxUint64.
Proof.
  intros Ha Hmax Hd Hov. rewrite ParseUint_go_app, (ParseUint_go_digits a s) by done.
  by destruct (Z.leb_spec (dec_value a s) MaxUint64); [lia|].
Qed.

(** A string that starts with a digit has no sign to strip. *)
Lemma ParseInt_digit_start c s :
  is_digit c = true ->
  ParseInt (String c s) =
  match ParseUint (String c s) with
  | NumSyntax => NumSyntax
  | NumOk un | NumRange un => if 2 ^ 63 <=? un then NumRange MaxInt64 else NumOk un
  end.
Proof. intros Hc. byte_cases c; try done; reflexivity. Qed.

Lemma ParseInt_digits v :
  v <> "" -> str_forallb is_digit v = true ->
  ParseInt v =
  if dec_value 0 v <=? MaxInt64 then NumOk (dec_value 0 v) else NumRange MaxInt64.
Proof.
  intros Hne Hd. destruct v as [|c s]; [done|].
  pose proof Hd as Hd'. cbn in Hd'. apply andb_prop in Hd' as [Hc _].
  rewrite (ParseInt_digit_start c s Hc). unfold ParseUint.
  rewrite bool_decide_eq_false_2 by done.
  rewrite ParseUint_go_digits by (done || unfold MaxUint64; lia).
  unfold MaxUint64, MaxInt64.
  destruct (Z.leb_spec (dec_value 0 (String c s)) 18446744073709551615);
    destruct (Z.leb_spec (dec_value 0 (String c s)) 9223372036854775807);
    try lia; try reflexivity.
  - by destruct (Z.leb_spec (2 ^ 63) (dec_value 0 (String c s))); [lia|].
  - by destruct (Z.leb_spec (2 ^ 63) (dec_value 0 (String c s))); [|lia].
Qed.

(** ** Lemmas: quoted values *)

Definition not_byte (b c : ascii) : bool := negb (bool_decide (c = b)).

Lemma str_rev_between b x :
  str_rev (String b (x +:+ String b "")) = String b (str_rev x +:+ String b "").
Proof. by rewrite str_rev_cons, str_rev_app. Qed.

(** A value between two copies of a byte that is not white space keeps them
    through [TrimSpace], and loses just them to [Trim]. *)
Lemma TrimSpace_between b x :
  is_ascii_byte b = true -> is_space_byte b = false ->
  TrimSpace (String b (x +:+ String b "")) = String b (x +:+ String b "").
Proof.
  intros Ha Hs.
  assert (Hl : forall t, space_len (String b t) = 0%nat).
  { intros t. clear x. revert Ha Hs. byte_cases b; try done; by destruct t as [|? [|? ?]]. }
  assert (Hr : forall t, rspace_len (String b t) = 0%nat).
  { intros t. clear x Hl. revert Ha Hs. byte_cases b; try done;
      intros _ _; destruct t as [|d [|e t]]; try done; unfold rspace_len, space2, space3;
      repeat (rewrite andb_false_r || cbn); try done; byte_cases d; try done; by byte_cases e. }
  unfold TrimSpace. cbn [trim_go]. rewrite Hl, str_rev_between.
  cbn [trim_go]. by rewrite Hr, str_rev_between, str_rev_involutive.
Qed.

Lemma trim_go_byte_none b s :
  str_forallb (not_byte b) s = true -> trim_go (byte_len b) 0 s = s.
Proof.
  destruct s as [|c s]; [done|]. cbn [str_forallb]. intros [Hc _]%andb_prop.
  cbn. unfold not_byte in Hc. apply negb_true_iff in Hc. by rewrite Hc.
Qed.

Lemma TrimByte_between b x :
  str_forallb (not_byte b) x = true -> TrimByte (String b (x +:+ String b "")) b = x.
Proof.
  intros Hx.
  assert (Hb : forall t, byte_len b (String b t) = 1%nat)
    by (intros t; cbn; by rewrite bool_decide_eq_true_2).
  unfold TrimByte. cbn [trim_go]. rewrite Hb.
  destruct x as [|c x].
  { change ("" +:+ String b "") with (String b ""). cbn [trim_go]. rewrite Hb. done. }
  assert (Hh : trim_go (byte_len b) 0 (String c x +:+ String b "") = String c x +:+ String b "").
  { rewrite str_app_cons. cbn [str_forallb] in Hx. apply andb_prop in Hx as [Hc _].
    cbn. unfold not_byte in Hc. apply negb_true_iff in Hc. by rewrite Hc. }
  rewrite Hh, str_rev_app. change (str_rev (String b "")) with (String b "").
  rewrite str_app_cons. cbn [trim_go]. rewrite Hb.
  change ("" +:+ str_rev (String c x)) with (str_rev (String c x)).
  rewrite trim_go_byte_none by (by rewrite str_forallb_rev). apply str_rev_involutive.
Qed.

(** ** Lemmas: the length of a decimal *)

Lemma dec_value_app a s t : dec_value a (s +:+ t) = dec_value (dec_value a s) t.
Proof. revert a. induction s as [|c s IH]; intros a; [done|]. rewrite str_app_cons. apply IH. Qed.

Lemma dec_go_length fuel n k :
  (n < 10 ^ N.of_nat (S k))%N -> (String.length (dec_go fuel n "") <= S k)%nat.
Proof.
  revert n k. induction fuel as [|f IH]; intros n k Hn; [cbn; lia|]. cbn [dec_go].
  destruct (N.ltb_spec n 10); [cbn; lia|]. rewrite dec_go_app, str_length_app. cbn.
  destruct k as [|k]; [cbn in Hn; lia|].
  enough (String.length (dec_go f (n / 10) "") <= S k)%nat by lia.
  apply IH. rewrite Nat2N.inj_succ, N.pow_succ_r' in Hn. apply N.Div0.div_lt_upper_bound. lia.
Qed.

Lemma dec_value_lt a s :
  str_forallb is_digit s = true -> dec_value a s < (a + 1) * 10 ^ slen s.
Proof.
  revert a. induction s as [|c s IH]; intros a Hs; cbn [dec_value]; [unfold slen; cbn; lia|].
  cbn [str_forallb] in Hs. apply andb_prop in Hs as [Hc Hs].
  assert (Z.of_N (digit_val c) <= 9) as H9
    by (unfold is_digit, byte_in in Hc; unfold digit_val; split_bool; rewrite !N.leb_le in *; lia).
  specialize (IH (a * 10 + Z.of_N (digit_val c)) Hs).
  replace (slen (String c s)) with (Z.succ (slen s)) by (unfold slen; cbn [String.length]; lia).
  rewrite Z.pow_succ_r by apply slen_nonneg.
  pose proof (Z.pow_nonneg 10 (slen s) ltac:(lia)). nia.
Qed.

Lemma FormatUint_value n : Z.of_N n <= MaxUint64 -> dec_value 0 (FormatUint n) = Z.of_N n.
Proof.
  intros Hn. pose proof (ParseUint_FormatUint n Hn) as H. unfold ParseUint in H.
  rewrite bool_decide_eq_false_2 in H by apply FormatUint_nonempty.
  rewrite ParseUint_go_digits in H by (apply FormatUint_digits || lia).
  destruct (_ <=? _); congruence.
Qed.

(** A number has as many digits as it needs. *)
Lemma FormatInt_length z k :
  0 <= z <= MaxUint64 -> z < 10 ^ Z.of_nat (S k) -> (k = O \/ 10 ^ Z.of_nat k <= z) ->
  String.length (FormatInt z) = S k /\ str_forallb is_digit (FormatInt z) = true /\
  dec_value 0 (FormatInt z) = z.
Proof.
  intros Hz Hlt Hk. unfold FormatInt. destruct (Z.ltb_spec z 0); [lia|].
  pose proof (FormatUint_digits (Z.to_N z)) as Hd.
  pose proof (FormatUint_value (Z.to_N z) ltac:(lia)) as Hv. rewrite Z2N.id in Hv by lia.
  split_and!; [|done|done]. apply Nat.le_antisymm.
  - apply dec_go_length. apply N2Z.inj_lt. rewrite N2Z.inj_pow, nat_N_Z. lia.
  - destruct Hk as [->|Hk].
    { pose proof (FormatUint_nonempty (Z.to_N z)). destruct (FormatUint _); [done|cbn; lia]. }
    pose proof (dec_value_lt 0 _ Hd) as Hb. rewrite Hv in Hb. apply Nat.lt_succ_r.
    apply Nat.nlt_ge. intros Hl. assert (slen (FormatUint (Z.to_N z)) <= Z.of_nat k) as Hl'
      by (unfold slen; lia).
    pose proof (Z.pow_le_mono_r 10 _ _ ltac:(lia) Hl'). lia.
Qed.

(** ** Lemmas: prefixes *)

Lemma span_app p a b :
  str_forallb p a = true ->
  match b with EmptyString => True | String c _ => p c = false end ->
  span p (a +:+ b) = (a, b).
Proof.
  intros Ha Hb. induction a as [|c a IH].
  { change ("" +:+ ?x) with x. destruct b as [|d b]; [done|]. cbn [span]. by rewrite Hb. }
  cbn [str_forallb] in Ha. apply andb_prop in Ha as [Hc Ha].
  rewrite str_app_cons. cbn [span]. by rewrite Hc, IH.
Qed.
