(* ===== verification/Utf8.v ===== *)
(** * UTF-8 (package unicode/utf8)

    Validity as an automaton over bytes, and the runes a string is read as, an
    invalid byte being replaced by U+FFFD. *)

From S2P Require Import Prelude GoStrings.

(** ** UTF-8 validity *)

(** Where the automaton stands: at a rune boundary, or with [n] continuation
    bytes to come, the next between [lo] and [hi]. *)
Inductive utf8_state : Type :=
| Boundary
| Continue (n : nat) (lo hi : N).

(** The acceptance table of package utf8 (RFC 3629: no overlong form, no
    surrogate, nothing past U+10FFFF). *)
Definition utf8_start (b : ascii) : option utf8_state :=
  if (b2n b <? 128)%N then Some Boundary
  else if byte_in 194 223 b then Some (Continue 0 128 191)
  else if byte_in 224 224 b then Some (Continue 1 160 191)
  else if byte_in 237 237 b then Some (Continue 1 128 159)
  else if byte_in 225 239 b then Some (Continue 1 128 191)
  else if byte_in 240 240 b then Some (Continue 2 144 191)
  else if byte_in 241 243 b then Some (Continue 2 128 191)
  else if byte_in 244 244 b then Some (Continue 2 128 143)
  else None.

Definition utf8_step (st : utf8_state) (b : ascii) : option utf8_state :=
  match st with
  | Boundary => utf8_start b
  | Continue n lo hi =>
      if byte_in lo hi b then
        match n with O => Some Boundary | S n => Some (Continue n 128 191) end
      else None
  end.

Fixpoint utf8_run (st : utf8_state) (s : string) : option utf8_state :=
  match s with
  | EmptyString => Some st
  | String b s' => st' ← utf8_step st b; utf8_run st' s'
  end.

(** [utf8.ValidString] *)
Definition ValidString (s : string) : bool :=
  match utf8_run Boundary s with Some Boundary => true | _ => false end.

(** The runes of a string: each valid sequence is one, each other byte becomes
    U+FFFD. *)
Definition rune_error : string := String "239" (String "191" (String "189" "")).

Fixpoint rune_width_go (st : utf8_state) (n : nat) (s : string) : option nat :=
  match s with
  | EmptyString => None
  | String b s' =>
      match utf8_step st b with
      | Some Boundary => Some (S n)
      | Some st' => rune_width_go st' (S n) s'
      | None => None
      end
  end.

Fixpoint runes_go (skip : nat) (s : string) : list string :=
  match s with
  | EmptyString => []
  | String b s' =>
      match skip with
      | S k => runes_go k s'
      | O =>
          match rune_width_go Boundary 0 s with
          | Some w => str_take w s :: runes_go (Nat.pred w) s'
          | None => rune_error :: runes_go 0 s'
          end
      end
  end.
Definition runes (s : string) : list string := runes_go 0 s.

(** [string([]rune(s))]: what package json makes of a string, too. *)
Definition to_valid (s : string) : string := Join (runes s) "".

(** ** Lemmas *)

Lemma utf8_run_app st s t :
  utf8_run st (s +:+ t) = (st' ← utf8_run st s; utf8_run st' t).
Proof.
  revert st. induction s as [|b s IH]; intros st; [done|].
  rewrite str_app_cons. cbn [utf8_run]. destruct (utf8_step st b); cbn; [apply IH|done].
Qed.

(** Every state the automaton reaches asks for continuation bytes. *)
Definition state_ok (st : utf8_state) : Prop :=
  match st with Boundary => True | Continue n lo hi => (n <= 2)%nat /\ (128 <= lo)%N /\ (hi <= 191)%N end.

Lemma utf8_step_ok st b st' : state_ok st -> utf8_step st b = Some st' -> state_ok st'.
Proof.
  destruct st as [|n lo hi]; cbn [utf8_step].
  - intros _. unfold utf8_start.
    repeat match goal with |- context [if ?c then _ else _] => destruct c end;
      intros [= <-]; cbn; lia.
  - intros (Hn & _ & _). destruct (byte_in lo hi b); [|done].
    destruct n; intros [= <-]; cbn; lia.
Qed.

Lemma utf8_run_ok st s st' : state_ok st -> utf8_run st s = Some st' -> state_ok st'.
Proof.
  revert st. induction s as [|b s IH]; intros st Hst; cbn [utf8_run].
  - by intros [= <-].
  - destruct (utf8_step st b) as [st1|] eqn:E; cbn; [|done].
    apply IH. by eapply utf8_step_ok.
Qed.

