(* ===== verification/Duration.v ===== *)
(** * Durations (package time)

    [time.Duration.String] and [time.ParseDuration], which config.go uses to write
    and read every duration of the configuration file. Fractions go through
    float64 in Go; the two roundings they meet are written out on integers. *)

From S2P Require Import Prelude GoErrors GoStrings.

(** ** Printing *)

(** The fraction of a duration: [digits] digits of [v], trailing zeros dropped,
    with their point, in front of the unit; and what is left of [v]. *)
Fixpoint fmtFrac (digits : nat) (v : Z) (print : bool) (acc : string) : string * Z :=
  match digits with
  | O => (if print then String "." acc else acc, v)
  | S n =>
      let d := v mod 10 in
      let print := print || negb (d =? 0) in
      fmtFrac n (v / 10) print (if print then String (digit_byte (Z.to_N d)) acc else acc)
  end.

Definition micro : string := String "194" (String "181" "s").

(** The text of a positive duration. *)
Definition duration_body (u : Z) : string :=
  if u <? Second then
    let '(digits, unit) :=
      if u <? 1000 then (0%nat, "ns")
      else if u <? 1000000 then (3%nat, micro) else (6%nat, "ms") in
    let '(frac, whole) := fmtFrac digits u false "" in
    FormatInt whole +:+ frac +:+ unit
  else
    let '(frac, secs) := fmtFrac 9 u false "" in
    let mins := secs / 60 in
    let hours := mins / 60 in
    (if 0 <? mins
     then (if 0 <? hours then FormatInt hours +:+ "h" else "") +:+ FormatInt (mins mod 60) +:+ "m"
     else "")
    +:+ FormatInt (secs mod 60) +:+ frac +:+ "s".

Definition Duration_String (d : Z) : string :=
  if d =? 0 then "0s"
  else if d <? 0 then "-" +:+ duration_body (Z.abs d) else duration_body (Z.abs d).

Example duration_strings :
  map Duration_String
    [0; 1; 1100; 2200000; 1500000000; 30 * Second; Minute; 90 * Minute; - Second;
     MinInt64; 100 * Hour]
  = ["0s"; "1ns"; "1.1" +:+ micro; "2.2ms"; "1.5s"; "30s"; "1m0s"; "1h30m0s"; "-1s";
     "-2562047h47m16.854775808s"; "100h0m0s"].
Proof. vm_compute. reflexivity. Qed.

(** ** float64 *)

(** The float64 nearest to the positive ratio [n/d], ties to even: a 53-bit
    mantissa and an exponent. The ratios met here are far from the ends of the
    exponent's range. *)
Definition round53 (n d : Z) : Z * Z :=
  let n := n * 2 ^ 120 in
  let e := Z.log2 (n / d) - 52 in
  let den := d * 2 ^ e in
  let q := n / den in
  let r := n mod den in
  ((if 2 * r <? den then q else if den <? 2 * r then q + 1 else if Z.even q then q else q + 1),
   e - 120).

(** The integer part of a float64. *)
Definition trunc53 (a : Z * Z) : Z :=
  if a.2 <? 0 then a.1 / 2 ^ (- a.2) else a.1 * 2 ^ a.2.

Definition mul53 (a b : Z * Z) : Z * Z :=
  let e := a.2 + b.2 in
  if e <? 0 then round53 (a.1 * b.1) (2 ^ (- e)) else round53 (a.1 * b.1 * 2 ^ e) 1.

(** [uint64(float64(f) * (float64(unit) / scale))], [scale] a power of ten that
    float64 holds exactly. *)
Definition fraction_of (f unit scale : Z) : Z :=
  trunc53 (mul53 (round53 f 1) (round53 unit scale)).

(** ** Parsing *)

(** [leadingInt]: the digits at the front; [None] when they pass 2^63. *)
Fixpoint leadingInt (x : Z) (s : string) : option (Z * string) :=
  match s with
  | String c r =>
      if is_digit c then
        if 2 ^ 63 / 10 <? x then None
        else
          let x := x * 10 + Z.of_N (digit_val c) in
          if 2 ^ 63 <? x then None else leadingInt x r
      else Some (x, s)
  | EmptyString => Some (x, s)
  end.

(** [leadingFraction]: digits beyond what int64 holds are dropped. *)
Fixpoint leadingFraction (x scale : Z) (overflow : bool) (s : string) : Z * Z * string :=
  match s with
  | String c r =>
      if is_digit c then
        if overflow then leadingFraction x scale true r
        else if MaxInt64 / 10 <? x then leadingFraction x scale true r
        else
          let y := x * 10 + Z.of_N (digit_val c) in
          if 2 ^ 63 <? y then leadingFraction x scale true r
          else leadingFraction y (scale * 10) false r
      else (x, scale, s)
  | EmptyString => (x, scale, s)
  end.

(** The unit: everything up to the next digit or point. *)
Definition is_unit_byte (c : ascii) : bool := negb (bool_decide (c = "."%char) || is_digit c).
Fixpoint span_unit (s : string) : string * string :=
  match s with
  | String c r =>
      if is_unit_byte c then let '(u, t) := span_unit r in (String c u, t) else ("", s)
  | EmptyString => ("", s)
  end.

(** "us", and the micro sign and the Greek mu in front of "s". *)
Definition unitMap : list (string * Z) :=
  [("ns", 1); ("us", 1000); (micro, 1000); (String "206" (String "188" "s"), 1000);
   ("ms", 1000000); ("s", Second); ("m", Minute); ("h", Hour)].
Definition unit_of (u : string) : option Z :=
  option_map snd (List.find (fun p => bool_decide (p.1 = u)) unitMap).

Definition invalid_duration (orig : string) : error :=
  Errorf "time: invalid duration %q" [OStr orig].

(** One turn of the loop: a number and its unit, in nanoseconds. *)
Definition parse_component (orig s : string) : res (Z * string) :=
  match s with
  | EmptyString => Fail (invalid_duration orig)
  | String c _ =>
      if negb (bool_decide (c = "."%char) || is_digit c) then Fail (invalid_duration orig)
      else
        match leadingInt 0 s with
        | None => Fail (invalid_duration orig)
        | Some (v, s1) =>
            let pre := negb (String.length s1 =? String.length s)%nat in
            let '(f, scale, s2, post) :=
              match s1 with
              | String "." r =>
                  let '(f, scale, r') := leadingFraction 0 1 false r in
                  (f, scale, r', negb (String.length r' =? String.length r)%nat)
              | _ => (0, 1, s1, false)
              end in
            if negb pre && negb post then Fail (invalid_duration orig)
            else
              let '(u, rest) := span_unit s2 in
              if bool_decide (u = "") then
                Fail (Errorf "time: missing unit in duration %q" [OStr orig])
              else
                match unit_of u with
                | None => Fail (Errorf "time: unknown unit %q in duration %q" [OStr u; OStr orig])
                | Some unit =>
                    if 2 ^ 63 / unit <? v then Fail (invalid_duration orig)
                    else
                      let v := v * unit in
                      let v := if 0 <? f then v + fraction_of f unit scale else v in
                      if 2 ^ 63 <? v then Fail (invalid_duration orig) else Ok (v, rest)
                end
        end
  end.

(** The loop, whose sum is a uint64; every turn consumes a byte, so the length is fuel enough. *)
Fixpoint parse_components (fuel : nat) (orig s : string) (d : Z) : res Z :=
  match s with
  | EmptyString => Ok d
  | _ =>
      match fuel with
      | O => Fail (invalid_duration orig)
      | S fuel =>
          '(v, rest) ← parse_component orig s;
          let d := (d + v) mod 2 ^ 64 in
          if 2 ^ 63 <? d then Fail (invalid_duration orig)
          else parse_components fuel orig rest d
      end
  end.

Definition ParseDuration (s : string) : res Z :=
  let '(neg, r) :=
    match s with
    | String "-" r => (true, r)
    | String "+" r => (false, r)
    | _ => (false, s)
    end in
  if bool_decide (r = "0") then Ok 0
  else if bool_decide (r = "") then Fail (invalid_duration s)
  else
    d ← parse_components (String.length r) s r 0;
    if neg then Ok (wrap64 (- d))
    else if 2 ^ 63 - 1 <? d then Fail (invalid_duration s) else Ok d.

Example parse_durations :
  map (fun s => match ParseDuration s with Ok d => Some d | Fail _ => None end)
    ["0"; "30s"; "1.5h"; "1h15m30.918273645s"; "-2562047h47m16.854775808s"; ".5m"; "+5m";
     "30"; "9223372036854775808ns9223372036854775808ns"; "9223372036854775808ns"; "3000000h"; ""; "1h-2m"; "0.3333333333333333333h"; "1.s"]
  = [Some 0; Some (30 * Second); Some (90 * Minute); Some 4530918273645; Some MinInt64;
     Some (30 * Second); Some (5 * Minute); None; Some 0; None; None; None; None; Some 1200000000000;
     Some Second].
Proof. vm_compute. reflexivity. Qed.

(** ** Lemmas: numbers *)

(** The text does not start with a digit. *)
Definition no_digit_first (s : string) : bool :=
  match s with String c _ => negb (is_digit c) | EmptyString => true end.

Lemma leadingInt_digits ds x rest :
  0 <= x -> str_forallb is_digit ds = true -> no_digit_first rest = true ->
  dec_value x ds <= 2 ^ 63 -> leadingInt x (ds +:+ rest) = Some (dec_value x ds, rest).
Proof.
  revert x. induction ds as [|c ds IH]; intros x Hx Hd Hr Hv.
  - change ("" +:+ rest) with rest. destruct rest as [|c rest]; [done|]. cbn in Hr |- *.
    by apply negb_true_iff in Hr as ->.
  - cbn [str_forallb] in Hd. apply andb_prop in Hd as [Hc Hd]. rewrite str_app_cons.
    cbn [leadingInt dec_value] in *. rewrite Hc.
    pose proof (dec_value_ge (x * 10 + Z.of_N (digit_val c)) ds ltac:(lia)) as Hge.
    destruct (Z.ltb_spec (2 ^ 63 / 10) x); [div_lia|]. cbv zeta.
    destruct (Z.ltb_spec (2 ^ 63) (x * 10 + Z.of_N (digit_val c))); [lia|].
    apply IH; [lia|done..].
Qed.

Lemma leadingFraction_digits ds x scale rest :
  0 <= x -> str_forallb is_digit ds = true -> no_digit_first rest = true ->
  dec_value x ds <= MaxInt64 ->
  leadingFraction x scale false (ds +:+ rest) = (dec_value x ds, scale * 10 ^ slen ds, rest).
Proof.
  unfold MaxInt64.
  revert x scale. induction ds as [|c ds IH]; intros x scale Hx Hd Hr Hv.
  - change ("" +:+ rest) with rest. replace (scale * 10 ^ slen "") with scale
      by (change (slen "") with 0; lia).
    destruct rest as [|c rest]; [done|]. cbn in Hr |- *. by apply negb_true_iff in Hr as ->.
  - cbn [str_forallb] in Hd. apply andb_prop in Hd as [Hc Hd]. rewrite str_app_cons.
    cbn [leadingFraction dec_value] in *. rewrite Hc. unfold MaxInt64.
    pose proof (dec_value_ge (x * 10 + Z.of_N (digit_val c)) ds ltac:(lia)) as Hge.
    destruct (Z.ltb_spec (9223372036854775807 / 10) x); [div_lia|]. cbv zeta.
    destruct (Z.ltb_spec (2 ^ 63) (x * 10 + Z.of_N (digit_val c))); [lia|].
    rewrite IH; [|lia|done..]. f_equal. f_equal.
    replace (slen (String c ds)) with (Z.succ (slen ds)) by (unfold slen; cbn [String.length]; lia).
    rewrite Z.pow_succ_r by apply slen_nonneg. lia.
Qed.

(** ** Lemmas: the fraction *)

(** The digits [fmtFrac] writes: as many as are needed, or all when something
    is already written behind them. *)
Lemma fmtFrac_spec digits v print acc :
  0 <= v -> (print = false -> acc = "") ->
  let '(fr, w) := fmtFrac digits v print acc in
  w = v / 10 ^ Z.of_nat digits /\
  ((print = false /\ v mod 10 ^ Z.of_nat digits = 0 /\ fr = "") \/
   exists ds, fr = String "." (ds +:+ acc) /\ str_forallb is_digit ds = true /\
     slen ds <= Z.of_nat digits /\ (print = true -> slen ds = Z.of_nat digits) /\
     (print = false -> v mod 10 ^ Z.of_nat digits <> 0) /\
     dec_value 0 ds * 10 ^ (Z.of_nat digits - slen ds) = v mod 10 ^ Z.of_nat digits).
Proof.
  revert v print acc. induction digits as [|n IH]; intros v print acc Hv Hacc; cbn [fmtFrac].
  { change (10 ^ Z.of_nat 0) with 1. rewrite Z.div_1_r, Z.mod_1_r. split; [done|].
    destruct print; [right; exists ""; split_and!; done || reflexivity || discriminate|left; auto]. }
  set (d := v mod 10). set (print' := print || negb (d =? 0)).
  specialize (IH (v / 10) print' (if print' then String (digit_byte (Z.to_N d)) acc else acc)
                ltac:(div_lia)).
  destruct (fmtFrac n _ _ _) as [fr w]. destruct IH as [Hw IH].
  { subst print'. destruct print; [done|]. cbn [orb]. by destruct (negb _); [|auto]. }
  assert (Hpow : 10 ^ Z.of_nat (S n) = 10 * 10 ^ Z.of_nat n)
    by (rewrite Nat2Z.inj_succ, Z.pow_succ_r; lia).
  pose proof (Z.pow_pos_nonneg 10 (Z.of_nat n) ltac:(lia) ltac:(lia)) as Hpos.
  assert (Hmod : v mod 10 ^ Z.of_nat (S n) = d + 10 * ((v / 10) mod 10 ^ Z.of_nat n))
    by (rewrite Hpow; unfold d; by apply Z.rem_mul_r).
  split; [rewrite Hw, Hpow, Z.div_div by lia; done|]. rewrite Hmod.
  assert (0 <= d < 10) as Hd by (unfold d; div_lia).
  destruct print' eqn:Hp'; subst print'.
  - destruct IH as [(? & _)|(ds & -> & Hds & _ & Hlen & _ & Hval)]; [done|]. specialize (Hlen eq_refl).
    destruct (digit_byte_digit (Z.to_N d)) as [Hdig Hdv]; [lia|].
    right. exists (ds +:+ String (digit_byte (Z.to_N d)) ""). split_and!.
    + by rewrite str_app_assoc.
    + rewrite str_forallb_app, Hds. cbn. by rewrite Hdig.
    + rewrite slen_app, Hlen. change (slen (String _ "")) with 1. lia.
    + intros _. rewrite slen_app, Hlen. change (slen (String _ "")) with 1. lia.
    + intros ->. cbn [orb] in Hp'. apply negb_true_iff, Z.eqb_neq in Hp'.
      pose proof (Z.mod_pos_bound (v / 10) (10 ^ Z.of_nat n) ltac:(lia)). lia.
    + rewrite dec_value_app, slen_app, Hlen. cbn [dec_value]. rewrite Hdv.
      change (slen (String _ "")) with 1.
      replace (Z.of_nat (S n) - (Z.of_nat n + 1)) with 0 by lia.
      rewrite Hlen, Z.sub_diag in Hval. lia.
  - apply orb_false_iff in Hp' as [-> Hz]. apply negb_false_iff, Z.eqb_eq in Hz.
    destruct IH as [(_ & Hz' & ->)|(ds & -> & Hds & Hlen & _ & Hnz & Hval)].
    + left. split_and!; [done|lia|done].
    + right. exists ds. split_and!; [done|done|lia|done|intros _; specialize (Hnz eq_refl); lia|].
      rewrite Nat2Z.inj_succ, Z.sub_succ_l, Z.pow_succ_r by lia. lia.
Qed.

(** ** Lemmas: float64 on what it holds exactly *)

Lemma round53_exact n d :
  0 < n < 2 ^ 53 -> 0 < d ->
  round53 (n * d) d = (n * 2 ^ (52 - Z.log2 n), Z.log2 n - 52).
Proof.
  intros Hn Hd. unfold round53. cbv zeta.
  assert (0 <= Z.log2 n <= 52) as Hl.
  { split; [apply Z.log2_nonneg|]. apply Z.lt_succ_r, Z.log2_lt_pow2; lia. }
  replace (n * d * 2 ^ 120) with (n * 2 ^ 120 * d) by lia. rewrite Z.div_mul by lia.
  rewrite Z.log2_mul_pow2 by lia.
  replace (120 + Z.log2 n - 52) with (Z.log2 n + 68) by lia.
  replace (n * 2 ^ 120 * d) with (n * 2 ^ (52 - Z.log2 n) * (d * 2 ^ (Z.log2 n + 68))).
  2:{ transitivity (n * d * (2 ^ (52 - Z.log2 n) * 2 ^ (Z.log2 n + 68))); [lia|].
      rewrite <- Z.pow_add_r by lia.
      replace (52 - Z.log2 n + (Z.log2 n + 68)) with 120 by lia. lia. }
  pose proof (Z.pow_pos_nonneg 2 (Z.log2 n + 68) ltac:(lia) ltac:(lia)).
  rewrite Z.div_mul, Z.mod_mul by nia.
  destruct (Z.ltb_spec (2 * 0) (d * 2 ^ (Z.log2 n + 68))); [|nia]. f_equal. lia.
Qed.

(** A fraction that is a whole number of nanoseconds is computed exactly. *)
Lemma fraction_exact f unit scale m :
  0 < f -> 0 < scale -> 0 < m -> unit = m * scale -> f * m < 2 ^ 53 ->
  fraction_of f unit scale = f * m.
Proof.
  intros Hf Hs Hm -> Hlt. unfold fraction_of.
  rewrite <- (Z.mul_1_r f) at 1. rewrite !round53_exact by nia. unfold mul53. cbn [fst snd].
  assert (forall z, 0 < z < 2 ^ 53 -> 0 <= Z.log2 z <= 52) as Hlog.
  { intros z Hz. split; [apply Z.log2_nonneg|]. apply Z.lt_succ_r, Z.log2_lt_pow2; lia. }
  pose proof (Hlog f ltac:(nia)) as Hlf. pose proof (Hlog m ltac:(nia)) as Hlm.
  pose proof (Hlog (f * m) ltac:(nia)) as Hlp.
  pose proof (Z.log2_mul_below f m Hf Hm) as Hle.
  destruct (Z.ltb_spec (Z.log2 f - 52 + (Z.log2 m - 52)) 0); [|lia].
  replace (f * 2 ^ (52 - Z.log2 f) * (m * 2 ^ (52 - Z.log2 m)))
    with (f * m * 2 ^ (- (Z.log2 f - 52 + (Z.log2 m - 52)))).
  2:{ transitivity (f * m * (2 ^ (52 - Z.log2 f) * 2 ^ (52 - Z.log2 m))); [|lia].
      rewrite <- Z.pow_add_r by lia. do 2 f_equal. lia. }
  rewrite round53_exact by (try apply Z.pow_pos_nonneg; nia). unfold trunc53. cbn [fst snd].
  destruct (Z.ltb_spec (Z.log2 (f * m) - 52) 0).
  - replace (- (Z.log2 (f * m) - 52)) with (52 - Z.log2 (f * m)) by lia.
    apply Z.div_mul. pose proof (Z.pow_pos_nonneg 2 (52 - Z.log2 (f * m))). lia.
  - replace (Z.log2 (f * m)) with 52 by lia. cbn. lia.
Qed.

(** ** Lemmas: one component *)

Definition unit_text (u : string) : Prop :=
  u <> "" /\ str_forallb is_unit_byte u = true.

Lemma span_unit_app u rest :
  str_forallb is_unit_byte u = true ->
  match rest with String c _ => is_unit_byte c = false | EmptyString => True end ->
  span_unit (u +:+ rest) = (u, rest).
Proof.
  intros Hu Hr. induction u as [|c u IH].
  - change ("" +:+ rest) with rest. destruct rest as [|c rest]; [done|]. cbn. by rewrite Hr.
  - cbn [str_forallb] in Hu. apply andb_prop in Hu as [Hc Hu]. rewrite str_app_cons.
    cbn [span_unit]. by rewrite Hc, (IH Hu).
Qed.

Lemma unit_no_digit u rest : unit_text u -> no_digit_first (u +:+ rest) = true.
Proof.
  intros [Hne Hu]. destruct u as [|c u]; [done|]. rewrite str_app_cons. cbn [str_forallb no_digit_first] in *.
  apply andb_prop in Hu as [Hc _]. unfold is_unit_byte in Hc.
  by apply negb_true_iff, orb_false_iff in Hc as [_ ->].
Qed.

Lemma unit_no_point c u : str_forallb is_unit_byte (String c u) = true -> c <> "."%char.
Proof. cbn. intros [Hc _]%andb_prop ->. done. Qed.

Lemma length_app_ne (s t : string) :
  s <> "" -> negb (String.length t =? String.length (s +:+ t))%nat = true.
Proof.
  intros Hs. rewrite str_length_app. destruct s; [done|].
  apply negb_true_iff, Nat.eqb_neq. cbn. lia.
Qed.

(** A fraction in front of a unit, and the nanoseconds it is worth. *)
Inductive frac_text (unit : Z) : string -> Z -> Prop :=
| frac_none : frac_text unit "" 0
| frac_some ds m :
    ds <> "" -> str_forallb is_digit ds = true -> unit = m * 10 ^ slen ds -> 0 < m ->
    0 < dec_value 0 ds -> dec_value 0 ds * m < 2 ^ 53 ->
    frac_text unit (String "." ds) (dec_value 0 ds * m).

Definition unit_end (rest : string) : Prop :=
  match rest with String c _ => is_unit_byte c = false | EmptyString => True end.

Lemma parse_component_text orig n fr fv u unit rest :
  0 <= n -> frac_text unit fr fv -> unit_text u -> unit_of u = Some unit -> 0 < unit ->
  unit_end rest -> n * unit + fv <= 2 ^ 63 ->
  parse_component orig (FormatInt n +:+ fr +:+ u +:+ rest) = Ok (n * unit + fv, rest).
Proof.
  intros Hn Hfr Hu Hunit Hpos Hr Hmax.
  assert (0 <= fv) as Hfv by (destruct Hfr; nia).
  assert (n <= MaxUint64) as Hn64 by (unfold MaxUint64; nia).
  pose proof (unit_no_digit u rest Hu) as Hnd. destruct Hu as [Hune Hu].
  unfold FormatInt. destruct (Z.ltb_spec n 0); [lia|].
  pose proof (FormatUint_digits (Z.to_N n)) as Hd. pose proof (FormatUint_nonempty (Z.to_N n)) as Hne.
  pose proof (FormatUint_value (Z.to_N n) ltac:(lia)) as Hv. rewrite Z2N.id in Hv by lia.
  set (ds := FormatUint (Z.to_N n)) in *. clearbody ds.
  assert (no_digit_first (fr +:+ u +:+ rest) = true) as Hnf by (by destruct Hfr).
  pose proof (leadingInt_digits ds 0 (fr +:+ u +:+ rest) ltac:(lia) Hd Hnf ltac:(nia)) as Hlead.
  pose proof (length_app_ne ds (fr +:+ u +:+ rest) Hne) as Hlen.
  unfold parse_component. destruct (ds +:+ fr +:+ u +:+ rest) as [|c s] eqn:Hs.
  { by destruct ds. }
  assert (is_digit c = true) as Hc.
  { destruct ds as [|c' ds]; [done|]. rewrite str_app_cons in Hs. injection Hs as <- _.
    cbn in Hd. by apply andb_prop in Hd as [? _]. }
  rewrite Hc, orb_true_r. cbn [negb]. rewrite Hlead, Hv. rewrite Hlen. cbn [negb andb].
  assert ((2 ^ 63 / unit <? n) = false) as Hov
    by (apply Z.ltb_ge, Z.div_le_lower_bound; nia).
  destruct Hfr as [|fs m Hfne Hfd Hm Hm0 Hf0 Hf53].
  - change ("" +:+ u +:+ rest) with (u +:+ rest).
    assert (match u +:+ rest with
            | String "." r => let '(f, scale, r') := leadingFraction 0 1 false r in
                              (f, scale, r', negb (String.length r' =? String.length r)%nat)
            | _ => (0, 1, u +:+ rest, false)
            end = (0, 1, u +:+ rest, false)) as ->.
    { destruct u as [|c' u]; [done|]. apply unit_no_point in Hu. rewrite str_app_cons.
      by byte_cases c'. }
    rewrite span_unit_app by done. rewrite bool_decide_eq_false_2, Hunit by done. rewrite Hov.
    cbv zeta. cbn [Z.ltb Z.compare]. rewrite Z.add_0_r in *.
    by destruct (Z.ltb_spec (2 ^ 63) (n * unit)); [lia|].
  - change ((String "." fs) +:+ u +:+ rest) with (String "." (fs +:+ u +:+ rest)). cbv iota.
    rewrite leadingFraction_digits by (done || unfold MaxInt64; nia).
    rewrite span_unit_app by done. rewrite bool_decide_eq_false_2, Hunit by done. rewrite Hov.
    cbv zeta. destruct (Z.ltb_spec 0 (dec_value 0 fs)); [|lia].
    rewrite (fraction_exact _ unit _ m) by (done || lia || (try apply Z.pow_pos_nonneg; pose proof (slen_nonneg fs); lia)).
    by destruct (Z.ltb_spec (2 ^ 63) (n * unit + dec_value 0 fs * m)); [lia|].
Qed.

Lemma parse_components_step fuel orig s rest v d :
  s <> "" -> parse_component orig s = Ok (v, rest) -> 0 <= d -> 0 <= v -> d + v <= 2 ^ 63 ->
  parse_components (S fuel) orig s d = parse_components fuel orig rest (d + v).
Proof.
  intros Hs Hc Hd Hv Hmax. destruct s as [|c s]; [done|]. cbn [parse_components].
  rewrite Hc. cbn [mbind res_bind]. cbv zeta. rewrite Z.mod_small by lia.
  by destruct (Z.ltb_spec (2 ^ 63) (d + v)); [lia|].
Qed.

(** ** The round trip *)

(** [fmtFrac], as a fraction in front of its unit. *)
Lemma fmtFrac_text digits u unit :
  0 <= u -> unit = 10 ^ Z.of_nat digits -> (digits <= 9)%nat ->
  let '(fr, w) := fmtFrac digits u false "" in
  w = u / unit /\ frac_text unit fr (u mod unit).
Proof.
  intros Hu Hunit Hd. pose proof (fmtFrac_spec digits u false "" Hu (fun _ => eq_refl)) as H.
  destruct (fmtFrac digits u false "") as [fr w]. rewrite <- Hunit in H. destruct H as [Hw H].
  split; [done|]. destruct H as [(_ & Hz & ->)|(ds & -> & Hds & Hlen & _ & Hnz & Hval)].
  { rewrite Hz. constructor. }
  specialize (Hnz eq_refl). rewrite str_app_nil_r, <- Hval.
  pose proof (slen_nonneg ds) as Hs.
  pose proof (Z.pow_pos_nonneg 10 (Z.of_nat digits - slen ds) ltac:(lia) ltac:(lia)) as Hm.
  pose proof (Z.mod_pos_bound u unit) as Hb. rewrite Hunit in Hb at 1.
  pose proof (Z.pow_le_mono_r 10 (Z.of_nat digits) 9 ltac:(lia) ltac:(lia)) as H9.
  assert (u mod unit < 2 ^ 53) as H53 by (rewrite Hunit in *; lia).
  constructor; [|done| |lia| |].
  - intros ->. cbn [dec_value] in Hval. lia.
  - rewrite Hunit, <- Z.pow_add_r by lia. f_equal. lia.
  - pose proof (dec_value_ge 0 ds ltac:(lia)). nia.
  - lia.
Qed.

Lemma parse_components_nil fuel orig d : parse_components fuel orig "" d = Ok d.
Proof. by destruct fuel. Qed.

Lemma number_front n rest :
  0 <= n -> exists c s, FormatInt n +:+ rest = String c s /\ is_digit c = true.
Proof.
  intros Hn. unfold FormatInt. destruct (Z.ltb_spec n 0); [lia|].
  pose proof (FormatUint_digits (Z.to_N n)) as Hd. pose proof (FormatUint_nonempty (Z.to_N n)).
  destruct (FormatUint (Z.to_N n)) as [|c s]; [done|]. rewrite str_app_cons. do 2 eexists.
  split; [done|]. cbn in Hd. by apply andb_prop in Hd as [? _].
Qed.

Lemma number_unit_end n rest : 0 <= n -> unit_end (FormatInt n +:+ rest).
Proof.
  intros Hn. destruct (number_front n rest Hn) as (c & s & -> & Hc). cbn. unfold is_unit_byte.
  by rewrite Hc, orb_true_r.
Qed.

(** A component in front, read off. *)
Lemma parse_front fuel orig n fr fv u unit rest d :
  0 <= n -> frac_text unit fr fv -> unit_text u -> unit_of u = Some unit -> 0 < unit ->
  unit_end rest -> 0 <= d -> d + (n * unit + fv) <= 2 ^ 63 ->
  parse_components (S fuel) orig (FormatInt n +:+ fr +:+ u +:+ rest) d =
  parse_components fuel orig rest (d + (n * unit + fv)).
Proof.
  intros Hn Hfr Hu Hunit Hpos Hr Hd Hmax.
  assert (0 <= fv) as Hfv by (destruct Hfr; nia).
  apply parse_components_step; [|apply parse_component_text; done || nia|lia|nia|lia].
  destruct (number_front n (fr +:+ u +:+ rest) Hn) as (c & s & -> & _). done.
Qed.

Lemma parse_last fuel orig n fr fv u unit d :
  0 <= n -> frac_text unit fr fv -> unit_text u -> unit_of u = Some unit -> 0 < unit ->
  0 <= d -> d + (n * unit + fv) <= 2 ^ 63 ->
  parse_components (S fuel) orig (FormatInt n +:+ fr +:+ u) d = Ok (d + (n * unit + fv)).
Proof.
  intros. rewrite <- (str_app_nil_r u), (parse_front fuel orig n fr fv u unit "" d) by done.
  apply parse_components_nil.
Qed.

Ltac unit_facts := repeat split; done || reflexivity || lia.

(** Minutes and seconds, in front of nothing. *)
Lemma parse_minutes orig secs fr nanos fuel d :
  frac_text Second fr nanos -> 0 <= nanos -> 0 <= d ->
  d + (secs / 60 mod 60 * (60 * Second) + (secs mod 60 * Second + nanos)) <= 2 ^ 63 ->
  parse_components (S (S fuel)) orig
    (FormatInt (secs / 60 mod 60) +:+ "m" +:+ FormatInt (secs mod 60) +:+ fr +:+ "s") d
  = Ok (d + (secs / 60 mod 60 * (60 * Second) + (secs mod 60 * Second + nanos))).
Proof.
  intros Hf Hn Hd Hmax.
  assert (unit_text "s" /\ unit_text "m") as (Hts & Htm) by unit_facts.
  assert (0 <= secs / 60 mod 60) by (apply Z.mod_pos_bound; lia).
  assert (0 <= secs mod 60) by (apply Z.mod_pos_bound; lia).
  change ("m" +:+ ?x) with ("" +:+ "m" +:+ x).
  rewrite (parse_front _ _ _ "" 0 "m" (60 * Second)); try done; unfold Second in *; try lia;
    [|constructor|by apply number_unit_end].
  rewrite (parse_last _ _ _ fr nanos "s" 1000000000); try done; try lia.
  f_equal. lia.
Qed.

(** What [duration_body] writes is read back, with fuel to spare. *)
Lemma parse_body orig u fuel :
  0 < u <= 2 ^ 63 -> parse_components (S (S (S fuel))) orig (duration_body u) 0 = Ok u.
Proof.
  intros Hu. unfold duration_body. destruct (Z.ltb_spec u Second) as [Hs|Hs].
  - assert (exists digits unit text,
      (if u <? 1000 then (0%nat, "ns") else if u <? 1000000 then (3%nat, micro) else (6%nat, "ms"))
      = (digits, text) /\ unit = 10 ^ Z.of_nat digits /\ (digits <= 9)%nat /\
      unit_text text /\ unit_of text = Some unit /\ 0 < unit)
      as (digits & unit & text & -> & Hunit & Hd & Ht & Hof & Hpos).
    { destruct (u <? 1000); [|destruct (u <? 1000000)];
        do 3 eexists; (split; [reflexivity|unit_facts]). }
    pose proof (fmtFrac_text digits u unit ltac:(lia) Hunit Hd) as Hf.
    destruct (fmtFrac digits u false "") as [fr w]. destruct Hf as [-> Hf].
    pose proof (Z.div_mod u unit ltac:(lia)) as Hdm.
    rewrite (parse_last _ _ (u / unit) fr (u mod unit) text unit 0); try done; try lia.
    + f_equal. lia.
    + apply Z.div_pos; lia.
  - pose proof (fmtFrac_text 9 u Second ltac:(lia) eq_refl ltac:(lia)) as Hf.
    destruct (fmtFrac 9 u false "") as [fr secs]. destruct Hf as [-> Hf].
    pose proof (Z.div_mod u Second ltac:(unfold Second; lia)) as Hdm.
    assert (0 <= u mod Second) as Hm0 by (apply Z.mod_pos_bound; unfold Second; lia).
    set (secs := u / Second) in *. assert (0 < secs) as Hsecs by (unfold secs, Second in *; div_lia).
    unfold Second in Hdm.
    assert (unit_text "s" /\ unit_text "m" /\ unit_text "h") as (Hts & Htm & Hth) by unit_facts.
    cbv zeta. destruct (Z.ltb_spec 0 (secs / 60)) as [Hmin|Hmin].
    2:{ change ("" +:+ ?x) with x.
        rewrite (parse_last _ _ (secs mod 60) fr (u mod Second) "s" Second 0); try done;
          unfold Second in *; try div_lia. f_equal. div_lia. }
    rewrite !str_app_assoc.
    pose proof (fun f d => parse_minutes orig secs fr (u mod Second) f d Hf Hm0) as Hminsec.
    destruct (Z.ltb_spec 0 (secs / 60 / 60)) as [Hh|Hh].
    + rewrite !str_app_assoc. change ("h" +:+ ?x) with ("" +:+ "h" +:+ x).
      rewrite (parse_front _ _ _ "" 0 "h" (3600 * Second)); try done; unfold Second in *;
        try lia; [|constructor|apply number_unit_end; apply Z.mod_pos_bound; lia|div_lia].
      rewrite Hminsec by div_lia. f_equal. div_lia.
    + change ("" +:+ ?x) with x. rewrite Hminsec by (unfold Second in *; div_lia).
      f_equal. unfold Second in *. div_lia.
Qed.

(** ** Fuel *)

Lemma leadingInt_length x s v r :
  leadingInt x s = Some (v, r) -> (String.length r <= String.length s)%nat.
Proof.
  revert x. induction s as [|c s IH]; intros x; cbn [leadingInt]; [by intros [= _ <-]|].
  destruct (is_digit c); [|by intros [= _ <-]].
  destruct (_ <? x); [done|]. cbv zeta. destruct (_ <? _); [done|]. intros H%IH. cbn. lia.
Qed.

Lemma leadingFraction_length x scale o s f sc r :
  leadingFraction x scale o s = (f, sc, r) -> (String.length r <= String.length s)%nat.
Proof.
  revert x scale o. induction s as [|c s IH]; intros x scale o; cbn [leadingFraction];
    [by intros [= _ _ <-]|].
  destruct (is_digit c); [|by intros [= _ _ <-]]. cbv zeta.
  destruct o; [intros H%IH; cbn; lia|].
  destruct (_ <? x); [intros H%IH; cbn; lia|]. destruct (_ <? _); intros H%IH; cbn; lia.
Qed.

Lemma span_unit_length s u r :
  span_unit s = (u, r) -> String.length s = (String.length u + String.length r)%nat.
Proof.
  revert u r. induction s as [|c s IH]; intros u r; cbn [span_unit]; [by intros [= <- <-]|].
  destruct (is_unit_byte c); [|by intros [= <- <-]].
  destruct (span_unit s) as [u' r'] eqn:E. intros [= <- <-]. cbn. by rewrite (IH u' r').
Qed.

(** Every turn of the loop consumes its unit. *)
Lemma parse_component_consumes orig s v rest :
  parse_component orig s = Ok (v, rest) -> (String.length rest < String.length s)%nat.
Proof.
  unfold parse_component. destruct s as [|c s]; [done|]. destruct (negb _); [done|].
  destruct (leadingInt 0 (String c s)) as [[n s1]|] eqn:H1; [|done]. apply leadingInt_length in H1.
  cbv zeta.
  destruct (match s1 with
            | String "." r => let '(f, scale, r') := leadingFraction 0 1 false r in
                              (f, scale, r', negb (String.length r' =? String.length r)%nat)
            | _ => (0, 1, s1, false)
            end) as [[[f scale] s2] post] eqn:H2.
  assert (String.length s2 <= String.length s1)%nat as Hs2.
  { destruct s1 as [|c1 r]; [by injection H2 as _ _ <- _|].
    destruct (ascii_dec c1 ".") as [->|Hc].
    - destruct (leadingFraction 0 1 false r) as [[f' sc'] r'] eqn:E.
      apply leadingFraction_length in E. injection H2 as _ _ <- _. cbn. lia.
    - assert ((0, 1, String c1 r, false) = (f, scale, s2, post)) as H2'
        by (rewrite <- H2; byte_cases c1; done).
      by injection H2' as _ _ <- _. }
  destruct (_ && _); [done|]. destruct (span_unit s2) as [u r2] eqn:Hu.
  apply span_unit_length in Hu. case_bool_decide as Hne; [done|].
  destruct (unit_of u); [|done]. destruct (_ <? n); [done|]. destruct (_ <? _); [done|].
  intros [= _ <-]. destruct u; [done|]. cbn in *. lia.
Qed.

Lemma parse_components_fuel f1 f2 orig s d :
  (String.length s <= f1)%nat -> (String.length s <= f2)%nat ->
  parse_components f1 orig s d = parse_components f2 orig s d.
Proof.
  revert f2 s d. induction f1 as [|f1 IH]; intros [|f2] s d H1 H2;
    try (destruct s; [done|cbn in *; lia]).
  cbn [parse_components]. destruct s as [|c s]; [done|].
  destruct (parse_component orig (String c s)) as [[v rest]|] eqn:E; [|done].
  apply parse_component_consumes in E. cbn [mbind res_bind]. cbv zeta.
  destruct (_ <? _); [done|]. apply IH; cbn in *; lia.
Qed.

Lemma body_front u :
  0 < u -> exists c s, duration_body u = String c s /\ is_digit c = true /\ s <> "".
Proof.
  intros Hu. unfold duration_body.
  assert (forall n x y, 0 <= n -> x <> "" ->
    exists c s, FormatInt n +:+ y +:+ x = String c s /\ is_digit c = true /\ s <> "") as Hfront.
  { intros n x y Hn Hx. unfold FormatInt. destruct (Z.ltb_spec n 0); [lia|].
    pose proof (FormatUint_digits (Z.to_N n)) as Hd. pose proof (FormatUint_nonempty (Z.to_N n)).
    destruct (FormatUint (Z.to_N n)) as [|c s]; [done|]. rewrite str_app_cons. do 2 eexists.
    split; [done|]. cbn in Hd. apply andb_prop in Hd as [? _]. split; [done|].
    by destruct s, y, x. }
  destruct (u <? Second).
  - assert (exists digits text,
      (if u <? 1000 then (0%nat, "ns") else if u <? 1000000 then (3%nat, micro) else (6%nat, "ms"))
      = (digits, text) /\ text <> "") as (digits & text & -> & Ht).
    { destruct (u <? 1000); [|destruct (u <? 1000000)]; do 2 eexists; done. }
    pose proof (fmtFrac_spec digits u false "" ltac:(lia) (fun _ => eq_refl)) as H.
    destruct (fmtFrac digits u false "") as [fr w]. destruct H as [-> _].
    apply Hfront; [|done]. apply Z.div_pos; [lia|]. by apply Z.pow_pos_nonneg; lia.
  - destruct (fmtFrac 9 u false "") as [fr secs] eqn:E.
    pose proof (fmtFrac_spec 9 u false "" ltac:(lia) (fun _ => eq_refl)) as H. rewrite E in H.
    destruct H as [-> _]. cbv zeta.
    set (secs := u / _). assert (0 <= secs) by (unfold secs; apply Z.div_pos; lia).
    destruct (0 <? secs / 60); [destruct (0 <? secs / 60 / 60)|].
    + rewrite !str_app_assoc. apply (Hfront _ _ "h"); [div_lia|]. intros Hx.
      destruct (number_front (secs / 60 mod 60) ("m" +:+ FormatInt (secs mod 60) +:+ fr +:+ "s"))
        as (c & s & Heq & _); [div_lia|]. by rewrite Heq in Hx.
    + change ("" +:+ ?x) with x. rewrite !str_app_assoc.
      apply (Hfront _ _ "m"); [div_lia|]. intros Hx.
      destruct (number_front (secs mod 60) (fr +:+ "s")) as (c & s & Heq & _); [div_lia|].
      by rewrite Heq in Hx.
    + apply Hfront; [div_lia|done].
Qed.

(** [ParseDuration] reads back what [String] writes, for every duration. *)
Lemma ParseDuration_String d : in_int64 d -> ParseDuration (Duration_String d) = Ok d.
Proof.
  unfold in_int64, MinInt64, MaxInt64. intros Hd. unfold Duration_String.
  destruct (Z.eqb_spec d 0) as [->|Hnz]; [reflexivity|].
  destruct (body_front (Z.abs d) ltac:(lia)) as (c & s & Hb & Hc & Hs).
  assert (forall orig, parse_components (String.length (duration_body (Z.abs d))) orig
            (duration_body (Z.abs d)) 0 = Ok (Z.abs d)) as Hp.
  { intros orig. rewrite <- (parse_body orig (Z.abs d) (String.length (duration_body (Z.abs d)))) by lia.
    apply parse_components_fuel; lia. }
  assert (bool_decide (String c s = "0") = false) as H0
    by (apply bool_decide_eq_false; intros [= _ ?]; done).
  unfold ParseDuration. destruct (Z.ltb_spec d 0).
  - change ("-" +:+ ?x) with (String "-" x). cbv iota. rewrite Hb in *. rewrite H0.
    rewrite bool_decide_eq_false_2, Hp by done. cbn [mbind res_bind].
    f_equal. rewrite Z.abs_neq, Z.opp_involutive by lia. apply wrap64_id.
    unfold in_int64, MinInt64, MaxInt64. lia.
  - rewrite Hb in *.
    assert (match String c s with
            | String "-" r => (true, r)
            | String "+" r => (false, r)
            | _ => (false, String c s)
            end = (false, String c s)) as -> by (byte_cases c; done).
    rewrite H0, bool_decide_eq_false_2, Hp by done. cbn [mbind res_bind].
    destruct (Z.ltb_spec (2 ^ 63 - 1) (Z.abs d)); [lia|]. f_equal. lia.
Qed.

(** Digits without a unit: refused, unless they are a single zero. *)
Lemma leadingInt_all x s v r :
  str_forallb is_digit s = true -> leadingInt x s = Some (v, r) -> r = "".
Proof.
  revert x. induction s as [|c s IH]; intros x; cbn [leadingInt str_forallb]; [by intros _ [= _ <-]|].
  intros [Hc Hs]%andb_prop. rewrite Hc. repeat case_match; try done. by apply IH.
Qed.

Lemma ParseDuration_digits s :
  str_forallb is_digit s = true -> s <> "0" -> exists e, ParseDuration s = Fail e.
Proof.
  intros Hs H0. destruct s as [|c s]; [by eexists|].
  assert (is_digit c = true) as Hc by (cbn in Hs; by apply andb_prop in Hs as [? _]).
  assert (exists e, parse_component (String c s) (String c s) = Fail e) as [e He].
  { unfold parse_component. rewrite Hc, orb_true_r. cbn [negb].
    destruct (leadingInt 0 (String c s)) as [[v r]|] eqn:El; [|by eexists].
    apply leadingInt_all in El as ->; [|done]. cbv iota. cbn [String.length Nat.eqb negb andb].
    cbn [span_unit]. rewrite bool_decide_eq_true_2 by done. by eexists. }
  exists e. unfold ParseDuration.
  assert (match String c s with
          | String "-" r => (true, r)
          | String "+" r => (false, r)
          | _ => (false, String c s)
          end = (false, String c s)) as -> by (byte_cases c; done).
  rewrite !bool_decide_eq_false_2 by done. cbn [String.length parse_components].
  rewrite He. done.
Qed.
