(* ===== verification/Logging.v ===== *)
(** * Logging (logging.go)

    The process logger: its level and format from the configuration, and the
    records the program writes through it. What package slog does with a
    record is outside the model; a record keeps its level, its message and its
    attributes. *)

From S2P Require Import Prelude GoErrors.

Inductive slog_level : Set := LevelDebug | LevelInfo | LevelWarn | LevelError.

Inductive slog_format : Set := FormatText | FormatJSON.

(** An attribute value; a duration is logged as [d.String()] or as itself. *)
Inductive attr : Type :=
| AStr (s : string)
| AStrs (l : list string)
| AInt (z : Z)
| ADur (d : Z)
| ABool (b : bool)
| AErr (e : error).

Record log_record := LogRec {
  rec_level : slog_level;
  rec_msg : string;
  rec_attrs : list (string * attr);
}.

(** LogConfig of config.go *)
Record LogConfig := mkLogConfig { Level : string; Format : string }.

Record Logger := mkLogger { logger_level : slog_level; logger_format : slog_format }.

(** The switch of [newLogger] on the level. *)
Definition parse_level (level : string) : option slog_level :=
  if bool_decide (level = "debug") then Some LevelDebug
  else if bool_decide (level = "info") || bool_decide (level = "") then Some LevelInfo
  else if bool_decide (level = "warn") then Some LevelWarn
  else if bool_decide (level = "error") then Some LevelError
  else None.

(** The switch of [newLogger] on the format. *)
Definition parse_format (format : string) : option slog_format :=
  if bool_decide (format = "json") then Some FormatJSON
  else if bool_decide (format = "text") || bool_decide (format = "") then Some FormatText
  else None.

Definition newLogger (cfg : LogConfig) : res Logger :=
  match parse_level (Level cfg) with
  | None =>
      Fail (Errorf "mkqd: log.level %q is not one of debug, info, warn, error"
              [OStr (Level cfg)])
  | Some level =>
      match parse_format (Format cfg) with
      | None =>
          Fail (Errorf "mkqd: log.format %q is not one of text, json"
                  [OStr (Format cfg)])
      | Some h => Ok (mkLogger level h)
      end
  end.
