(* ===== verification/RetryAfter.v ===== *)
(** * Retry-After (retry_after.go)

    How a server's own instruction about when to come back travels: an executor
    parses the header ([ParseRetryAfter]), attaches the delay to its error
    ([RetryAfter]), and the hook the runtime registers with mkq takes it out
    again ([retryDelay]). Durations are nanoseconds in int64. *)

From S2P Require Import Prelude GoErrors GoStrings Logging.

Definition maxRetryAfter : Z := Hour.

Definition maxDeltaSeconds : Z := MaxInt64 / Second.

(** [RetryAfter(d, err)] *)
Definition RetryAfter (d : Z) (err : error) : error :=
  if d <=? 0 then err else RetryAfterError d (Some err).

(** [t.Sub(u)]: the difference of two instants, saturated to int64. *)
Definition time_Sub (t u : Z) : Z := Z.max MinInt64 (Z.min MaxInt64 (t - u)).

Section parse.
(** [http.ParseTime]: the instant an HTTP-date names. *)
Context (http_ParseTime : string -> option Z).

(** The HTTP-date half of [ParseRetryAfter]. *)
Definition parse_http_date (v : string) (now : Z) : Z * bool :=
  match http_ParseTime v with
  | Some t =>
      let d := time_Sub t now in
      if d <=? 0 then (0, false) else (d, true)
  | None => (0, false)
  end.

Definition ParseRetryAfter (v : string) (now : Z) : Z * bool :=
  match v with
  | EmptyString => (0, false)
  | String v0 _ =>
      match ParseInt v with
      | NumOk secs =>
          if secs <? 0 then (0, false)
          else if secs <=? maxDeltaSeconds then (wrap64 (secs * Second), true)
          else (MaxInt64, true)
      | NumRange _ =>
          if negb (bool_decide (v0 = "-"%char)) then (MaxInt64, true)
          else parse_http_date v now
      | NumSyntax => parse_http_date v now
      end
  end.
End parse.

(** mkq.BackoffContext, as far as the hook reads it. *)
Record BackoffContext := mkBackoffContext {
  bc_Err : option error;
  bc_JobID : string;
  bc_Name : string;
  bc_AttemptsMade : Z;
}.

(** [Runtime.retryDelay]: the delay and whether the hook speaks up, with the
    records it logs. *)
Definition retryDelay (bc : BackoffContext) : (Z * bool) * list log_record :=
  match errors_As_opt (bc_Err bc) with
  | None => ((0, false), [])
  | Some (After, _) =>
      let attrs :=
        [("job_id", AStr (bc_JobID bc)); ("queue", AStr (bc_Name bc));
         ("attempt", AInt (bc_AttemptsMade bc)); ("retry_after", ADur After)] in
      if After <? 0 then
        ((0, false), [LogRec LevelWarn "ignoring a negative Retry-After" attrs])
      else
        let '(d, capped) :=
          if maxRetryAfter <? After then (maxRetryAfter, true) else (After, false) in
        ((d, true),
         [if capped
          then LogRec LevelWarn "honouring Retry-After, capped"
                 (attrs ++ [("applied", ADur d); ("cap", ADur maxRetryAfter)])
          else LogRec LevelInfo "honouring Retry-After" attrs])
  end.

(** ** Lemmas *)

Lemma maxDeltaSeconds_spec s : s <= maxDeltaSeconds <-> s * Second <= MaxInt64.
Proof. unfold maxDeltaSeconds, MaxInt64, Second. div_lia. Qed.

Lemma RetryAfter_nonpos d e : d <= 0 -> RetryAfter d e = e.
Proof. unfold RetryAfter. intros H. by destruct (Z.leb_spec d 0); [|lia]. Qed.

Lemma RetryAfter_pos d e : 0 < d -> RetryAfter d e = RetryAfterError d (Some e).
Proof. unfold RetryAfter. intros H. by destruct (Z.leb_spec d 0); [lia|]. Qed.

Lemma retryDelay_found bc d oe :
  errors_As_opt (bc_Err bc) = Some (d, oe) ->
  fst (retryDelay bc) = if d <? 0 then (0, false) else (Z.min d maxRetryAfter, true).
Proof.
  intros H. unfold retryDelay. rewrite H.
  destruct (Z.ltb_spec d 0); [done|].
  destruct (Z.ltb_spec maxRetryAfter d); cbn; do 2 f_equal; lia.
Qed.

Lemma retryDelay_absent bc :
  errors_As_opt (bc_Err bc) = None -> retryDelay bc = ((0, false), []).
Proof. intros H. unfold retryDelay. by rewrite H. Qed.

#[export] Hint Rewrite RetryAfter_nonpos RetryAfter_pos using lia : mkqd.

Section parse_lemmas.
Context (http_ParseTime : string -> option Z).

Lemma parse_http_date_range v now d :
  parse_http_date http_ParseTime v now = (d, true) -> 0 < d <= MaxInt64.
Proof.
  unfold parse_http_date. intros H.
  destruct (http_ParseTime v) as [t|]; [|done].
  destruct (Z.leb_spec (time_Sub t now) 0); [done|].
  injection H as <-. unfold time_Sub in *. unfold MaxInt64, MinInt64 in *. lia.
Qed.

Lemma ParseRetryAfter_nonneg v now d :
  ParseRetryAfter http_ParseTime v now = (d, true) -> 0 <= d <= MaxInt64.
Proof.
  unfold ParseRetryAfter. destruct v as [|v0 v']; [done|].
  destruct (ParseInt (String v0 v')) as [secs| |z].
  - destruct (Z.ltb_spec secs 0); [done|].
    destruct (Z.leb_spec secs maxDeltaSeconds) as [Hle|].
    + intros [= <-]. apply maxDeltaSeconds_spec in Hle.
      unfold Second, MaxInt64 in *.
      rewrite wrap64_id; [|unfold in_int64, MinInt64, MaxInt64]; lia.
    + intros [= <-]. unfold MaxInt64. lia.
  - intros H%parse_http_date_range. lia.
  - destruct (negb (bool_decide (v0 = "-"%char))).
    + intros [= <-]. unfold MaxInt64. lia.
    + intros H%parse_http_date_range. lia.
Qed.
End parse_lemmas.

(** ** Properties *)

(** Whatever delay an error tree carries, the delay the runtime hands to mkq
    is never negative (which mkq would read as "never retry") and never above
    the one-hour cap. *)
Theorem retryDelay_bounded bc d :
  fst (retryDelay bc) = (d, true) -> 0 <= d <= maxRetryAfter.
Proof.
  destruct (errors_As_opt (bc_Err bc)) as [[After oe]|] eqn:HAs.
  - rewrite (retryDelay_found bc After oe HAs).
    destruct (Z.ltb_spec After 0); [done|]. intros [= <-].
    unfold maxRetryAfter, Hour, Minute, Second. lia.
  - by rewrite retryDelay_absent.
Qed.

Definition day_hint : BackoffContext :=
  mkBackoffContext
    (Some (Errorf "deliver: %w" [OWrap (RetryAfter (24 * Hour) (New "429"))])) "1" "q" 1.

Lemma retryDelay_bounded_witness :
  fst (retryDelay day_hint) = (Hour, true) /\ 0 <= Hour <= maxRetryAfter.
Proof.
  split; [vm_compute; reflexivity|].
  apply (retryDelay_bounded day_hint Hour). vm_compute. reflexivity.
Defined.

(** [retryDelay] speaks up exactly when [errors.As] finds a RetryAfterError
    with a non-negative delay, and then applies that delay cut to the cap; in
    every other case (nil error, no hint, hand-built negative delay) it
    declines with a zero delay. *)
Theorem retryDelay_exact bc :
  fst (retryDelay bc) =
  match errors_As_opt (bc_Err bc) with
  | Some (After, _) =>
      if bool_decide (0 <= After) then (Z.min After maxRetryAfter, true) else (0, false)
  | None => (0, false)
  end.
Proof.
  destruct (errors_As_opt (bc_Err bc)) as [[After oe]|] eqn:HAs.
  - rewrite (retryDelay_found bc After oe HAs).
    by destruct (Z.ltb_spec After 0); case_bool_decide; try lia.
  - by rewrite retryDelay_absent.
Qed.

(** A Retry-After made of digits alone, of any length, is read as its number
    of seconds saturated at the largest duration: the conversion to
    nanoseconds never wraps, so a huge value can never become a short or
    negative delay. *)
Theorem ParseRetryAfter_delta_seconds http_ParseTime v now :
  v <> "" -> str_forallb is_digit v = true ->
  ParseRetryAfter http_ParseTime v now = (Z.min (dec_value 0 v * Second) MaxInt64, true).
Proof.
  intros Hne Hd. unfold ParseRetryAfter.
  rewrite ParseInt_digits by done.
  destruct v as [|v0 v']; [done|].
  pose proof (dec_value_ge 0 (String v0 v') ltac:(lia)) as Hge.
  pose proof (maxDeltaSeconds_spec (dec_value 0 (String v0 v'))) as Hspec.
  set (n := dec_value 0 (String v0 v')) in *.
  destruct (Z.leb_spec n MaxInt64) as [Hn|Hn].
  - destruct (Z.ltb_spec n 0); [lia|].
    destruct (Z.leb_spec n maxDeltaSeconds) as [Hle|Hgt]; f_equal.
    + apply Hspec in Hle. rewrite wrap64_id; [lia|].
      unfold in_int64, MinInt64. unfold Second in *. lia.
    + lia.
  - rewrite bool_decide_eq_false_2; [|by intros ->].
    cbn [negb]. f_equal. unfold Second, MaxInt64 in *. lia.
Qed.

Lemma ParseRetryAfter_delta_seconds_witness :
  ParseRetryAfter (fun _ => None) "99999999999999999999" 0 = (MaxInt64, true).
Proof.
  apply (ParseRetryAfter_delta_seconds (fun _ => None) "99999999999999999999" 0);
    [discriminate|reflexivity].
Defined.

(** End to end: whatever text a server sends, attaching the parsed delay to
    an error that carries no other hint makes the runtime either keep the
    configured backoff or wait between one nanosecond and one hour; an
    accepted positive delay is applied as it is, cut to the cap. *)
Theorem Retry_After_pipeline http_ParseTime v now cause bc :
  errors_As_RetryAfter cause = None ->
  bc_Err bc =
    Some (match ParseRetryAfter http_ParseTime v now with
          | (d, true) => RetryAfter d cause
          | (_, false) => cause
          end) ->
  fst (retryDelay bc) = (0, false) \/
  exists d, ParseRetryAfter http_ParseTime v now = (d, true) /\ 0 < d /\
            fst (retryDelay bc) = (Z.min d maxRetryAfter, true).
Proof.
  intros Hcause Hbc.
  destruct (ParseRetryAfter http_ParseTime v now) as [d [|]] eqn:Hp.
  - apply ParseRetryAfter_nonneg in Hp. destruct (Z.eq_dec d 0) as [->|].
    + left. rewrite retryDelay_absent; [done|]. by rewrite Hbc.
    + right. exists d. split; [done|]. split; [lia|].
      rewrite (retryDelay_found bc d (Some cause)).
      * by destruct (Z.ltb_spec d 0); [lia|].
      * rewrite Hbc, RetryAfter_pos by lia. done.
  - left. rewrite retryDelay_absent; [done|]. by rewrite Hbc.
Qed.

Lemma Retry_After_pipeline_witness :
  fst (retryDelay (mkBackoffContext (Some (RetryAfter (900 * Second) (New "429"))) "1" "q" 1))
  = (0, false) \/
  exists d, ParseRetryAfter (fun _ => None) "900" 0 = (d, true) /\ 0 < d /\
    fst (retryDelay (mkBackoffContext (Some (RetryAfter (900 * Second) (New "429"))) "1" "q" 1))
    = (Z.min d maxRetryAfter, true).
Proof.
  apply (Retry_After_pipeline (fun _ => None) "900" 0 (New "429")); reflexivity.
Defined.

(** Attaching a delay is invisible to [errors.Is]: a permanent failure stays
    permanent, and a retryable one stays retryable, whatever the delay. *)
Theorem RetryAfter_transparent d e t : errors_Is (RetryAfter d e) t = errors_Is e t.
Proof. unfold RetryAfter. by destruct (d <=? 0). Qed.

(** The parser accepts text that is not a number: digits exceeding 64 bits
    followed by anything at all are read as "very long", because the
    range error is raised before the rest is looked at. *)
Theorem ParseRetryAfter_accepts_garbage_tail http_ParseTime ds tail now :
  str_forallb is_digit ds = true -> MaxUint64 < dec_value 0 ds ->
  ParseRetryAfter http_ParseTime (ds +:+ tail) now = (MaxInt64, true).
Proof.
  intros Hd Hov. destruct ds as [|c s]; [by cbn in Hov|].
  pose proof Hd as Hd'. cbn in Hd'. apply andb_prop in Hd' as [Hc _].
  unfold ParseRetryAfter. rewrite str_app_cons.
  rewrite (ParseInt_digit_start c (s +:+ tail) Hc). unfold ParseUint.
  rewrite bool_decide_eq_false_2 by done.
  change (String c (s +:+ tail)) with (String c s +:+ tail).
  rewrite ParseUint_go_overflow by (done || unfold MaxUint64; lia).
  change (2 ^ 63 <=? MaxUint64) with true. cbn.
  rewrite bool_decide_eq_false_2; [done|]. intros ->. done.
Qed.

Lemma ParseRetryAfter_accepts_garbage_tail_witness :
  ParseRetryAfter (fun _ => None) ("99999999999999999999" +:+ " soon, please") 0
  = (MaxInt64, true).
Proof.
  apply (ParseRetryAfter_accepts_garbage_tail (fun _ => None)); reflexivity.
Defined.

(** The wire forms of retry_after_test.go. *)
Example delta_zero : ParseRetryAfter (fun _ => None) "0" 0 = (0, true).
Proof. reflexivity. Qed.
Example delta_negative : ParseRetryAfter (fun _ => None) "-30" 0 = (0, false).
Proof. reflexivity. Qed.
Example delta_float : ParseRetryAfter (fun _ => None) "1.5" 0 = (0, false).
Proof. reflexivity. Qed.
Example delta_huge_negative :
  ParseRetryAfter (fun _ => None) "-99999999999999999999" 0 = (0, false).
Proof. reflexivity. Qed.
Example date_past :
  ParseRetryAfter (fun _ => Some 5) "Wed, 21 Oct 2026 06:00:00 GMT" 10 = (0, false).
Proof. reflexivity. Qed.
