(* ===== verification/NetAddr.v ===== *)
(** * IP addresses (packages net and net/netip)

    The address type the SSRF guard inspects, with the predicates of net/netip
    it calls and the textual parsers an address passes through first
    ([net.SplitHostPort], [netip.ParseAddr]). An address is its bits: a 32-bit
    or a 128-bit integer, the latter with an optional zone. *)

From S2P Require Import Prelude GoStrings.

(** ** The address type *)

Inductive Addr : Type :=
| AddrZero                               (* the zero Addr: not valid *)
| Addr4 (v : Z)
| Addr6 (v : Z) (zone : string).         (* zone "" means none *)

#[global] Instance Addr_eq_dec : EqDecision Addr.
Proof. solve_decision. Defined.

Definition addr_wf (ip : Addr) : Prop :=
  match ip with
  | AddrZero => True
  | Addr4 v => 0 <= v < 2 ^ 32
  | Addr6 v _ => 0 <= v < 2 ^ 128
  end.

Definition IsValid (ip : Addr) : bool :=
  match ip with AddrZero => false | _ => true end.

Definition Is4In6 (ip : Addr) : bool :=
  match ip with Addr6 v _ => Z.shiftr v 32 =? 65535 | _ => false end.

(** [Unmap] drops the zone with the mapping. *)
Definition Unmap (ip : Addr) : Addr :=
  match ip with
  | Addr6 v _ => if Is4In6 ip then Addr4 (v mod 2 ^ 32) else ip
  | _ => ip
  end.

(** The 16-bit group [i] of an IPv6 address, the byte [i] of an IPv4 one. *)
Definition v6u16 (v : Z) (i : Z) : Z := (v / 2 ^ (112 - 16 * i)) mod 2 ^ 16.
Definition v6byte0 (v : Z) : Z := (v / 2 ^ 120) mod 2 ^ 8.
Definition v4byte (v : Z) (i : Z) : Z := (v / 2 ^ (24 - 8 * i)) mod 2 ^ 8.

(** Equality with 0.0.0.0 or ::, zone included. *)
Definition IsUnspecified (ip : Addr) : bool :=
  bool_decide (ip = Addr4 0) || bool_decide (ip = Addr6 0 "").

Definition IsLoopback (ip : Addr) : bool :=
  match Unmap ip with
  | Addr4 v => v4byte v 0 =? 127
  | Addr6 v _ => v =? 1
  | AddrZero => false
  end.

Definition IsPrivate (ip : Addr) : bool :=
  match Unmap ip with
  | Addr4 v =>
      (v4byte v 0 =? 10)
      || (v4byte v 0 =? 172) && (Z.land (v4byte v 1) 240 =? 16)
      || (v4byte v 0 =? 192) && (v4byte v 1 =? 168)
  | Addr6 v _ => Z.land (v6byte0 v) 254 =? 252
  | AddrZero => false
  end.

Definition IsLinkLocalUnicast (ip : Addr) : bool :=
  match Unmap ip with
  | Addr4 v => (v4byte v 0 =? 169) && (v4byte v 1 =? 254)
  | Addr6 v _ => Z.land (v6u16 v 0) 65472 =? 65152
  | AddrZero => false
  end.

Definition IsLinkLocalMulticast (ip : Addr) : bool :=
  match Unmap ip with
  | Addr4 v => (v4byte v 0 =? 224) && (v4byte v 1 =? 0) && (v4byte v 2 =? 0)
  | Addr6 v _ => Z.land (v6u16 v 0) 65295 =? 65282
  | AddrZero => false
  end.

Definition IsInterfaceLocalMulticast (ip : Addr) : bool :=
  match ip with
  | Addr6 v _ => negb (Is4In6 ip) && (Z.land (v6u16 v 0) 65295 =? 65281)
  | _ => false
  end.

Definition IsMulticast (ip : Addr) : bool :=
  match Unmap ip with
  | Addr4 v => Z.land (v4byte v 0) 240 =? 224
  | Addr6 v _ => Z.shiftr v 120 =? 255
  | AddrZero => false
  end.

(** ** Prefixes *)

Record Prefix := mkPrefix { prefix_ip : Addr; prefix_bits : Z }.

(** [Prefix.Contains]: never across families, never for a zoned address. *)
Definition Prefix_Contains (p : Prefix) (ip : Addr) : bool :=
  match prefix_ip p, ip with
  | Addr4 b, Addr4 v => Z.shiftr (Z.lxor v b) (32 - prefix_bits p) =? 0
  | Addr6 b _, Addr6 v zone =>
      bool_decide (zone = "") && (Z.shiftr (Z.lxor v b) (128 - prefix_bits p) =? 0)
  | _, _ => false
  end.

(** ** Parsing *)

(** [parseIPv4Fields]: [prev_dot] holds at the start and after a dot, [digLen]
    and [val] describe the octet being read. *)
Fixpoint parseIPv4Fields (prev_dot : bool) (digLen val pos acc : Z) (s : string) : option Z :=
  match s with
  | EmptyString =>
      if pos <? 3 then None else Some (acc * 256 + val)
  | String c s' =>
      if is_digit c then
        if (digLen =? 1) && (val =? 0) then None
        else
          let val' := val * 10 + Z.of_N (digit_val c) in
          if 255 <? val' then None
          else parseIPv4Fields false (digLen + 1) val' pos acc s'
      else if bool_decide (c = "."%char) then
        if prev_dot || bool_decide (s' = "") then None
        else if pos =? 3 then None
        else parseIPv4Fields true 0 0 (pos + 1) (acc * 256 + val) s'
      else None
  end.

Definition parseIPv4 (s : string) : option Addr :=
  Addr4 <$> parseIPv4Fields true 0 0 0 0 s.

Definition hex_val (c : ascii) : option Z :=
  if is_digit c then Some (Z.of_N (digit_val c))
  else if byte_in 97 102 c then Some (Z.of_N (b2n c) - 87)
  else if byte_in 65 70 c then Some (Z.of_N (b2n c) - 55)
  else None.

(** The inner loop of [parseIPv6]: up to four hexadecimal digits; [None] for a
    fifth one, otherwise how many there were, their value and the rest. *)
Fixpoint parse_hex16 (off acc : Z) (s : string) : option (Z * Z * string) :=
  match s with
  | EmptyString => Some (off, acc, s)
  | String c s' =>
      match hex_val c with
      | None => Some (off, acc, s)
      | Some d => if 3 <? off then None else parse_hex16 (off + 1) (acc * 16 + d) s'
      end
  end.

(** 16-bit groups, most significant first. *)
Definition groups_val (gs : list Z) : Z := fold_left (fun a g => a * 65536 + g) gs 0.

(** The end of [parseIPv6]: expand the ellipsis, if any. *)
Definition finish_v6 (gs : list Z) (ellipsis : option nat) (rest zone : string) : option Addr :=
  if bool_decide (rest = "") then
    match ellipsis with
    | None => if (length gs =? 8)%nat then Some (Addr6 (groups_val gs) zone) else None
    | Some k =>
        if (length gs <? 8)%nat then
          Some (Addr6
                  (groups_val (take k gs ++ replicate (8 - length gs) 0 ++ drop k gs)) zone)
        else None
    end
  else None.

(** The outer loop of [parseIPv6]; eight groups at most, so [fuel] is 8. *)
Fixpoint parse_groups (fuel : nat) (gs : list Z) (ellipsis : option nat) (s zone : string)
  : option Addr :=
  match fuel with
  | O => finish_v6 gs ellipsis s zone
  | S f =>
      match parse_hex16 0 0 s with
      | None => None
      | Some (off, acc, rest) =>
          let gs' := gs ++ [acc] in
          if off =? 0 then None
          else match rest with
          | EmptyString => finish_v6 gs' ellipsis "" zone
          | String c rest' =>
              if bool_decide (c = "."%char) then
                if bool_decide (ellipsis = None) && negb (length gs =? 6)%nat then None
                else if (6 <? length gs)%nat then None
                else match parseIPv4Fields true 0 0 0 0 s with
                     | None => None
                     | Some v =>
                         finish_v6 (gs ++ [v / 65536; v mod 65536]) ellipsis "" zone
                     end
              else if negb (bool_decide (c = ":"%char)) then None
              else match rest' with
              | EmptyString => None
              | String c2 rest'' =>
                  if bool_decide (c2 = ":"%char) then
                    match ellipsis with
                    | Some _ => None
                    | None =>
                        let e := Some (length gs') in
                        if bool_decide (rest'' = "") then finish_v6 gs' e "" zone
                        else parse_groups f gs' e rest'' zone
                    end
                  else parse_groups f gs' ellipsis rest' zone
              end
          end
      end
  end.

Definition parseIPv6 (s : string) : option Addr :=
  let '(s, zone, has_zone) := Cut s "%" in
  if has_zone && bool_decide (zone = "") then None
  else match s with
       | String ":" (String ":" s') =>
           if bool_decide (s' = "") then Some (Addr6 0 zone)
           else parse_groups 8 [] (Some 0%nat) s' zone
       | _ => parse_groups 8 [] None s zone
       end.

(** [netip.ParseAddr]: the first of [.], [:] and [%] decides. *)
Fixpoint ParseAddr_scan (s whole : string) : option Addr :=
  match s with
  | EmptyString => None
  | String c s' =>
      if bool_decide (c = "."%char) then parseIPv4 whole
      else if bool_decide (c = ":"%char) then parseIPv6 whole
      else if bool_decide (c = "%"%char) then None
      else ParseAddr_scan s' whole
  end.
Definition ParseAddr (s : string) : option Addr := ParseAddr_scan s s.

(** [netip.MustParsePrefix] on the literals of the source; a literal that does
    not parse would panic at start-up. *)
Definition ParsePrefix (s : string) : option Prefix :=
  let '(addr, bits, _) := Cut s "/" in
  match ParseAddr addr, ParseUint bits with
  | Some ip, NumOk n => Some (mkPrefix ip n)
  | _, _ => None
  end.
Definition MustParsePrefix (s : string) : Prefix :=
  default (mkPrefix AddrZero 0) (ParsePrefix s).

(** Cut at the last occurrence of a byte. *)
Fixpoint CutLast (s : string) (sep : ascii) : option (string * string) :=
  match s with
  | EmptyString => None
  | String c s' =>
      match CutLast s' sep with
      | Some (a, b) => Some (String c a, b)
      | None => if bool_decide (c = sep) then Some (EmptyString, s') else None
      end
  end.

(** [net.SplitHostPort]; [None] is its error. *)
Definition SplitHostPort (hostport : string) : option (string * string) :=
  match CutLast hostport ":" with
  | None => None
  | Some (before, port) =>
      match hostport with
      | String "[" inner =>
          let '(host, after, found) := Cut inner "]" in
          if negb found then None
          else if negb (bool_decide (after = String ":" port)) then None
          else if has_byte inner "[" then None
          else if has_byte after "]" then None
          else Some (host, port)
      | _ =>
          if has_byte before ":" then None
          else if has_byte hostport "[" then None
          else if has_byte hostport "]" then None
          else Some (before, port)
      end
  end.

(** ** Printing *)

Fixpoint hex_go (fuel : nat) (n : N) (acc : string) : string :=
  match fuel with
  | O => acc
  | S f =>
      let d := (n mod 16)%N in
      let c := ascii_of_N (if (d <? 10)%N then 48 + d else 87 + d) in
      if (n <? 16)%N then String c acc else hex_go f (n / 16) (String c acc)
  end.

(** The eight groups of an IPv6 address. *)
Definition v6groups (v : Z) : list Z := map (v6u16 v) [0; 1; 2; 3; 4; 5; 6; 7].

(** The length of the run of zero groups at the front. *)
Fixpoint zero_run (gs : list Z) : nat :=
  match gs with
  | g :: gs' => if g =? 0 then S (zero_run gs') else 0
  | [] => 0
  end.

(** Start and length of the first longest run of at least two zero groups. *)
Fixpoint longest_zeros (i : nat) (gs : list Z) (best : nat * nat) : nat * nat :=
  match gs with
  | [] => best
  | _ :: gs' =>
      let best' := if (snd best <? zero_run gs)%nat then (i, zero_run gs) else best in
      longest_zeros (S i) gs' best'
  end.

Definition groups_string (gs : list Z) : string :=
  Join (map (fun g => hex_go 4 (Z.to_N g) "") gs) ":".

Definition v4_string (v : Z) : string :=
  Join (map (fun i => FormatInt (v4byte v i)) [0; 1; 2; 3]) ".".

(** [Addr.String] *)
Definition Addr_String (ip : Addr) : string :=
  match ip with
  | AddrZero => "invalid IP"
  | Addr4 v => v4_string v
  | Addr6 v zone =>
      let body :=
        if Is4In6 ip then "::ffff:" +:+ v4_string (v mod 2 ^ 32)
        else
          let gs := v6groups v in
          let '(start, len) := longest_zeros 0 gs (0, 1)%nat in
          if (1 <? len)%nat
          then groups_string (take start gs) +:+ "::" +:+ groups_string (drop (start + len) gs)
          else groups_string gs in
      if bool_decide (zone = "") then body else body +:+ "%" +:+ zone
  end.

Example print_v4 : Addr_String (Addr4 2130706433) = "127.0.0.1".
Proof. reflexivity. Qed.
Example print_parse :
  (fun s => Addr_String <$> ParseAddr s) <$>
    ["2606:4700:0:0:0:0:0:1111"; "::"; "1:0:0:2:0:0:0:3"; "::ffff:1.2.3.4"; "fe80::1%eth0"]
  = [Some "2606:4700::1111"; Some "::"; Some "1:0:0:2::3"; Some "::ffff:1.2.3.4";
     Some "fe80::1%eth0"].
Proof. vm_compute. reflexivity. Qed.

(** ** Lemmas: what parses is in range *)

Lemma parseIPv4Fields_range prev n val pos acc s v :
  0 <= val <= 255 -> 0 <= pos <= 3 -> 0 <= acc < 256 ^ pos ->
  parseIPv4Fields prev n val pos acc s = Some v -> 0 <= v < 2 ^ 32.
Proof.
  revert prev n val pos acc.
  induction s as [|c s IH]; intros prev n val pos acc Hval Hpos Hacc H;
    cbn -[Z.mul Z.add Z.pow] in H.
  { destruct (Z.ltb_spec pos 3); [done|]. injection H as <-.
    replace pos with 3 in Hacc by lia. change (256 ^ 3) with 16777216 in Hacc. lia. }
  destruct (is_digit c).
  { destruct (_ && _); [done|].
    destruct (Z.ltb_spec 255 (val * 10 + Z.of_N (digit_val c))); [done|].
    eapply IH, H; lia. }
  case_bool_decide; [|done].
  destruct (prev || _); [done|].
  destruct (Z.eqb_spec pos 3); [done|].
  eapply IH, H; [lia..|]. rewrite Z.pow_add_r by lia. lia.
Qed.

Lemma hex_val_range c d : hex_val c = Some d -> 0 <= d < 16.
Proof. byte_cases c; vm_compute; intros [=<-]; split; congruence. Qed.

Lemma parse_hex16_range off acc s off' acc' rest :
  0 <= off <= 4 -> 0 <= acc < 16 ^ off ->
  parse_hex16 off acc s = Some (off', acc', rest) -> 0 <= acc' < 2 ^ 16.
Proof.
  revert off acc. induction s as [|c s IH]; intros off acc Hoff Hacc H;
    cbn -[Z.mul Z.add Z.pow] in H.
  all: assert (Hle : 16 ^ off <= 16 ^ 4) by (apply Z.pow_le_mono_r; lia);
    change (16 ^ 4) with (2 ^ 16) in Hle.
  { injection H as <- <- <-. lia. }
  destruct (hex_val c) as [d|] eqn:Hd; [|injection H as <- <- <-; lia].
  apply hex_val_range in Hd.
  destruct (Z.ltb_spec 3 off); [done|].
  eapply IH, H; [lia|]. rewrite Z.pow_add_r by lia. lia.
Qed.

Definition group_ok (g : Z) : Prop := 0 <= g < 65536.

Lemma groups_val_range gs :
  Forall group_ok gs -> 0 <= groups_val gs < 65536 ^ Z.of_nat (length gs).
Proof.
  unfold groups_val.
  assert (Hgen : forall a k, 0 <= k -> 0 <= a < 65536 ^ k -> Forall group_ok gs ->
    0 <= fold_left (fun a g => a * 65536 + g) gs a < 65536 ^ (k + Z.of_nat (length gs))).
  { induction gs as [|g gs IH]; intros a k Hk Ha HF; cbn [fold_left length].
    - by rewrite Z.add_0_r.
    - inversion HF as [|?? Hg HF']; subst. unfold group_ok in Hg.
      replace (k + Z.of_nat (S (length gs))) with ((k + 1) + Z.of_nat (length gs)) by lia.
      apply IH; [lia| |done]. rewrite Z.pow_add_r by lia. lia. }
  intros HF. apply (Hgen 0 0); [lia|cbn; lia|done].
Qed.

Lemma finish_v6_range gs e rest zone ip :
  Forall group_ok gs -> finish_v6 gs e rest zone = Some ip -> addr_wf ip.
Proof.
  intros HF H. unfold finish_v6 in H.
  case_bool_decide; [|done]. destruct e as [k|].
  - destruct (Nat.ltb_spec (length gs) 8) as [Hlt|]; [|done]. injection H as <-.
    match goal with |- addr_wf (Addr6 (groups_val ?l) _) => set (l' := l) end.
    assert (Hl : length l' = 8%nat).
    { unfold l'. rewrite !length_app, length_replicate, length_take, length_drop. lia. }
    assert (HF' : Forall group_ok l').
    { unfold l'. rewrite !Forall_app. split; [by apply Forall_take|].
      split; [|by apply Forall_drop]. apply Forall_replicate. unfold group_ok. lia. }
    pose proof (groups_val_range l' HF') as Hr. rewrite Hl in Hr. exact Hr.
  - destruct (Nat.eqb_spec (length gs) 8) as [Hl|]; [|done]. injection H as <-.
    pose proof (groups_val_range gs HF) as Hr. rewrite Hl in Hr. exact Hr.
Qed.

Lemma parse_groups_range fuel gs e s zone ip :
  Forall group_ok gs -> parse_groups fuel gs e s zone = Some ip -> addr_wf ip.
Proof.
  revert gs e s. induction fuel as [|f IH]; intros gs e s HF H;
    [by eapply finish_v6_range|].
  cbn [parse_groups] in H.
  destruct (parse_hex16 0 0 s) as [[[off acc] rest]|] eqn:Hh; [|done].
  apply parse_hex16_range in Hh; [|lia..].
  assert (HF' : Forall group_ok (gs ++ [acc]))
    by (apply Forall_app; split; [done|]; constructor; [unfold group_ok; lia|done]).
  destruct (off =? 0); [done|]. cbv zeta in H.
  repeat (case_match; simplify_eq); try done;
    try (eapply IH; [|exact H]; done); try (eapply finish_v6_range; [|exact H]; done).
  eapply finish_v6_range; [|exact H]. apply Forall_app. split; [done|].
  match goal with Hp : parseIPv4Fields _ _ _ _ _ _ = Some _ |- _ =>
    apply parseIPv4Fields_range in Hp; [|lia|lia|cbn; lia] end.
  repeat constructor; div_lia.
Qed.

Lemma ParseAddr_wf s ip : ParseAddr s = Some ip -> addr_wf ip.
Proof.
  unfold ParseAddr. generalize s at 2. intros whole. revert whole.
  induction s as [|c s IH]; intros whole H; [done|]. cbn [ParseAddr_scan] in H.
  case_bool_decide.
  { unfold parseIPv4 in H.
    destruct (parseIPv4Fields true 0 0 0 0 whole) as [v|] eqn:Hp; [|done].
    injection H as <-. apply parseIPv4Fields_range in Hp; [done|lia|lia|cbn; lia]. }
  case_bool_decide.
  { unfold parseIPv6 in H. destruct (Cut whole "%") as [[body zone] hz].
    destruct (hz && bool_decide (zone = "")); [done|].
    repeat (case_match; simplify_eq); try done; try (by eapply parse_groups_range; [|exact H]). }
  case_bool_decide; [done|]. by eapply IH.
Qed.
