(* ===== verification/Safedial.v ===== *)
(** * The SSRF guard (internal/safedial/safedial.go)

    Which destinations an executor may connect to. The address tests are the
    source's; what they amount to is stated separately as a table of address
    ranges ([public_spec]) and proved equal. *)

From S2P Require Import Prelude GoErrors GoStrings NetAddr.

(** ** The source *)

Definition defaultTimeout : Z := 10 * Second.
Definition defaultKeepAlive : Z := 30 * Second.

Definition v4EmbeddingPrefixes : list Prefix :=
  map MustParsePrefix
    ["64:ff9b::/96"; "64:ff9b:1::/48"; "::/96"].

Definition blockedPrefixes : list Prefix :=
  map MustParsePrefix
    ["0.0.0.0/8"; "100.64.0.0/10"; "192.0.0.0/24"; "192.88.99.0/24";
     "192.0.2.0/24"; "198.18.0.0/15"; "198.51.100.0/24"; "203.0.113.0/24";
     "240.0.0.0/4"; "100::/64"; "2001::/32"; "2001:20::/28";
     "2001:db8::/32"; "2002::/16"].

(** The tests of [IsPublic] after the embedding loop. *)
Definition passes_filters (ip : Addr) : bool :=
  if IsUnspecified ip || IsLoopback ip || IsPrivate ip || IsLinkLocalUnicast ip
     || IsLinkLocalMulticast ip || IsInterfaceLocalMulticast ip || IsMulticast ip
  then false
  else negb (List.existsb (fun p => Prefix_Contains p ip) blockedPrefixes).

(** The IPv4 address in the low 32 bits ([b[12..15]] of [As16]). *)
Definition embedded_v4 (ip : Addr) : Addr :=
  match ip with
  | Addr6 v _ => Addr4 (v mod 2 ^ 32)
  | _ => ip
  end.

(** [IsPublic], with [fuel] calls left; [None] when they run out. *)
Fixpoint IsPublic_go (fuel : nat) (ip : Addr) : option bool :=
  match fuel with
  | O => None
  | S f =>
      if negb (IsValid ip) then Some false
      else
        let ip := Unmap ip in
        if List.existsb (fun p => Prefix_Contains p ip) v4EmbeddingPrefixes
        then IsPublic_go f (embedded_v4 ip)
        else Some (passes_filters ip)
  end.

(** The recursion goes from IPv6 to IPv4 and stops: two calls are enough. *)
Definition IsPublic (ip : Addr) : bool := default false (IsPublic_go 2 ip).

(** [CheckAddr]: [None] is a nil error. *)
Definition CheckAddr (address : string) : option error :=
  match SplitHostPort address with
  | None =>
      Some (Errorf "%w: cannot parse address %q: %v"
              [OWrap (Sentinel ErrBlocked); OStr address; OVal (New "address error")])
  | Some (host, _) =>
      match ParseAddr host with
      | None =>
          Some (Errorf "%w: %q is not an IP address"
                  [OWrap (Sentinel ErrBlocked); OStr host])
      | Some ip =>
          if negb (IsPublic ip)
          then Some (Errorf "%w: %s" [OWrap (Sentinel ErrBlocked); OStr (Addr_String ip)])
          else None
      end
  end.

(** net.Dialer, with its [Control] hook. *)
Record Dialer := mkDialer {
  Timeout : Z;
  KeepAlive : Z;
  Control : option (string -> option error);
}.

Definition control (address : string) : option error := CheckAddr address.

Definition NewDialer (allowPrivate : bool) : Dialer :=
  mkDialer defaultTimeout defaultKeepAlive
    (if negb allowPrivate then Some control else None).

(** What a dial does with the address it is about to connect to. *)
Definition dial_check (d : Dialer) (address : string) : option error :=
  match Control d with Some c => c address | None => None end.

(** ** The specification *)

Definition in_range (v : Z) (r : Z * Z) : bool := (fst r <=? v) && (v <=? snd r).

Definition ip4 (a b c d : Z) : Z := ((a * 256 + b) * 256 + c) * 256 + d.

(** The IPv4 ranges that are not the public internet, first and last address. *)
Definition special_v4 : list (Z * Z) :=
  [ (ip4 0 0 0 0, ip4 0 255 255 255);          (* "this network" *)
    (ip4 10 0 0 0, ip4 10 255 255 255);        (* private *)
    (ip4 100 64 0 0, ip4 100 127 255 255);     (* carrier-grade NAT *)
    (ip4 127 0 0 0, ip4 127 255 255 255);      (* loopback *)
    (ip4 169 254 0 0, ip4 169 254 255 255);    (* link-local, cloud metadata *)
    (ip4 172 16 0 0, ip4 172 31 255 255);      (* private *)
    (ip4 192 0 0 0, ip4 192 0 0 255);          (* IETF assignments *)
    (ip4 192 0 2 0, ip4 192 0 2 255);          (* documentation *)
    (ip4 192 88 99 0, ip4 192 88 99 255);      (* 6to4 relay anycast *)
    (ip4 192 168 0 0, ip4 192 168 255 255);    (* private *)
    (ip4 198 18 0 0, ip4 198 19 255 255);      (* benchmarking *)
    (ip4 198 51 100 0, ip4 198 51 100 255);    (* documentation *)
    (ip4 203 0 113 0, ip4 203 0 113 255);      (* documentation *)
    (ip4 224 0 0 0, ip4 255 255 255 255) ].    (* multicast, reserved *)

(** The IPv6 range with the given 16-bit start groups and prefix length. *)
Definition net6 (g0 g1 g2 bits : Z) : Z * Z :=
  let base := (g0 * 2 ^ 32 + g1 * 2 ^ 16 + g2) * 2 ^ 80 in
  (base, base + 2 ^ (128 - bits) - 1).

(** The IPv6 ranges that carry an IPv4 address in their low 32 bits. *)
Definition embedding_v6 : list (Z * Z) :=
  [ net6 100 65435 0 96; net6 100 65435 1 48; net6 0 0 0 96 ].

Definition special_v6 : list (Z * Z) :=
  [ net6 256 0 0 64;                           (* 100::/64 discard *)
    net6 8193 0 0 32;                          (* 2001::/32 Teredo *)
    net6 8193 32 0 28;                         (* 2001:20::/28 ORCHIDv2 *)
    net6 8193 3512 0 32;                       (* 2001:db8::/32 documentation *)
    net6 8194 0 0 16;                          (* 2002::/16 6to4 *)
    net6 64512 0 0 7;                          (* fc00::/7 unique local *)
    net6 65152 0 0 10;                         (* fe80::/10 link-local *)
    net6 65280 0 0 8 ].                        (* ff00::/8 multicast *)

Definition in_ranges (rs : list (Z * Z)) (v : Z) : bool := List.existsb (in_range v) rs.

Definition public_v4 (v : Z) : bool := negb (in_ranges special_v4 v).

Definition public_spec (ip : Addr) : bool :=
  match ip with
  | AddrZero => false
  | Addr4 v => public_v4 v
  | Addr6 v _ =>
      if in_range v (65535 * 2 ^ 32, 65536 * 2 ^ 32 - 1) || in_ranges embedding_v6 v
      then public_v4 (v mod 2 ^ 32)
      else negb (in_ranges special_v6 v)
  end.

(** ** Lemmas: masks and prefixes are ranges *)

Lemma land_topmask n k x :
  0 <= k -> 0 <= n -> 0 <= x < 2 ^ n ->
  Z.land x (Z.ldiff (Z.ones n) (Z.ones k)) = x / 2 ^ k * 2 ^ k.
Proof.
  intros Hk Hn Hx.
  rewrite !Z.ldiff_land, Z.land_assoc, Z.land_ones, Z.mod_small by lia.
  rewrite <- Z.ldiff_land, Z.ldiff_ones_r by lia.
  by rewrite Z.shiftr_div_pow2, Z.shiftl_mul_pow2 by lia.
Qed.

Lemma shiftr_lxor_range v b k :
  0 <= k -> b mod 2 ^ k = 0 ->
  (Z.shiftr (Z.lxor v b) k =? 0) = in_range v (b, b + 2 ^ k - 1).
Proof.
  intros Hk Hb. rewrite Z.shiftr_lxor, !Z.shiftr_div_pow2 by lia.
  assert (Hp : 0 < 2 ^ k) by lia.
  pose proof (Z.div_mod b (2 ^ k) ltac:(lia)) as Hbd. rewrite Hb in Hbd.
  pose proof (Z.div_mod v (2 ^ k) ltac:(lia)) as Hvd.
  pose proof (Z.mod_pos_bound v (2 ^ k) Hp) as Hm.
  unfold in_range. cbn [fst snd]. apply eq_true_iff_eq.
  rewrite Z.eqb_eq, andb_true_iff, !Z.leb_le, Z.lxor_eq_0_iff.
  split; intros H; nia.
Qed.

Lemma Contains4 b bits v :
  0 <= bits <= 32 -> b mod 2 ^ (32 - bits) = 0 ->
  Prefix_Contains (mkPrefix (Addr4 b) bits) (Addr4 v) =
  in_range v (b, b + 2 ^ (32 - bits) - 1).
Proof. intros. cbn. apply shiftr_lxor_range; [lia|done]. Qed.

Lemma Contains6 b z bits v :
  0 <= bits <= 128 -> b mod 2 ^ (128 - bits) = 0 ->
  Prefix_Contains (mkPrefix (Addr6 b z) bits) (Addr6 v "") =
  in_range v (b, b + 2 ^ (128 - bits) - 1).
Proof. intros. cbn. apply shiftr_lxor_range; [lia|done]. Qed.

(** A boolean equal to a range test, from the arithmetic equivalence. *)
Ltac range_lia :=
  unfold in_range; cbn [fst snd]; apply eq_true_iff_eq;
  repeat first [rewrite andb_true_iff | rewrite orb_true_iff | rewrite Z.eqb_eq
               | rewrite Z.leb_le];
  div_lia.

Section v4.
Context (v : Z) (Hv : 0 <= v < 2 ^ 32).

Let b0 : v4byte v 0 = v / 2 ^ 24.
Proof. unfold v4byte. cbn. rewrite Z.mod_small; [done|]. div_lia. Qed.
Let b1 : v4byte v 1 = (v / 2 ^ 16) mod 2 ^ 8.
Proof. done. Qed.
Let b2 : v4byte v 2 = (v / 2 ^ 8) mod 2 ^ 8.
Proof. done. Qed.

Lemma private_v4 :
  IsPrivate (Addr4 v) =
  in_range v (ip4 10 0 0 0, ip4 10 255 255 255)
  || in_range v (ip4 172 16 0 0, ip4 172 31 255 255)
  || in_range v (ip4 192 168 0 0, ip4 192 168 255 255).
Proof.
  unfold IsPrivate, Unmap.
  change 240 with (Z.ldiff (Z.ones 8) (Z.ones 4)).
  rewrite land_topmask, b0, b1 by (rewrite ?b1; pose proof (Z.mod_pos_bound (v / 2 ^ 16) (2 ^ 8)); lia).
  f_equal; [f_equal|]; unfold ip4; range_lia.
Qed.

Lemma loopback_v4 : IsLoopback (Addr4 v) = in_range v (ip4 127 0 0 0, ip4 127 255 255 255).
Proof. unfold IsLoopback, Unmap. rewrite b0. unfold ip4. range_lia. Qed.

Lemma link_local_v4 :
  IsLinkLocalUnicast (Addr4 v) = in_range v (ip4 169 254 0 0, ip4 169 254 255 255).
Proof. unfold IsLinkLocalUnicast, Unmap. rewrite b0, b1. unfold ip4. range_lia. Qed.

Lemma multicast_v4 :
  IsMulticast (Addr4 v) = in_range v (ip4 224 0 0 0, ip4 239 255 255 255).
Proof.
  unfold IsMulticast, Unmap. change 240 with (Z.ldiff (Z.ones 8) (Z.ones 4)).
  rewrite land_topmask, b0 by (rewrite ?b0; div_lia).
  unfold ip4. range_lia.
Qed.

Lemma link_local_multicast_v4 :
  IsLinkLocalMulticast (Addr4 v) = in_range v (ip4 224 0 0 0, ip4 224 0 0 255).
Proof. unfold IsLinkLocalMulticast, Unmap. rewrite b0, b1, b2. unfold ip4. range_lia. Qed.

Lemma unspecified_v4 : IsUnspecified (Addr4 v) = in_range v (0, 0).
Proof.
  unfold IsUnspecified. rewrite (bool_decide_eq_false_2 (Addr4 v = Addr6 0 "")) by done.
  rewrite orb_false_r. unfold in_range. cbn [fst snd].
  apply eq_true_iff_eq. rewrite bool_decide_eq_true, andb_true_iff, !Z.leb_le.
  split; [intros [= ->]; lia|intros; f_equal; lia].
Qed.
End v4.

(** The prefix tables, evaluated. *)
Ltac eval_table t :=
  let l := eval vm_compute in t in
  replace t with l by (vm_compute; reflexivity).

Lemma Contains_cross p v :
  match prefix_ip p with Addr4 _ => False | _ => True end ->
  Prefix_Contains p (Addr4 v) = false.
Proof. destruct p as [[| |] bits]; cbn; done. Qed.

Lemma Contains_cross6 p v z :
  match prefix_ip p with Addr6 _ _ => False | _ => True end ->
  Prefix_Contains p (Addr6 v z) = false.
Proof. destruct p as [[| |] bits]; cbn; done. Qed.

(** A smaller range inside a larger one adds nothing. *)
Lemma in_range_absorb v a b c d :
  c <= a -> b <= d -> in_range v (a, b) || in_range v (c, d) = in_range v (c, d).
Proof. intros. unfold in_range. cbn. apply eq_true_iff_eq.
  rewrite orb_true_iff, !andb_true_iff, !Z.leb_le. lia. Qed.

(** Two adjacent ranges are one. *)
Lemma in_range_join v a b c d :
  c = b + 1 -> a <= b -> c <= d -> in_range v (a, b) || in_range v (c, d) = in_range v (a, d).
Proof. intros. unfold in_range. cbn. apply eq_true_iff_eq.
  rewrite orb_true_iff, !andb_true_iff, !Z.leb_le. lia. Qed.

Lemma blocked_v4 v :
  List.existsb (fun p => Prefix_Contains p (Addr4 v)) blockedPrefixes =
  in_ranges
    [ (ip4 0 0 0 0, ip4 0 255 255 255); (ip4 100 64 0 0, ip4 100 127 255 255);
      (ip4 192 0 0 0, ip4 192 0 0 255); (ip4 192 88 99 0, ip4 192 88 99 255);
      (ip4 192 0 2 0, ip4 192 0 2 255); (ip4 198 18 0 0, ip4 198 19 255 255);
      (ip4 198 51 100 0, ip4 198 51 100 255); (ip4 203 0 113 0, ip4 203 0 113 255);
      (ip4 240 0 0 0, ip4 255 255 255 255) ] v.
Proof.
  eval_table blockedPrefixes. cbn [List.existsb].
  rewrite !Contains4 by (lia || reflexivity).
  rewrite !(Contains_cross (mkPrefix (Addr6 _ _) _)) by done.
  unfold in_ranges. cbn [List.existsb]. rewrite !orb_false_r. reflexivity.
Qed.

Lemma embedding_never_v4 v :
  List.existsb (fun p => Prefix_Contains p (Addr4 v)) v4EmbeddingPrefixes = false.
Proof.
  eval_table v4EmbeddingPrefixes. cbn [List.existsb].
  by rewrite !(Contains_cross (mkPrefix (Addr6 _ _) _)).
Qed.

Lemma passes_filters_v4 v : 0 <= v < 2 ^ 32 -> passes_filters (Addr4 v) = public_v4 v.
Proof.
  intros Hv. unfold passes_filters, public_v4.
  rewrite blocked_v4, unspecified_v4, loopback_v4, private_v4, link_local_v4,
    link_local_multicast_v4, multicast_v4 by done.
  change (IsInterfaceLocalMulticast (Addr4 v)) with false.
  unfold in_ranges, special_v4. cbn [List.existsb].
  rewrite <- (in_range_absorb v 0 0 (ip4 0 0 0 0) (ip4 0 255 255 255)) by (unfold ip4; lia).
  rewrite <- (in_range_join v (ip4 224 0 0 0) (ip4 239 255 255 255)
                (ip4 240 0 0 0) (ip4 255 255 255 255)) by (unfold ip4; lia).
  rewrite <- (in_range_absorb v (ip4 224 0 0 0) (ip4 224 0 0 255)
                (ip4 224 0 0 0) (ip4 239 255 255 255)) by (unfold ip4; lia).
  repeat match goal with
         | |- context [in_range v ?r] => let b := fresh "b" in
                                          generalize (in_range v r); intros b
         end.
  rewrite !orb_false_r.
  match goal with |- (if ?c then false else negb ?d) = negb ?e =>
    replace (if c then false else negb d) with (negb (c || d)) by (by destruct c) end.
  f_equal. btauto.
Qed.

(** ** Lemmas: IPv6 *)

Section v6.
Context (v : Z) (Hv : 0 <= v < 2 ^ 128).
Context (Hmapped : in_range v (65535 * 2 ^ 32, 65536 * 2 ^ 32 - 1) = false).

Lemma not_4in6 z : Is4In6 (Addr6 v z) = false.
Proof.
  unfold Is4In6. rewrite Z.shiftr_div_pow2 by lia.
  apply Z.eqb_neq. intros He. unfold in_range in Hmapped. cbn [fst snd] in Hmapped.
  apply andb_false_iff in Hmapped. rewrite !Z.leb_gt in Hmapped. div_lia.
Qed.

Lemma Unmap_v6 z : Unmap (Addr6 v z) = Addr6 v z.
Proof. unfold Unmap. by rewrite not_4in6. Qed.

Lemma group0_range : 0 <= v6u16 v 0 < 2 ^ 16.
Proof. unfold v6u16. apply Z.mod_pos_bound. lia. Qed.

Lemma group0_div : v6u16 v 0 = v / 2 ^ 112.
Proof. unfold v6u16. cbn. rewrite Z.mod_small; [done|]. div_lia. Qed.

Lemma private_v6 z : IsPrivate (Addr6 v z) = in_range v (net6 64512 0 0 7).
Proof.
  unfold IsPrivate. rewrite Unmap_v6. change 254 with (Z.ldiff (Z.ones 8) (Z.ones 1)).
  assert (Hb : v6byte0 v = v / 2 ^ 120)
    by (unfold v6byte0; rewrite Z.mod_small; [done|div_lia]).
  rewrite land_topmask, Hb by (rewrite ?Hb; div_lia).
  unfold net6. range_lia.
Qed.

Lemma link_local_v6 z : IsLinkLocalUnicast (Addr6 v z) = in_range v (net6 65152 0 0 10).
Proof.
  unfold IsLinkLocalUnicast. rewrite Unmap_v6.
  change 65472 with (Z.ldiff (Z.ones 16) (Z.ones 6)).
  pose proof group0_range. rewrite land_topmask, group0_div by (done || lia).
  unfold net6. range_lia.
Qed.

Lemma multicast_v6 z : IsMulticast (Addr6 v z) = in_range v (net6 65280 0 0 8).
Proof.
  unfold IsMulticast. rewrite Unmap_v6, Z.shiftr_div_pow2 by lia.
  unfold net6. range_lia.
Qed.

(** The scoped multicast tests are subsumed by [IsMulticast]. *)
Lemma scoped_multicast_v6 s :
  Z.shiftr s 8 = 255 -> Z.land (v6u16 v 0) 65295 = s -> in_range v (net6 65280 0 0 8) = true.
Proof.
  intros Hs Hl. apply (f_equal (fun x => Z.shiftr x 8)) in Hl.
  rewrite Z.shiftr_land, Hs in Hl. change (Z.shiftr 65295 8) with (Z.ones 8) in Hl.
  rewrite Z.land_ones, Z.shiftr_div_pow2, group0_div in Hl by lia.
  unfold in_range, net6. cbn [fst snd].
  apply andb_true_intro. rewrite !Z.leb_le.
  rewrite Z.mod_small in Hl by div_lia. div_lia.
Qed.

Lemma absorbed_multicast_v6 z :
  IsLinkLocalMulticast (Addr6 v z) || IsInterfaceLocalMulticast (Addr6 v z)
    || IsMulticast (Addr6 v z)
  = in_range v (net6 65280 0 0 8).
Proof.
  rewrite multicast_v6. unfold IsLinkLocalMulticast, IsInterfaceLocalMulticast.
  rewrite Unmap_v6, not_4in6. cbn [negb andb].
  destruct (Z.eqb_spec (Z.land (v6u16 v 0) 65295) 65282) as [E|_].
  { by rewrite (scoped_multicast_v6 65282). }
  destruct (Z.eqb_spec (Z.land (v6u16 v 0) 65295) 65281) as [E|_]; [|done].
  by rewrite (scoped_multicast_v6 65281).
Qed.
End v6.

Lemma embedding_v6_spec v :
  List.existsb (fun p => Prefix_Contains p (Addr6 v "")) v4EmbeddingPrefixes =
  in_ranges embedding_v6 v.
Proof.
  eval_table v4EmbeddingPrefixes. cbn [List.existsb].
  by rewrite !Contains6 by (lia || reflexivity).
Qed.

Lemma blocked_v6 v :
  List.existsb (fun p => Prefix_Contains p (Addr6 v "")) blockedPrefixes =
  in_ranges (take 5 special_v6) v.
Proof.
  eval_table blockedPrefixes. cbn [List.existsb].
  rewrite !Contains6 by (lia || reflexivity).
  by rewrite !(Contains_cross6 (mkPrefix (Addr4 _) _)).
Qed.

Lemma passes_filters_v6 v :
  0 <= v < 2 ^ 128 ->
  in_range v (65535 * 2 ^ 32, 65536 * 2 ^ 32 - 1) = false ->
  in_ranges embedding_v6 v = false ->
  passes_filters (Addr6 v "") = negb (in_ranges special_v6 v).
Proof.
  intros Hv Hm He. unfold passes_filters.
  assert ((v =? 1) = false /\ IsUnspecified (Addr6 v "") = false) as [Hl Hu].
  { unfold in_ranges, embedding_v6 in He. cbn [List.existsb] in He.
    do 2 apply orb_false_iff in He as [_ He]. apply orb_false_iff in He as [He _].
    unfold in_range, net6 in He. cbn [fst snd] in He.
    apply andb_false_iff in He. rewrite !Z.leb_gt in He. split; [lia|].
    unfold IsUnspecified. rewrite (bool_decide_eq_false_2 (_ = Addr4 0)) by done.
    rewrite bool_decide_eq_false_2; [done|]. intros [= ->]. lia. }
  rewrite Hu. unfold IsLoopback. rewrite Unmap_v6, Hl by done.
  rewrite private_v6, link_local_v6, blocked_v6 by done.
  pose proof (absorbed_multicast_v6 v Hv Hm "") as Hmc.
  unfold in_ranges, special_v6. cbn [List.existsb take]. rewrite <- Hmc.
  generalize (IsLinkLocalMulticast (Addr6 v "")), (IsInterfaceLocalMulticast (Addr6 v "")),
    (IsMulticast (Addr6 v "")).
  repeat match goal with
         | |- context [in_range v ?r] => let b := fresh "b" in
                                          generalize (in_range v r); intros b
         end.
  intros. rewrite !orb_false_r. cbn [orb].
  match goal with |- (if ?c then false else negb ?d) = negb ?e =>
    replace (if c then false else negb d) with (negb (c || d)) by (by destruct c) end.
  f_equal. btauto.
Qed.

(** ** Lemmas: the whole test *)

Lemma Unmap_mapped v z :
  0 <= v -> in_range v (65535 * 2 ^ 32, 65536 * 2 ^ 32 - 1) = true ->
  Unmap (Addr6 v z) = Addr4 (v mod 2 ^ 32).
Proof.
  intros Hv Hr. unfold Unmap, Is4In6. rewrite Z.shiftr_div_pow2 by lia.
  unfold in_range in Hr. cbn [fst snd] in Hr.
  apply andb_prop in Hr. rewrite !Z.leb_le in Hr.
  assert ((v / 2 ^ 32 =? 65535) = true) as -> by (apply Z.eqb_eq; div_lia). done.
Qed.

Lemma IsPublic_go_v4 f v : 0 <= v < 2 ^ 32 -> IsPublic_go (S f) (Addr4 v) = Some (public_v4 v).
Proof.
  intros Hv. cbn [IsPublic_go IsValid negb Unmap].
  by rewrite embedding_never_v4, passes_filters_v4.
Qed.

Lemma IsPublic_go_enough f ip :
  addr_wf ip -> IsPublic_go (S (S f)) ip = IsPublic_go 2 ip.
Proof.
  intros Hwf. destruct ip as [|v|v z]; [done|by rewrite !IsPublic_go_v4|].
  cbn [addr_wf] in Hwf. cbn [IsPublic_go IsValid negb].
  destruct (in_range v (65535 * 2 ^ 32, 65536 * 2 ^ 32 - 1)) eqn:Hm.
  - rewrite (Unmap_mapped v z) by (done || lia). by rewrite embedding_never_v4.
  - rewrite Unmap_v6 by done.
    destruct (List.existsb _ v4EmbeddingPrefixes); [|done].
    cbn [embedded_v4 IsValid negb Unmap]. by rewrite embedding_never_v4.
Qed.

Lemma IsPublic_go_spec ip :
  addr_wf ip -> match ip with Addr6 _ z => z = "" | _ => True end ->
  IsPublic_go 2 ip = Some (public_spec ip).
Proof.
  intros Hwf Hz. destruct ip as [|v|v z]; [done|by apply IsPublic_go_v4|subst z].
  cbn [addr_wf] in Hwf. cbn [IsPublic_go IsValid negb public_spec].
  destruct (in_range v (65535 * 2 ^ 32, 65536 * 2 ^ 32 - 1)) eqn:Hm; cbn [orb].
  - rewrite (Unmap_mapped v "") by (done || lia).
    rewrite embedding_never_v4, passes_filters_v4; [done|]. apply Z.mod_pos_bound. lia.
  - rewrite Unmap_v6 by done. rewrite embedding_v6_spec.
    destruct (in_ranges embedding_v6 v) eqn:He; [|by rewrite passes_filters_v6].
    cbn [embedded_v4 IsValid negb Unmap].
    rewrite embedding_never_v4, passes_filters_v4; [done|]. apply Z.mod_pos_bound. lia.
Qed.

Definition zone_of (ip : Addr) : string :=
  match ip with Addr6 _ z => z | _ => "" end.

(** The embedding ranges lie below 65::, clear of the mapped range. *)
Lemma embedding_bounds v :
  in_ranges embedding_v6 v = true ->
  0 <= v < 2 ^ 128 /\
  (forall r, 101 * 2 ^ 112 <= fst r -> in_range v r = false) /\
  in_range v (65535 * 2 ^ 32, 65536 * 2 ^ 32 - 1) = false.
Proof.
  unfold in_ranges, embedding_v6, net6, in_range. cbn [List.existsb fst snd].
  rewrite !orb_true_iff, !andb_true_iff, !Z.leb_le. intros Hr.
  split; [lia|]. split.
  - intros r Hlo. apply andb_false_iff. left. apply Z.leb_gt. lia.
  - apply andb_false_iff. rewrite !Z.leb_gt. lia.
Qed.

(** A zoned address matches no prefix at all. *)
Lemma zoned_no_prefix ps v z :
  z <> "" -> List.existsb (fun p => Prefix_Contains p (Addr6 v z)) ps = false.
Proof.
  intros Hz. induction ps as [|p ps IH]; [done|]. cbn [List.existsb]. rewrite IH, orb_false_r.
  destruct p as [[|b|b zb] bits]; cbn; try done. by rewrite bool_decide_eq_false_2.
Qed.

(** ** Properties *)

(** C16 The guard's address test, on any address without a zone, is the table of
    address ranges: an IPv4 address is public when it lies in none of the
    special-purpose blocks, an IPv6 address that wraps an IPv4 one (mapped,
    NAT64 or IPv4-compatible) is judged by the wrapped address, and any other
    IPv6 address by the IPv6 blocks. *)
Theorem IsPublic_correct ip :
  addr_wf ip -> zone_of ip = "" -> IsPublic ip = public_spec ip.
Proof.
  intros Hwf Hz. unfold IsPublic. rewrite IsPublic_go_spec; [done..|]. by destruct ip.
Qed.

(** 127.0.0.1 behind the well-known NAT64 prefix. *)
Definition nat64_loopback : Z := fst (net6 100 65435 0 96) + ip4 127 0 0 1.

Lemma IsPublic_correct_witness :
  IsPublic (Addr6 nat64_loopback "") = public_spec (Addr6 nat64_loopback "")
  /\ public_spec (Addr6 nat64_loopback "") = false
  /\ public_spec (Addr4 (ip4 1 1 1 1)) = true.
Proof.
  split; [|split; reflexivity].
  apply (IsPublic_correct (Addr6 nat64_loopback "")); [cbn; split; [discriminate|reflexivity]|].
  reflexivity.
Defined.

(** The recursion of [IsPublic] into the embedded IPv4 address stops: two
    calls always produce the answer, and no number of further calls changes
    it. *)
Theorem IsPublic_terminates ip f :
  addr_wf ip -> IsPublic_go (S (S f)) ip = Some (IsPublic ip).
Proof.
  intros Hwf. rewrite IsPublic_go_enough by done. unfold IsPublic.
  destruct (IsPublic_go 2 ip) as [b|] eqn:Hgo; [done|]. exfalso. revert Hgo.
  destruct ip as [|v|v z]; cbn [IsPublic_go IsValid negb]; [done| |].
  - cbn [Unmap]. by rewrite embedding_never_v4.
  - destruct (List.existsb _ v4EmbeddingPrefixes); [|done].
    destruct (Unmap (Addr6 v z)) as [|v'|v' z'] eqn:Hu; cbn [embedded_v4]; [done|..].
    all: cbn [IsValid negb Unmap]; by rewrite embedding_never_v4.
Qed.

Lemma IsPublic_terminates_witness :
  IsPublic_go 7 (Addr6 nat64_loopback "") = Some (IsPublic (Addr6 nat64_loopback "")).
Proof.
  apply (IsPublic_terminates (Addr6 nat64_loopback "") 5). cbn. split; [discriminate|reflexivity].
Defined.

(** The guard fails closed: [CheckAddr] accepts an address exactly when it
    splits into host and port, the host parses as an IP address and that
    address passes [IsPublic]; everything else, a host name or a missing port
    included, is refused with an error that [errors.Is] recognises as
    ErrBlocked. *)
Theorem CheckAddr_fails_closed address :
  match CheckAddr address with
  | None =>
      exists host port ip, SplitHostPort address = Some (host, port) /\
        ParseAddr host = Some ip /\ IsPublic ip = true
  | Some e =>
      errors_Is e ErrBlocked = true /\
      forall host port ip, SplitHostPort address = Some (host, port) ->
        ParseAddr host = Some ip -> IsPublic ip = false
  end.
Proof.
  unfold CheckAddr. destruct (SplitHostPort address) as [[host port]|].
  - destruct (ParseAddr host) as [ip|] eqn:Hp.
    + destruct (IsPublic ip) eqn:Hpub; cbn [negb].
      * by exists host, port, ip.
      * split; [done|]. intros h p i [= <- <-]. rewrite Hp. by intros [= <-].
    + split; [done|]. intros h p i [= <- <-]. by rewrite Hp.
  - split; done.
Qed.

(** What the check lets through: an address of the range table, or a zoned one. *)
Lemma CheckAddr_public address :
  CheckAddr address = None ->
  exists host port ip, SplitHostPort address = Some (host, port) /\
    ParseAddr host = Some ip /\
    (zone_of ip = "" -> public_spec ip = true).
Proof.
  unfold CheckAddr. intros H.
  destruct (SplitHostPort address) as [[host port]|]; [|done].
  destruct (ParseAddr host) as [ip|] eqn:Hp; [|done].
  destruct (IsPublic ip) eqn:Hpub; [|done].
  exists host, port, ip. do 2 (split; [done|]). intros Hz. revert Hpub.
  unfold IsPublic. rewrite IsPublic_go_spec; [done|by eapply ParseAddr_wf|]. by destruct ip.
Qed.

(** Its refusals are recognised by [errors.Is]. *)
Lemma CheckAddr_blocks address :
  CheckAddr address <> None -> errors_Is_opt (CheckAddr address) ErrBlocked = true.
Proof.
  unfold CheckAddr. destruct (SplitHostPort address) as [[host port]|]; [|done].
  destruct (ParseAddr host) as [ip|]; [|done]. by destruct (IsPublic ip).
Qed.

(** C2 A guarded dialer never connects outside the public ranges: if the
    [Control] hook of a dialer built with allowPrivate off lets an address
    through and the address carries no IPv6 zone, it is public by the range
    table. (Zoned addresses are the exception [zoned_address_bypass] shows.) *)
Theorem guarded_dial_is_public address :
  dial_check (NewDialer false) address = None ->
  exists host port ip, SplitHostPort address = Some (host, port) /\
    ParseAddr host = Some ip /\
    (zone_of ip = "" -> public_spec ip = true).
Proof. exact (CheckAddr_public address). Qed.

Lemma guarded_dial_is_public_witness :
  exists host port ip, SplitHostPort "[2606:4700::1111]:443" = Some (host, port) /\
    ParseAddr host = Some ip /\
    (zone_of ip = "" -> public_spec ip = true).
Proof. apply (guarded_dial_is_public "[2606:4700::1111]:443"). vm_compute. reflexivity. Defined.

(** An IPv6 zone switches the prefix tables off: netip's [Prefix.Contains]
    is false for every zoned address, so the embedded IPv4 address is never
    looked at and none of the blocked ranges applies. Every NAT64 or
    IPv4-compatible address, 127.0.0.1 and the metadata endpoint included,
    passes the test as soon as it is written with a zone (except the
    loopback address [::1] itself). *)
Theorem zoned_address_bypass v zone :
  zone <> "" -> v <> 1 -> in_ranges embedding_v6 v = true ->
  IsPublic (Addr6 v zone) = true.
Proof.
  intros Hz H1 Hr. apply embedding_bounds in Hr as (Hv & Hlow & Hm).
  unfold IsPublic. cbn [IsPublic_go IsValid negb].
  rewrite Unmap_v6, zoned_no_prefix by done. cbn [default from_option].
  unfold passes_filters. rewrite zoned_no_prefix by done.
  unfold IsLoopback, IsUnspecified. rewrite Unmap_v6, private_v6, link_local_v6 by done.
  pose proof (absorbed_multicast_v6 v Hv Hm zone) as Hmc.
  rewrite (bool_decide_eq_false_2 (_ = Addr4 0)) by done.
  rewrite (bool_decide_eq_false_2 (_ = Addr6 0 "")) by congruence.
  destruct (Z.eqb_spec v 1); [done|].
  rewrite Hlow in Hmc by (unfold net6; cbn [fst]; lia).
  apply orb_false_iff in Hmc as [[? ?]%orb_false_iff ?].
  rewrite !Hlow by (unfold net6; cbn [fst]; lia).
  by repeat match goal with H : ?b = false |- context [?b] => rewrite H end.
Qed.

Lemma zoned_address_bypass_witness :
  IsPublic (Addr6 nat64_loopback "eth0") = true
  /\ CheckAddr "[64:ff9b::7f00:1%eth0]:80" = None
  /\ IsPublic (Addr6 nat64_loopback "") = false.
Proof.
  split; [|split; vm_compute; reflexivity].
  apply (zoned_address_bypass nat64_loopback "eth0"); [discriminate|discriminate|reflexivity].
Defined.

(** The table of safedial_test.go. *)
Example test_public :
  map (fun s => IsPublic <$> ParseAddr s)
    ["1.1.1.1"; "93.184.216.34"; "2606:4700::1111"; "::ffff:1.1.1.1"; "64:ff9b::101:101"]
  = replicate 5 (Some true).
Proof. vm_compute. reflexivity. Qed.

Example test_blocked :
  map (fun s => IsPublic <$> ParseAddr s)
    ["::"; "127.1.2.3"; "::1"; "172.31.255.255"; "fd00::1"; "169.254.169.254"; "fe80::1";
     "ff02::1"; "100.64.0.1"; "192.0.0.1"; "198.18.0.1"; "203.0.113.1"; "255.255.255.255";
     "2001:db8::1"; "2001::1"; "2002:7f00:1::"; "100::1"; "0.1.2.3"; "192.88.99.1";
     "2001:20::1"; "::ffff:127.0.0.1"; "64:ff9b::a00:1"; "64:ff9b:1::7f00:1"; "::a00:1"]
  = replicate 24 (Some false).
Proof. vm_compute. reflexivity. Qed.
