(* ===== verification/Crypto.v ===== *)
(** * Encodings and digests

    The standard-library primitives the signing code is built on, executable:
    hexadecimal and base64 (RFC 4648, with the decoder of encoding/base64,
    which skips line breaks and wants padding), SHA-256 (FIPS 180-4) and
    HMAC-SHA-256 (RFC 2104). RSA is not here: it stays a parameter of the files
    that sign. *)

From S2P Require Import Prelude GoStrings.

(** ** Hexadecimal *)

Definition hex_digit (d : N) : ascii := ascii_of_N (if (d <? 10)%N then 48 + d else 87 + d).

(** [hex.EncodeToString] *)
Fixpoint hex_encode (s : string) : string :=
  match s with
  | EmptyString => EmptyString
  | String c s' =>
      String (hex_digit (b2n c / 16)) (String (hex_digit (b2n c mod 16)) (hex_encode s'))
  end.

(** ** Base64 *)

(** The standard alphabet. *)
Definition b64_char (d : N) : ascii :=
  ascii_of_N
    (if d <? 26 then 65 + d
     else if d <? 52 then 71 + d
     else if d <? 62 then d - 4
     else if d =? 62 then 43 else 47)%N.

Definition b64_val (c : ascii) : option N :=
  let n := b2n c in
  (if (65 <=? n) && (n <=? 90) then Some (n - 65)
   else if (97 <=? n) && (n <=? 122) then Some (n - 71)
   else if (48 <=? n) && (n <=? 57) then Some (n + 4)
   else if n =? 43 then Some 62
   else if n =? 47 then Some 63
   else None)%N.

Definition pad : ascii := "="%char.

(** [base64.StdEncoding.EncodeToString] *)
Fixpoint b64_encode (s : string) : string :=
  match s with
  | EmptyString => EmptyString
  | String a EmptyString =>
      let x := (b2n a * 16)%N in
      String (b64_char (x / 64)) (String (b64_char (x mod 64)) (String pad (String pad "")))
  | String a (String b EmptyString) =>
      let x := (b2n a * 1024 + b2n b * 4)%N in
      String (b64_char (x / 4096))
        (String (b64_char (x / 64 mod 64)) (String (b64_char (x mod 64)) (String pad "")))
  | String a (String b (String c s')) =>
      let x := (b2n a * 65536 + b2n b * 256 + b2n c)%N in
      String (b64_char (x / 262144))
        (String (b64_char (x / 4096 mod 64))
           (String (b64_char (x / 64 mod 64)) (String (b64_char (x mod 64)) (b64_encode s'))))
  end.

Definition is_newline (c : ascii) : bool := (b2n c =? 10)%N || (b2n c =? 13)%N.

Fixpoint strip_newlines (s : string) : string :=
  match s with
  | EmptyString => EmptyString
  | String c s' => if is_newline c then strip_newlines s' else String c (strip_newlines s')
  end.

(** Quantum by quantum; padding only in the last one, its unused bits ignored. *)
Fixpoint b64_decode_go (s : string) : option string :=
  match s with
  | EmptyString => Some EmptyString
  | String a (String b (String c (String d s'))) =>
      match b64_val a, b64_val b with
      | Some va, Some vb =>
          if bool_decide (c = pad) then
            if bool_decide (d = pad) && bool_decide (s' = "")
            then Some (String (ascii_of_N (va * 4 + vb / 16)) "")
            else None
          else
            match b64_val c with
            | None => None
            | Some vc =>
                if bool_decide (d = pad) then
                  if bool_decide (s' = "") then
                    Some (String (ascii_of_N (va * 4 + vb / 16))
                            (String (ascii_of_N (vb mod 16 * 16 + vc / 4)) ""))
                  else None
                else
                  match b64_val d, b64_decode_go s' with
                  | Some vd, Some rest =>
                      Some (String (ascii_of_N (va * 4 + vb / 16))
                              (String (ascii_of_N (vb mod 16 * 16 + vc / 4))
                                 (String (ascii_of_N (vc mod 4 * 64 + vd)) rest)))
                  | _, _ => None
                  end
            end
      | _, _ => None
      end
  | _ => None
  end.

(** [base64.StdEncoding.DecodeString]; [None] is a CorruptInputError. *)
Definition b64_decode (s : string) : option string := b64_decode_go (strip_newlines s).

(** ** SHA-256 *)

Section sha256.
Open Scope N_scope.

Definition mask32 (x : N) : N := N.land x 4294967295.
Definition add32 (x y : N) : N := mask32 (x + y).
Definition rotr (n x : N) : N := N.lor (N.shiftr x n) (mask32 (N.shiftl x (32 - n))).

Definition sha_Ch (x y z : N) : N := N.lxor (N.land x y) (N.land (N.lxor x 4294967295) z).
Definition sha_Maj (x y z : N) : N :=
  N.lxor (N.lxor (N.land x y) (N.land x z)) (N.land y z).
Definition Sigma0 (x : N) : N := N.lxor (N.lxor (rotr 2 x) (rotr 13 x)) (rotr 22 x).
Definition Sigma1 (x : N) : N := N.lxor (N.lxor (rotr 6 x) (rotr 11 x)) (rotr 25 x).
Definition sigma0 (x : N) : N := N.lxor (N.lxor (rotr 7 x) (rotr 18 x)) (N.shiftr x 3).
Definition sigma1 (x : N) : N := N.lxor (N.lxor (rotr 17 x) (rotr 19 x)) (N.shiftr x 10).

(** The constants as FIPS 180-4 defines them: the first 32 bits of the fractional
    parts of the cube roots of the first 64 primes, and of the square roots of
    the first eight. *)
Definition is_prime (n : nat) : bool :=
  forallb (fun d => negb (Nat.eqb (Nat.modulo n d) 0)) (seq 2 (n - 2)).
Definition primes : list N := Eval vm_compute in
  map N.of_nat (List.filter is_prime (seq 2 310)).

Fixpoint cube_root (bit : nat) (root n : N) : N :=
  match bit with
  | O => root
  | S bit' =>
      let r := root + N.shiftl 1 (N.of_nat bit') in
      cube_root bit' (if r * r * r <=? n then r else root) n
  end.

Definition sha_K : list N := Eval vm_compute in
  map (fun p => mask32 (cube_root 36 0 (N.shiftl p 96))) primes.
Definition sha_H0 : list N := Eval vm_compute in
  map (fun p => mask32 (N.sqrt (N.shiftl p 64))) (take 8 primes).

(** The message schedule, latest word first. *)
Fixpoint sha_schedule (n : nat) (ws : list N) : list N :=
  match n with
  | O => ws
  | S n' =>
      let w := add32 (add32 (sigma1 (nth 1 ws 0)) (nth 6 ws 0))
                     (add32 (sigma0 (nth 14 ws 0)) (nth 15 ws 0)) in
      sha_schedule n' (w :: ws)
  end.

Definition sha_round (st : list N) (kw : N * N) : list N :=
  match st with
  | [a; b; c; d; e; f; g; h] =>
      let t1 := add32 (add32 h (Sigma1 e)) (add32 (sha_Ch e f g) (add32 (fst kw) (snd kw))) in
      let t2 := add32 (Sigma0 a) (sha_Maj a b c) in
      [add32 t1 t2; a; b; c; add32 d t1; e; f; g]
  | _ => st
  end.

Definition sha_block (st ws : list N) : list N :=
  let sched := rev (sha_schedule 48 (rev ws)) in
  zip_with add32 st (fold_left sha_round (zip sha_K sched) st).

(** Big-endian words of a byte string whose length is a multiple of four. *)
Fixpoint words_of (s : string) : list N :=
  match s with
  | String a (String b (String c (String d s'))) =>
      (((b2n a * 256 + b2n b) * 256 + b2n c) * 256 + b2n d) :: words_of s'
  | _ => []
  end.

Fixpoint word_bytes (k : nat) (w : N) : string :=
  match k with
  | O => EmptyString
  | S k' => String (ascii_of_N (N.shiftr w (8 * N.of_nat k') mod 256)) (word_bytes k' w)
  end.

Fixpoint zeros (n : nat) : string :=
  match n with O => EmptyString | S n' => String "000" (zeros n') end.

(** The message, a 1 bit, zeros, and the bit length in 64 bits. *)
Definition sha_pad (s : string) : string :=
  let len := N.of_nat (String.length s) in
  s +:+ String "128" (zeros (N.to_nat ((119 - len mod 64) mod 64)))
    +:+ word_bytes 8 (len * 8).

Fixpoint sha_blocks (fuel : nat) (st ws : list N) : list N :=
  match fuel with
  | O => st
  | S f => match ws with
           | [] => st
           | _ => sha_blocks f (sha_block st (take 16 ws)) (drop 16 ws)
           end
  end.

(** [sha256.Sum256] *)
Definition Sum256 (s : string) : string :=
  let ws := words_of (sha_pad s) in
  let st := sha_blocks (length ws) sha_H0 ws in
  fold_right (fun w acc => word_bytes 4 w +:+ acc) "" st.
End sha256.

(** ** HMAC-SHA-256 *)

Definition xor_byte (k : N) (c : ascii) : ascii := ascii_of_N (N.lxor (b2n c) k).

Definition hmac_key (key : string) : string :=
  let k := if (64 <? String.length key)%nat then Sum256 key else key in
  k +:+ zeros (64 - String.length k).

(** [hmac.New(sha256.New, key)], written [msg], summed. *)
Definition hmac_sha256 (key msg : string) : string :=
  let k := hmac_key key in
  Sum256 (str_map (xor_byte 92) k +:+ Sum256 (str_map (xor_byte 54) k +:+ msg)).

(** ** Lemmas: base64 round trip *)

Lemma b64_char_spec d :
  (d < 64)%N ->
  b64_val (b64_char d) = Some d /\ b64_char d <> pad /\ is_newline (b64_char d) = false /\
  b64_char d <> quote.
Proof.
  intros Hd.
  assert (Hall : bool_decide (b64_val (b64_char d) = Some d /\ b64_char d <> pad /\
                   is_newline (b64_char d) = false /\ b64_char d <> quote) = true).
  { revert d Hd. apply (below_forallb _ 64). vm_compute. reflexivity. }
  by apply bool_decide_eq_true in Hall.
Qed.

(** Induction by groups of three bytes. *)
Lemma string_ind3 (P : string -> Prop) :
  P "" -> (forall a, P (String a "")) -> (forall a b, P (String a (String b ""))) ->
  (forall a b c s, P s -> P (String a (String b (String c s)))) -> forall s, P s.
Proof.
  intros H0 H1 H2 H3 s.
  assert (H : forall n s, (String.length s <= n)%nat -> P s); [|by apply (H (String.length s))].
  clear s. induction n as [|n IH]; intros [|a [|b [|c s]]] Hl; cbn in Hl; auto; try lia.
  apply H3, IH. lia.
Qed.

(** Two bytes and their sixteen bits. *)
Ltac b64_digits :=
  repeat match goal with
         | |- context [b64_val (b64_char ?d)] =>
             rewrite (proj1 (b64_char_spec d ltac:(div_lia)))
         | |- context [bool_decide (b64_char ?d = pad)] =>
             rewrite (bool_decide_eq_false_2 (b64_char d = pad))
               by (apply (b64_char_spec d); div_lia)
         end.

Lemma ascii_of_b2n c n : n = b2n c -> ascii_of_N n = c.
Proof. intros ->. apply ascii_N_embedding. Qed.

Lemma b64_decode_go_encode s : b64_decode_go (b64_encode s) = Some s.
Proof.
  induction s as [|a|a b|a b c s IH] using string_ind3; [done|..].
  - pose proof (b2n_lt a). cbn [b64_encode b64_decode_go]. b64_digits.
    rewrite !bool_decide_eq_true_2 by done. cbn [andb].
    do 2 f_equal. apply ascii_of_b2n. div_lia.
  - pose proof (b2n_lt a). pose proof (b2n_lt b). cbn [b64_encode b64_decode_go]. b64_digits.
    rewrite !bool_decide_eq_true_2 by done.
    f_equal. f_equal; [|f_equal]; apply ascii_of_b2n; div_lia.
  - pose proof (b2n_lt a). pose proof (b2n_lt b). pose proof (b2n_lt c).
    cbn [b64_encode b64_decode_go]. b64_digits. rewrite IH.
    f_equal. f_equal; [|f_equal; [|f_equal]]; apply ascii_of_b2n; div_lia.
Qed.

(** A base64 text holds neither a line break nor a quote. *)
Definition b64_clean (c : ascii) : bool := negb (is_newline c) && negb (bool_decide (c = quote)).

Lemma b64_char_clean d : (d < 64)%N -> b64_clean (b64_char d) = true.
Proof.
  intros Hd. destruct (b64_char_spec d Hd) as (_ & _ & Hn & Hq). unfold b64_clean.
  by rewrite Hn, bool_decide_eq_false_2.
Qed.

Lemma b64_encode_clean s : str_forallb b64_clean (b64_encode s) = true.
Proof.
  induction s as [|a|a b|a b c s IH] using string_ind3; [done|..];
    try pose proof (b2n_lt a); try pose proof (b2n_lt b); try pose proof (b2n_lt c);
    cbn [b64_encode str_forallb]; rewrite ?IH, !b64_char_clean by div_lia; done.
Qed.

Lemma b64_encode_ascii s : is_ascii (b64_encode s) = true.
Proof.
  assert (forall d, (d < 64)%N -> is_ascii_byte (b64_char d) = true) as Hc
    by (apply (below_forallb _ 64); vm_compute; reflexivity).
  unfold is_ascii. induction s as [|a|a b|a b c s IH] using string_ind3; [done|..];
    try pose proof (b2n_lt a); try pose proof (b2n_lt b); try pose proof (b2n_lt c);
    cbn [b64_encode str_forallb]; rewrite ?IH, !Hc by div_lia; done.
Qed.

Lemma strip_newlines_clean s : str_forallb b64_clean s = true -> strip_newlines s = s.
Proof.
  induction s as [|c s IH]; [done|]. cbn [str_forallb strip_newlines].
  intros [Hc Hs]%andb_prop. unfold b64_clean in Hc. apply andb_prop in Hc as [Hc _].
  apply negb_true_iff in Hc. by rewrite Hc, IH.
Qed.

Lemma b64_decode_encode s : b64_decode (b64_encode s) = Some s.
Proof.
  unfold b64_decode. rewrite strip_newlines_clean by apply b64_encode_clean.
  apply b64_decode_go_encode.
Qed.

Lemma b64_encode_nonempty s : s <> "" -> b64_encode s <> "".
Proof. destruct s as [|a [|b [|c s]]]; done. Qed.

(** Known answers: FIPS 180-4, RFC 4231-style and httpsig_test.go. *)
Example sha_abc :
  hex_encode (Sum256 "abc") =
  "ba7816bf8f01cfea414140de5dae2223b00361a396177a9cb410ff61f20015ad".
Proof. vm_compute. reflexivity. Qed.
Example hmac_fox :
  hex_encode (hmac_sha256 "key" "The quick brown fox jumps over the lazy dog") =
  "f7bc83f430538424b13298e6aa6fb143ef4d59a14946175997479dbc2d1a3cd8".
Proof. vm_compute. reflexivity. Qed.
