(* ===== verification/Http.v ===== *)
(** * HTTP messages (package net/http, as the program uses it)

    Header maps with Go's key canonicalisation, URLs with their request-URI
    form, requests and responses. Parsing a URL, moving bytes and the transport
    are parameters of the files that need them. *)

From S2P Require Import Prelude GoErrors GoStrings.

(** ** Header maps *)

(** The bytes of an RFC 9110 token. *)
Definition token_punct : string := "!#$%&'*+-.^_`|~".
Definition is_token_byte (b : ascii) : bool :=
  byte_in 97 122 b || byte_in 65 90 b || byte_in 48 57 b || has_byte token_punct b.

Fixpoint canon_go (upper : bool) (s : string) : string :=
  match s with
  | EmptyString => EmptyString
  | String c s' =>
      let c' := if upper then upper_byte c else lower_byte c in
      String c' (canon_go (bool_decide (c' = "-"%char)) s')
  end.

(** [textproto.CanonicalMIMEHeaderKey]: a key that is not a token is left as it
    is. *)
Definition CanonicalHeaderKey (s : string) : string :=
  if str_forallb is_token_byte s then canon_go true s else s.

(** http.Header *)
Abbreviation header := (gmap string (list string)).

Definition header_Get (h : header) (k : string) : string :=
  match h !! CanonicalHeaderKey k with
  | Some (v :: _) => v
  | _ => ""
  end.

Definition header_Set (h : header) (k v : string) : header :=
  <[CanonicalHeaderKey k := [v]]> h.

Lemma header_Get_Set h k v k' :
  header_Get (header_Set h k v) k' =
  if bool_decide (CanonicalHeaderKey k = CanonicalHeaderKey k') then v else header_Get h k'.
Proof.
  unfold header_Get, header_Set. case_bool_decide as Hk.
  - by rewrite Hk, lookup_insert_eq.
  - by rewrite lookup_insert_ne.
Qed.

Lemma header_Get_Set_eq h k v k' :
  CanonicalHeaderKey k = CanonicalHeaderKey k' -> header_Get (header_Set h k v) k' = v.
Proof. intros Hk. by rewrite header_Get_Set, bool_decide_eq_true_2. Qed.

Lemma header_Get_Set_ne h k v k' :
  CanonicalHeaderKey k <> CanonicalHeaderKey k' ->
  header_Get (header_Set h k v) k' = header_Get h k'.
Proof. intros Hk. by rewrite header_Get_Set, bool_decide_eq_false_2. Qed.

Lemma header_Set_Set h k v v' :
  header_Set (header_Set h k v) k v' = header_Set h k v'.
Proof. unfold header_Set. apply insert_insert_eq. Qed.

(** Reads of a header map after known writes: the keys are literals. *)
Ltac header_get :=
  repeat first
    [ rewrite header_Get_Set_eq by reflexivity
    | rewrite header_Get_Set_ne by (vm_compute; discriminate) ].

Lemma lower_upper c : lower_byte (upper_byte c) = lower_byte c.
Proof. by byte_cases c. Qed.
Lemma lower_lower c : lower_byte (lower_byte c) = lower_byte c.
Proof. by byte_cases c. Qed.

Lemma canon_go_lower up s : str_map lower_byte (canon_go up s) = str_map lower_byte s.
Proof.
  revert up. induction s as [|c s IH]; intros up; [done|]. cbn [canon_go str_map].
  rewrite IH. by destruct up; rewrite ?lower_upper, ?lower_lower.
Qed.

Lemma is_token_ascii c : is_token_byte c = true -> is_ascii_byte c = true.
Proof. by byte_cases c. Qed.

Lemma canon_go_token up s :
  str_forallb is_token_byte s = true -> str_forallb is_token_byte (canon_go up s) = true.
Proof.
  revert up. induction s as [|c s IH]; intros up; [done|]. cbn [canon_go str_forallb].
  intros [Hc Hs]%andb_prop. rewrite IH by done. rewrite andb_true_r.
  destruct up; revert Hc; by byte_cases c.
Qed.

(** A key that canonicalises to a token is an ASCII variant of it. *)
Lemma canonical_variant k K :
  CanonicalHeaderKey k = K -> str_forallb is_token_byte K = true ->
  is_ascii k = true /\ str_map lower_byte k = str_map lower_byte K.
Proof.
  unfold CanonicalHeaderKey. destruct (str_forallb is_token_byte k) eqn:Hk.
  - intros <- _. split; [|by rewrite canon_go_lower].
    eapply str_forallb_impl, Hk. apply is_token_ascii.
  - intros <-. by rewrite Hk.
Qed.

(** ** URLs *)

(** net/url.URL, with [EscapedPath()] as a field. *)
Record URL := mkURL {
  Scheme : string;
  Opaque : string;
  url_Host : string;
  EscapedPath : string;
  ForceQuery : bool;
  RawQuery : string;
}.

(** [URL.RequestURI]: what net/http writes on the wire. *)
Definition RequestURI (u : URL) : string :=
  let base :=
    if bool_decide (Opaque u = "") then
      if bool_decide (EscapedPath u = "") then "/" else EscapedPath u
    else if HasPrefix (Opaque u) "//" then Scheme u +:+ ":" +:+ Opaque u
    else Opaque u in
  if ForceQuery u || negb (bool_decide (RawQuery u = ""))
  then base +:+ "?" +:+ RawQuery u else base.

(** ** Requests and responses *)

Record Request := mkRequest {
  Method : string;
  req_URL : option URL;
  req_Host : string;
  req_Header : header;
  req_Body : string;
}.

Definition with_header (r : Request) (h : header) : Request :=
  mkRequest (Method r) (req_URL r) (req_Host r) h (req_Body r).

(** How a response body ends: at its end, or with a read error. *)
Record BodyStream := mkBody {
  body_data : string;
  body_err : option error;
}.

Record Response := mkResponse {
  StatusCode : Z;
  Status : string;
  resp_Header : header;
  resp_Body : BodyStream;
}.

Definition MethodPost : string := "POST".

Definition StatusBadRequest : Z := 400.
Definition StatusUnauthorized : Z := 401.
Definition StatusNotFound : Z := 404.
Definition StatusRequestTimeout : Z := 408.
Definition StatusConflict : Z := 409.
Definition StatusGone : Z := 410.
Definition StatusUnprocessableEntity : Z := 422.
Definition StatusTooManyRequests : Z := 429.

(** [removeEmptyPort] of net/http: "host:" becomes "host". *)
Definition removeEmptyPort (host : string) : string :=
  match str_rev host with
  | String ":" r => str_rev r
  | _ => host
  end.

(** [http.NewRequestWithContext] for a POST with a body in memory; [url_Parse]
    is [url.Parse]. *)
Definition NewRequest (url_Parse : string -> res URL) (method target body : string)
  : res Request :=
  u ← url_Parse target;
  let u := mkURL (Scheme u) (Opaque u) (removeEmptyPort (url_Host u))
             (EscapedPath u) (ForceQuery u) (RawQuery u) in
  Ok (mkRequest method (Some u) (url_Host u) ∅ body).

(** ** What may be sent, as RFC 9110 has it *)

(** A field name: visible ASCII without delimiters. *)
Definition delimiters : string := String quote "(),/:;<=>?@[\]{}".
Definition field_name (s : string) : Prop :=
  s <> "" /\ str_forallb (fun b => byte_in 33 126 b && negb (has_byte delimiters b)) s = true.

(** A field value: no control byte but the tab. *)
Definition control_byte (b : ascii) : bool := byte_in 0 31 b || byte_in 127 127 b.
Definition field_value (s : string) : Prop :=
  str_forallb (fun b => bool_decide (b = tab) || negb (control_byte b)) s = true.

(** A check that goes byte by byte is one of these when it is on each byte. *)
Lemma str_forallb_ext p q s : (forall c, p c = q c) -> str_forallb p s = str_forallb q s.
Proof. intros H. induction s as [|c s IH]; [done|]. cbn [str_forallb]. by rewrite H, IH. Qed.

Lemma field_name_bytes p s :
  (forall b, p b = byte_in 33 126 b && negb (has_byte delimiters b)) ->
  negb (bool_decide (s = "")) && str_forallb p s = true <-> field_name s.
Proof.
  intros Hp. rewrite (str_forallb_ext _ _ s Hp). unfold field_name.
  by rewrite andb_true_iff, negb_true_iff, bool_decide_eq_false.
Qed.

Lemma field_value_bytes p s :
  (forall b, p b = bool_decide (b = tab) || negb (control_byte b)) ->
  str_forallb p s = true <-> field_value s.
Proof. intros Hp. by rewrite (str_forallb_ext _ _ s Hp). Qed.

(** An absolute http or https URL with a host. *)
Definition web_url (url_Parse : string -> res URL) (raw : string) (u : URL) : Prop :=
  raw <> "" /\ url_Parse raw = Ok u /\ (Scheme u = "http" \/ Scheme u = "https") /\ url_Host u <> "".

(** ** HTTP dates *)

Definition two_digits (z : Z) : string :=
  if z <? 10 then "0" +:+ FormatInt z else FormatInt z.
Definition four_digits (z : Z) : string :=
  (if z <? 10 then "000" else if z <? 100 then "00" else if z <? 1000 then "0" else "")
  +:+ FormatInt z.

Definition weekday_name (d : Z) : string :=
  nth (Z.to_nat d) ["Sun"; "Mon"; "Tue"; "Wed"; "Thu"; "Fri"; "Sat"] "Sun".
Definition month_name (m : Z) : string :=
  nth (Z.to_nat m)
    [""; "Jan"; "Feb"; "Mar"; "Apr"; "May"; "Jun"; "Jul"; "Aug"; "Sep"; "Oct"; "Nov"; "Dec"] "".

(** Year, month and day of a count of days since 1970-01-01, in the proleptic
    Gregorian calendar. *)
Definition civil_of_days (days : Z) : Z * Z * Z :=
  let z := days + 719468 in
  let era := z / 146097 in
  let doe := z mod 146097 in
  let yoe := (doe - doe / 1460 + doe / 36524 - doe / 146096) / 365 in
  let doy := doe - (365 * yoe + yoe / 4 - yoe / 100) in
  let mp := (5 * doy + 2) / 153 in
  let d := doy - (153 * mp + 2) / 5 + 1 in
  let m := if mp <? 10 then mp + 3 else mp - 9 in
  (yoe + era * 400 + (if m <=? 2 then 1 else 0), m, d).

(** [t.UTC().Format(http.TimeFormat)], [t] in nanoseconds since the epoch. *)
Definition FormatHTTPDate (t : Z) : string :=
  let secs := t / Second in
  let days := secs / 86400 in
  let tod := secs mod 86400 in
  let '(y, m, d) := civil_of_days days in
  weekday_name ((days + 4) mod 7) +:+ ", " +:+ two_digits d +:+ " " +:+ month_name m +:+ " "
  +:+ four_digits y +:+ " " +:+ two_digits (tod / 3600) +:+ ":"
  +:+ two_digits (tod / 60 mod 60) +:+ ":" +:+ two_digits (tod mod 60) +:+ " GMT".

Example format_date : FormatHTTPDate (1758500000 * Second) = "Mon, 22 Sep 2025 00:13:20 GMT".
Proof. vm_compute. reflexivity. Qed.

Lemma FormatHTTPDate_nonempty t : FormatHTTPDate t <> "".
Proof.
  unfold FormatHTTPDate. destruct (civil_of_days (t / Second / 86400)) as [[y m] d].
  by destruct (weekday_name _).
Qed.
