(* ===== verification/Json.v ===== *)
(** * JSON (package encoding/json)

    Texts are read in two stages, a lexer over bytes and a parser over tokens, so
    that what only moves white space ([compact], [indent]) is seen to leave the
    tokens alone. Encoding goes through a tree of what is written. *)

From S2P Require Import Prelude GoErrors GoStrings Utf8 Crypto.

#[local] Set Warnings "-register-all".

(** ** String literals *)

(** A code point below U+110000 that is not a surrogate. *)
Definition utf8_encode (r : N) : string :=
  if (r <? 128)%N then String (ascii_of_N r) ""
  else if (r <? 2048)%N then
    String (ascii_of_N (192 + r / 64)) (String (ascii_of_N (128 + r mod 64)) "")
  else if (r <? 65536)%N then
    String (ascii_of_N (224 + r / 4096))
      (String (ascii_of_N (128 + r / 64 mod 64)) (String (ascii_of_N (128 + r mod 64)) ""))
  else
    String (ascii_of_N (240 + r / 262144))
      (String (ascii_of_N (128 + r / 4096 mod 64))
         (String (ascii_of_N (128 + r / 64 mod 64)) (String (ascii_of_N (128 + r mod 64)) ""))).

Definition is_high (r : N) : bool := (55296 <=? r)%N && (r <=? 56319)%N.
Definition is_low (r : N) : bool := (56320 <=? r)%N && (r <=? 57343)%N.

Definition simple_escape (e : ascii) : option ascii :=
  match e with
  | "034" | "\" | "/" => Some e
  | "b" => Some "008"
  | "f" => Some "012"
  | "n" => Some "010"
  | "r" => Some "013"
  | "t" => Some "009"
  | _ => None
  end%char.

(** What a literal's body is made of: bytes, and the surrogates its escapes name.
    Any other escaped code point is its UTF-8 bytes. *)
Inductive unit16 : Set :=
| UByte (c : ascii)
| USur (n : N).

#[global] Instance unit16_eq_dec : EqDecision unit16.
Proof. solve_decision. Defined.

Definition code_units (n : N) : list unit16 :=
  if is_high n || is_low n then [USur n] else map UByte (String.list_ascii_of_string (utf8_encode n)).

(** Surrogates that do not pair are U+FFFD. *)
Fixpoint units_value (us : list unit16) : string :=
  match us with
  | [] => ""
  | UByte c :: us => String c (units_value us)
  | USur h :: us =>
      match us with
      | USur l :: us' =>
          if is_high h && is_low l
          then utf8_encode (65536 + (h - 55296) * 1024 + (l - 56320)) +:+ units_value us'
          else rune_error +:+ units_value us
      | _ => rune_error +:+ units_value us
      end
  end.

(** ** Tokens *)

Inductive token : Set :=
| TPunct (c : ascii)          (* one of the six punctuators *)
| TAtom (text : string)       (* a literal name or a number *)
| TStr (s : string).          (* a string, as its value *)

#[global] Instance token_eq_dec : EqDecision token.
Proof. solve_decision. Defined.

Definition is_json_space (c : ascii) : bool :=
  bool_decide (c = " "%char) || bool_decide (c = tab) || bool_decide (c = "013"%char)
  || bool_decide (c = newline).
Definition is_punct (c : ascii) : bool := has_byte "{}[],:" c.
Definition is_quote (c : ascii) : bool := bool_decide (c = quote).
Definition is_backslash (c : ascii) : bool := bool_decide (c = "\"%char).

(** Between tokens, in an atom (its text so far), in a string (its units so far,
    latest first), after its backslash, or in the hex digits of an escape, of
    which [k] follow the next. *)
Inductive lex_state : Set :=
| LOut
| LAtom (acc : string)
| LStr (acc : list unit16)
| LEsc (acc : list unit16)
| LHex (acc : list unit16) (k : nat) (n : N).

(** A byte that does not belong to an atom: what it is, and the state after. *)
Definition lex_out (c : ascii) : list token * lex_state :=
  if is_json_space c then ([], LOut)
  else if is_punct c then ([TPunct c], LOut)
  else if is_quote c then ([], LStr [])
  else ([], LAtom (String c "")).

Definition is_delimiter (c : ascii) : bool := is_json_space c || is_punct c || is_quote c.

(** One byte: [None] when a literal is malformed. *)
Definition lex_step (st : lex_state) (c : ascii) : option (list token * lex_state) :=
  match st with
  | LOut => Some (lex_out c)
  | LAtom acc =>
      if is_delimiter c then Some (TAtom acc :: (lex_out c).1, (lex_out c).2)
      else Some ([], LAtom (acc +:+ String c ""))
  | LStr acc =>
      if is_quote c then Some ([TStr (to_valid (units_value (rev acc)))], LOut)
      else if is_backslash c then Some ([], LEsc acc)
      else if (b2n c <? 32)%N then None
      else Some ([], LStr (UByte c :: acc))
  | LEsc acc =>
      if bool_decide (c = "u"%char) then Some ([], LHex acc 3 0)
      else b ← simple_escape c; Some ([], LStr (UByte b :: acc))
  | LHex acc k n =>
      h ← hex_val c;
      match k with
      | O => Some ([], LStr (rev (code_units (16 * n + h)) ++ acc))
      | S k => Some ([], LHex acc k (16 * n + h))
      end
  end.

Definition lex_end (st : lex_state) : option (list token) :=
  match st with
  | LOut => Some []
  | LAtom acc => Some [TAtom acc]
  | _ => None
  end.

(** The tokens of a text read from a state. *)
Fixpoint lex_from (st : lex_state) (s : string) : option (list token) :=
  match s with
  | EmptyString => lex_end st
  | String c s =>
      '(ts, st) ← lex_step st c;
      ts' ← lex_from st s;
      Some (ts ++ ts')
  end.

Definition lex (s : string) : option (list token) := lex_from LOut s.

(** ** Values *)

Inductive json : Type :=
| JNull
| JBool (b : bool)
| JNumber (text : string)
| JString (s : string)
| JArray (l : list json)
| JObject (members : list (string * json)).

(** A number: sign, digits without a leading zero, fraction, exponent. *)
Definition digits1 (s : string) : option string :=
  match span is_digit s with (String _ _, r) => Some r | _ => None end.
Definition number_exponent (s : string) : bool :=
  match s with
  | EmptyString => true
  | String c r =>
      if bool_decide (lower_byte c = "e"%char) then
        let r := match r with String "+" r | String "-" r => r | _ => r end in
        bool_decide (digits1 r = Some "")
      else false
  end.
Definition number_fraction (s : string) : bool :=
  match s with
  | String "." r => match digits1 r with Some r => number_exponent r | None => false end
  | _ => number_exponent s
  end.
Definition is_number (s : string) : bool :=
  let s := match s with String "-" r => r | _ => s end in
  match s with
  | String "0" r => number_fraction r
  | _ => match digits1 s with Some r => number_fraction r | None => false end
  end.

Definition atom_value (text : string) : option json :=
  if bool_decide (text = "null") then Some JNull
  else if bool_decide (text = "true") then Some (JBool true)
  else if bool_decide (text = "false") then Some (JBool false)
  else if is_number text then Some (JNumber text)
  else None.

(** ** Parsing *)

(** A punctuator in front. *)
Definition expect (c : ascii) (ts : list token) : option (list token) :=
  match ts with
  | TPunct d :: ts => if bool_decide (d = c) then Some ts else None
  | _ => None
  end.

Fixpoint parse_value (n : nat) (ts : list token) : option (json * list token) :=
  match n with
  | O => None
  | S n =>
      match ts with
      | TStr s :: ts => Some (JString s, ts)
      | TAtom a :: ts => v ← atom_value a; Some (v, ts)
      | TPunct c :: ts =>
          if bool_decide (c = "{"%char) then
            match expect "}" ts with
            | Some ts => Some (JObject [], ts)
            | None => '(ms, ts) ← parse_members n ts; Some (JObject ms, ts)
            end
          else if bool_decide (c = "["%char) then
            match expect "]" ts with
            | Some ts => Some (JArray [], ts)
            | None => '(l, ts) ← parse_elements n ts; Some (JArray l, ts)
            end
          else None
      | [] => None
      end
  end
with parse_members (n : nat) (ts : list token) : option (list (string * json) * list token) :=
  match n with
  | O => None
  | S n =>
      match ts with
      | TStr k :: ts =>
          ts ← expect ":" ts;
          '(v, ts) ← parse_value n ts;
          match expect "}" ts with
          | Some ts => Some ([(k, v)], ts)
          | None => ts ← expect "," ts; '(ms, ts) ← parse_members n ts; Some ((k, v) :: ms, ts)
          end
      | _ => None
      end
  end
with parse_elements (n : nat) (ts : list token) : option (list json * list token) :=
  match n with
  | O => None
  | S n =>
      '(v, ts) ← parse_value n ts;
      match expect "]" ts with
      | Some ts => Some ([v], ts)
      | None => ts ← expect "," ts; '(l, ts) ← parse_elements n ts; Some (v :: l, ts)
      end
  end.

(** The nesting of a value. *)
Fixpoint json_depth (v : json) : Z :=
  match v with
  | JArray l => 1 + fold_right (fun x => Z.max (json_depth x)) 0 l
  | JObject ms => 1 + fold_right (fun m => Z.max (json_depth m.2)) 0 ms
  | _ => 0
  end.
Definition maxNestingDepth : Z := 10000.

(** Fuel: two levels of calls per token. *)
Definition parse_tokens (ts : list token) : option json :=
  match parse_value (2 * length ts + 1) ts with
  | Some (v, []) => Some v
  | _ => None
  end.

Definition parse_json (s : string) : option json :=
  ts ← lex s;
  v ← parse_tokens ts;
  if json_depth v <=? maxNestingDepth then Some v else None.

(** [json.Valid] *)
Definition Valid (s : string) : bool := match parse_json s with Some _ => true | None => false end.

(** Texts with an apostrophe for each quotation mark. *)
Definition quoted (s : string) : string := ReplaceByte s "'" quote.

Example values :
  map (fun s => parse_json (quoted s))
    [" {'a' : [1, -2.5e+3, true], 'b':null} "; "[]"; "01"; "[1,]"; "{'a':1,}"; "truefalse"; "1 2"; "";
     "'\u00e9\ud83d\ude00\ud83dx\n'"; "'a"; "'\x'"; "1.e2"; "[[{}]]"]
  = [Some (JObject [("a", JArray [JNumber "1"; JNumber "-2.5e+3"; JBool true]); ("b", JNull)]);
     Some (JArray []); None; None; None; None; None; None;
     Some (JString (utf8_encode 233 +:+ utf8_encode 128512 +:+ rune_error +:+ "x" +:+ String newline ""));
     None; None; None; Some (JArray [JArray [JObject []]])].
Proof. vm_compute. reflexivity. Qed.

(** ** Layout *)

(** Where a byte of a text stands: outside strings, in one, after a backslash. *)
Inductive text_state : Set := InOut | InStr | InEsc.

#[global] Instance text_state_eq_dec : EqDecision text_state.
Proof. solve_decision. Defined.

Definition text_step (st : text_state) (c : ascii) : text_state :=
  match st with
  | InOut => if is_quote c then InStr else InOut
  | InStr => if is_quote c then InOut else if is_backslash c then InEsc else InStr
  | InEsc => InStr
  end.

Definition hex_low (c : ascii) : ascii := hex_digit (b2n c mod 16).
(** The escape of an ASCII byte. *)
Definition escape_byte (c : ascii) : string :=
  "\u00" +:+ String (hex_digit (b2n c / 16)) (String (hex_low c) "").
Definition is_html (c : ascii) : bool := has_byte "<>&" c.
(** The last byte of U+2028 and U+2029, after their first two. *)
Definition is_separator (a b c : ascii) : bool :=
  (b2n a =? 226)%N && (b2n b =? 128)%N && ((b2n c =? 168)%N || (b2n c =? 169)%N).

(** [json.Compact] with HTML escaping, as an encoder applies it to a
    RawMessage. *)
Fixpoint compact_go (st : text_state) (s : string) : string :=
  match s with
  | EmptyString => ""
  | String c r =>
      match st with
      | InOut =>
          if is_json_space c then compact_go InOut r
          else String c (compact_go (text_step InOut c) r)
      | _ =>
          if is_html c then escape_byte c +:+ compact_go (text_step st c) r
          else
            match r with
            | String a (String b r') =>
                if is_separator c a b then "\u202" +:+ String (hex_low b) (compact_go InStr r')
                else String c (compact_go (text_step st c) r)
            | _ => String c (compact_go (text_step st c) r)
            end
      end
  end.
Definition compact (s : string) : string := compact_go InOut s.

Fixpoint repeat_string (n : nat) (s : string) : string :=
  match n with O => "" | S n => s +:+ repeat_string n s end.

Section indent.
Context (prefix ind : string).

Definition new_line (depth : nat) : string := String newline (prefix +:+ repeat_string depth ind).

(** [json.Indent] on a valid text. [need]: an opening bracket was written and its
    line break is due, unless it closes at once; white space after the value is
    kept. *)
Fixpoint indent_go (st : text_state) (started : bool) (depth : nat) (need : bool) (s : string)
  : string :=
  match s with
  | EmptyString => ""
  | String c r =>
      match st with
      | InOut =>
          if is_json_space c then
            if started && (depth =? 0)%nat && negb need
            then String c (indent_go InOut started depth need r)
            else indent_go InOut started depth need r
          else if bool_decide (c = "}"%char) || bool_decide (c = "]"%char) then
            if need then String c (indent_go InOut true depth false r)
            else new_line (Nat.pred depth) +:+ String c (indent_go InOut true (Nat.pred depth) false r)
          else
            let depth' := if need then S depth else depth in
            (if need then new_line depth' else "") +:+
            (if bool_decide (c = "{"%char) || bool_decide (c = "["%char) then
               String c (indent_go InOut true depth' true r)
             else if bool_decide (c = ","%char) then
               String c (new_line depth' +:+ indent_go InOut true depth' false r)
             else if bool_decide (c = ":"%char) then
               String c (String " " (indent_go InOut true depth' false r))
             else String c (indent_go (text_step InOut c) true depth' false r))
      | _ => String c (indent_go (text_step st c) started depth need r)
      end
  end.
Definition indent (s : string) : string := indent_go InOut false 0 false s.
End indent.

(** [json.Indent]; [None] for a text that is not JSON. *)
Definition Indent (s prefix ind : string) : option string :=
  if Valid s then Some (indent prefix ind s) else None.

(** ** Encoding *)

(** What is written: values, raw messages (the empty one is nil, written as null),
    and what a Marshaler that fails leaves. *)
Inductive jout : Type :=
| OString (s : string)
| OInt64 (z : Z)
| OBool (b : bool)
| ORaw (raw : string)
| OError (e : error)
| OArray (l : list jout)
| OObject (members : list (string * jout)).

Definition escape_rune (r : string) : string :=
  match r with
  | String c EmptyString =>
      if is_quote c || is_backslash c then String "\" r
      else if bool_decide (c = "008"%char) then "\b"
      else if bool_decide (c = "012"%char) then "\f"
      else if bool_decide (c = newline) then "\n"
      else if bool_decide (c = "013"%char) then "\r"
      else if bool_decide (c = tab) then "\t"
      else if (b2n c <? 32)%N || is_html c then escape_byte c
      else r
  | String a (String b (String c EmptyString)) =>
      if is_separator a b c then "\u202" +:+ String (hex_low c) "" else r
  | _ => r
  end.

(** A string; a byte that is not UTF-8 is written as U+FFFD. *)
Definition encode_string (s : string) : string :=
  String quote (Join (map escape_rune (runes s)) "" +:+ String quote "").

Definition raw_error : error := New "json: error calling MarshalJSON for type json.RawMessage".

(** [json.Marshal] *)
Fixpoint Marshal (v : jout) : res string :=
  match v with
  | OString s => Ok (encode_string s)
  | OInt64 z => Ok (FormatInt z)
  | OBool b => Ok (if b then "true" else "false")
  | ORaw raw =>
      if bool_decide (raw = "") then Ok "null"
      else if Valid raw then Ok (compact raw) else Fail raw_error
  | OError e => Fail e
  | OArray l =>
      parts ← (fix go (l : list jout) : res (list string) :=
                 match l with
                 | [] => Ok []
                 | x :: l => s ← Marshal x; parts ← go l; Ok (s :: parts)
                 end) l;
      Ok ("[" +:+ Join parts "," +:+ "]")
  | OObject ms =>
      parts ← (fix go (ms : list (string * jout)) : res (list string) :=
                 match ms with
                 | [] => Ok []
                 | (k, x) :: ms =>
                     s ← Marshal x; parts ← go ms; Ok ((encode_string k +:+ ":" +:+ s) :: parts)
                 end) ms;
      Ok ("{" +:+ Join parts "," +:+ "}")
  end.

(** An encoder with [SetIndent]. *)
Definition Encode (prefix ind : string) (v : jout) : res string :=
  s ← Marshal v; Ok (indent prefix ind (s +:+ String newline "")).

Example marshalled :
  Marshal (OObject [("a<", OString (String "195" (String "010" "x"))); ("n", OInt64 (-5));
                    ("raw", ORaw (quoted " {'k' : [ 1,'<' ] } ")); ("nil", ORaw ""); ("l", OArray [OBool true; OBool false])])
  = Ok (quoted "{'a\u003c':'" +:+ rune_error +:+ quoted "\nx','n':-5,'raw':{'k':[1,'\u003c']},'nil':null,'l':[true,false]}").
Proof. vm_compute. reflexivity. Qed.

Example indented :
  indent "" "  " (quoted "{'a':[1,{}],'b':'x{'}" +:+ String newline "")
  = Join [quoted "{"; quoted "  'a': ["; "    1,"; "    {}"; "  ],"; quoted "  'b': 'x{'"; "}"; ""] (String newline "").
Proof. vm_compute. reflexivity. Qed.

(** ** Decoding into structs *)

(** The members of an object as they stand in its text, [depth] counting the
    brackets around: the pieces between the commas of the outermost level. *)
Fixpoint split_members (st : text_state) (depth : nat) (acc s : string) : list string :=
  match s with
  | EmptyString => []
  | String c r =>
      let st' := text_step st c in
      let kept := acc +:+ String c "" in
      match st with
      | InOut =>
          if has_byte "{[" c then split_members st' (S depth) (if (depth =? 0)%nat then "" else kept) r
          else if has_byte "}]" c then
            if (depth =? 1)%nat then [acc] else split_members st' (Nat.pred depth) kept r
          else if bool_decide (c = ","%char) && (depth =? 1)%nat then acc :: split_members st' depth "" r
          else split_members st' depth kept r
      | _ => split_members st' depth kept r
      end
  end.

Fixpoint after_colon (st : text_state) (s : string) : string :=
  match s with
  | EmptyString => ""
  | String c r =>
      match st with
      | InOut => if bool_decide (c = ":"%char) then r else after_colon (text_step InOut c) r
      | _ => after_colon (text_step st c) r
      end
  end.

Definition trim_json_space (s : string) : string :=
  str_rev (span is_json_space (str_rev (span is_json_space s).2)).2.

(** The text of each member's value, without the white space around it. *)
Definition member_raws (s : string) : list string :=
  map (fun p => trim_json_space (after_colon InOut p)) (split_members InOut 0 "" s).

Example raws :
  member_raws (quoted " { 'a' : {'x': [1, 2]} , 'b:,':'}\'' ,'c': 1 } ")
  = [quoted "{'x': [1, 2]}"; quoted "'}\''"; "1"].
Proof. vm_compute. reflexivity. Qed.

Definition json_kind (v : json) : string :=
  match v with
  | JNull => "null" | JBool _ => "bool" | JNumber _ => "number" | JString _ => "string"
  | JArray _ => "array" | JObject _ => "object"
  end.

Definition type_error (kind target typ : string) : error :=
  New ("json: cannot unmarshal " +:+ kind +:+ " into Go " +:+ target +:+ " of type " +:+ typ).
Definition struct_field (struct field : string) : string :=
  "struct field " +:+ struct +:+ "." +:+ field.
(** A SyntaxError; its text is not modelled. *)
Definition syntax_error : error := New "json: syntax error".

Section unmarshal.
Context {U : Unicode}.

(** The field a key selects: the one of that name, or else one that differs from
    it by case only. *)
Definition field_of (names : list string) (key : string) : option string :=
  if str_mem key names then Some key else List.find (fun n => EqualFold n key) names.

(** A value into a string field; null leaves it alone. *)
Definition set_string (struct field old : string) (v : json) : string * option error :=
  match v with
  | JString s => (s, None)
  | JNull => (old, None)
  | _ => (old, Some (type_error (json_kind v) (struct_field struct field) "string"))
  end.

(** Into a map[string]string field; an object adds to what is there. *)
Definition set_map (struct field : string) (old : gmap string string) (v : json)
  : gmap string string * option error :=
  match v with
  | JObject ms =>
      fold_left (fun '(m, e) '(k, v) =>
                   let '(s, e') := set_string struct field "" v in (<[k := s]> m, e ∪ e'))
        ms (old, None)
  | JNull => (∅, None)
  | _ => (old, Some (type_error (json_kind v) (struct_field struct field) "map[string]string"))
  end.

(** [json.Unmarshal] into a struct: its members in order, through [set], which
    is given a key, a value's text and the value; the first mismatch is the
    error, and unknown keys are ignored. *)
Definition Unmarshal {V} (typ : string) (set : V -> string -> string -> json -> V * option error)
  (zero : V) (s : string) : res V :=
  match parse_json s with
  | None => Fail syntax_error
  | Some JNull => Ok zero
  | Some (JObject ms) =>
      match fold_left (fun '(v, e) '((k, x), raw) => let '(v, e') := set v k raw x in (v, e ∪ e'))
              (combine ms (member_raws s)) (zero, None) with
      | (v, None) => Ok v
      | (_, Some e) => Fail e
      end
  | Some v => Fail (type_error (json_kind v) "value" typ)
  end.
End unmarshal.
