(* ===== verification/JsonFacts.v ===== *)
(** * JSON: what the two stages preserve

    Layout leaves the tokens of a text alone ([compact_lex], [indent_lex]); a
    parse takes its tokens within the fuel [parse_tokens] gives ([parse_takes]);
    and what is marshalled parses back to the value it was written from
    ([Marshal_encodes]). *)

From S2P Require Import Prelude GoErrors GoStrings Utf8 Crypto Json.

(** ** The lexer *)

Lemma lex_from_step st c st' s :
  lex_step st c = Some ([], st') -> lex_from st (String c s) = lex_from st' s.
Proof. intros H. cbn [lex_from]. rewrite H. cbn. by destruct (lex_from st' s). Qed.

Lemma lex_from_cons st c ts st' s :
  lex_step st c = Some (ts, st') -> lex_from st (String c s) = app ts <$> lex_from st' s.
Proof. intros H. cbn [lex_from]. rewrite H. cbn. by destruct (lex_from st' s). Qed.

Lemma lex_from_inv st c s out :
  lex_from st (String c s) = Some out ->
  exists ts st' out', lex_step st c = Some (ts, st') /\ lex_from st' s = Some out' /\ out = ts ++ out'.
Proof.
  cbn [lex_from]. destruct (lex_step st c) as [[ts st']|]; [|done]. cbn.
  destruct (lex_from st' s) as [out'|] eqn:E; [|done]. intros [= <-]. eauto 6.
Qed.

(** The three kinds of delimiters exclude each other. *)
Lemma space_not_punct c : is_json_space c = true -> is_punct c = false /\ is_quote c = false.
Proof. by byte_cases c. Qed.
Lemma punct_not_space c : is_punct c = true -> is_json_space c = false /\ is_quote c = false.
Proof. by byte_cases c. Qed.

Lemma lex_out_space c : is_json_space c = true -> lex_out c = ([], LOut).
Proof. intros H. unfold lex_out. by rewrite H. Qed.
Lemma lex_out_punct c : is_punct c = true -> lex_out c = ([TPunct c], LOut).
Proof. intros H. unfold lex_out. destruct (punct_not_space c H) as [-> _]. by rewrite H. Qed.

(** White space between tokens. *)
Lemma lex_space_out c s : is_json_space c = true -> lex_from LOut (String c s) = lex_from LOut s.
Proof. intros H. apply lex_from_step. cbn. by rewrite lex_out_space. Qed.
Lemma lex_space_atom a c s :
  is_json_space c = true -> lex_from (LAtom a) (String c s) = cons (TAtom a) <$> lex_from LOut s.
Proof.
  intros H. rewrite (lex_from_cons _ c [TAtom a] LOut); [done|].
  cbn. unfold is_delimiter. by rewrite H, lex_out_space.
Qed.

Lemma lex_spaces w s :
  str_forallb is_json_space w = true -> lex_from LOut (w +:+ s) = lex_from LOut s.
Proof.
  induction w as [|c w IH]; [done|]. cbn [str_forallb]. intros [Hc Hw]%andb_prop.
  rewrite str_app_cons, lex_space_out by done. by apply IH.
Qed.

(** A text in front of a punctuator. *)
Lemma lex_from_punct st s a p t b :
  lex_from st s = Some a -> is_punct p = true -> lex_from LOut t = Some b ->
  lex_from st (s +:+ String p t) = Some (a ++ TPunct p :: b).
Proof.
  intros Hs Hp Ht. revert st a Hs. induction s as [|c s IH]; intros st a Hs.
  - change ("" +:+ ?x) with x. cbn [lex_from] in Hs.
    destruct st as [|acc| | |]; try discriminate; injection Hs as <-.
    + rewrite (lex_from_cons _ p [TPunct p] LOut), Ht; [done|]. cbn. by rewrite lex_out_punct.
    + rewrite (lex_from_cons _ p [TAtom acc; TPunct p] LOut), Ht; [done|].
      cbn. unfold is_delimiter. by rewrite Hp, orb_true_r, lex_out_punct.
  - rewrite str_app_cons. apply lex_from_inv in Hs as (ts & st' & out & Hstep & Hs & ->).
    rewrite (lex_from_cons _ _ _ _ _ Hstep), (IH _ _ Hs). cbn. by rewrite app_assoc.
Qed.

(** ** Layout *)

(** No two atoms in a row: what white space may be dropped from. *)
Fixpoint separated (ts : list token) : bool :=
  match ts with
  | TAtom _ :: ts => match ts with TAtom _ :: _ => false | _ => separated ts end
  | _ :: ts => separated ts
  | [] => true
  end.

Lemma separated_app_punct a c b :
  separated (a ++ TPunct c :: b) = separated a && separated b.
Proof.
  induction a as [|[d|x|x] a IH]; [done|exact IH| |exact IH].
  destruct a as [|[d|y|y] a]; [done|exact IH|done|exact IH].
Qed.

Lemma separated_tail a b : separated (a ++ b) = true -> separated b = true.
Proof.
  induction a as [|[c|x|s] a IH]; [done|exact IH| |exact IH].
  cbn [app separated]. destruct (a ++ b) as [|[] l] eqn:E; try done; intros H; by apply IH.
Qed.

Definition text_of (st : lex_state) : text_state :=
  match st with
  | LOut | LAtom _ => InOut
  | LStr _ | LHex _ _ _ => InStr
  | LEsc _ => InEsc
  end.

(** The state over the text as it was, and over what is written of it: the same,
    or the white space that ended an atom was dropped and the atom is pending. *)
Inductive layout_sim : lex_state -> lex_state -> list token -> Prop :=
| sim_same st : layout_sim st st []
| sim_pending a : layout_sim LOut (LAtom a) [TAtom a].

Lemma lex_atom_first a s ts : lex_from (LAtom a) s = Some ts -> exists x r, ts = TAtom x :: r.
Proof.
  revert a ts. induction s as [|c s IH]; intros a ts.
  { intros [= <-]. by exists a, []. }
  intros (u & st & out & Hstep & Hs & ->)%lex_from_inv. cbn in Hstep.
  destruct (is_delimiter c).
  - injection Hstep as <- <-. by eexists _, _.
  - injection Hstep as <- <-. by apply IH in Hs.
Qed.

(** A byte that is not white space, copied out of strings. *)
Lemma sim_out_step st st' pend c ts st1 rest :
  text_of st = InOut -> layout_sim st st' pend -> is_json_space c = false ->
  lex_step st c = Some (ts, st1) -> (forall out, lex_from st1 rest = Some out -> separated (pend ++ ts ++ out) = true) ->
  is_Some (lex_from st1 rest) ->
  lex_step st' c = Some (pend ++ ts, st1) /\ text_step InOut c = text_of st1.
Proof.
  intros Ht Hsim Hc Hstep Hsep [out Hout].
  assert (st = LOut /\ lex_out c = (ts, st1) \/
          exists a, st = LAtom a /\ (if is_delimiter c then Some (TAtom a :: (lex_out c).1, (lex_out c).2)
                                    else Some ([], LAtom (a +:+ String c ""))) = Some (ts, st1)) as Hcase.
  { destruct st as [|a| | |]; try discriminate; [left|right; by exists a].
    split; [done|]. cbn in Hstep. congruence. }
  clear Hstep. unfold lex_out, is_delimiter in Hcase. rewrite Hc in Hcase. cbn [orb] in Hcase.
  split.
  - destruct Hsim as [st|a].
    + destruct Hcase as [[-> H]|(a & -> & H)]; cbn; unfold lex_out, is_delimiter; rewrite Hc;
        [by rewrite H|exact H].
    + destruct Hcase as [[_ H]|(? & ? & _)]; [|done]. cbn. unfold lex_out, is_delimiter.
      rewrite Hc. cbn [orb]. destruct (is_punct c); [by injection H as <- <-|].
      destruct (is_quote c); [by injection H as <- <-|]. injection H as <- <-.
      destruct (lex_atom_first _ _ _ Hout) as (x & r & ->). by specialize (Hsep _ Hout).
  - unfold text_step. destruct (is_punct c) eqn:Hp.
    + destruct (punct_not_space c Hp) as [_ ->].
      destruct Hcase as [[_ H]|(a & _ & H)]; by injection H as <- <-.
    + destruct Hcase as [[_ H]|(a & _ & H)]; destruct (is_quote c); by injection H as <- <-.
Qed.

(** White space out of strings: dropped, what it ended is pending; copied, it is
    emitted. *)
Lemma sim_space st st' pend c ts st1 :
  text_of st = InOut -> layout_sim st st' pend -> is_json_space c = true ->
  lex_step st c = Some (ts, st1) ->
  st1 = LOut /\ layout_sim LOut st' (pend ++ ts) /\
  forall s, lex_from st' (String c s) = app (pend ++ ts) <$> lex_from LOut s.
Proof.
  intros Ht Hsim Hc Hstep. destruct Hsim as [st|a];
    [destruct st as [|a| | |]; try discriminate|]; cbn in Hstep; unfold is_delimiter in Hstep;
    rewrite ?Hc, lex_out_space in Hstep by done; injection Hstep as <- <-;
    (split; [done|split; [constructor|]]); intros s.
  - rewrite lex_space_out by done. by destruct (lex_from LOut s).
  - rewrite lex_space_atom by done. by destruct (lex_from LOut s).
  - rewrite lex_space_atom by done. by destruct (lex_from LOut s).
Qed.

(** One step over a concrete byte. *)
Ltac lex_go := repeat (erewrite lex_from_step; [|reflexivity]).

Lemma lex_html acc c s :
  is_html c = true -> lex_from (LStr acc) (escape_byte c +:+ s) = lex_from (LStr (UByte c :: acc)) s.
Proof.
  byte_cases c; intros H; try discriminate H; clear H.
  all: match goal with |- lex_from _ (?e +:+ _) = _ => let v := eval vm_compute in e in change e with v end.
  all: rewrite !str_app_cons; change ("" +:+ ?x) with x; lex_go; reflexivity.
Qed.

Lemma is_separator_cases a b c :
  is_separator a b c = true ->
  a = "226"%char /\ b = "128"%char /\ (c = "168"%char \/ c = "169"%char).
Proof.
  unfold is_separator. intros [[Ha Hb]%andb_prop Hc]%andb_prop.
  assert (forall x n, (b2n x =? n)%N = true -> x = ascii_of_N n) as Hx.
  { intros x n Hn%N.eqb_eq. rewrite <- Hn. unfold b2n. by rewrite ascii_N_embedding. }
  apply Hx in Ha as ->, Hb as ->. split; [done|split; [done|]].
  apply orb_prop in Hc as [Hc|Hc]; apply Hx in Hc as ->; [by left|by right].
Qed.

Lemma lex_separator acc a b c s :
  is_separator a b c = true ->
  lex_from (LStr acc) ("\u202" +:+ String (hex_low c) s) = lex_from (LStr acc) (String a (String b (String c s))).
Proof.
  intros (-> & -> & [-> | ->])%is_separator_cases.
  all: match goal with |- context [hex_low ?c] => let v := eval vm_compute in (hex_low c) in change (hex_low c) with v end.
  all: rewrite !str_app_cons; change ("" +:+ ?x) with x; lex_go; reflexivity.
Qed.

(** A byte of a string that is copied. *)
Lemma text_step_str st c ts st1 :
  text_of st <> InOut -> lex_step st c = Some (ts, st1) -> text_step (text_of st) c = text_of st1.
Proof.
  intros Ht Hstep. destruct st as [|a|acc|acc|acc k n]; try done; cbn in Hstep |- *.
  - destruct (is_quote c); [by injection Hstep as <- <-|].
    destruct (is_backslash c); [by injection Hstep as <- <-|].
    destruct (_ <? 32)%N; [done|]. by injection Hstep as <- <-.
  - destruct (bool_decide _); [by injection Hstep as <- <-|].
    destruct (simple_escape c); [|done]. by injection Hstep as <- <-.
  - destruct (is_quote c) eqn:Hq.
    { unfold is_quote in Hq. apply bool_decide_eq_true in Hq as ->. by cbn in Hstep. }
    destruct (is_backslash c) eqn:Hb.
    { unfold is_backslash in Hb. apply bool_decide_eq_true in Hb as ->. by cbn in Hstep. }
    destruct (hex_val c); [|done]. destruct k; by injection Hstep as <- <-.
Qed.

(** HTML bytes and the first byte of a separator continue no escape. *)
Lemma plain_only_in_str st c ts st1 :
  text_of st <> InOut -> is_html c = true \/ c = "226"%char -> lex_step st c = Some (ts, st1) ->
  exists acc, st = LStr acc /\ ts = [] /\ st1 = LStr (UByte c :: acc).
Proof.
  intros Ht Hc Hstep. destruct st as [|a|acc|acc|acc k n]; try done.
  - exists acc. split; [done|]. cbn in Hstep. destruct Hc as [Hc| ->].
    + revert Hstep. byte_cases c; try discriminate Hc; cbn; by intros [= <- <-].
    + cbn in Hstep. by injection Hstep as <- <-.
  - exfalso. destruct Hc as [Hc| ->]; [|done]. revert Hstep.
    byte_cases c; try discriminate Hc; done.
  - exfalso. destruct Hc as [Hc| ->]; [|done]. revert Hstep.
    byte_cases c; try discriminate Hc; done.
Qed.

Lemma compact_str_eq st c r :
  st <> InOut ->
  compact_go st (String c r) =
  if is_html c then escape_byte c +:+ compact_go (text_step st c) r
  else
    match r with
    | String a (String b r') =>
        if is_separator c a b then "\u202" +:+ String (hex_low b) (compact_go InStr r')
        else String c (compact_go (text_step st c) r)
    | _ => String c (compact_go (text_step st c) r)
    end.
Proof. by destruct st. Qed.

(** A byte in a string, the texts after it being compacted faithfully. *)
Lemma compact_str_step st c s ts :
  (forall s', (String.length s' <= String.length s)%nat -> forall st ts,
     lex_from st s' = Some ts -> separated ts = true ->
     lex_from st (compact_go (text_of st) s') = Some ts) ->
  text_of st <> InOut -> lex_from st (String c s) = Some ts -> separated ts = true ->
  lex_from st (compact_go (text_of st) (String c s)) = Some ts.
Proof.
  intros IH Hne Hlex Hsep.
  destruct (lex_from_inv _ _ _ _ Hlex) as (us & st1 & out & Hstep & Hout & ->).
  rewrite compact_str_eq, (text_step_str st c us st1 Hne Hstep) by done.
  assert (lex_from st1 (compact_go (text_of st1) s) = Some out) as Hrec
    by (apply IH; [done|done|by apply (separated_tail us)]).
  destruct (is_html c) eqn:Hh.
  { destruct (plain_only_in_str st c us st1 Hne (or_introl Hh) Hstep) as (acc & -> & -> & ->).
    by rewrite lex_html. }
  assert (lex_from st (String c (compact_go (text_of st1) s)) = Some (us ++ out)) as Hcopy
    by (by rewrite (lex_from_cons _ _ _ _ _ Hstep), Hrec).
  destruct s as [|a [|b s]]; [exact Hcopy|exact Hcopy|].
  destruct (is_separator c a b) eqn:Hsp; [|exact Hcopy].
  pose proof (is_separator_cases _ _ _ Hsp) as (-> & -> & Hb).
  destruct (plain_only_in_str st _ us st1 Hne (or_intror eq_refl) Hstep) as (acc & -> & -> & ->).
  rewrite lex_separator with (a := "226"%char) (b := "128"%char) by done.
  destruct (lex_from_inv _ _ _ _ Hout) as (us1 & st2 & out1 & Hstep1 & Hout1 & ->).
  destruct (lex_from_inv _ _ _ _ Hout1) as (us2 & st3 & out2 & Hstep2 & Hout2 & ->).
  injection Hstep1 as <- <-.
  assert (us2 = [] /\ st3 = LStr (UByte b :: UByte "128" :: UByte "226" :: acc)) as [-> ->]
    by (destruct Hb as [-> | ->]; by injection Hstep2 as <- <-).
  cbn [app]. rewrite <- (IH s ltac:(cbn; lia) _ _ Hout2 Hsep).
  destruct Hb as [-> | ->]; lex_go; reflexivity.
Qed.

Lemma compact_sim s :
  forall st st' pend ts, layout_sim st st' pend -> lex_from st s = Some ts -> separated (pend ++ ts) = true ->
  lex_from st' (compact_go (text_of st) s) = Some (pend ++ ts).
Proof.
  remember (String.length s) as k eqn:Hk. revert s Hk.
  induction (lt_wf k) as [k _ IH]. intros s -> st st' pend ts Hsim Hlex Hsep.
  destruct s as [|c s].
  { cbn [compact_go]. destruct Hsim as [st|a]; [done|]. by injection Hlex as <-. }
  pose proof (IH (String.length s) ltac:(cbn; lia) s eq_refl) as IHs.
  destruct (decide (text_of st = InOut)) as [Ht|Hne].
  2:{ assert (st' = st /\ pend = []) as [-> ->] by (by destruct Hsim).
      apply compact_str_step; [|done..]. intros s' Hs' st0 ts0 Hl0 Hs0.
      apply (IH (String.length s') ltac:(cbn; lia) s' eq_refl st0 st0 [] ts0); [constructor|done|done]. }
  destruct (lex_from_inv _ _ _ _ Hlex) as (us & st1 & out & Hstep & Hout & ->).
  rewrite Ht. cbn [compact_go]. destruct (is_json_space c) eqn:Hc.
  - destruct (sim_space st st' pend c us st1 Ht Hsim Hc Hstep) as (-> & Hsim' & _).
    change InOut with (text_of LOut). rewrite (IHs LOut st' (pend ++ us) out Hsim' Hout);
      by rewrite <- app_assoc.
  - destruct (sim_out_step st st' pend c us st1 s Ht Hsim Hc Hstep) as [Hstep' ->].
    { intros o Ho. by rewrite Hout in Ho; injection Ho as <-. }
    { by eexists. }
    rewrite (lex_from_cons _ _ _ _ _ Hstep'), (IHs st1 st1 [] out); [|constructor|done|].
    + cbn. by rewrite app_assoc.
    + apply (separated_tail (pend ++ us)). by rewrite <- app_assoc.
Qed.

(** Compacting changes no token. *)
Lemma compact_lex s ts : lex s = Some ts -> separated ts = true -> lex (compact s) = Some ts.
Proof. intros Hs Hsep. apply (compact_sim s LOut LOut [] ts); [constructor|done|done]. Qed.

(** ** Indenting *)

Lemma spaces_app a b :
  str_forallb is_json_space a = true -> str_forallb is_json_space b = true ->
  str_forallb is_json_space (a +:+ b) = true.
Proof. intros Ha Hb. by rewrite str_forallb_app, Ha, Hb. Qed.

Section indenting.
Context (prefix ind : string).
Context (Hprefix : str_forallb is_json_space prefix = true).
Context (Hind : str_forallb is_json_space ind = true).

Lemma new_line_spaces d :
  exists w, new_line prefix ind d = String newline w /\ str_forallb is_json_space w = true.
Proof.
  eexists. split; [reflexivity|]. apply spaces_app; [done|].
  induction d as [|d IH]; [done|]. by apply spaces_app.
Qed.

Lemma lex_new_line d s : lex_from LOut (new_line prefix ind d +:+ s) = lex_from LOut s.
Proof.
  destruct (new_line_spaces d) as (w & -> & Hw). rewrite str_app_cons, lex_space_out by done.
  by apply lex_spaces.
Qed.

(** A line break in front of a closing bracket. *)
Lemma lex_new_line_close st' d c s ts :
  st' = LOut \/ (exists a, st' = LAtom a) -> is_punct c = true ->
  lex_from st' (String c s) = Some ts -> lex_from st' (new_line prefix ind d +:+ String c s) = Some ts.
Proof.
  intros [-> | [a ->]] Hc Hs; [by rewrite lex_new_line|].
  destruct (new_line_spaces d) as (w & -> & Hw). rewrite str_app_cons.
  rewrite lex_space_atom, lex_spaces by done. rewrite <- Hs.
  rewrite (lex_from_cons LOut c [TPunct c] LOut) by (cbn; by rewrite lex_out_punct).
  rewrite (lex_from_cons (LAtom a) c [TAtom a; TPunct c] LOut).
  - by destruct (lex_from LOut s).
  - cbn. unfold is_delimiter. by rewrite Hc, orb_true_r, lex_out_punct.
Qed.

Lemma sim_out_states st st' pend :
  text_of st = InOut -> layout_sim st st' pend -> st' = LOut \/ exists a, st' = LAtom a.
Proof.
  intros Ht Hsim. destruct Hsim as [s|a]; [|right; by exists a].
  destruct s as [|a| | |]; try discriminate; [by left|right; by exists a].
Qed.

Lemma after_punct c st ts st1 :
  text_of st = InOut -> is_punct c = true -> lex_step st c = Some (ts, st1) -> st1 = LOut.
Proof.
  intros Ht Hc Hs. destruct st as [|a| | |]; try discriminate; cbn in Hs.
  - rewrite lex_out_punct in Hs by done. by injection Hs as <- <-.
  - unfold is_delimiter in Hs. rewrite Hc, orb_true_r, lex_out_punct in Hs by done.
    by injection Hs as <- <-.
Qed.

Lemma indent_str_eq st started depth need c r :
  st <> InOut ->
  indent_go prefix ind st started depth need (String c r)
  = String c (indent_go prefix ind (text_step st c) started depth need r).
Proof. by destruct st. Qed.

(** A byte out of strings that is not white space, with what goes around it. *)
Lemma indent_out_step st st' pend started depth need c s us st1 out :
  text_of st = InOut -> layout_sim st st' pend -> (need = true -> st = LOut /\ st' = LOut) ->
  is_json_space c = false -> lex_step st c = Some (us, st1) -> lex_from st1 s = Some out ->
  separated (pend ++ us ++ out) = true ->
  (forall started depth need, (need = true -> st1 = LOut) ->
     lex_from st1 (indent_go prefix ind (text_of st1) started depth need s) = Some out) ->
  lex_from st' (indent_go prefix ind InOut started depth need (String c s)) = Some (pend ++ us ++ out).
Proof.
  intros Ht Hsim Hneed Hc Hstep Hout Hsep Hrec. cbn [indent_go]. rewrite Hc.
  destruct (sim_out_step st st' pend c us st1 s Ht Hsim Hc Hstep) as [Hstep' Htext].
  { intros o Ho. by rewrite Hout in Ho; injection Ho as <-. }
  { by eexists. }
  assert (forall s' , lex_from st1 s' = Some out -> lex_from st' (String c s') = Some (pend ++ us ++ out)) as Hgo.
  { intros s' Hs'. rewrite (lex_from_cons _ _ _ _ _ Hstep'), Hs'. cbn. by rewrite app_assoc. }
  assert (is_punct c = true -> st1 = LOut) as Hp by (intros Hp; by eapply after_punct).
  destruct (bool_decide (c = "}"%char) || bool_decide (c = "]"%char)) eqn:Hclose.
  { assert (is_punct c = true) as Hpc
      by (apply orb_prop in Hclose as [Hx|Hx]; by apply bool_decide_eq_true in Hx as ->).
    rewrite (Hp Hpc) in Hrec, Hgo. destruct need.
    - apply Hgo, Hrec. done.
    - apply lex_new_line_close; [by eapply sim_out_states|done|]. apply Hgo, Hrec. done. }
  assert (forall d s', lex_from st' s' = Some (pend ++ us ++ out) ->
            lex_from st' ((if need then new_line prefix ind d else "") +:+ s') = Some (pend ++ us ++ out)) as Hpre.
  { intros d s' Hs'. destruct need; [|done]. destruct Hneed as [_ ->]; [done|]. by rewrite lex_new_line. }
  apply Hpre. destruct (bool_decide (c = "{"%char) || bool_decide (c = "["%char)) eqn:Hopen.
  { assert (is_punct c = true) as Hpc
      by (apply orb_prop in Hopen as [Hx|Hx]; by apply bool_decide_eq_true in Hx as ->).
    rewrite (Hp Hpc) in Hrec, Hgo. apply Hgo, Hrec. done. }
  destruct (bool_decide_reflect (c = ","%char)) as [-> |].
  { rewrite (Hp eq_refl) in Hrec, Hgo. apply Hgo. rewrite lex_new_line. by apply Hrec. }
  destruct (bool_decide_reflect (c = ":"%char)) as [-> |].
  { rewrite (Hp eq_refl) in Hrec, Hgo. apply Hgo. rewrite lex_space_out by done. by apply Hrec. }
  rewrite Htext. apply Hgo. by apply Hrec.
Qed.

Lemma indent_sim s :
  forall st st' pend started depth need ts,
    layout_sim st st' pend -> (need = true -> st = LOut /\ st' = LOut) ->
    lex_from st s = Some ts -> separated (pend ++ ts) = true ->
    lex_from st' (indent_go prefix ind (text_of st) started depth need s) = Some (pend ++ ts).
Proof.
  induction s as [|c s IH]; intros st st' pend started depth need ts Hsim Hneed Hlex Hsep.
  { cbn [indent_go]. destruct Hsim as [st|a]; [done|]. by injection Hlex as <-. }
  destruct (lex_from_inv _ _ _ _ Hlex) as (us & st1 & out & Hstep & Hout & ->).
  destruct (decide (text_of st = InOut)) as [Ht|Hne].
  2:{ assert (st' = st /\ pend = []) as [-> ->] by (by destruct Hsim).
      assert (need = false) as -> by (destruct need; [|done]; by destruct Hneed as [-> _]).
      rewrite indent_str_eq, (text_step_str st c us st1 Hne Hstep) by done.
      rewrite (lex_from_cons _ _ _ _ _ Hstep), (IH st1 st1 [] started depth false out);
        [done|constructor|done|done|by apply (separated_tail us)]. }
  rewrite Ht. destruct (is_json_space c) eqn:Hc.
  { cbn [indent_go]. rewrite Hc.
    destruct (sim_space st st' pend c us st1 Ht Hsim Hc Hstep) as (-> & Hsim' & Hcopy).
    rewrite app_assoc in Hsep |- *. change InOut with (text_of LOut).
    destruct (started && _ && _) eqn:E.
    - assert (need = false) as -> by (destruct need; [by rewrite andb_false_r in E|done]).
      rewrite Hcopy, (IH LOut LOut [] started depth false out); [done|constructor|done|done|].
      by apply (separated_tail (pend ++ us)).
    - apply IH; [done| |done|done]. intros Hn. split; [done|]. by destruct Hneed. }
  apply (indent_out_step st st' pend started depth need c s us st1 out); try done.
  intros st0 d0 n0 Hn0. apply (IH st1 st1 [] st0 d0 n0 out); [constructor| |done|].
  - intros Hn. by rewrite Hn0.
  - apply (separated_tail (pend ++ us)). by rewrite <- app_assoc.
Qed.

(** Indenting changes no token. *)
Lemma indent_lex s ts : lex s = Some ts -> separated ts = true -> lex (indent prefix ind s) = Some ts.
Proof. intros Hs Hsep. by apply (indent_sim s LOut LOut [] false 0 false ts); [constructor|..]. Qed.
End indenting.

(** ** The parser *)

Lemma expect_some c ts r : expect c ts = Some r -> ts = TPunct c :: r.
Proof.
  destruct ts as [|[d| |] ts]; try done. cbn.
  destruct (bool_decide_reflect (d = c)) as [-> |]; [by intros [= ->]|done].
Qed.
Lemma expect_eq c r : expect c (TPunct c :: r) = Some r.
Proof. cbn. by rewrite bool_decide_eq_true_2. Qed.

Lemma expect_head c x r r' : expect c (x :: r) = None -> expect c (x :: r') = None.
Proof. destruct x as [d| |]; cbn; [|done..]. by destruct (bool_decide _). Qed.

(** What a parse takes of its tokens: no two atoms in a row, it ends before its
    rest whatever that is, and two units of fuel a token are enough. *)
Definition takes {A} (parse : nat -> list token -> option (A * list token)) (extra : nat)
    (ts : list token) (v : A) (rest : list token) : Prop :=
  exists used, ts = used ++ rest /\ used <> [] /\ separated used = true /\
    forall m t, (2 * length used <= m + extra)%nat -> parse m (used ++ t) = Some (v, t).

Ltac parse_fuel m := destruct m as [|m]; [cbn in *; lia|].

Lemma takes_members_one k ts v rest :
  takes parse_value 1 ts v (TPunct "}" :: rest) ->
  takes parse_members 0 (TStr k :: TPunct ":" :: ts) [(k, v)] rest.
Proof.
  intros (used & -> & Hne & Hs & Hp). exists (TStr k :: TPunct ":" :: used ++ [TPunct "}"]).
  split_and!; [cbn; by rewrite <- app_assoc|done| |].
  - cbn. rewrite separated_app_punct, Hs. done.
  - intros m t Hm. parse_fuel m. cbn [app length] in *. rewrite length_app in Hm. cbn in Hm.
    cbn [parse_members]. rewrite expect_eq. cbn [mbind option_bind]. rewrite <- app_assoc.
    rewrite Hp by lia. cbn [mbind option_bind app]. by rewrite expect_eq.
Qed.

Lemma takes_members_more k ts v ts' ms rest :
  takes parse_value 1 ts v (TPunct "," :: ts') -> takes parse_members 0 ts' ms rest ->
  takes parse_members 0 (TStr k :: TPunct ":" :: ts) ((k, v) :: ms) rest.
Proof.
  intros (u1 & -> & Hne & Hs & Hp) (u2 & -> & Hne2 & Hs2 & Hp2).
  exists (TStr k :: TPunct ":" :: u1 ++ TPunct "," :: u2).
  split_and!; [cbn; by rewrite <- app_assoc|done| |].
  - cbn. by rewrite separated_app_punct, Hs.
  - intros m t Hm. parse_fuel m. cbn [app length] in *. rewrite length_app in Hm. cbn in Hm.
    cbn [parse_members]. rewrite expect_eq. cbn [mbind option_bind]. rewrite <- app_assoc.
    rewrite Hp by lia. cbn [mbind option_bind app]. cbn [expect]. rewrite bool_decide_eq_false_2 by done.
    rewrite bool_decide_eq_true_2 by done. cbn [mbind option_bind]. rewrite Hp2 by lia. done.
Qed.

Lemma takes_elements_one ts v rest :
  takes parse_value 1 ts v (TPunct "]" :: rest) -> takes parse_elements 0 ts [v] rest.
Proof.
  intros (used & -> & Hne & Hs & Hp). exists (used ++ [TPunct "]"]).
  split_and!; [by rewrite <- app_assoc|by destruct used| |].
  - by rewrite separated_app_punct, Hs.
  - intros m t Hm. rewrite length_app in Hm. parse_fuel m. cbn [length] in Hm.
    cbn [parse_elements]. rewrite <- app_assoc, Hp by lia. cbn [mbind option_bind app].
    by rewrite expect_eq.
Qed.

Lemma takes_elements_more ts v ts' l rest :
  takes parse_value 1 ts v (TPunct "," :: ts') -> takes parse_elements 0 ts' l rest ->
  takes parse_elements 0 ts (v :: l) rest.
Proof.
  intros (u1 & -> & Hne & Hs & Hp) (u2 & -> & Hne2 & Hs2 & Hp2). exists (u1 ++ TPunct "," :: u2).
  split_and!; [by rewrite <- app_assoc|by destruct u1| |].
  - by rewrite separated_app_punct, Hs.
  - intros m t Hm. rewrite length_app in Hm. parse_fuel m. cbn [length] in Hm.
    cbn [parse_elements]. rewrite <- app_assoc, Hp by lia. cbn [mbind option_bind app expect].
    rewrite bool_decide_eq_false_2, bool_decide_eq_true_2 by done. cbn [mbind option_bind].
    by rewrite Hp2 by lia.
Qed.

(** A bracketed list: [inner] takes what is between, and is not empty. *)
Lemma takes_object ts ms rest :
  takes parse_members 0 ts ms rest -> expect "}" ts = None ->
  takes parse_value 1 (TPunct "{" :: ts) (JObject ms) rest.
Proof.
  intros (used & -> & Hne & Hs & Hp) He. exists (TPunct "{" :: used).
  split_and!; [done|done|done|]. intros m t Hm. parse_fuel m. cbn [app length] in *.
  cbn [parse_value]. rewrite bool_decide_eq_true_2 by done.
  destruct used as [|x used]; [done|]. cbn [app] in *. rewrite (expect_head _ _ _ _ He).
  by rewrite (Hp m t) by lia.
Qed.

Lemma takes_array ts l rest :
  takes parse_elements 0 ts l rest -> expect "]" ts = None ->
  takes parse_value 1 (TPunct "[" :: ts) (JArray l) rest.
Proof.
  intros (used & -> & Hne & Hs & Hp) He. exists (TPunct "[" :: used).
  split_and!; [done|done|done|]. intros m t Hm. parse_fuel m. cbn [app length] in *.
  cbn [parse_value]. rewrite bool_decide_eq_false_2, bool_decide_eq_true_2 by done.
  destruct used as [|x used]; [done|]. cbn [app] in *. rewrite (expect_head _ _ _ _ He).
  by rewrite (Hp m t) by lia.
Qed.

Lemma takes_single ts v t :
  (forall m r, parse_value (S m) (t :: r) = Some (v, r)) ->
  takes parse_value 1 (t :: ts) v ts.
Proof.
  intros H. exists [t]. split_and!; [done|done|by destruct t|]. intros m r Hm. parse_fuel m. apply H.
Qed.

Lemma takes_empty c d v ts :
  (forall m r, parse_value (S m) (TPunct c :: TPunct d :: r) = Some (v, r)) ->
  takes parse_value 1 (TPunct c :: TPunct d :: ts) v ts.
Proof.
  intros H. exists [TPunct c; TPunct d]. split_and!; [done..|]. intros m r Hm. parse_fuel m. apply H.
Qed.

Lemma parse_takes n :
  (forall ts v rest, parse_value n ts = Some (v, rest) -> takes parse_value 1 ts v rest) /\
  (forall ts ms rest, parse_members n ts = Some (ms, rest) -> takes parse_members 0 ts ms rest) /\
  (forall ts l rest, parse_elements n ts = Some (l, rest) -> takes parse_elements 0 ts l rest).
Proof.
  induction n as [|n (IHv & IHm & IHe)]; [done|]. split_and!; intros ts v rest H.
  - cbn [parse_value] in H. destruct ts as [|[c|a|s] ts]; [done| | |].
    + destruct (bool_decide_reflect (c = "{"%char)) as [-> |_].
      { destruct (expect "}" ts) as [r|] eqn:He.
        - apply expect_some in He as ->. injection H as <- <-. by apply takes_empty.
        - destruct (parse_members n ts) as [[ms r]|] eqn:Hm; [|done]. injection H as <- <-.
          by apply takes_object; [apply IHm|]. }
      destruct (bool_decide_reflect (c = "["%char)) as [-> |_]; [|done].
      destruct (expect "]" ts) as [r|] eqn:He.
      * apply expect_some in He as ->. injection H as <- <-. by apply takes_empty.
      * destruct (parse_elements n ts) as [[l r]|] eqn:Hm; [|done]. injection H as <- <-.
        by apply takes_array; [apply IHe|].
    + destruct (atom_value a) as [x|] eqn:Ha; [|done]. injection H as <- <-.
      apply takes_single. intros m r. cbn. by rewrite Ha.
    + injection H as <- <-. by apply takes_single.
  - cbn [parse_members] in H. destruct ts as [|[c|a|k] ts]; try done.
    destruct (expect ":" ts) as [ts1|] eqn:Hc; [|done]. apply expect_some in Hc as ->.
    cbn [mbind option_bind] in H. destruct (parse_value n ts1) as [[x ts2]|] eqn:Hx; [|done].
    cbn [mbind option_bind] in H. apply IHv in Hx.
    destruct (expect "}" ts2) as [ts3|] eqn:He.
    { apply expect_some in He as ->. injection H as <- <-. by apply takes_members_one. }
    destruct (expect "," ts2) as [ts3|] eqn:He2; [|done]. apply expect_some in He2 as ->.
    cbn [mbind option_bind] in H. destruct (parse_members n ts3) as [[ms r]|] eqn:Hm; [|done].
    injection H as <- <-. eapply takes_members_more; [done|by apply IHm].
  - cbn [parse_elements] in H. destruct (parse_value n ts) as [[x ts2]|] eqn:Hx; [|done].
    cbn [mbind option_bind] in H. apply IHv in Hx.
    destruct (expect "]" ts2) as [ts3|] eqn:He.
    { apply expect_some in He as ->. injection H as <- <-. by apply takes_elements_one. }
    destruct (expect "," ts2) as [ts3|] eqn:He2; [|done]. apply expect_some in He2 as ->.
    cbn [mbind option_bind] in H. destruct (parse_elements n ts3) as [[l r]|] eqn:Hm; [|done].
    injection H as <- <-. eapply takes_elements_more; [done|by apply IHe].
Qed.

(** A whole text. *)
Lemma parse_tokens_spec ts v :
  parse_tokens ts = Some v <-> takes parse_value 1 ts v [].
Proof.
  unfold parse_tokens. split.
  - destruct (parse_value _ ts) as [[x [|]]|] eqn:H; try done. intros [= ->].
    by eapply parse_takes.
  - intros (used & -> & _ & _ & Hp). rewrite (Hp _ []), ?app_nil_r; [done|].
    rewrite app_nil_r. lia.
Qed.

Lemma parse_separated ts v : parse_tokens ts = Some v -> separated ts = true.
Proof. intros (used & -> & _ & Hs & _)%parse_tokens_spec. by rewrite app_nil_r. Qed.

(** ** Runes *)

(** A rune: read back as itself whatever follows. *)
Definition rune_ok (r : string) : Prop :=
  r <> "" /\ forall x, rune_width_go Boundary 0 (r +:+ x) = Some (String.length r).

Lemma Join_nil_cons r rs : Join (r :: rs) "" = r +:+ Join rs "".
Proof. destruct rs; [by rewrite str_app_nil_r|done]. Qed.

Lemma rune_width_take s st n w :
  rune_width_go st n s = Some w ->
  (n < w)%nat /\ (w <= n + String.length s)%nat /\
  forall x, rune_width_go st n (str_take (w - n) s +:+ x) = Some w.
Proof.
  revert st n. induction s as [|b s IH]; intros st n; cbn [rune_width_go]; [done|].
  destruct (utf8_step st b) as [[|k lo hi]|] eqn:Hb; [| |done].
  - intros [= <-]. split_and!; [lia|cbn; lia|]. intros x. replace (S n - n)%nat with 1%nat by lia.
    cbn [str_take]. rewrite str_app_cons. cbn [rune_width_go]. by rewrite Hb.
  - intros H. apply IH in H as (Hlt & Hle & Hx). split_and!; [lia|cbn; lia|]. intros x.
    destruct (w - n)%nat as [|m] eqn:Hm; [lia|]. cbn [str_take]. rewrite str_app_cons.
    cbn [rune_width_go]. rewrite Hb. replace m with (w - S n)%nat by lia. apply Hx.
Qed.

Lemma runes_go_ok s k : Forall rune_ok (runes_go k s).
Proof.
  revert k. induction s as [|b s IH]; intros k; [constructor|]. destruct k as [|k]; [|apply IH].
  cbn [runes_go]. destruct (rune_width_go Boundary 0 (String b s)) as [w|] eqn:Hw.
  - constructor; [|apply IH]. apply rune_width_take in Hw as (Hlt & Hle & Hx).
    rewrite Nat.sub_0_r in Hx. cbn [Nat.add] in Hle. split.
    + destruct w; [lia|done].
    + intros x. rewrite Hx. f_equal. rewrite str_length_take; lia.
  - constructor; [|apply IH]. split; [done|]. intros x. reflexivity.
Qed.

Lemma runes_go_skip r x : runes_go (String.length r) (r +:+ x) = runes_go 0 x.
Proof. induction r as [|c r IH]; [done|]. rewrite str_app_cons. exact IH. Qed.

Lemma runes_app r x : rune_ok r -> runes (r +:+ x) = r :: runes x.
Proof.
  intros [Hne Hw]. destruct r as [|b r]; [done|]. unfold runes. specialize (Hw x).
  rewrite str_app_cons in *. cbn [runes_go]. rewrite Hw. cbn [String.length Nat.pred].
  rewrite runes_go_skip. f_equal. rewrite <- str_app_cons.
  apply (str_take_app (String b r) x).
Qed.

Lemma runes_Join rs : Forall rune_ok rs -> runes (Join rs "") = rs.
Proof.
  induction 1 as [|r rs Hr _ IH]; [done|]. by rewrite Join_nil_cons, runes_app, IH.
Qed.

Lemma to_valid_idem s : to_valid (to_valid s) = to_valid s.
Proof. unfold to_valid. by rewrite (runes_Join (runes s)) by apply runes_go_ok. Qed.

Definition high_byte (c : ascii) : bool := (128 <=? b2n c)%N.

Lemma rune_width_high s st n w :
  state_ok st -> st <> Boundary -> rune_width_go st n s = Some w ->
  str_forallb high_byte (str_take (w - n) s) = true.
Proof.
  revert st n. induction s as [|b s IH]; intros st n Hok Hne H; [done|].
  destruct (rune_width_take _ _ _ _ H) as (Hlt & _ & _).
  destruct st as [|k lo hi]; [done|]. cbn [rune_width_go] in H.
  destruct (utf8_step (Continue k lo hi) b) as [st'|] eqn:Hb; [|done].
  assert (high_byte b = true) as Hhb.
  { cbn in Hb. destruct (byte_in lo hi b) eqn:Hin; [|done]. unfold byte_in in Hin.
    apply andb_prop in Hin as [Hlo%N.leb_le _]. destruct Hok as (_ & Hlo' & _).
    unfold high_byte. apply N.leb_le. lia. }
  destruct (w - n)%nat as [|m] eqn:Hm; [lia|]. cbn [str_take str_forallb]. rewrite Hhb. cbn [andb].
  destruct st' as [|k' lo' hi'].
  - injection H as <-. by replace m with 0%nat by lia.
  - replace m with (w - S n)%nat by lia. apply (IH (Continue k' lo' hi')); [|done|exact H].
    by eapply utf8_step_ok; [|exact Hb].
Qed.

(** A rune is one ASCII byte, or bytes past ASCII. *)
Lemma rune_shape r :
  rune_ok r -> (exists c, r = String c "" /\ is_ascii_byte c = true) \/ str_forallb high_byte r = true.
Proof.
  intros [Hne Hw]. destruct r as [|b r]; [done|]. specialize (Hw ""). rewrite str_app_nil_r in Hw.
  cbn [rune_width_go] in Hw. destruct (utf8_step Boundary b) as [st|] eqn:Hb; [|done].
  assert (state_ok st) as Hok by (by eapply utf8_step_ok; [|exact Hb]).
  destruct st as [|k lo hi].
  - left. exists b. injection Hw as Hw. destruct r; [|done]. split; [done|].
    unfold is_ascii_byte. cbn in Hb. unfold utf8_start in Hb.
    destruct (b2n b <? 128)%N; [done|].
    repeat match type of Hb with (if ?c then _ else _) = _ => destruct c end; done.
  - right. cbn [str_forallb]. apply andb_true_intro. split.
    + cbn in Hb. unfold utf8_start in Hb. destruct (N.ltb_spec (b2n b) 128); [done|].
      unfold high_byte. apply N.leb_le. lia.
    + pose proof (rune_width_high _ _ _ _ Hok ltac:(done) Hw) as H. cbn [String.length] in H.
      rewrite Nat.sub_succ, Nat.sub_0_r in H. by rewrite str_take_all in H.
Qed.

(** ** Strings *)

(** The units of bytes, latest first. *)
Definition units_of (s : string) : list unit16 := rev (map UByte (String.list_ascii_of_string s)).

Lemma units_of_cons c s acc : units_of (String c s) ++ acc = units_of s ++ UByte c :: acc.
Proof. unfold units_of. cbn. by rewrite <- app_assoc. Qed.

Lemma lex_high s acc x :
  str_forallb high_byte s = true -> lex_from (LStr acc) (s +:+ x) = lex_from (LStr (units_of s ++ acc)) x.
Proof.
  revert acc. induction s as [|c s IH]; intros acc H; [done|]. cbn [str_forallb] in H.
  apply andb_prop in H as [Hc Hs]. rewrite str_app_cons, units_of_cons.
  rewrite (lex_from_step _ _ (LStr (UByte c :: acc))); [by apply IH|].
  revert Hc. by byte_cases c.
Qed.

Lemma lex_ascii c acc x :
  is_ascii_byte c = true ->
  lex_from (LStr acc) (escape_rune (String c "") +:+ x) = lex_from (LStr (UByte c :: acc)) x.
Proof.
  byte_cases c; intros H; try discriminate H; clear H.
  all: match goal with |- lex_from _ (?e +:+ _) = _ => let v := eval vm_compute in e in change e with v end.
  all: rewrite ?str_app_cons; change ("" +:+ ?y) with y; lex_go; reflexivity.
Qed.

Lemma lex_rune r acc x :
  rune_ok r -> lex_from (LStr acc) (escape_rune r +:+ x) = lex_from (LStr (units_of r ++ acc)) x.
Proof.
  intros Hr. destruct (rune_shape r Hr) as [(c & -> & Hc)|Hh]; [by apply lex_ascii|].
  assert (escape_rune r = r \/ exists a b c, r = String a (String b (String c "")) /\
            is_separator a b c = true /\ escape_rune r = "\u202" +:+ String (hex_low c) "") as [-> |H].
  { destruct r as [|a [|b [|c [|d r]]]]; try (by left).
    - left. cbn [str_forallb] in Hh. apply andb_prop in Hh as [Hh _]. revert Hh. by byte_cases a.
    - cbn [escape_rune]. destruct (is_separator a b c) eqn:Hs; [right|by left]. by exists a, b, c. }
  - by apply lex_high.
  - destruct H as (a & b & c & -> & Hs & ->).
    change (("\u202" +:+ String (hex_low c) "") +:+ x) with ("\u202" +:+ String (hex_low c) x).
    rewrite (lex_separator acc a b c x Hs), <- (lex_high _ acc x Hh). done.
Qed.

Lemma units_of_app a b acc : units_of (a +:+ b) ++ acc = units_of b ++ units_of a ++ acc.
Proof.
  revert acc. induction a as [|c a IH]; intros acc; [done|].
  rewrite str_app_cons, !units_of_cons, IH. done.
Qed.

Lemma lex_runes rs acc x :
  Forall rune_ok rs ->
  lex_from (LStr acc) (Join (map escape_rune rs) "" +:+ x) = lex_from (LStr (units_of (Join rs "") ++ acc)) x.
Proof.
  intros H. revert acc. induction H as [|r rs Hr _ IH]; intros acc; [done|].
  cbn [map]. rewrite !Join_nil_cons, str_app_assoc, lex_rune, IH, units_of_app by done. done.
Qed.

Lemma units_value_bytes s : units_value (rev (units_of s)) = s.
Proof.
  unfold units_of. rewrite rev_involutive. induction s as [|c s IH]; [done|].
  cbn. by rewrite IH.
Qed.

(** A written string is read as its value. *)
Lemma lex_encode_string s x :
  lex_from LOut (encode_string s +:+ x) = cons (TStr (to_valid s)) <$> lex_from LOut x.
Proof.
  unfold encode_string. rewrite str_app_cons.
  rewrite (lex_from_step LOut quote (LStr [])) by reflexivity. rewrite str_app_assoc, lex_runes by apply runes_go_ok.
  rewrite app_nil_r, str_app_cons. change ("" +:+ x) with x.
  rewrite (lex_from_cons _ quote [TStr (to_valid (units_value (rev (units_of (to_valid s)))))] LOut).
  - by rewrite units_value_bytes, to_valid_idem.
  - reflexivity.
Qed.

(** ** Atoms *)

Definition atom_byte (c : ascii) : bool := negb (is_delimiter c).

Lemma lex_atom_text a s :
  str_forallb atom_byte s = true -> lex_from (LAtom a) s = Some [TAtom (a +:+ s)].
Proof.
  revert a. induction s as [|c s IH]; intros a H; [cbn; by rewrite str_app_nil_r|].
  cbn [str_forallb] in H. apply andb_prop in H as [Hc Hs].
  rewrite (lex_from_step _ _ (LAtom (a +:+ String c ""))).
  - rewrite IH by done. by rewrite str_app_assoc.
  - cbn. unfold atom_byte in Hc. by destruct (is_delimiter c).
Qed.

Lemma lex_atom s : s <> "" -> str_forallb atom_byte s = true -> lex s = Some [TAtom s].
Proof.
  destruct s as [|c s]; [done|]. intros _ H. cbn [str_forallb] in H. apply andb_prop in H as [Hc Hs].
  unfold lex. rewrite (lex_from_step _ _ (LAtom (String c ""))).
  - by rewrite lex_atom_text.
  - cbn. unfold lex_out, atom_byte, is_delimiter in *.
    destruct (is_json_space c), (is_punct c), (is_quote c); done.
Qed.

Lemma dec_go_front fuel n acc :
  (0 < n < 2 ^ N.of_nat fuel)%N ->
  exists d r, dec_go fuel n acc = String d r /\ is_digit d = true /\ d <> "0"%char.
Proof.
  revert n acc. induction fuel as [|f IH]; intros n acc Hn; [cbn in Hn; lia|].
  cbn [dec_go]. destruct (N.ltb_spec n 10) as [H|H].
  - rewrite N.mod_small by lia. exists (digit_byte n), acc. destruct (digit_byte_digit n H) as [Hd Hv].
    split_and!; [done|done|]. intros Hz. rewrite Hz in Hv. change (digit_val "0") with 0%N in Hv. lia.
  - apply IH. rewrite Nat2N.inj_succ, N.pow_succ_r' in Hn. set (p := (2 ^ N.of_nat f)%N) in *. clearbody p.
    split; [apply N.div_str_pos; lia|]. apply N.Div0.div_lt_upper_bound. lia.
Qed.

(** What an integer is printed as: a zero, or digits that do not start with one. *)
Lemma FormatUint_front n :
  FormatUint n = "0" \/
  exists d r, FormatUint n = String d r /\ is_digit d = true /\ d <> "0"%char.
Proof.
  destruct (N.eq_dec n 0) as [-> |Hn]; [by left|right]. apply dec_go_front. split; [lia|].
  rewrite Nat2N.inj_succ, N2Nat.id. apply N.log2_spec. lia.
Qed.

Lemma is_number_digits s :
  s = "0" \/ (exists d r, s = String d r /\ is_digit d = true /\ d <> "0"%char) ->
  str_forallb is_digit s = true -> is_number s = true /\ is_number (String "-" s) = true.
Proof.
  intros [-> |(d & r & -> & Hd & H0)] Hs; [done|].
  assert (digits1 (String d r) = Some "") as H1.
  { unfold digits1. rewrite <- (str_app_nil_r (String d r)), (span_app is_digit (String d r) "") by done.
    done. }
  assert (is_number (String d r) = true) as H.
  { unfold is_number. assert (d <> "-"%char) as Hm by (by intros ->).
    destruct (ascii_dec d "0") as [-> |_]; [done|].
    byte_cases d; try discriminate Hd; try (by destruct H0); cbv iota zeta; by rewrite H1. }
  split; [done|]. unfold is_number in *. cbv zeta in *. cbv iota.
  byte_cases d; try discriminate Hd; exact H.
Qed.

Lemma number_atom z : lex (FormatInt z) = Some [TAtom (FormatInt z)] /\ atom_value (FormatInt z) = Some (JNumber (FormatInt z)).
Proof.
  assert (forall n, is_number (FormatUint n) = true /\ is_number (String "-" (FormatUint n)) = true) as Hnum
    by (intros n; apply is_number_digits; [apply FormatUint_front|apply FormatUint_digits]).
  assert (forall n, str_forallb atom_byte (FormatUint n) = true) as Hatom.
  { intros n. eapply str_forallb_impl, FormatUint_digits. intros c. by byte_cases c. }
  assert (forall n, FormatUint n <> "") as Hne
    by (intros n; destruct (FormatUint_front n) as [-> |(d & r & -> & _)]; done).
  assert (forall s, is_number s = true -> atom_value s = Some (JNumber s)) as Hval.
  { intros s Hs. unfold atom_value. rewrite !bool_decide_eq_false_2, Hs by (by intros ->). done. }
  unfold FormatInt. destruct (z <? 0).
  - destruct (Hnum (Z.to_N (- z))) as [_ Hn]. split; [|by apply Hval].
    apply lex_atom; [done|]. cbn [str_forallb]. by rewrite Hatom.
  - destruct (Hnum (Z.to_N z)) as [Hn _]. split; [|by apply Hval]. by apply lex_atom.
Qed.

(** ** Encoding *)

(** The value an encoding stands for; a raw message's is the one it parses to. *)
Fixpoint denote (v : jout) : option json :=
  match v with
  | OString s => Some (JString (to_valid s))
  | OInt64 z => Some (JNumber (FormatInt z))
  | OBool b => Some (JBool b)
  | ORaw raw => if bool_decide (raw = "") then Some JNull else parse_json raw
  | OError _ => None
  | OArray l =>
      JArray <$> (fix go (l : list jout) : option (list json) :=
                    match l with
                    | [] => Some []
                    | x :: l => v ← denote x; vs ← go l; Some (v :: vs)
                    end) l
  | OObject ms =>
      JObject <$> (fix go (ms : list (string * jout)) : option (list (string * json)) :=
                     match ms with
                     | [] => Some []
                     | (k, x) :: ms => v ← denote x; vs ← go ms; Some ((to_valid k, v) :: vs)
                     end) ms
  end.

Lemma jout_ind' (P : jout -> Prop) :
  (forall s, P (OString s)) -> (forall z, P (OInt64 z)) -> (forall b, P (OBool b)) ->
  (forall r, P (ORaw r)) -> (forall e, P (OError e)) -> (forall l, Forall P l -> P (OArray l)) ->
  (forall ms, Forall (fun m => P m.2) ms -> P (OObject ms)) -> forall v, P v.
Proof.
  intros Hs Hz Hb Hr He Ha Ho. fix IH 1. intros [s|z|b|r|e|l|ms]; [done|done|done|done|done| |].
  - apply Ha. induction l; constructor; auto.
  - apply Ho. induction ms as [|[k x] ms]; constructor; auto.
Qed.

(** A text that is read as one value. *)
Definition written (s : string) (v : json) : Prop :=
  exists ts, lex s = Some ts /\ takes parse_value 1 ts v [].

Lemma written_atom s v : lex s = Some [TAtom s] -> atom_value s = Some v -> written s v.
Proof.
  intros Hl Hv. exists [TAtom s]. split; [done|]. apply takes_single. intros m r. cbn. by rewrite Hv.
Qed.

Lemma written_parse s v : written s v <-> exists ts, lex s = Some ts /\ parse_tokens ts = Some v.
Proof.
  split; intros (ts & Hl & Hp); exists ts; (split; [done|]); by apply parse_tokens_spec.
Qed.

Lemma takes_ext ts v rest :
  takes parse_value 1 ts v [] -> takes parse_value 1 (ts ++ rest) v rest.
Proof. intros (u & -> & H). exists u. by rewrite app_nil_r. Qed.

(** The elements of an array, joined. *)
Lemma written_elements parts vs :
  parts <> [] -> Forall2 written parts vs ->
  exists ts, lex (Join parts "," +:+ "]") = Some ts /\ takes parse_elements 0 ts vs [] /\ expect "]" ts = None.
Proof.
  intros Hne H. induction H as [|p v parts vs (ts & Hl & Ht) HF IH]; [done|].
  assert (forall r, expect "]" (ts ++ r) = None) as Hexp.
  { destruct Ht as (u & -> & Hu & _ & Hp). destruct u as [|x u]; [done|]. intros r. cbn [app].
    apply (expect_head "]" x []). specialize (Hp (2 * S (length u))%nat [] ltac:(cbn; lia)).
    rewrite app_nil_r in Hp. destruct x as [c|a|s]; [|done..]. cbn.
    destruct (bool_decide_reflect (c = "]"%char)) as [-> |]; [|done].
    cbn in Hp. discriminate Hp. }
  destruct parts as [|q parts].
  - inversion HF; subst. cbn [Join]. exists (ts ++ [TPunct "]"]).
    split; [by apply (lex_from_punct LOut p ts "]" "" [])|]. split; [|apply Hexp].
    apply takes_elements_one. by apply takes_ext.
  - destruct IH as (ts' & Hl' & Ht' & _); [done|]. exists (ts ++ TPunct "," :: ts').
    change (Join (p :: q :: parts) ",") with (p +:+ String "," (Join (q :: parts) ",")).
    rewrite str_app_assoc, str_app_cons. split; [by apply lex_from_punct|]. split; [|apply Hexp].
    eapply takes_elements_more; [by apply takes_ext|exact Ht'].
Qed.

(** A member, and the members of an object, joined. *)
Lemma written_members (parts : list (string * string)) ms :
  parts <> [] ->
  Forall2 (fun p m => m.1 = to_valid p.1 /\ written p.2 m.2) parts ms ->
  exists ts, lex (Join (map (fun p => encode_string p.1 +:+ ":" +:+ p.2) parts) "," +:+ "}") = Some ts /\
    takes parse_members 0 ts ms [] /\ expect "}" ts = None.
Proof.
  intros Hne H. induction H as [|[k p] [k' v] parts ms [Hk (ts & Hl & Ht)] HF IH]; [done|].
  cbn [fst snd] in *. subst k'.
  assert (forall x b, lex_from LOut x = Some b ->
            lex (encode_string k +:+ ":" +:+ x) = Some (TStr (to_valid k) :: TPunct ":" :: b)) as Hkey.
  { intros x b Hx. unfold lex. rewrite lex_encode_string. change (":" +:+ x) with (String ":" x).
    rewrite (lex_from_cons LOut ":" [TPunct ":"] LOut), Hx by reflexivity. done. }
  destruct parts as [|q parts].
  - inversion HF; subst. cbn [map Join]. exists (TStr (to_valid k) :: TPunct ":" :: ts ++ [TPunct "}"]).
    split; [|split; [|done]].
    + rewrite !str_app_assoc. apply Hkey. by apply (lex_from_punct LOut p ts "}" "" []).
    + apply takes_members_one. by apply takes_ext.
  - destruct IH as (ts' & Hl' & Ht' & _); [done|].
    exists (TStr (to_valid k) :: TPunct ":" :: ts ++ TPunct "," :: ts').
    split; [|split; [|done]].
    + cbn [map]. cbn [map] in Hl'.
      change (Join (?a :: ?b :: ?l) ",") with (a +:+ String "," (Join (b :: l) ",")).
      rewrite !str_app_assoc, str_app_cons. apply Hkey. by apply lex_from_punct.
    + eapply takes_members_more; [by apply takes_ext|exact Ht'].
Qed.

Lemma parse_json_inv s x :
  parse_json s = Some x -> written s x /\ json_depth x <= maxNestingDepth.
Proof.
  unfold parse_json. destruct (lex s) as [ts|] eqn:Hl; [|done]. cbn [mbind option_bind].
  destruct (parse_tokens ts) as [y|] eqn:Hp; [|done]. cbn [mbind option_bind].
  destruct (Z.leb_spec (json_depth y) maxNestingDepth) as [H|]; [|done]. intros [= <-].
  split; [|done]. apply written_parse. by exists ts.
Qed.

Lemma written_parses s x :
  written s x -> json_depth x <= maxNestingDepth -> parse_json s = Some x.
Proof.
  intros (ts & Hl & Hp)%written_parse Hd. unfold parse_json. rewrite Hl. cbn [mbind option_bind].
  rewrite Hp. cbn [mbind option_bind]. by apply Z.leb_le in Hd as ->.
Qed.

(** A text is read as one value. *)
Lemma written_unique s x y : written s x -> written s y -> x = y.
Proof.
  intros (ts & Hl & Hp)%written_parse (ts' & Hl' & Hp')%written_parse. congruence.
Qed.

Lemma written_compact s x : written s x -> written (compact s) x.
Proof.
  intros (ts & Hl & Hp)%written_parse. apply written_parse. exists ts.
  split; [|done]. apply compact_lex; [done|]. by eapply parse_separated.
Qed.

Lemma written_indent prefix ind s x :
  str_forallb is_json_space prefix = true -> str_forallb is_json_space ind = true ->
  written s x -> written (indent prefix ind s) x.
Proof.
  intros Hpre Hind (ts & Hl & Hp)%written_parse. apply written_parse. exists ts.
  split; [|done]. apply indent_lex; [done|done|done|]. by eapply parse_separated.
Qed.

(** White space after a value. *)
Lemma lex_trailing st s w ts :
  lex_from st s = Some ts -> str_forallb is_json_space w = true -> lex_from st (s +:+ w) = Some ts.
Proof.
  intros Hs Hw. revert st ts Hs. induction s as [|c s IH]; intros st ts Hs.
  - change ("" +:+ w) with w. cbn [lex_from] in Hs. destruct w as [|c w]; [done|].
    cbn [str_forallb] in Hw. apply andb_prop in Hw as [Hc Hw].
    assert (lex_from LOut w = Some []) as Hnil
      by (rewrite <- (str_app_nil_r w); by rewrite lex_spaces).
    destruct st as [|a| | |]; try discriminate; injection Hs as <-.
    + by rewrite lex_space_out.
    + by rewrite lex_space_atom, Hnil.
  - rewrite str_app_cons. apply lex_from_inv in Hs as (us & st' & out & Hstep & Hs & ->).
    by rewrite (lex_from_cons _ _ _ _ _ Hstep), (IH _ _ Hs).
Qed.

Lemma written_trailing s w x :
  str_forallb is_json_space w = true -> written s x -> written (s +:+ w) x.
Proof. intros Hw (ts & Hl & Ht). exists ts. split; [by apply lex_trailing|done]. Qed.

Lemma written_object (parts : list (string * string)) ms :
  Forall2 (fun p m => m.1 = to_valid p.1 /\ written p.2 m.2) parts ms ->
  written ("{" +:+ Join (map (fun p => encode_string p.1 +:+ ":" +:+ p.2) parts) "," +:+ "}") (JObject ms).
Proof.
  intros H. destruct parts as [|p parts].
  - inversion H; subst. exists [TPunct "{"; TPunct "}"]. split; [done|]. by apply takes_empty.
  - destruct (written_members (p :: parts) ms) as (ts & Hl & Ht & He); [done|done|].
    exists (TPunct "{" :: ts). split; [|by apply takes_object]. unfold lex in *.
    rewrite str_app_cons. change ("" +:+ ?x) with x.
    rewrite (lex_from_cons LOut "{" [TPunct "{"] LOut), Hl by reflexivity. done.
Qed.

Lemma written_array parts vs :
  Forall2 written parts vs -> written ("[" +:+ Join parts "," +:+ "]") (JArray vs).
Proof.
  intros H. destruct parts as [|p parts].
  - inversion H; subst. exists [TPunct "["; TPunct "]"]. split; [done|]. by apply takes_empty.
  - destruct (written_elements (p :: parts) vs) as (ts & Hl & Ht & He); [done|done|].
    exists (TPunct "[" :: ts). split; [|by apply takes_array]. unfold lex in *.
    rewrite str_app_cons. change ("" +:+ ?x) with x.
    rewrite (lex_from_cons LOut "[" [TPunct "["] LOut), Hl by reflexivity. done.
Qed.

(** What an encoding does: it is read as the value it stands for, or it fails,
    and it stands for none. *)
Definition encodes {A} (r : res A) (d : option json) (P : A -> json -> Prop) : Prop :=
  match r, d with
  | Ok a, Some x => P a x
  | Fail _, None => True
  | _, _ => False
  end.

Lemma Marshal_encodes v : encodes (Marshal v) (denote v) written.
Proof.
  induction v as [s|z|b|raw|e|l IH|ms IH] using jout_ind'; cbn [Marshal denote].
  - cbn. exists [TStr (to_valid s)]. split; [|by apply takes_single].
    unfold lex. rewrite <- (str_app_nil_r (encode_string s)), lex_encode_string. done.
  - destruct (number_atom z) as [Hl Hv]. cbn. by apply written_atom with (1 := Hl).
  - destruct b; by apply written_atom.
  - case_bool_decide; [by apply written_atom|]. unfold Valid.
    destruct (parse_json raw) as [x|] eqn:Hx; [|done]. cbn. by apply written_compact, parse_json_inv.
  - done.
  - match goal with |- encodes (mbind _ (?g l)) (_ <$> ?h l) _ =>
      assert (match g l, h l with
              | Ok parts, Some vs => Forall2 written parts vs
              | Fail _, None => True | _, _ => False end) as Hgo end.
    { induction IH as [|x l Hx _ IHl]; [constructor|].
      destruct (Marshal x), (denote x); try done. cbn [mbind res_bind option_bind].
      case_match; case_match; try done; cbn; by constructor. }
    repeat case_match; try done. cbn. by apply written_array.
  - match goal with |- encodes (mbind _ (?g ms)) (_ <$> ?h ms) _ =>
      assert (match g ms, h ms with
              | Ok parts, Some vs => exists ps, parts = map (fun p => encode_string p.1 +:+ ":" +:+ p.2) ps /\
                  Forall2 (fun p m => m.1 = to_valid p.1 /\ written p.2 m.2) ps vs
              | Fail _, None => True | _, _ => False end) as Hgo end.
    { induction IH as [|[k x] ms Hx _ IHl]; [by exists []|]. cbn [snd] in Hx.
      destruct (Marshal x) as [p|], (denote x); try done. cbn [mbind res_bind option_bind].
      case_match; case_match; try done; cbn. destruct IHl as (ps & -> & HF). exists ((k, p) :: ps).
      split; [done|]. by constructor. }
    repeat case_match; try done. destruct Hgo as (ps & -> & HF). cbn. by apply written_object.
Qed.

(** What is marshalled is read back as the value it was written from. *)
Lemma Marshal_parses v s :
  Marshal v = Ok s -> exists x, denote v = Some x /\ written s x.
Proof.
  intros H. pose proof (Marshal_encodes v) as Hv. rewrite H in Hv.
  destruct (denote v) as [x|]; [|done]. by exists x.
Qed.

Lemma Marshal_ok v x : denote v = Some x -> exists s, Marshal v = Ok s /\ written s x.
Proof.
  intros H. pose proof (Marshal_encodes v) as Hv. rewrite H in Hv.
  destruct (Marshal v) as [s|]; [|done]. by exists s.
Qed.

(** So is what an encoder writes with its indentation. *)
Lemma Encode_parses prefix ind v x :
  str_forallb is_json_space prefix = true -> str_forallb is_json_space ind = true ->
  denote v = Some x -> exists s, Encode prefix ind v = Ok s /\ written s x.
Proof.
  intros Hp Hi (s & Hs & Hw)%Marshal_ok. unfold Encode. rewrite Hs. eexists. split; [reflexivity|].
  by apply written_indent; [done|done|apply written_trailing].
Qed.

(** ASCII text is its own value. *)
Lemma to_valid_ascii s : is_ascii s = true -> to_valid s = s.
Proof.
  unfold to_valid. induction s as [|c s IH]; [done|]. unfold is_ascii in *. cbn [str_forallb].
  intros [Hc Hs]%andb_prop. change (String c s) with (String c "" +:+ s).
  rewrite runes_app, Join_nil_cons, (IH Hs); [done|]. split; [done|]. intros x.
  rewrite str_app_cons. cbn [rune_width_go utf8_step]. unfold utf8_start.
  unfold is_ascii_byte in Hc. by rewrite Hc.
Qed.

(** A compound stands for a value when all its parts do. *)
Lemma denote_array l : is_Some (denote (OArray l)) <-> Forall (fun v => is_Some (denote v)) l.
Proof.
  cbn [denote]. rewrite fmap_is_Some. induction l as [|x l IH]; [by split; [constructor|eexists]|].
  rewrite Forall_cons, <- IH. split.
  - intros [vs H]. destruct (denote x) as [v|]; [|done]. cbn [mbind option_bind] in H.
    split; [by eexists|]. match type of H with mbind _ ?g = _ => by destruct g end.
  - intros [[v ->] [vs H]]. cbn [mbind option_bind].
    match type of H with ?g = _ => destruct g end; [|done]. by eexists.
Qed.

Lemma denote_object ms : is_Some (denote (OObject ms)) <-> Forall (fun m => is_Some (denote m.2)) ms.
Proof.
  cbn [denote]. rewrite fmap_is_Some. induction ms as [|[k x] ms IH]; [by split; [constructor|eexists]|].
  rewrite Forall_cons, <- IH. cbn [snd]. split.
  - intros [vs H]. destruct (denote x) as [v|]; [|done]. cbn [mbind option_bind] in H.
    split; [by eexists|]. match type of H with mbind _ ?g = _ => by destruct g end.
  - intros [[v ->] [vs H]]. cbn [mbind option_bind].
    match type of H with ?g = _ => destruct g end; [|done]. by eexists.
Qed.
