(* ===== verification/Rfc3339.v ===== *)
(** * RFC 3339 (time.Time as text and as JSON)

    Instants are nanoseconds since the epoch; the machine's local zone is a
    parameter, its offset in seconds at a unix time. *)

From S2P Require Import Prelude GoErrors GoStrings RetryAfter Http Json.

Section local.
Context (zone : Z -> Z).

(** The nine digits of a fraction without its trailing zeros. *)
Fixpoint trim_zeros (s : string) : string :=
  match s with
  | EmptyString => ""
  | String c r =>
      let r := trim_zeros r in
      if bool_decide (r = "") && bool_decide (c = "0"%char) then "" else String c r
  end.
Definition nine_digits (n : Z) : string :=
  let s := FormatInt n in str_take (9 - String.length s) "000000000" +:+ s.
Definition fraction_text (ns : Z) : string :=
  let f := trim_zeros (nine_digits ns) in if bool_decide (f = "") then "" else "." +:+ f.

(** [appendInt(b, year, 4)] *)
Definition year_text (y : Z) : string := if y <? 0 then "-" +:+ four_digits (- y) else four_digits y.

Definition zone_text (offset : Z) : string :=
  if offset =? 0 then "Z"
  else
    let minutes := Z.quot offset 60 in
    (if minutes <? 0 then "-" else "+")
    +:+ two_digits (Z.abs minutes / 60) +:+ ":" +:+ two_digits (Z.abs minutes mod 60).

(** Year of an instant, and its text. *)
Definition local_year (t : Z) : Z :=
  let secs := t / Second in (civil_of_days ((secs + zone secs) / 86400)).1.1.
Definition rfc3339 (nanos : bool) (t : Z) : string :=
  let secs := t / Second in
  let offset := zone secs in
  let abs := secs + offset in
  let tod := abs mod 86400 in
  let '(y, m, d) := civil_of_days (abs / 86400) in
  year_text y +:+ "-" +:+ two_digits m +:+ "-" +:+ two_digits d +:+ "T"
  +:+ two_digits (tod / 3600) +:+ ":" +:+ two_digits (tod / 60 mod 60) +:+ ":" +:+ two_digits (tod mod 60)
  +:+ (if nanos then fraction_text (t mod Second) else "") +:+ zone_text offset.

Definition marshal_error (msg : string) : error :=
  New ("json: error calling MarshalJSON for type time.Time: Time.MarshalJSON: " +:+ msg).

(** [Time.MarshalJSON]: a year of four digits, an offset within a day. *)
Definition time_json (t : Z) : jout :=
  if (local_year t <? 0) || (9999 <? local_year t)
  then OError (marshal_error "year outside of range [0,9999]")
  else if 24 <=? Z.abs (Z.quot (zone (t / Second)) 60) / 60
  then OError (marshal_error "timezone hour outside of range [0,23]")
  else OString (rfc3339 true t).
End local.

Definition utc (_ : Z) : Z := 0.

Example times :
  map (rfc3339 utc true) [0; 1758500000 * Second + 120000000; -1]
  = ["1970-01-01T00:00:00Z"; "2025-09-22T00:13:20.12Z"; "1969-12-31T23:59:59.999999999Z"] /\
  rfc3339 (fun _ => 32400) false (1758500000 * Second) = "2025-09-22T09:13:20+09:00" /\
  rfc3339 (fun _ => -12600) false 0 = "1969-12-31T20:30:00-03:30".
Proof. vm_compute. done. Qed.

(** ** Its bytes are ASCII *)

Lemma FormatInt_ascii z : is_ascii (FormatInt z) = true.
Proof.
  assert (forall n, is_ascii (FormatUint n) = true) as H
    by (intros n; eapply str_forallb_impl, FormatUint_digits; intros c; by byte_cases c).
  unfold FormatInt. destruct (z <? 0); [|apply H]. exact (H (Z.to_N (- z))).
Qed.

Lemma is_ascii_app a b : is_ascii a = true -> is_ascii b = true -> is_ascii (a +:+ b) = true.
Proof. intros Ha Hb. unfold is_ascii in *. by rewrite str_forallb_app, Ha, Hb. Qed.

Lemma two_digits_ascii z : is_ascii (two_digits z) = true.
Proof.
  unfold two_digits. destruct (z <? 10); [|apply FormatInt_ascii].
  apply is_ascii_app; [done|apply FormatInt_ascii].
Qed.
Lemma four_digits_ascii z : is_ascii (four_digits z) = true.
Proof. apply is_ascii_app; [by repeat case_match|apply FormatInt_ascii]. Qed.

Lemma trim_zeros_ascii s : is_ascii s = true -> is_ascii (trim_zeros s) = true.
Proof.
  unfold is_ascii. induction s as [|c s IH]; [done|]. cbn [str_forallb trim_zeros]. cbv zeta.
  intros [Hc Hs]%andb_prop. destruct (_ && _); [done|]. cbn [str_forallb]. by rewrite Hc, IH.
Qed.

Lemma fraction_text_ascii ns : is_ascii (fraction_text ns) = true.
Proof.
  assert (is_ascii (trim_zeros (nine_digits ns)) = true) as H.
  { apply trim_zeros_ascii, is_ascii_app; [by apply str_forallb_take|apply FormatInt_ascii]. }
  unfold fraction_text. cbv zeta. by case_bool_decide.
Qed.

#[export] Hint Resolve is_ascii_app FormatInt_ascii two_digits_ascii four_digits_ascii
  fraction_text_ascii : mkqd_ascii.

Lemma rfc3339_ascii zone nanos t : is_ascii (rfc3339 zone nanos t) = true.
Proof.
  unfold rfc3339. cbv zeta. destruct (civil_of_days _) as [[y m] d].
  assert (is_ascii (zone_text (zone (t / Second))) = true) as Hz.
  { unfold zone_text. destruct (_ =? 0); [done|]. apply is_ascii_app; [by case_match|].
    auto 10 with mkqd_ascii. }
  assert (is_ascii (year_text y) = true) as Hy
    by (unfold year_text; case_match; auto with mkqd_ascii).
  assert (is_ascii (if nanos then fraction_text (t mod Second) else "") = true) as Hf
    by (destruct nanos; auto with mkqd_ascii).
  repeat (apply is_ascii_app; [auto with mkqd_ascii|]). done.
Qed.
