(* ===== verification/HttpDate.v ===== *)
(** * HTTP dates, read back (net/http's ParseTime)

    [ParseRetryAfter] hands what is not a number to [http.ParseTime], which tries
    three layouts. Two of them, the preferred IMF-fixdate and asctime, are
    modelled as package time parses them, its liberties included (names in any
    case, runs of spaces, a fraction after the seconds). The obsolete RFC 850
    form carries a zone abbreviation that is looked up in the machine's local
    zone, and is a parameter. *)

From S2P Require Import Prelude GoStrings RetryAfter Http.

(** ** The calendar *)

(** Days since 1970-01-01 of a date of the proleptic Gregorian calendar. *)
Definition days_of_civil (y m d : Z) : Z :=
  let y := y - (if m <=? 2 then 1 else 0) in
  let yoe := y mod 400 in
  let doy := (153 * (if 2 <? m then m - 3 else m + 9) + 2) / 5 + d - 1 in
  y / 400 * 146097 + (yoe * 365 + yoe / 4 - yoe / 100 + doy) - 719468.

Definition isLeap (y : Z) : bool :=
  (y mod 4 =? 0) && (negb (y mod 100 =? 0) || (y mod 400 =? 0)).
Definition daysIn (m y : Z) : Z :=
  if (m =? 2) && isLeap y then 29
  else nth (Z.to_nat m) [0; 31; 28; 31; 30; 31; 30; 31; 31; 30; 31; 30; 31] 0.

(** ** [time.Parse] *)

(** The pieces of a layout, as [nextStdChunk] cuts it. *)
Inductive chunk : Set :=
| stdWeekDay | stdMonth | stdZeroDay | stdUnderDay | stdLongYear | stdHour | stdZeroMinute
| stdZeroSecond.

Record layout := mkLayout { chunks : list (string * chunk); suffix : string }.

Record fields := mkFields {
  f_year : Z; f_month : Z; f_day : Z; f_hour : Z; f_min : Z; f_sec : Z; f_nsec : Z;
}.
Definition no_fields : fields := mkFields 0 (-1) (-1) 0 0 0 0.

Fixpoint cutspace (s : string) : string :=
  match s with String " " r => cutspace r | _ => s end.

(** [skip]: a space of the layout stands for any run of spaces, or for none at
    the end of the value; no layout here has two in a row. *)
Fixpoint skip (value prefix : string) : option string :=
  match prefix with
  | EmptyString => Some value
  | String " " p =>
      match value with
      | EmptyString => skip value p
      | String " " _ => skip (cutspace value) p
      | String _ _ => None
      end
  | String c p =>
      match value with
      | String c' v => if bool_decide (c' = c) then skip v p else None
      | EmptyString => None
      end
  end.

(** [getnum]: one or two digits, or exactly two. *)
Definition getnum (s : string) (fixed : bool) : option (Z * string) :=
  match s with
  | String a r =>
      if negb (is_digit a) then None
      else match r with
           | String b r' =>
               if is_digit b then Some (Z.of_N (digit_val a) * 10 + Z.of_N (digit_val b), r')
               else if fixed then None else Some (Z.of_N (digit_val a), r)
           | EmptyString => if fixed then None else Some (Z.of_N (digit_val a), r)
           end
  | EmptyString => None
  end.

(** [match]: equal letters but for their case. *)
Definition fold_letter (c : ascii) : N := N.lor (b2n c) 32.
Definition same_letter (a b : ascii) : bool :=
  bool_decide (a = b)
  || ((fold_letter a =? fold_letter b) && (97 <=? fold_letter a) && (fold_letter a <=? 122))%N.
Fixpoint match_name (s name : string) : bool :=
  match s, name with
  | EmptyString, EmptyString => true
  | String a s, String b name => same_letter a b && match_name s name
  | _, _ => false
  end.

(** [lookup] in a table of three-letter names, and what follows the name. *)
Fixpoint lookup_name (tab : list string) (i : Z) (value : string) : option (Z * string) :=
  match tab with
  | [] => None
  | v :: tab =>
      if (String.length v <=? String.length value)%nat
         && match_name (str_take (String.length v) value) v
      then Some (i, str_drop (String.length v) value)
      else lookup_name tab (i + 1) value
  end.

Definition shortDayNames : list string := ["Sun"; "Mon"; "Tue"; "Wed"; "Thu"; "Fri"; "Sat"].
Definition shortMonthNames : list string :=
  ["Jan"; "Feb"; "Mar"; "Apr"; "May"; "Jun"; "Jul"; "Aug"; "Sep"; "Oct"; "Nov"; "Dec"].

(** The digits of a fraction, and what follows them. *)
Fixpoint span_digits (s : string) : string * string :=
  match s with
  | String c r => if is_digit c then let '(d, t) := span_digits r in (String c d, t) else ("", s)
  | EmptyString => ("", s)
  end.

(** A fraction the layout does not ask for: nine digits of it count. *)
Definition fraction (s : string) : Z * string :=
  match s with
  | String c (String d r) =>
      if (bool_decide (c = "."%char) || bool_decide (c = ","%char)) && is_digit d then
        let '(ds, t) := span_digits (String d r) in
        let ds := str_take 9 ds in
        (dec_value 0 ds * 10 ^ (9 - slen ds), t)
      else (0, s)
  | _ => (0, s)
  end.

Definition all_digits_value (s : string) : option Z :=
  if str_forallb is_digit s then Some (dec_value 0 s) else None.

Definition parse_chunk (c : chunk) (f : fields) (value : string) : option (fields * string) :=
  match c with
  | stdWeekDay => '(_, value) ← lookup_name shortDayNames 0 value; Some (f, value)
  | stdMonth =>
      '(m, value) ← lookup_name shortMonthNames 1 value;
      Some (mkFields (f_year f) m (f_day f) (f_hour f) (f_min f) (f_sec f) (f_nsec f), value)
  | stdZeroDay | stdUnderDay =>
      let value := match c, value with stdUnderDay, String " " r => r | _, _ => value end in
      '(d, value) ← getnum value (match c with stdZeroDay => true | _ => false end);
      Some (mkFields (f_year f) (f_month f) d (f_hour f) (f_min f) (f_sec f) (f_nsec f), value)
  | stdLongYear =>
      if (String.length value <? 4)%nat then None
      else
        y ← all_digits_value (str_take 4 value);
        Some (mkFields y (f_month f) (f_day f) (f_hour f) (f_min f) (f_sec f) (f_nsec f),
              str_drop 4 value)
  | stdHour =>
      '(h, value) ← getnum value false;
      if 24 <=? h then None
      else Some (mkFields (f_year f) (f_month f) (f_day f) h (f_min f) (f_sec f) (f_nsec f), value)
  | stdZeroMinute =>
      '(m, value) ← getnum value true;
      if 60 <=? m then None
      else Some (mkFields (f_year f) (f_month f) (f_day f) (f_hour f) m (f_sec f) (f_nsec f), value)
  | stdZeroSecond =>
      '(s, value) ← getnum value true;
      if 60 <=? s then None
      else
        let '(ns, value) := fraction value in
        Some (mkFields (f_year f) (f_month f) (f_day f) (f_hour f) (f_min f) s ns, value)
  end.

Fixpoint parse_chunks (cs : list (string * chunk)) (f : fields) (value : string)
  : option (fields * string) :=
  match cs with
  | [] => Some (f, value)
  | (prefix, c) :: cs =>
      value ← skip value prefix;
      '(f, value) ← parse_chunk c f value;
      parse_chunks cs f value
  end.

(** The instant of the fields, in nanoseconds since the epoch. *)
Definition instant (f : fields) : Z :=
  (days_of_civil (f_year f) (f_month f) (f_day f) * 86400 + f_hour f * 3600 + f_min f * 60
   + f_sec f) * Second + f_nsec f.

Definition time_Parse (l : layout) (value : string) : option Z :=
  '(f, value) ← parse_chunks (chunks l) no_fields value;
  match skip value (suffix l) with
  | Some EmptyString =>
      if (f_day f <? 1) || (daysIn (f_month f) (f_year f) <? f_day f) then None
      else Some (instant f)
  | _ => None
  end.

(** "Mon, 02 Jan 2006 15:04:05 GMT" *)
Definition TimeFormat : layout :=
  mkLayout [("", stdWeekDay); (", ", stdZeroDay); (" ", stdMonth); (" ", stdLongYear);
            (" ", stdHour); (":", stdZeroMinute); (":", stdZeroSecond)] " GMT".
(** "Mon Jan _2 15:04:05 2006" *)
Definition ANSIC : layout :=
  mkLayout [("", stdWeekDay); (" ", stdMonth); (" ", stdUnderDay); (" ", stdHour);
            (":", stdZeroMinute); (":", stdZeroSecond); (" ", stdLongYear)] "".

Section http_ParseTime.
(** [time.Parse(time.RFC850, s)] *)
Context (rfc850 : string -> option Z).

Definition http_ParseTime (s : string) : option Z :=
  match time_Parse TimeFormat s with
  | Some t => Some t
  | None => match rfc850 s with Some t => Some t | None => time_Parse ANSIC s end
  end.
End http_ParseTime.

Example parse_imf :
  time_Parse TimeFormat "Wed, 21 Oct 2026 07:28:00 GMT" = Some (1792567680 * Second).
Proof. vm_compute. reflexivity. Qed.
Example parse_liberties :
  time_Parse TimeFormat "wED,  21 oct   2026 7:28:00.25  GMT" = Some (1792567680250000000).
Proof. vm_compute. reflexivity. Qed.
Example parse_asctime : time_Parse ANSIC "Wed Oct  1 07:28:00 2026" = Some (1790839680 * Second).
Proof. vm_compute. reflexivity. Qed.
Example parse_no_such_day : time_Parse TimeFormat "Sun, 29 Feb 2026 07:28:00 GMT" = None.
Proof. vm_compute. reflexivity. Qed.

(** ** The calendar round trip *)

(** The year of a day of a 400-year era: the day lies between the year's first
    day and the next one's (the last year of an era has the leap day more). *)
Lemma year_of_era doe :
  0 <= doe < 146097 ->
  let yoe := (doe - doe / 1460 + doe / 36524 - doe / 146096) / 365 in
  0 <= yoe < 400 /\
  365 * yoe + yoe / 4 - yoe / 100 <= doe <=
    365 * yoe + yoe / 4 - yoe / 100 + 364
    + (if ((yoe + 1) mod 4 =? 0) && (negb ((yoe + 1) mod 100 =? 0) || (yoe + 1 =? 400)) then 1 else 0).
Proof.
  intros H. cbv zeta.
  set (yoe := (doe - doe / 1460 + doe / 36524 - doe / 146096) / 365).
  assert (0 <= yoe < 400) as Hy by (unfold yoe; div_lia).
  split; [done|].
  destruct (Z.eqb_spec ((yoe + 1) mod 4) 0), (Z.eqb_spec ((yoe + 1) mod 100) 0),
    (Z.eqb_spec (yoe + 1) 400); cbn [andb orb negb]; unfold yoe in *; div_lia.
Qed.

(** The month and day of a day of the year that starts in March; only its last
    day, 365, needs a leap year. *)
Definition march_day_ok (doy : Z) : bool :=
  let mp := (5 * doy + 2) / 153 in
  let d := doy - (153 * mp + 2) / 5 + 1 in
  let m := if mp <? 10 then mp + 3 else mp - 9 in
  (1 <=? m) && (m <=? 12) && (1 <=? d)
  && ((153 * (if 2 <? m then m - 3 else m + 9) + 2) / 5 + d - 1 =? doy)
  && (if doy =? 365 then (m =? 2) && (d =? 29) else d <=? daysIn m 2001).

Lemma march_days doy : 0 <= doy <= 365 -> march_day_ok doy = true.
Proof.
  intros H. rewrite <- (Z2N.id doy) by lia.
  apply (below_forallb (fun n => march_day_ok (Z.of_N n)) 366); [vm_compute; reflexivity|lia].
Qed.

Lemma daysIn_2001 m y : daysIn m 2001 <= daysIn m y.
Proof.
  unfold daysIn. change (isLeap 2001) with false. rewrite andb_false_r.
  destruct (Z.eqb_spec m 2) as [->|]; [|done]. by destruct (isLeap y).
Qed.

Lemma civil_roundtrip days :
  let '(y, m, d) := civil_of_days days in
  days_of_civil y m d = days /\ 1 <= m <= 12 /\ 1 <= d <= daysIn m y.
Proof.
  unfold civil_of_days. cbv zeta. set (z := days + 719468).
  pose proof (Z.mod_pos_bound z 146097 ltac:(lia)) as Hdoe.
  pose proof (Z.div_mod z 146097 ltac:(lia)) as Hz.
  set (doe := z mod 146097) in *. set (era := z / 146097) in *.
  destruct (year_of_era doe Hdoe) as [Hy Hd].
  set (yoe := (doe - doe / 1460 + doe / 36524 - doe / 146096) / 365) in *.
  assert (0 <= doe - (365 * yoe + yoe / 4 - yoe / 100) <= 365) as Hdoy
    by (destruct (_ && _) in Hd; lia).
  set (doy := doe - (365 * yoe + yoe / 4 - yoe / 100)) in *.
  pose proof (march_days doy Hdoy) as Hm. unfold march_day_ok in Hm. cbv zeta in Hm.
  set (mp := (5 * doy + 2) / 153) in *. set (d := doy - (153 * mp + 2) / 5 + 1) in *.
  set (m := if mp <? 10 then mp + 3 else mp - 9) in *. clearbody m d mp.
  split_bool. rewrite ?Z.leb_le, ?Z.eqb_eq in *. split_and!; [|lia|lia|lia|].
  - unfold days_of_civil. cbv zeta. rewrite Z.add_simpl_r, Z_mod_plus_full, Z.mod_small by lia.
    rewrite Z.div_add, (Z.div_small yoe) by lia. lia.
  - destruct (Z.eqb_spec doy 365) as [Hlast|]; [|etransitivity; [|apply daysIn_2001]; by apply Z.leb_le].
    split_bool. rewrite ?Z.eqb_eq in *. subst m d. change (2 <=? 2) with true. cbv iota.
    unfold daysIn, isLeap. change (2 =? 2) with true. rewrite andb_true_l.
    replace ((yoe + era * 400 + 1) mod 4) with ((yoe + 1) mod 4) by div_lia.
    replace ((yoe + era * 400 + 1) mod 100) with ((yoe + 1) mod 100) by div_lia.
    replace ((yoe + era * 400 + 1) mod 400 =? 0) with (yoe + 1 =? 400) by div_lia.
    destruct (_ && _) in Hd |- *; [done|lia].
Qed.

(** ** The format round trip *)

Lemma getnum_two z rest :
  0 <= z < 100 -> getnum (two_digits z +:+ rest) true = Some (z, rest).
Proof.
  intros H.
  pose proof (below_forallb (fun n =>
    match two_digits (Z.of_N n) with
    | String a (String b EmptyString) =>
        is_digit a && is_digit b
        && (Z.of_N (digit_val a) * 10 + Z.of_N (digit_val b) =? Z.of_N n)
    | _ => false
    end) 100 ltac:(vm_compute; reflexivity) (Z.to_N z) ltac:(lia)) as Hz.
  cbv beta in Hz. rewrite Z2N.id in Hz by lia.
  destruct (two_digits z) as [|a [|b [|? ?]]]; try done.
  split_bool. rewrite Z.eqb_eq in *. rewrite !str_app_cons. cbn [getnum String.append].
  by repeat match goal with H : is_digit _ = true |- _ => rewrite H; clear H end; subst.
Qed.

Lemma getnum_hour z rest :
  0 <= z < 100 -> getnum (two_digits z +:+ rest) false = Some (z, rest).
Proof.
  intros H. pose proof (getnum_two z rest H) as Hg. unfold getnum in *.
  destruct (two_digits z +:+ rest) as [|a [|b r]]; [done| |].
  - by destruct (negb (is_digit a)).
  - destruct (negb (is_digit a)); [done|]. by destruct (is_digit b).
Qed.

Lemma four_digits_ok y :
  0 <= y <= 9999 ->
  String.length (four_digits y) = 4%nat /\ all_digits_value (four_digits y) = Some y.
Proof.
  intros Hy. unfold four_digits, all_digits_value.
  assert (y <= MaxUint64) as Hm by (unfold MaxUint64; lia).
  destruct (Z.ltb_spec y 10); [|destruct (Z.ltb_spec y 100); [|destruct (Z.ltb_spec y 1000)]].
  - destruct (FormatInt_length y 0) as (Hl & Hd & Hv); [lia|lia|by left|].
    rewrite str_length_app, Hl, str_forallb_app, Hd. revert Hv. generalize (FormatInt y).
    intros s Hv. split; [done|]. change (dec_value 0 ("000" +:+ s)) with (dec_value 0 s).
    by rewrite Hv.
  - destruct (FormatInt_length y 1) as (Hl & Hd & Hv); [lia|lia|right; lia|].
    rewrite str_length_app, Hl, str_forallb_app, Hd. revert Hv. generalize (FormatInt y).
    intros s Hv. split; [done|]. change (dec_value 0 ("00" +:+ s)) with (dec_value 0 s).
    by rewrite Hv.
  - destruct (FormatInt_length y 2) as (Hl & Hd & Hv); [lia|lia|right; lia|].
    rewrite str_length_app, Hl, str_forallb_app, Hd. revert Hv. generalize (FormatInt y).
    intros s Hv. split; [done|]. change (dec_value 0 ("0" +:+ s)) with (dec_value 0 s).
    by rewrite Hv.
  - destruct (FormatInt_length y 3) as (Hl & Hd & Hv); [lia|lia|right; lia|].
    rewrite str_length_app, Hl, str_forallb_app, Hd. revert Hv. generalize (FormatInt y).
    intros s Hv. split; [done|]. change (dec_value 0 ("" +:+ s)) with (dec_value 0 s).
    by rewrite Hv.
Qed.

Lemma parse_year f y rest :
  0 <= y <= 9999 ->
  parse_chunk stdLongYear f (four_digits y +:+ rest) =
  Some (mkFields y (f_month f) (f_day f) (f_hour f) (f_min f) (f_sec f) (f_nsec f), rest).
Proof.
  intros Hy. destruct (four_digits_ok y Hy) as [Hl Hv]. cbn [parse_chunk].
  rewrite str_length_app, Hl. cbn [Nat.ltb Nat.leb Nat.add].
  rewrite <- Hl, str_take_app, str_drop_app, Hv. done.
Qed.

Lemma lookup_weekday w rest :
  0 <= w < 7 -> lookup_name shortDayNames 0 (weekday_name w +:+ rest) = Some (w, rest).
Proof.
  intros H. assert (w = 0 \/ w = 1 \/ w = 2 \/ w = 3 \/ w = 4 \/ w = 5 \/ w = 6) as Hw by lia.
  by repeat destruct Hw as [->|Hw]; [..|subst w].
Qed.

Lemma lookup_month m rest :
  1 <= m <= 12 -> lookup_name shortMonthNames 1 (month_name m +:+ rest) = Some (m, rest).
Proof.
  intros H. assert (m = 1 \/ m = 2 \/ m = 3 \/ m = 4 \/ m = 5 \/ m = 6 \/ m = 7 \/ m = 8 \/ m = 9
                    \/ m = 10 \/ m = 11 \/ m = 12) as Hm by lia.
  by repeat destruct Hm as [->|Hm]; [..|subst m].
Qed.

(** ** Stepping through a layout *)

Lemma parse_step prefix c cs f value v f' v' :
  skip value prefix = Some v -> parse_chunk c f v = Some (f', v') ->
  parse_chunks ((prefix, c) :: cs) f value = parse_chunks cs f' v'.
Proof. intros Hs Hc. cbn [parse_chunks]. rewrite Hs. cbn [mbind option_bind]. by rewrite Hc. Qed.

Lemma skip_space s : cutspace s = s -> skip (" " +:+ s) " " = Some s.
Proof. intros H. change (Some (cutspace s) = Some s). by rewrite H. Qed.

Lemma skip_comma_space s : cutspace s = s -> skip (", " +:+ s) ", " = Some s.
Proof. intros H. change (Some (cutspace s) = Some s). by rewrite H. Qed.

Lemma getnum_nospace s b r : getnum s b = Some r -> cutspace s = s.
Proof. destruct s as [|c s]; [done|]. cbn. by byte_cases c. Qed.

Lemma lookup_month_nospace m rest :
  1 <= m <= 12 -> cutspace (month_name m +:+ rest) = month_name m +:+ rest.
Proof.
  intros H. assert (m = 1 \/ m = 2 \/ m = 3 \/ m = 4 \/ m = 5 \/ m = 6 \/ m = 7 \/ m = 8 \/ m = 9
                    \/ m = 10 \/ m = 11 \/ m = 12) as Hm by lia.
  by repeat destruct Hm as [->|Hm]; [..|subst m].
Qed.

Lemma four_digits_nospace y rest :
  0 <= y <= 9999 -> cutspace (four_digits y +:+ rest) = four_digits y +:+ rest.
Proof.
  intros Hy. destruct (four_digits_ok y Hy) as [Hl Hv]. unfold all_digits_value in Hv.
  destruct (four_digits y) as [|c s]; [done|]. cbn [str_forallb] in Hv.
  destruct (is_digit c) eqn:Hc; [|done]. rewrite str_app_cons. cbn. by byte_cases c.
Qed.

Lemma parse_fields y m d hh mi ss w :
  0 <= y <= 9999 -> 1 <= m <= 12 -> 0 <= d < 100 -> 0 <= hh < 24 -> 0 <= mi < 60 -> 0 <= ss < 60 ->
  0 <= w < 7 ->
  parse_chunks (chunks TimeFormat) no_fields
    (weekday_name w +:+ ", " +:+ two_digits d +:+ " " +:+ month_name m +:+ " " +:+ four_digits y
     +:+ " " +:+ two_digits hh +:+ ":" +:+ two_digits mi +:+ ":" +:+ two_digits ss +:+ " GMT") =
  Some (mkFields y m d hh mi ss 0, " GMT").
Proof.
  intros Hy Hm Hd Hh Hmi Hs Hw. unfold TimeFormat, chunks.
  assert (forall z r, 0 <= z < 100 -> cutspace (two_digits z +:+ r) = two_digits z +:+ r) as Hns
    by (intros z r Hz; by eapply getnum_nospace, getnum_two).
  erewrite parse_step; [|reflexivity|cbn [parse_chunk]; by rewrite lookup_weekday].
  erewrite parse_step; [|by apply skip_comma_space, Hns|cbn [parse_chunk]; by rewrite getnum_two].
  erewrite parse_step;
    [|by apply skip_space, lookup_month_nospace|cbn [parse_chunk]; by rewrite lookup_month].
  erewrite parse_step; [|by apply skip_space, four_digits_nospace|by apply parse_year].
  erewrite parse_step; [|apply skip_space, Hns; lia|].
  2:{ cbn [parse_chunk]. rewrite getnum_hour by lia. cbn [mbind option_bind].
      by destruct (Z.leb_spec 24 hh); [lia|]. }
  erewrite parse_step; [|reflexivity|].
  2:{ cbn [parse_chunk]. rewrite getnum_two by lia. cbn [mbind option_bind].
      by destruct (Z.leb_spec 60 mi); [lia|]. }
  erewrite parse_step; [|reflexivity|].
  2:{ cbn [parse_chunk]. rewrite getnum_two by lia. cbn [mbind option_bind].
      by destruct (Z.leb_spec 60 ss); [lia|]. }
  reflexivity.
Qed.

(** What [Format] writes, [ParseTime] reads, to the second. *)
Lemma ParseTime_FormatHTTPDate rfc850 t :
  0 <= (civil_of_days (t / Second / 86400)).1.1 <= 9999 ->
  http_ParseTime rfc850 (FormatHTTPDate t) = Some (t / Second * Second).
Proof.
  intros Hy. unfold http_ParseTime, FormatHTTPDate. cbv zeta.
  set (secs := t / Second) in *. pose proof (civil_roundtrip (secs / 86400)) as Hc.
  destruct (civil_of_days (secs / 86400)) as [[y m] d]. cbn [fst] in Hy.
  destruct Hc as (Hdays & Hm & Hd).
  assert (daysIn m y <= 31) as H31.
  { unfold daysIn. destruct (_ && _); [lia|]. clear -Hm.
    assert (m = 1 \/ m = 2 \/ m = 3 \/ m = 4 \/ m = 5 \/ m = 6 \/ m = 7 \/ m = 8 \/ m = 9
            \/ m = 10 \/ m = 11 \/ m = 12) as Hcases by lia.
    by repeat destruct Hcases as [->|Hcases]; [..|subst m]. }
  unfold time_Parse.
  rewrite parse_fields by (lia || div_lia || (apply Z.mod_pos_bound; lia)).
  cbn [mbind option_bind]. change (skip " GMT" (suffix TimeFormat)) with (Some "").
  cbn [f_day f_month f_year].
  destruct (Z.ltb_spec d 1); [lia|]. destruct (Z.ltb_spec (daysIn m y) d); [lia|]. cbn [orb].
  f_equal. unfold instant. cbn [f_year f_month f_day f_hour f_min f_sec f_nsec]. rewrite Hdays.
  rewrite Z.add_0_r. f_equal. clear. div_lia.
Qed.

Lemma FormatHTTPDate_not_a_number t : ParseInt (FormatHTTPDate t) = NumSyntax.
Proof.
  unfold FormatHTTPDate. destruct (civil_of_days _) as [[y m] d].
  set (w := (t / Second / 86400 + 4) mod 7).
  pose proof (Z.mod_pos_bound (t / Second / 86400 + 4) 7 ltac:(lia)) as Hw. fold w in Hw.
  assert (w = 0 \/ w = 1 \/ w = 2 \/ w = 3 \/ w = 4 \/ w = 5 \/ w = 6) as Hc by lia. clearbody w.
  by repeat destruct Hc as [->|Hc]; [..|subst w].
Qed.

(** ** Properties *)

(** A Retry-After given as a date is honoured like one given in seconds: for
    every instant with a four-digit year, the delay is the time that is left
    until the second the date names, saturated at the largest duration, and a
    date that is now or past carries none. *)
Theorem ParseRetryAfter_date rfc850 t now :
  0 <= (civil_of_days (t / Second / 86400)).1.1 <= 9999 ->
  let at_ := t / Second * Second in
  ParseRetryAfter (http_ParseTime rfc850) (FormatHTTPDate t) now =
  if bool_decide (now < at_) then (Z.min (at_ - now) MaxInt64, true) else (0, false).
Proof.
  intros Hy at_. pose proof (FormatHTTPDate_nonempty t) as Hne.
  pose proof (FormatHTTPDate_not_a_number t) as Hnum.
  pose proof (ParseTime_FormatHTTPDate rfc850 t Hy) as Ht.
  unfold ParseRetryAfter. destruct (FormatHTTPDate t) as [|c s]; [done|].
  rewrite Hnum. unfold parse_http_date. rewrite Ht. fold at_. unfold time_Sub.
  unfold MaxInt64, MinInt64. cbv zeta.
  destruct (Z.leb_spec (Z.max (-9223372036854775808) (Z.min 9223372036854775807 (at_ - now))) 0);
    case_bool_decide; try lia; [done|f_equal; lia].
Qed.

Lemma ParseRetryAfter_date_witness :
  ParseRetryAfter (http_ParseTime (fun _ => None)) "Wed, 21 Oct 2026 07:28:00 GMT"
    (1792566000 * Second) = (28 * Minute, true).
Proof.
  pose proof (ParseRetryAfter_date (fun _ => None) (1792567680 * Second) (1792566000 * Second)) as H.
  change (FormatHTTPDate (1792567680 * Second)) with "Wed, 21 Oct 2026 07:28:00 GMT" in H.
  rewrite H; [reflexivity|]. change (0 <= 2026 <= 9999). lia.
Defined.
