(* ===== verification/Httpsig.v ===== *)
(** * HTTP signatures (httpsig/httpsig.go)

    The draft-cavage dialect the fediverse verifies: Digest, the canonical
    signing string, the Signature header and its parser, signing and
    verification. A signer is an interface (a record with one operation over a
    world it may read and change); RSA itself, PEM and X.509 are parameters. *)

From S2P Require Import Prelude GoErrors GoStrings Crypto Http.

Definition AlgorithmRSASHA256 : string := "rsa-sha256".

Definition DefaultHeaders : list string :=
  ["(request-target)"; "host"; "date"; "digest"; "content-type"].

Definition RequiredHeaders : list string :=
  ["(request-target)"; "host"; "date"; "digest"].

Record Signature := mkSignature {
  KeyID : string;
  Algorithm : string;
  Bytes : string;
}.

(** The Signer interface: [Sign keyID signingString], over a world [W] (a key
    directory, a remote endpoint). *)
Record Signer (W : Type) := mkSigner {
  Sign : string -> string -> W -> res Signature * W;
}.
Arguments mkSigner {W} Sign.
Arguments Sign {W} s keyID signingString w.

Definition keyIDLimit : Z := 512.

(** A byte that cannot appear inside the quoted key id. *)
Definition bad_keyid_byte (b : ascii) : bool :=
  (b2n b <? 32)%N || (b2n b =? 127)%N || bool_decide (b = quote) || bool_decide (b = backslash).

Definition validateKeyID (id : string) : option error :=
  if bool_decide (id = "") then Some (New "httpsig: signer returned no key id")
  else if keyIDLimit <? slen id then
    Some (Errorf "httpsig: key id is %d bytes, over the %d limit"
            [OInt (slen id); OInt keyIDLimit])
  else if negb (str_forallb (fun b => negb (bad_keyid_byte b)) id) then
    Some (Errorf "httpsig: key id %q contains a character that cannot appear in a Signature header"
            [OStr id])
  else None.

Definition Digest (body : string) : string := "SHA-256=" +:+ b64_encode (Sum256 body).

Section strings.
Context {U : Unicode}.

Definition requestTarget (method : string) (u : URL) : string :=
  ToLower method +:+ " " +:+ RequestURI u.

(** One covered header's value. *)
Definition covered_value (req : Request) (u : URL) (name : string) : res string :=
  if bool_decide (name = "(request-target)") then Ok (requestTarget (Method req) u)
  else if bool_decide (name = "host") then
    Ok (if bool_decide (req_Host req = "") then url_Host u else req_Host req)
  else
    let v := header_Get (req_Header req) name in
    if bool_decide (v = "") then
      Fail (Errorf "httpsig: header %q is empty and cannot be signed" [OStr name])
    else Ok v.

(** The loop of [SigningString]: [first] is [i == 0], [b] the builder. *)
Fixpoint signing_lines (req : Request) (u : URL) (first : bool) (b : string)
  (headers : list string) : res string :=
  match headers with
  | [] => Ok b
  | name :: rest =>
      let name := ToLower name in
      let b := if first then b else b +:+ String newline "" in
      v ← covered_value req u name;
      signing_lines req u false (b +:+ name +:+ ": " +:+ v) rest
  end.

(** [SigningString]. A request without a URL would panic; [SignRequest]
    refuses it first. *)
Definition SigningString (req : Request) (u : URL) (headers : list string) : res string :=
  match headers with
  | [] => Fail (New "httpsig: no headers to sign")
  | _ => signing_lines req u true "" headers
  end.

Definition qstr (s : string) : string := String quote (s +:+ String quote "").

(** The [fmt.Sprintf] of the Signature header. *)
Definition signature_header (keyID algorithm : string) (headers : list string) (sig : string)
  : string :=
  "keyId=" +:+ qstr keyID +:+ ",algorithm=" +:+ qstr algorithm
  +:+ ",headers=" +:+ qstr (Join headers " ") +:+ ",signature=" +:+ qstr sig.

(** [SignRequest]: the error, the request as it was left, the world. [now] is
    [time.Now()]. *)
Definition SignRequest {W} (now : Z) (req : Request) (body keyID : string)
  (signer : option (Signer W)) (w : W) : option error * Request * W :=
  match signer with
  | None => (Some (New "httpsig: no signer"), req, w)
  | Some signer =>
  match req_URL req with
  | None => (Some (New "httpsig: request has no URL"), req, w)
  | Some u =>
      let h := req_Header req in
      let h := if bool_decide (header_Get h "Date" = "")
               then header_Set h "Date" (FormatHTTPDate now) else h in
      let h := header_Set h "Digest" (Digest body) in
      let req := with_header req h in
      match SigningString req u DefaultHeaders with
      | Fail e => (Some e, req, w)
      | Ok signingString =>
      match Sign signer keyID signingString w with
      | (Fail e, w) => (Some e, req, w)
      | (Ok sig, w) =>
      match validateKeyID (KeyID sig) with
      | Some e => (Some e, req, w)
      | None =>
          let algorithm :=
            if bool_decide (Algorithm sig = "") then AlgorithmRSASHA256 else Algorithm sig in
          let h := header_Set h "Signature"
                     (signature_header (KeyID sig) algorithm DefaultHeaders
                        (b64_encode (Bytes sig))) in
          (None, with_header req h, w)
      end end end end end.

Definition requireCoverage (covered : list string) : option error :=
  let have := map ToLower covered in
  match List.find (fun want => negb (str_mem want have)) RequiredHeaders with
  | Some want => Some (Errorf "httpsig: signature does not cover %q" [OStr want])
  | None => None
  end.
End strings.

(** ** The Signature header, parsed *)

Record ParsedSignature := mkParsed {
  p_KeyID : string;
  p_Algorithm : string;
  p_Headers : list string;
  p_Signature : string;
}.

(** [splitParams]: commas outside quotes separate; [cur] is the builder. *)
Fixpoint split_go (cur : string) (inQuotes : bool) (v : string) : list string :=
  match v with
  | EmptyString => if bool_decide (cur = "") then [] else [cur]
  | String c v' =>
      if bool_decide (c = quote) then split_go (cur +:+ String c "") (negb inQuotes) v'
      else if bool_decide (c = ","%char) && negb inQuotes then cur :: split_go "" inQuotes v'
      else split_go (cur +:+ String c "") inQuotes v'
  end.
Definition splitParams (v : string) : list string := split_go "" false v.

(** One iteration of the parameter loop. *)
Definition parse_param (out : ParsedSignature) (part : string) : ParsedSignature :=
  let '(key, value, ok) := Cut part "=" in
  if negb ok then out
  else
    let value := TrimByte (TrimSpace value) quote in
    let key := TrimSpace key in
    if bool_decide (key = "keyId") then
      mkParsed value (p_Algorithm out) (p_Headers out) (p_Signature out)
    else if bool_decide (key = "algorithm") then
      mkParsed (p_KeyID out) value (p_Headers out) (p_Signature out)
    else if bool_decide (key = "headers") then
      mkParsed (p_KeyID out) (p_Algorithm out) (Fields value) (p_Signature out)
    else if bool_decide (key = "signature") then
      mkParsed (p_KeyID out) (p_Algorithm out) (p_Headers out) value
    else out.

Definition ParseSignatureHeader (v : string) : res ParsedSignature :=
  if bool_decide (v = "") then Fail (New "httpsig: no Signature header")
  else
    let out := fold_left parse_param (splitParams v) (mkParsed "" "" [] "") in
    if bool_decide (p_KeyID out = "") || bool_decide (p_Signature out = "") then
      Fail (New "httpsig: Signature header is missing keyId or signature")
    else if bool_decide (p_Headers out = []) then
      Ok (mkParsed (p_KeyID out) (p_Algorithm out) ["date"] (p_Signature out))
    else Ok out.

(** ** Keys: crypto/rsa, encoding/pem and crypto/x509 as parameters *)

(** What crypto/rsa provides: PKCS#1 v1.5 over a SHA-256 digest. *)
Class RSA := {
  PrivateKey : Type;
  PublicKey : Type;
  public_of : PrivateKey -> PublicKey;
  SignPKCS1v15 : PrivateKey -> string -> res string;
  VerifyPKCS1v15 : PublicKey -> string -> string -> option error;
}.

(** Its documented behaviour: a signature that was made is not empty and
    verifies under the matching public key. *)
Class RSALaws (R : RSA) : Prop := {
  sign_verifies : forall k digest sig,
    SignPKCS1v15 k digest = Ok sig -> VerifyPKCS1v15 (public_of k) digest sig = None;
  sign_nonempty : forall k digest sig, SignPKCS1v15 k digest = Ok sig -> sig <> "";
}.

Section keys.
Context {R : RSA}.

Record LocalSigner := mkLocalSigner { ls_keyID : string; ls_key : PrivateKey }.

Definition NewLocalSigner (keyID : string) (key : option PrivateKey) : res LocalSigner :=
  if bool_decide (keyID = "") then Fail (New "httpsig: key id is required")
  else match key with
       | None => Fail (New "httpsig: private key is required")
       | Some k => Ok (mkLocalSigner keyID k)
       end.

Definition LocalSigner_Sign (s : LocalSigner) (keyID signingString : string) : res Signature :=
  if negb (bool_decide (keyID = "")) && negb (bool_decide (keyID = ls_keyID s)) then
    Fail (Errorf "%w: %s" [OWrap (Sentinel ErrUnknownKey); OStr keyID])
  else
    match SignPKCS1v15 (ls_key s) (Sum256 signingString) with
    | Fail e => Fail (Errorf "httpsig: sign: %w" [OWrap e])
    | Ok sig => Ok (mkSignature (ls_keyID s) AlgorithmRSASHA256 sig)
    end.

(** A local signer behind the interface: it touches no world. *)
Definition local_signer {W} (s : LocalSigner) : Signer W :=
  mkSigner (fun keyID str w => (LocalSigner_Sign s keyID str, w)).

Context {U : Unicode}.

(** [Verify] for a request that has its URL. *)
Definition Verify (req : Request) (u : URL) (body : string) (pub : PublicKey) : option error :=
  match ParseSignatureHeader (header_Get (req_Header req) "Signature") with
  | Fail e => Some e
  | Ok parsed =>
  match requireCoverage (p_Headers parsed) with
  | Some e => Some e
  | None =>
      if negb (bool_decide (header_Get (req_Header req) "Digest" = Digest body)) then
        Some (Errorf "httpsig: digest %q does not match the body"
                [OStr (header_Get (req_Header req) "Digest")])
      else
        match SigningString req u (p_Headers parsed) with
        | Fail e => Some e
        | Ok signingString =>
        match b64_decode (p_Signature parsed) with
        | None => Some (Errorf "httpsig: signature is not base64: %w"
                          [OWrap (New "illegal base64 data")])
        | Some sig => VerifyPKCS1v15 pub (Sum256 signingString) sig
        end end
  end end.

(** A PEM block, and what PKCS#8 may hold. *)
Context (pem_Decode : string -> option (string * string)).
Context (ParsePKCS1PrivateKey : string -> res PrivateKey).
Context (ParsePKCS8PrivateKey : string -> res (PrivateKey + string)).

Definition ParsePrivateKey (pemBytes : string) : res PrivateKey :=
  match pem_Decode pemBytes with
  | None => Fail (New "httpsig: no PEM block found")
  | Some (typ, bytes) =>
      if bool_decide (typ = "RSA PRIVATE KEY") then
        map_err (fun e => Errorf "httpsig: parse PKCS#1 key: %w" [OWrap e])
          (ParsePKCS1PrivateKey bytes)
      else if bool_decide (typ = "PRIVATE KEY") then
        match ParsePKCS8PrivateKey bytes with
        | Fail e => Fail (Errorf "httpsig: parse PKCS#8 key: %w" [OWrap e])
        | Ok (inl key) => Ok key
        | Ok (inr kind) => Fail (Errorf "httpsig: PKCS#8 key is %T, want RSA" [OStr kind])
        end
      else Fail (Errorf "httpsig: unsupported PEM block %q" [OStr typ])
  end.
End keys.
Arguments LocalSigner : clear implicits.
Arguments LocalSigner {R}.

(** ** Lemmas: the Signature header round trip *)

Definition plain (c : ascii) : bool := negb (bool_decide (c = quote)) && negb (bool_decide (c = ","%char)).

Lemma split_go_plain cur s t :
  str_forallb plain s = true -> split_go cur false (s +:+ t) = split_go (cur +:+ s) false t.
Proof.
  revert cur. induction s as [|c s IH]; intros cur Hs.
  { by rewrite str_app_nil_r. }
  cbn [str_forallb] in Hs. unfold plain in Hs. split_bool.
  rewrite str_app_cons. cbn [split_go].
  repeat match goal with H : bool_decide _ = false |- _ => rewrite H; clear H end.
  cbn [andb]. rewrite IH by done. by rewrite str_app_assoc.
Qed.

Lemma split_go_in_quotes cur s t :
  str_forallb (not_byte quote) s = true ->
  split_go cur true (s +:+ t) = split_go (cur +:+ s) true t.
Proof.
  revert cur. induction s as [|c s IH]; intros cur Hs.
  { by rewrite str_app_nil_r. }
  cbn [str_forallb] in Hs. unfold not_byte in Hs. split_bool.
  rewrite str_app_cons. cbn [split_go].
  match goal with H : bool_decide _ = false |- _ => rewrite H end.
  rewrite andb_false_r, IH by done. by rewrite str_app_assoc.
Qed.

Lemma split_go_quoted cur s t :
  str_forallb (not_byte quote) s = true ->
  split_go cur false (qstr s +:+ t) = split_go (cur +:+ qstr s) false t.
Proof.
  intros Hs. unfold qstr. rewrite str_app_cons, str_app_assoc. cbn [split_go].
  rewrite bool_decide_eq_true_2 by done. cbn [negb].
  rewrite split_go_in_quotes by done.
  change (String quote "" +:+ t) with (String quote t). cbn [split_go].
  rewrite bool_decide_eq_true_2 by done. cbn [negb].
  by rewrite !str_app_assoc.
Qed.

Lemma split_go_comma cur t : split_go cur false (String ","%char t) = cur :: split_go "" false t.
Proof. done. Qed.

(** The four parameters of a rendered header. *)
Lemma splitParams_header k a hs s :
  str_forallb (not_byte quote) k = true -> str_forallb (not_byte quote) a = true ->
  str_forallb (not_byte quote) (Join hs " ") = true -> str_forallb (not_byte quote) s = true ->
  splitParams (signature_header k a hs s) =
  ["keyId=" +:+ qstr k; "algorithm=" +:+ qstr a; "headers=" +:+ qstr (Join hs " ");
   "signature=" +:+ qstr s].
Proof.
  intros Hk Ha Hh Hs. unfold splitParams, signature_header.
  rewrite split_go_plain, split_go_quoted by done.
  change (",algorithm=" +:+ ?x) with (String ","%char ("algorithm=" +:+ x)).
  rewrite split_go_comma, split_go_plain, split_go_quoted by done.
  change (",headers=" +:+ ?x) with (String ","%char ("headers=" +:+ x)).
  rewrite split_go_comma, split_go_plain, split_go_quoted by done.
  change (",signature=" +:+ ?x) with (String ","%char ("signature=" +:+ x)).
  rewrite split_go_comma, split_go_plain by done.
  rewrite <- (str_app_nil_r (qstr s)) at 1. rewrite split_go_quoted by done.
  reflexivity.
Qed.

Lemma unquote_value x :
  str_forallb (not_byte quote) x = true -> TrimByte (TrimSpace (qstr x)) quote = x.
Proof. intros Hx. unfold qstr. rewrite TrimSpace_between by done. by apply TrimByte_between. Qed.

(** One parameter with a quoted value, for each of the four names. *)
Ltac parse_one x Hx prefix name :=
  unfold parse_param;
  assert (Cut (prefix +:+ qstr x) "=" = (name, qstr x, true)) as -> by reflexivity;
  cbv zeta; rewrite (unquote_value x Hx);
  assert (TrimSpace name = name) as -> by (vm_compute; reflexivity);
  reflexivity.

Lemma parse_keyId out x :
  str_forallb (not_byte quote) x = true ->
  parse_param out ("keyId=" +:+ qstr x) =
  mkParsed x (p_Algorithm out) (p_Headers out) (p_Signature out).
Proof. intros Hx. parse_one x Hx "keyId=" "keyId". Qed.

Lemma parse_algorithm out x :
  str_forallb (not_byte quote) x = true ->
  parse_param out ("algorithm=" +:+ qstr x) =
  mkParsed (p_KeyID out) x (p_Headers out) (p_Signature out).
Proof. intros Hx. parse_one x Hx "algorithm=" "algorithm". Qed.

Lemma parse_headers out x :
  str_forallb (not_byte quote) x = true ->
  parse_param out ("headers=" +:+ qstr x) =
  mkParsed (p_KeyID out) (p_Algorithm out) (Fields x) (p_Signature out).
Proof. intros Hx. parse_one x Hx "headers=" "headers". Qed.

Lemma parse_signature out x :
  str_forallb (not_byte quote) x = true ->
  parse_param out ("signature=" +:+ qstr x) =
  mkParsed (p_KeyID out) (p_Algorithm out) (p_Headers out) x.
Proof. intros Hx. parse_one x Hx "signature=" "signature". Qed.

Lemma parse_header_general k a hs s :
  str_forallb (not_byte quote) k = true -> str_forallb (not_byte quote) a = true ->
  str_forallb (not_byte quote) (Join hs " ") = true -> str_forallb (not_byte quote) s = true ->
  k <> "" -> s <> "" -> hs <> [] -> Fields (Join hs " ") = hs ->
  ParseSignatureHeader (signature_header k a hs s) = Ok (mkParsed k a hs s).
Proof.
  intros Hk Ha Hh Hs Hk0 Hs0 Hhs HF. unfold ParseSignatureHeader.
  rewrite bool_decide_eq_false_2 by done.
  rewrite splitParams_header by done. cbn [fold_left].
  rewrite parse_keyId, parse_algorithm, parse_headers, parse_signature, HF by done.
  cbn [p_KeyID p_Algorithm p_Headers p_Signature].
  by rewrite (bool_decide_eq_false_2 _ Hk0), (bool_decide_eq_false_2 _ Hs0),
    (bool_decide_eq_false_2 _ Hhs).
Qed.

(** ** Lemmas: signing *)

(** The headers as they stand when the signing string is built. *)
Definition stamped_header (now : Z) (h : header) (body : string) : header :=
  header_Set (if bool_decide (header_Get h "Date" = "")
              then header_Set h "Date" (FormatHTTPDate now) else h)
    "Digest" (Digest body).

Definition effective_algorithm (sig : Signature) : string :=
  if bool_decide (Algorithm sig = "") then AlgorithmRSASHA256 else Algorithm sig.

Lemma validateKeyID_quotes id :
  validateKeyID id = None -> str_forallb (not_byte quote) id = true /\ id <> "".
Proof.
  unfold validateKeyID. case_bool_decide; [done|].
  destruct (keyIDLimit <? slen id); [done|].
  destruct (str_forallb (fun b => negb (bad_keyid_byte b)) id) eqn:Hf; [|done].
  intros _. split; [|done]. revert Hf. apply str_forallb_impl.
  intros c. unfold bad_keyid_byte, not_byte. intros Hc. split_bool.
  by apply negb_true_iff.
Qed.

Section signing.
Context {U : Unicode}.

(** The world changes in the signer's call alone. *)
Lemma SignRequest_world {W} (R : W -> W -> Prop) `{!Reflexive R} now req body keyID sg (w : W) :
  (forall keyID str w, R w (Sign sg keyID str w).2) ->
  R w (SignRequest now req body keyID (Some sg) w).2.
Proof.
  intros Hs. unfold SignRequest. destruct (req_URL req); [|reflexivity]. cbv zeta.
  destruct (SigningString _ _ _) as [str|]; [|reflexivity]. specialize (Hs keyID str w).
  destruct (Sign sg keyID str w) as [[sig|] w']; [|exact Hs]. by destruct (validateKeyID _).
Qed.

Lemma SignRequest_ok_inv {W} now req body keyID (sg : Signer W) w req' w' :
  SignRequest now req body keyID (Some sg) w = (None, req', w') ->
  let req1 := with_header req (stamped_header now (req_Header req) body) in
  exists u ss sig,
    req_URL req = Some u /\
    SigningString req1 u DefaultHeaders = Ok ss /\
    Sign sg keyID ss w = (Ok sig, w') /\
    validateKeyID (KeyID sig) = None /\
    req' = with_header req1
             (header_Set (req_Header req1) "Signature"
                (signature_header (KeyID sig) (effective_algorithm sig) DefaultHeaders
                   (b64_encode (Bytes sig)))).
Proof.
  intros H req1. unfold SignRequest in H. fold (stamped_header now (req_Header req) body) in H.
  fold req1 in H.
  destruct (req_URL req) as [u|] eqn:Hu; [|done].
  destruct (SigningString req1 u DefaultHeaders) as [ss|e] eqn:Hss; [|done].
  destruct (Sign sg keyID ss w) as [[sig|e] w1] eqn:Hsg; [|done].
  destruct (validateKeyID (KeyID sig)) eqn:Hv; [done|].
  injection H as <- <-. by exists u, ss, sig.
Qed.

Lemma signing_lines_ext req req' u first b headers :
  Forall (fun n => covered_value req u (ToLower n) = covered_value req' u (ToLower n)) headers ->
  signing_lines req u first b headers = signing_lines req' u first b headers.
Proof.
  intros HF. revert first b. induction HF as [|n ns Hn _ IH]; intros first b; [done|].
  cbn [signing_lines]. rewrite Hn. destruct (covered_value req' u (ToLower n)); [|done].
  apply IH.
Qed.

(** Writing the Signature header does not change what is signed. *)
Lemma SigningString_Signature req u v :
  SigningString (with_header req (header_Set (req_Header req) "Signature" v)) u DefaultHeaders
  = SigningString req u DefaultHeaders.
Proof.
  unfold SigningString, DefaultHeaders. apply signing_lines_ext.
  unfold covered_value. cbn [req_Header with_header Method req_Host].
  repeat constructor; (reflexivity || (cbv zeta; by header_get)).
Qed.
End signing.

Lemma Fields_DefaultHeaders : Fields (Join DefaultHeaders " ") = DefaultHeaders.
Proof. vm_compute. reflexivity. Qed.

Lemma b64_encode_no_quote s : str_forallb (not_byte quote) (b64_encode s) = true.
Proof.
  eapply str_forallb_impl, b64_encode_clean. intros c. unfold b64_clean, not_byte.
  intros Hc. by split_bool; apply negb_true_iff.
Qed.

Lemma requireCoverage_spec {U : Unicode} covered :
  requireCoverage covered = None <->
  Forall (fun want => want ∈ map ToLower covered) RequiredHeaders.
Proof.
  unfold requireCoverage.
  destruct (List.find _ RequiredHeaders) as [want|] eqn:Hf.
  - split; [done|]. intros HF. apply List.find_some in Hf as [Hin Hneg].
    apply negb_true_iff, str_mem_false in Hneg.
    rewrite Forall_forall in HF. destruct Hneg. by apply HF, list_elem_of_In.
  - split; [intros _|done]. apply find_none_forall in Hf.
    eapply Forall_impl; [exact Hf|]. intros x Hx%negb_false_iff. by apply str_mem_spec.
Qed.

Lemma requireCoverage_Default {U : Unicode} : requireCoverage DefaultHeaders = None.
Proof.
  apply requireCoverage_spec. unfold DefaultHeaders, RequiredHeaders.
  repeat constructor; apply str_mem_spec; (vm_compute; reflexivity).
Qed.

Lemma Digest_inj a b : Digest a = Digest b -> Sum256 a = Sum256 b.
Proof.
  unfold Digest. intros H%str_app_inj_l%(f_equal b64_decode).
  rewrite !b64_decode_encode in H. congruence.
Qed.

(** ** Lemmas: what a signing string determines *)

Lemma line_inj v1 v2 t1 t2 :
  str_forallb (not_byte newline) v1 = true -> str_forallb (not_byte newline) v2 = true ->
  v1 +:+ String newline t1 = v2 +:+ String newline t2 -> v1 = v2 /\ t1 = t2.
Proof.
  revert v2. induction v1 as [|c v1 IH]; intros [|d v2] H1 H2; rewrite ?str_app_cons.
  - by intros [= ->].
  - intros [= <- _]. cbn [str_forallb] in H2. by vm_compute in H2.
  - intros [= -> _]. cbn [str_forallb] in H1. by vm_compute in H1.
  - cbn [str_forallb] in H1, H2. split_bool. intros [= -> Heq].
    apply IH in Heq as [-> ->]; [by split|done|done].
Qed.

Section signed_lines.
Context {U : Unicode}.

(** Each line closed by a newline, the last one too. *)
Fixpoint closed_lines (names vs : list string) : string :=
  match names, vs with
  | n :: names, v :: vs =>
      ToLower n +:+ ": " +:+ v +:+ String newline (closed_lines names vs)
  | _, _ => ""
  end.

Definition covers (req : Request) (u : URL) (n v : string) : Prop :=
  covered_value req u (ToLower n) = Ok v.

Lemma signing_lines_values req u b names s :
  signing_lines req u false b names = Ok s ->
  exists vs, Forall2 (covers req u) names vs /\
    s +:+ String newline "" = b +:+ String newline (closed_lines names vs).
Proof.
  revert b. induction names as [|n names IH]; intros b H; cbn [signing_lines] in H.
  { injection H as <-. exists []. by split; [constructor|]. }
  cbv zeta in H. inv_bind H. apply IH in H as (vs & HF & Hs).
  exists (r :: vs). split; [by constructor|]. rewrite Hs. cbn [closed_lines].
  by rewrite !str_app_assoc.
Qed.

Lemma SigningString_values req u names s :
  SigningString req u names = Ok s ->
  exists vs, Forall2 (covers req u) names vs /\ s +:+ String newline "" = closed_lines names vs.
Proof.
  unfold SigningString. destruct names as [|n names]; [done|].
  cbn [signing_lines]. cbv zeta. intros H. inv_bind H.
  apply signing_lines_values in H as (vs & HF & Hs).
  exists (r :: vs). split; [by constructor|]. rewrite Hs. cbn [closed_lines].
  change ("" +:+ ?x) with x. by rewrite !str_app_assoc.
Qed.

Lemma closed_lines_inj names vs1 vs2 :
  length vs1 = length names -> length vs2 = length names ->
  Forall (fun v => str_forallb (not_byte newline) v = true) vs1 ->
  Forall (fun v => str_forallb (not_byte newline) v = true) vs2 ->
  closed_lines names vs1 = closed_lines names vs2 -> vs1 = vs2.
Proof.
  revert vs1 vs2. induction names as [|n names IH]; intros [|v1 vs1] [|v2 vs2] L1 L2 F1 F2;
    try done.
  cbn [closed_lines]. intros H%str_app_inj_l%str_app_inj_l.
  inversion F1; subst. inversion F2; subst.
  apply line_inj in H as [-> Hr]; [|done|done].
  f_equal. apply IH; auto.
Qed.

(** What net/http guarantees of a request it received or will send: no newline
    in the request target, the host or a header value. *)
Definition no_newlines (req : Request) (u : URL) : Prop :=
  str_forallb (not_byte newline) (requestTarget (Method req) u) = true /\
  str_forallb (not_byte newline)
    (if bool_decide (req_Host req = "") then url_Host u else req_Host req) = true /\
  map_Forall (fun _ vs => Forall (fun v => str_forallb (not_byte newline) v = true) vs)
    (req_Header req).

Lemma no_newlines_covered req u n v :
  no_newlines req u -> covered_value req u n = Ok v -> str_forallb (not_byte newline) v = true.
Proof.
  intros (Ht & Hh & Hm). unfold covered_value.
  destruct (bool_decide (n = "(request-target)")); [intros H; by injection H as <-|].
  destruct (bool_decide (n = "host")); [intros H; by injection H as <-|].
  cbv zeta. destruct (bool_decide_reflect (header_Get (req_Header req) n = "")) as [Hv|Hv];
    [done|].
  intros H. injection H as <-. unfold header_Get in *.
  destruct (req_Header req !! CanonicalHeaderKey n) as [[|w ws]|] eqn:E; try done.
  apply Hm in E. by inversion E.
Qed.

Lemma covers_no_newlines req u names vs :
  no_newlines req u -> Forall2 (covers req u) names vs ->
  Forall (fun v => str_forallb (not_byte newline) v = true) vs.
Proof. intros Hn. induction 1; constructor; [by eapply no_newlines_covered|done]. Qed.

Lemma covered_header_inj r1 u1 r2 u2 n :
  n <> "(request-target)" -> n <> "host" ->
  covered_value r1 u1 n = covered_value r2 u2 n ->
  header_Get (req_Header r1) n = header_Get (req_Header r2) n.
Proof.
  intros H1 H2. unfold covered_value. rewrite !bool_decide_eq_false_2 by done. cbv zeta.
  repeat case_bool_decide; congruence.
Qed.

Lemma SigningString_inj r1 u1 r2 u2 names s :
  no_newlines r1 u1 -> no_newlines r2 u2 ->
  SigningString r1 u1 names = Ok s -> SigningString r2 u2 names = Ok s ->
  Forall (fun n => covered_value r1 u1 (ToLower n) = covered_value r2 u2 (ToLower n)) names.
Proof.
  intros N1 N2 (vs1 & F1 & E1)%SigningString_values (vs2 & F2 & E2)%SigningString_values.
  assert (vs1 = vs2) as <-.
  { apply (closed_lines_inj names).
    - symmetry. by eapply Forall2_length.
    - symmetry. by eapply Forall2_length.
    - by apply (covers_no_newlines r1 u1 names).
    - by apply (covers_no_newlines r2 u2 names).
    - congruence. }
  clear E1 E2 N1 N2. induction F1; inversion F2; subst; constructor; [|by auto].
  unfold covers in *. congruence.
Qed.

Lemma covered_required r1 u1 r2 u2 names want :
  requireCoverage names = None -> want ∈ RequiredHeaders ->
  Forall (fun n => covered_value r1 u1 (ToLower n) = covered_value r2 u2 (ToLower n)) names ->
  covered_value r1 u1 want = covered_value r2 u2 want.
Proof.
  intros Hc Hw HF. apply requireCoverage_spec in Hc.
  rewrite Forall_forall in Hc. apply Hc, list_elem_of_fmap in Hw as (n & -> & Hn).
  rewrite Forall_forall in HF. by apply HF.
Qed.

Lemma Verify_inv {R : RSA} req u body pub :
  Verify req u body pub = None <->
  exists parsed ss sig,
    ParseSignatureHeader (header_Get (req_Header req) "Signature") = Ok parsed /\
    requireCoverage (p_Headers parsed) = None /\
    header_Get (req_Header req) "Digest" = Digest body /\
    SigningString req u (p_Headers parsed) = Ok ss /\
    b64_decode (p_Signature parsed) = Some sig /\
    VerifyPKCS1v15 pub (Sum256 ss) sig = None.
Proof.
  unfold Verify. split.
  - destruct (ParseSignatureHeader _) as [p|]; [|done].
    destruct (requireCoverage _) eqn:Hc; [done|].
    case_bool_decide as Hd; cbn [negb]; [|done].
    destruct (SigningString _ _ _) as [ss|] eqn:Hs; [|done].
    destruct (b64_decode _) as [sig|] eqn:Hb; [|done].
    intros H. by exists p, ss, sig.
  - intros (p & ss & sig & -> & -> & -> & -> & -> & H).
    by rewrite bool_decide_eq_true_2.
Qed.
End signed_lines.

(** A toy scheme with RSA's interface, for the witnesses: the signature is the
    digest behind a mark. *)
Definition toy_sign (d : string) : string := "sig:" +:+ d.

Definition toy_RSA : RSA := {|
  PrivateKey := unit;
  PublicKey := unit;
  public_of _ := tt;
  SignPKCS1v15 _ d := Ok (toy_sign d);
  VerifyPKCS1v15 _ d s :=
    if bool_decide (s = toy_sign d) then None else Some (New "crypto/rsa: verification error");
|}.

Lemma toy_laws : RSALaws toy_RSA.
Proof.
  split; cbn.
  - intros _ d s [= <-]. by rewrite bool_decide_eq_true_2.
  - by intros _ d s [= <-].
Qed.

Definition toy_url : URL := mkURL "https" "" "a.example" "/inbox" false "".
Definition toy_request : Request :=
  mkRequest MethodPost (Some toy_url) "a.example"
    {[ "Content-Type" := ["application/activity+json"] ]} "{}".
Definition toy_signer : @LocalSigner toy_RSA := @mkLocalSigner toy_RSA "https://me#main-key" tt.
Definition toy_signed : option error * Request * unit :=
  @SignRequest ascii_only unit 0 toy_request "{}" "" (Some (@local_signer toy_RSA unit toy_signer)) tt.

(** What the signatures of a signer are worth: one that is returned verifies under
    a public key that is [good] for the key id and the call, provided the
    signer's own state satisfies its invariant, which calls keep. *)
Class SignsUnder {R : RSA} {W} (sg : Signer W) (Inv : W -> Prop)
    (good : string -> PublicKey -> W -> W -> Prop) : Prop := {
  signs_inv : forall keyID str w, Inv w -> Inv (Sign sg keyID str w).2;
  signs_good : forall keyID str w sig w', Inv w -> Sign sg keyID str w = (Ok sig, w') ->
    str_forallb (not_byte quote) (Algorithm sig) = true /\ Bytes sig <> "" /\
    exists pub, good keyID pub w w' /\ VerifyPKCS1v15 pub (Sum256 str) (Bytes sig) = None;
}.

Lemma effective_algorithm_clean sig :
  str_forallb (not_byte quote) (Algorithm sig) = true ->
  str_forallb (not_byte quote) (effective_algorithm sig) = true.
Proof. intros H. unfold effective_algorithm. by case_bool_decide. Qed.

(** Against the interface: a signed request verifies under a key that was good. *)
Lemma signed_verifies_under {U : Unicode} {R : RSA} {W} (sg : Signer W) Inv good
    `{!SignsUnder sg Inv good} now req u body keyID req' (w w' : W) :
  Inv w -> req_URL req = Some u ->
  SignRequest now req body keyID (Some sg) w = (None, req', w') ->
  exists pub, good keyID pub w w' /\ Verify req' u body pub = None.
Proof.
  intros Hinv Hu H. apply SignRequest_ok_inv in H as (u' & ss & sig & Hu' & Hss & Hsign & Hv & ->).
  rewrite Hu in Hu'. injection Hu' as <-.
  destruct (signs_good _ _ _ _ _ Hinv Hsign) as (Ha & Hb & pub & Hg & Hver).
  exists pub. split; [exact Hg|]. apply validateKeyID_quotes in Hv as [Hq Hne].
  apply effective_algorithm_clean in Ha.
  set (req1 := with_header req (stamped_header now (req_Header req) body)) in *.
  unfold Verify. cbn [req_Header with_header].
  rewrite header_Get_Set_eq by reflexivity.
  rewrite parse_header_general;
    [|done|done|reflexivity|apply b64_encode_no_quote|done
     |by apply b64_encode_nonempty|done|apply Fields_DefaultHeaders].
  cbn [p_Headers p_Signature]. rewrite requireCoverage_Default.
  rewrite header_Get_Set_ne by (vm_compute; discriminate).
  assert (header_Get (req_Header req1) "Digest" = Digest body) as ->
    by (unfold req1, stamped_header; cbn [req_Header with_header]; header_get; reflexivity).
  rewrite bool_decide_eq_true_2 by done. cbn [negb].
  by rewrite SigningString_Signature, Hss, b64_decode_encode.
Qed.

Lemma LocalSigner_Sign_under {R : RSA} (HR : RSALaws R) (s : LocalSigner) keyID str sig :
  LocalSigner_Sign s keyID str = Ok sig ->
  Algorithm sig = AlgorithmRSASHA256 /\ Bytes sig <> "" /\
  VerifyPKCS1v15 (public_of (ls_key s)) (Sum256 str) (Bytes sig) = None.
Proof.
  unfold LocalSigner_Sign. destruct (_ && _); [done|].
  destruct (SignPKCS1v15 (ls_key s) (Sum256 str)) as [raw|] eqn:Hraw; [|done]. intros [= <-].
  split_and!; [done|by eapply sign_nonempty|by eapply sign_verifies].
Qed.

#[export] Instance local_signs_under {R : RSA} (HR : RSALaws R) {W} (s : LocalSigner) :
  SignsUnder (local_signer s (W := W)) (fun _ => True)
    (fun _ pub w w' => pub = public_of (ls_key s) /\ w' = w).
Proof.
  split; [done|]. intros keyID str w sig w' _. cbn. intros [= Hs <-].
  apply LocalSigner_Sign_under in Hs as (-> & Hb & Hv); [|done]. split_and!; [reflexivity|done|].
  by eexists.
Qed.

Lemma signed_verifies {U : Unicode} {R : RSA} (HR : RSALaws R) {W}
    now req u body keyID (s : LocalSigner) req' (w w' : W) :
  req_URL req = Some u ->
  SignRequest now req body keyID (Some (local_signer s)) w = (None, req', w') ->
  Verify req' u body (public_of (ls_key s)) = None.
Proof.
  intros Hu H.
  destruct (signed_verifies_under _ _ _ (SignsUnder0 := local_signs_under HR s) _ _ _ _ _ _ _ _ I Hu H)
    as (pub & [-> _] & Hv). exact Hv.
Qed.

(** ** Properties *)

(** C3 Signing and verifying agree: a request that [SignRequest] signed with a
    local key verifies, with the same body, against that key's public half,
    under the documented behaviour of crypto/rsa alone. *)
Theorem SignRequest_Verify {U : Unicode} {R : RSA} (HR : RSALaws R)
    now req u body keyID (s : LocalSigner) req' (w' : unit) :
  req_URL req = Some u ->
  SignRequest now req body keyID (Some (local_signer s)) tt = (None, req', w') ->
  Verify req' u body (public_of (ls_key s)) = None.
Proof. by apply signed_verifies. Qed.

Lemma SignRequest_Verify_witness :
  toy_signed = (None, toy_signed.1.2, tt) /\
  @Verify toy_RSA ascii_only toy_signed.1.2 toy_url "{}" tt = None.
Proof.
  split; [vm_compute; reflexivity|].
  apply (@SignRequest_Verify ascii_only toy_RSA toy_laws 0 toy_request toy_url "{}" "" toy_signer
           toy_signed.1.2 tt); [reflexivity|vm_compute; reflexivity].
Defined.

(** C14 A verified signature cannot be carried to another target, host or body:
    when two requests with the same Signature header verify under one key, each
    against its body, and RSA verification accepts one digest per signature,
    then, short of a SHA-256 collision between the two signing strings, their
    request targets, their hosts and dates are the same and so are the hashes
    of their bodies. *)
Theorem Verify_no_replay {U : Unicode} {R : RSA}
    (Hone : forall pub d1 d2 sig, VerifyPKCS1v15 pub d1 sig = None ->
                                  VerifyPKCS1v15 pub d2 sig = None -> d1 = d2)
    r1 u1 b1 r2 u2 b2 pub :
  header_Get (req_Header r1) "Signature" = header_Get (req_Header r2) "Signature" ->
  no_newlines r1 u1 -> no_newlines r2 u2 ->
  (forall hs s1 s2, SigningString r1 u1 hs = Ok s1 -> SigningString r2 u2 hs = Ok s2 ->
                    Sum256 s1 = Sum256 s2 -> s1 = s2) ->
  Verify r1 u1 b1 pub = None -> Verify r2 u2 b2 pub = None ->
  requestTarget (Method r1) u1 = requestTarget (Method r2) u2 /\
  covered_value r1 u1 "host" = covered_value r2 u2 "host" /\
  header_Get (req_Header r1) "Date" = header_Get (req_Header r2) "Date" /\
  Sum256 b1 = Sum256 b2.
Proof.
  intros Hsig N1 N2 Hcol (p & s1 & g & P1 & C1 & D1 & S1 & B1 & V1)%Verify_inv
    (p' & s2 & g' & P2 & _ & D2 & S2 & B2 & V2)%Verify_inv.
  rewrite Hsig, P2 in P1. injection P1 as ->. rewrite B1 in B2. injection B2 as <-.
  assert (s1 = s2) as <- by (eapply Hcol; [exact S1|exact S2|by eapply Hone]).
  pose proof (SigningString_inj _ _ _ _ _ _ N1 N2 S1 S2) as HF.
  assert (forall w, w ∈ RequiredHeaders -> covered_value r1 u1 w = covered_value r2 u2 w) as Hcov
    by (intros w Hw; by eapply covered_required).
  clear HF. split_and!.
  - assert (Ok (requestTarget (Method r1) u1) = Ok (requestTarget (Method r2) u2)) as [= Ht]
      by (apply (Hcov "(request-target)"), str_mem_spec; reflexivity). done.
  - apply Hcov, str_mem_spec. reflexivity.
  - apply (covered_header_inj r1 u1 r2 u2 "date"); [done..|].
    apply Hcov, str_mem_spec. reflexivity.
  - apply Digest_inj. rewrite <- D1, <- D2.
    apply (covered_header_inj r1 u1 r2 u2 "digest"); [done..|].
    apply Hcov, str_mem_spec. reflexivity.
Qed.

Lemma Verify_no_replay_witness :
  let r := toy_signed.1.2 in
  @Verify toy_RSA ascii_only r toy_url "{}" tt = None /\ Sum256 "{}" = Sum256 "{}".
Proof.
  assert (forall pub d1 d2 sig, @VerifyPKCS1v15 toy_RSA pub d1 sig = None ->
            @VerifyPKCS1v15 toy_RSA pub d2 sig = None -> d1 = d2) as Hone.
  { cbn. intros _ d1 d2 sig. unfold toy_sign.
    destruct (bool_decide_reflect (sig = "sig:" +:+ d1)) as [->|]; [|discriminate].
    destruct (bool_decide_reflect ("sig:" +:+ d1 = "sig:" +:+ d2)) as [H|]; [|discriminate].
    intros _ _. exact (str_app_inj_l "sig:" d1 d2 H). }
  assert (@no_newlines ascii_only toy_signed.1.2 toy_url) as HN.
  { split; [vm_compute; reflexivity|]. split; [vm_compute; reflexivity|].
    assert (bool_decide (map_Forall
              (fun (_ : string) vs => Forall (fun v => str_forallb (not_byte newline) v = true) vs)
              (req_Header toy_signed.1.2)) = true) as Hm by (vm_compute; reflexivity).
    exact (proj1 (bool_decide_eq_true _) Hm). }
  assert (@Verify toy_RSA ascii_only toy_signed.1.2 toy_url "{}" tt = None) as HV
    by (vm_compute; reflexivity).
  split; [exact HV|].
  eapply (@Verify_no_replay ascii_only toy_RSA Hone toy_signed.1.2 toy_url "{}"
            toy_signed.1.2 toy_url "{}" tt); [reflexivity|exact HN|exact HN| |exact HV|exact HV].
  intros hs s1 s2 H1 H2 _. congruence.
Defined.

(** A delivery that cannot be signed is not half-signed: when [SignRequest]
    fails, the request carries no new Signature header, and a signer's own error
    comes back unchanged, so that the caller can still test it for
    [ErrUnknownKey]. *)
Theorem SignRequest_fails_closed {U : Unicode} {W} now req body keyID
    (signer : option (Signer W)) w e req' w' :
  SignRequest now req body keyID signer w = (Some e, req', w') ->
  header_Get (req_Header req') "Signature" = header_Get (req_Header req) "Signature" /\
  (forall sg u ss e', signer = Some sg -> req_URL req = Some u ->
     SigningString req' u DefaultHeaders = Ok ss ->
     fst (Sign sg keyID ss w) = Fail e' -> e = e').
Proof.
  unfold SignRequest. fold (stamped_header now (req_Header req) body).
  destruct signer as [sg|]; [|by intros [= <- <- <-]].
  destruct (req_URL req) as [u|] eqn:Hu; [|by intros [= <- <- <-]].
  intros H.
  assert (req' = with_header req (stamped_header now (req_Header req) body)) as ->.
  { destruct (SigningString _ u DefaultHeaders); [|by injection H].
    destruct (Sign sg keyID _ w) as [[sig|] ?]; [|by injection H].
    destruct (validateKeyID _); by injection H. }
  split.
  { cbn [req_Header with_header]. unfold stamped_header. header_get.
    case_bool_decide; by header_get. }
  intros sg' u' ss e' [= <-] [= <-] Hss Hf. rewrite Hss in H.
  destruct (Sign sg keyID ss w) as [[sig|e''] w1]; cbn in Hf; [done|]. congruence.
Qed.

Lemma SignRequest_fails_closed_witness :
  let out := @SignRequest ascii_only unit 0 toy_request "{}" "https://other#key"
               (Some (@local_signer toy_RSA unit toy_signer)) tt in
  errors_Is_opt out.1.1 ErrUnknownKey = true /\
  header_Get (req_Header out.1.2) "Signature" = "".
Proof.
  cbv zeta. split; [vm_compute; reflexivity|].
  assert (exists e, @SignRequest ascii_only unit 0 toy_request "{}" "https://other#key"
             (Some (@local_signer toy_RSA unit toy_signer)) tt
           = (Some e, (@SignRequest ascii_only unit 0 toy_request "{}" "https://other#key"
             (Some (@local_signer toy_RSA unit toy_signer)) tt).1.2, tt)) as [e He]
    by (eexists; vm_compute; reflexivity).
  exact (proj1 (SignRequest_fails_closed _ _ _ _ _ _ _ _ _ He)).
Defined.

Definition evil_signature : Signature :=
  mkSignature "https://me#key" ("x" +:+ String quote (",keyId=" +:+ String quote "https://evil#key"))
    "sig".

(** The key id is checked before it enters the quoted header, the algorithm
    is not: a signer whose answer has a quote in its algorithm makes
    [SignRequest] succeed with a header that parses to a key id the signer did
    not return. *)
Theorem SignRequest_algorithm_injection :
  exists req' parsed,
    validateKeyID (KeyID evil_signature) = None /\
    @SignRequest ascii_only unit 0 toy_request "{}" ""
      (Some (mkSigner (fun _ _ w => (Ok evil_signature, w)))) tt = (None, req', tt) /\
    ParseSignatureHeader (header_Get (req_Header req') "Signature") = Ok parsed /\
    KeyID evil_signature = "https://me#key" /\ p_KeyID parsed = "https://evil#key".
Proof. do 2 eexists. do 4 (split; [vm_compute; reflexivity|]). vm_compute. reflexivity. Qed.
