(* ===== verification/Httpsend.v ===== *)
(** * Outbound HTTP (internal/httpsend/httpsend.go)

    The client every executor sends with, the bounded read of a response body,
    the truncation of a message to a rune boundary, and the HMAC an application
    checks. UTF-8 validity (package unicode/utf8) is modelled as the automaton
    of its acceptance table. *)

From S2P Require Import Prelude GoErrors GoStrings Utf8 Logging Crypto Http Safedial.

Definition HeaderTimestamp : string := "X-Mkqd-Timestamp".
Definition HeaderSignature : string := "X-Mkqd-Signature".

Definition DefaultMaxResponseBytes : Z := 64 * 1024.
Definition drainLimit : Z := 8 * 1024.

(** The settings of the [http.Client] and its [http.Transport]. *)
Record Client := mkClient {
  transport_Dialer : Dialer;
  transport_Proxy : bool;                 (* Proxy = ProxyFromEnvironment *)
  MaxIdleConns : Z;
  MaxIdleConnsPerHost : Z;
  IdleConnTimeout : Z;
  ErrUseLastResponse : bool;              (* CheckRedirect stops at the first answer *)
}.

Definition NewClient (allowPrivate : bool) : Client :=
  mkClient (NewDialer allowPrivate) allowPrivate 256 64 (90 * Second) true.

(** ** Reading a response *)

(** [n] bytes at most are taken from a stream; [None] as error is the end the
    reader wanted. A read error arrives with the read that follows the data. *)
Definition read_limited (b : BodyStream) (n : Z) : string * option error * BodyStream :=
  let k := Z.to_nat n in
  let data := str_take k (body_data b) in
  let rest := mkBody (str_drop k (body_data b)) (body_err b) in
  (data, if slen (body_data b) <? n then body_err b else None, rest).

(** [ReadBody]: the bytes kept, the read error, and what is left on the
    connection when the body is closed. The remainder is drained on every path,
    whatever the read gave. *)
Definition ReadBody (resp : Response) (max : Z) : string * option error * BodyStream :=
  let max := if max <=? 0 then DefaultMaxResponseBytes else max in
  let '(data, err, rest) := read_limited (resp_Body resp) max in
  let '(_, _, rest) := read_limited rest drainLimit in
  (data, err, rest).

(** ** Truncation *)

(** [utf8.RuneStart] *)
Definition RuneStart (b : ascii) : bool := negb (byte_in 128 191 b).

Definition str_get (s : string) (n : nat) : ascii := default zero (String.get n s).

(** The loop that moves [cut] back to a rune boundary. *)
Fixpoint rune_cut (s : string) (cut : nat) : nat :=
  match cut with
  | O => O
  | S k => if RuneStart (str_get s cut) then cut else rune_cut s k
  end.

Definition truncated_suffix : string := "... (truncated)".

(** [Truncate]; the callers' limits are positive constants. *)
Definition Truncate (s : string) (limit : nat) : string :=
  if (String.length s <=? limit)%nat then s
  else str_take (rune_cut s limit) s +:+ truncated_suffix.

(** ** The HMAC *)

Definition hmac_material (unixSeconds : Z) (body : string) : string :=
  "v1:" +:+ FormatInt unixSeconds +:+ ":" +:+ body.

Definition SignHMAC (secret : string) (unixSeconds : Z) (body : string) : string :=
  "v1=" +:+ hex_encode (hmac_sha256 secret (hmac_material unixSeconds body)).

(** ** Lemmas *)

Lemma RuneStart_boundary st b st' :
  state_ok st -> utf8_step st b = Some st' -> RuneStart b = true -> st = Boundary.
Proof.
  destruct st as [|n lo hi]; [done|]. cbn. intros (_ & Hlo & Hhi).
  unfold RuneStart, byte_in.
  repeat match goal with |- context [(?a <=? ?c)%N] => destruct (N.leb_spec a c) end;
    cbn; intros; try done; lia.
Qed.

Lemma str_take_drop_get n s :
  (n < String.length s)%nat -> str_drop n s = String (str_get s n) (str_drop (S n) s).
Proof.
  revert s. induction n as [|n IH]; intros [|c s] H; cbn in *; try lia; [done|].
  rewrite IH by lia. done.
Qed.

(** Cutting a valid string where a rune starts leaves a valid prefix. *)
Lemma ValidString_cut s k :
  ValidString s = true -> (k < String.length s)%nat -> RuneStart (str_get s k) = true ->
  utf8_run Boundary (str_take k s) = Some Boundary.
Proof.
  unfold ValidString. intros Hv Hk Hr.
  rewrite <- (str_take_drop k s), utf8_run_app, (str_take_drop_get k s Hk) in Hv.
  destruct (utf8_run Boundary (str_take k s)) as [st|] eqn:E; cbn in Hv; [|done].
  destruct (utf8_step st (str_get s k)) as [st'|] eqn:E'; cbn in Hv; [|done].
  f_equal. eapply RuneStart_boundary; [|exact E'|exact Hr].
  by eapply utf8_run_ok; [|exact E].
Qed.

Lemma rune_cut_le s n : (rune_cut s n <= n)%nat.
Proof. induction n as [|n IH]; cbn; [done|]. destruct (RuneStart _); lia. Qed.

Lemma rune_cut_start s n : rune_cut s n = 0%nat \/ RuneStart (str_get s (rune_cut s n)) = true.
Proof.
  induction n as [|n IH]; [by left|]. cbn [rune_cut].
  destruct (RuneStart (str_get s (S n))) eqn:E; [by right|done].
Qed.

Lemma rune_cut_skips s n k :
  (rune_cut s n < k <= n)%nat -> RuneStart (str_get s k) = false.
Proof.
  induction n as [|n IH]; intros Hk; [lia|]. cbn [rune_cut] in Hk.
  destruct (RuneStart (str_get s (S n))) eqn:E; [lia|].
  destruct (decide (k = S n)) as [->|]; [done|]. apply IH. lia.
Qed.

Lemma utf8_start_nonstart b u : RuneStart b = false -> utf8_run Boundary (String b u) = None.
Proof. by byte_cases b. Qed.

Lemma utf8_run_continue n lo hi b u :
  utf8_run (Continue n lo hi) (String b u) = None \/
  utf8_run (Continue n lo hi) (String b u) =
    utf8_run (match n with O => Boundary | S n => Continue n 128 191 end) u.
Proof. cbn. destruct (byte_in lo hi b); [right; by destruct n|by left]. Qed.

(** Four bytes in a row that start no rune are never valid. *)
Lemma four_continuations st a b c d t :
  state_ok st ->
  RuneStart a = false -> RuneStart b = false -> RuneStart c = false -> RuneStart d = false ->
  utf8_run st (String a (String b (String c (String d t)))) = None.
Proof.
  intros Hst Ha Hb Hc Hd.
  destruct st as [|n lo hi]; [by apply utf8_start_nonstart|]. destruct Hst as (Hn & _).
  destruct (utf8_run_continue n lo hi a (String b (String c (String d t)))) as [->| ->]; [done|].
  destruct n as [|n]; [by apply utf8_start_nonstart|].
  destruct (utf8_run_continue n 128 191 b (String c (String d t))) as [->| ->]; [done|].
  destruct n as [|n]; [by apply utf8_start_nonstart|].
  destruct (utf8_run_continue n 128 191 c (String d t)) as [->| ->]; [done|].
  destruct n as [|n]; [by apply utf8_start_nonstart|lia].
Qed.

Lemma rune_cut_close s n :
  ValidString s = true -> (n < String.length s)%nat -> (n <= rune_cut s n + 3)%nat.
Proof.
  intros Hv Hn. destruct (le_lt_dec n (rune_cut s n + 3)) as [|Hlt]; [done|exfalso].
  set (k := rune_cut s n) in *. pose proof (rune_cut_skips s n) as Hskip. fold k in Hskip.
  revert Hv. unfold ValidString. rewrite <- (str_take_drop (S k) s), utf8_run_app.
  destruct (utf8_run Boundary (str_take (S k) s)) as [st|] eqn:E; cbn [mbind option_bind]; [|done].
  rewrite !(str_take_drop_get _ s) by lia.
  rewrite four_continuations; [done|by eapply utf8_run_ok; [|exact E]|apply Hskip; lia..].
Qed.

Lemma hex_encode_length s : String.length (hex_encode s) = (2 * String.length s)%nat.
Proof. induction s as [|c s IH]; [done|]. cbn [hex_encode String.length]. lia. Qed.

Lemma hex_digit_inj a b : (a < 16)%N -> (b < 16)%N -> hex_digit a = hex_digit b -> a = b.
Proof.
  intros Ha Hb H.
  assert (b2n (hex_digit a) = b2n (hex_digit b)) as E by (by rewrite H).
  revert E. unfold hex_digit, b2n. rewrite !N_ascii_embedding by (destruct (_ <? _)%N; lia).
  destruct (N.ltb_spec a 10), (N.ltb_spec b 10); lia.
Qed.

Lemma hex_encode_inj s t : hex_encode s = hex_encode t -> s = t.
Proof.
  revert t. induction s as [|c s IH]; intros [|d t]; cbn [hex_encode]; try done.
  intros [= H1 H2 H3]. f_equal; [|by apply IH].
  pose proof (b2n_lt c). pose proof (b2n_lt d).
  apply hex_digit_inj in H1; [|div_lia..]. apply hex_digit_inj in H2; [|div_lia..].
  apply b2n_inj. div_lia.
Qed.

Lemma str_length_drop n s : String.length (str_drop n s) = (String.length s - n)%nat.
Proof. revert s. induction n as [|n IH]; intros [|c s]; cbn; rewrite ?IH; lia. Qed.

Lemma str_length_zero s : String.length s = 0%nat -> s = "".
Proof. by destruct s. Qed.

(** FormatInt writes digits and a sign: never a colon. *)
Lemma FormatInt_no_colon z : str_forallb (not_byte ":"%char) (FormatInt z) = true.
Proof.
  assert (forall n, str_forallb (not_byte ":"%char) (FormatUint n) = true) as HU.
  { intros n. eapply str_forallb_impl, FormatUint_digits. intros c. by byte_cases c. }
  unfold FormatInt. destruct (z <? 0); [|apply HU]. cbn [str_forallb].
  rewrite ?str_app_cons. apply HU.
Qed.

Lemma colon_inj a b s t :
  str_forallb (not_byte ":"%char) a = true -> str_forallb (not_byte ":"%char) b = true ->
  a +:+ String ":"%char s = b +:+ String ":"%char t -> a = b /\ s = t.
Proof.
  revert b. induction a as [|c a IH]; intros [|d b] Ha Hb; rewrite ?str_app_cons.
  - by intros [= ->].
  - intros [= <- _]. cbn in Hb. discriminate.
  - intros [= -> _]. cbn in Ha. discriminate.
  - cbn [str_forallb] in Ha, Hb. split_bool. intros [= -> Heq].
    apply IH in Heq as [-> ->]; [by split|done|done].
Qed.

Lemma hmac_material_inj t1 b1 t2 b2 :
  in_int64 t1 -> in_int64 t2 ->
  hmac_material t1 b1 = hmac_material t2 b2 -> t1 = t2 /\ b1 = b2.
Proof.
  unfold hmac_material. intros H1 H2 H%str_app_inj_l.
  apply colon_inj in H as [Ht ->]; [|apply FormatInt_no_colon..].
  split; [|done]. apply (f_equal ParseInt) in Ht.
  rewrite !ParseInt_FormatInt in Ht by done. congruence.
Qed.

(** ** Properties *)

(** C25 The bounded read: at most [max] bytes (64 KiB when the option is not
    positive) are kept and at most 8 KiB more are taken from the connection; what
    is kept is the beginning of the body, and a read error is reported exactly
    when the body failed before the limit was reached. *)
Theorem ReadBody_bounded resp max :
  let limit := if max <=? 0 then DefaultMaxResponseBytes else max in
  let body := resp_Body resp in
  let '(kept, err, rest) := ReadBody resp max in
  slen kept = Z.min limit (slen (body_data body)) /\
  (exists drained, body_data body = kept +:+ drained +:+ body_data rest /\
     slen drained <= drainLimit /\
     (slen (body_data body) <= limit + drainLimit -> body_data rest = "")) /\
  err = (if slen (body_data body) <? limit then body_err body else None).
Proof.
  cbv zeta. unfold ReadBody. cbv zeta.
  set (limit := if max <=? 0 then DefaultMaxResponseBytes else max).
  assert (0 < limit) as Hl.
  { unfold limit. destruct (Z.leb_spec max 0); [reflexivity|lia]. }
  clearbody limit. cbn [read_limited body_data body_err].
  set (d := body_data (resp_Body resp)). set (k := Z.to_nat limit).
  split_and!; [| |done].
  - unfold slen. rewrite str_length_take. lia.
  - exists (str_take (Z.to_nat drainLimit) (str_drop k d)).
    rewrite !str_take_drop. split_and!; [done| |].
    + unfold slen, drainLimit. rewrite str_length_take. lia.
    + intros H. apply str_length_zero. unfold slen in H.
      rewrite !str_length_drop. unfold drainLimit in *. lia.
Qed.

(** [Truncate] keeps a message valid UTF-8 and bounded: a message of at most
    [limit] bytes is unchanged, a longer one becomes a prefix of itself with the
    marker, the prefix no longer than [limit] and at most three bytes shorter,
    and valid UTF-8 stays valid. *)
Theorem Truncate_spec s limit :
  ValidString s = true ->
  ValidString (Truncate s limit) = true /\
  ((String.length s <= limit)%nat -> Truncate s limit = s) /\
  ((limit < String.length s)%nat ->
   exists k, (limit - 3 <= k <= limit)%nat /\
     Truncate s limit = str_take k s +:+ truncated_suffix).
Proof.
  intros Hv. unfold Truncate. destruct (Nat.leb_spec (String.length s) limit) as [Hle|Hlt].
  { split_and!; [done|done|lia]. }
  split_and!; [|lia|].
  - unfold ValidString. rewrite utf8_run_app.
    destruct (rune_cut_start s limit) as [Hz|Hr].
    + rewrite Hz. by destruct s.
    + rewrite ValidString_cut; [done|done| |done].
      pose proof (rune_cut_le s limit). lia.
  - intros _. exists (rune_cut s limit). split; [|done].
    pose proof (rune_cut_le s limit). pose proof (rune_cut_close s limit Hv Hlt). lia.
Qed.

(** Two runes of three bytes each, cut in the middle of the second. *)
Definition two_kana : string :=
  String "227" (String "129" (String "130" (String "227" (String "129" (String "132" ""))))).

Lemma Truncate_spec_witness :
  ValidString two_kana = true /\ ValidString (Truncate two_kana 4) = true /\
  Truncate two_kana 4 = str_take 3 two_kana +:+ truncated_suffix.
Proof.
  assert (ValidString two_kana = true) as Hv by reflexivity.
  split; [done|]. split; [exact (proj1 (Truncate_spec two_kana 4 Hv))|reflexivity].
Defined.

(** The signature commits to the timestamp and the body: equal signatures
    over two deliveries under one secret mean the same timestamp and the same
    body, unless the two signed strings are an HMAC collision. *)
Theorem SignHMAC_binds secret t1 b1 t2 b2 :
  in_int64 t1 -> in_int64 t2 ->
  SignHMAC secret t1 b1 = SignHMAC secret t2 b2 ->
  (t1 = t2 /\ b1 = b2) \/
  (hmac_material t1 b1 <> hmac_material t2 b2 /\
   hmac_sha256 secret (hmac_material t1 b1) = hmac_sha256 secret (hmac_material t2 b2)).
Proof.
  unfold SignHMAC. intros H1 H2 H%str_app_inj_l%hex_encode_inj.
  destruct (decide (hmac_material t1 b1 = hmac_material t2 b2)) as [E|E]; [left|by right].
  by apply hmac_material_inj.
Qed.

Lemma SignHMAC_binds_witness :
  SignHMAC "s3cret" 1758500000 "{}" = SignHMAC "s3cret" 1758500000 "{}" /\
  ((1758500000 = 1758500000 /\ "{}" = "{}") \/
   (hmac_material 1758500000 "{}" <> hmac_material 1758500000 "{}" /\
    hmac_sha256 "s3cret" (hmac_material 1758500000 "{}")
    = hmac_sha256 "s3cret" (hmac_material 1758500000 "{}"))).
Proof.
  split; [reflexivity|].
  apply (SignHMAC_binds "s3cret" 1758500000 "{}" 1758500000 "{}");
    [vm_compute; split; discriminate|vm_compute; split; discriminate|reflexivity].
Defined.

Example SignHMAC_value :
  SignHMAC "secret" 1700000000 "{}" =
  "v1=" +:+ hex_encode (hmac_sha256 "secret" "v1:1700000000:{}").
Proof. reflexivity. Qed.

Lemma NewClient_guarded :
  let c := NewClient false in
  transport_Proxy c = false /\ ErrUseLastResponse c = true /\
  forall address, dial_check (transport_Dialer c) address = CheckAddr address.
Proof. done. Qed.

(** ** The outside world *)

(** What an executor uses of its process: the HTTP transport (with the time the
    call may take), the clock, its log, and [url.Parse]. *)
Class Net (W : Type) := {
  http_Do : Client -> Z -> Request -> W -> res Response * W;
  time_Now : W -> Z;
  log_write : log_record -> W -> W;
  url_Parse : string -> res URL;
  http_ParseTime : string -> option Z;
}.

(** A small concrete world: every request is answered alike, and recorded. *)
Record fake_net := mkFake {
  fake_answer : res Response;
  fake_now : Z;
  fake_sent : list Request;
  fake_logs : list log_record;
}.

(** Absolute https URLs, cut into host and path. *)
Definition fake_Parse (s : string) : res URL :=
  if HasPrefix s "https://" then
    let '(host, path, _) := Cut (str_drop 8 s) "/" in
    Ok (mkURL "https" "" host ("/" +:+ path) false "")
  else Fail (New "parse error").

Definition fake_Net : Net fake_net := {|
  http_Do _ _ req w :=
    (fake_answer w, mkFake (fake_answer w) (fake_now w) (fake_sent w ++ [req]) (fake_logs w));
  time_Now := fake_now;
  log_write r w := mkFake (fake_answer w) (fake_now w) (fake_sent w) (fake_logs w ++ [r]);
  url_Parse := fake_Parse;
  http_ParseTime _ := None;
|}.
