(* ===== verification/Transport.v ===== *)
(** * Connections (net/http's transport over net.Dialer)

    The transport of Httpsend.v one level down: a request's host is resolved, the
    addresses are dialled in order, each socket going through the dialer's
    Control hook before connect(2), and the exchange takes place on the first
    connection made. The name service, connect(2) and the exchange are the
    class [Dialing]; every address connect(2) was called on is recorded. A
    connection that is kept alive was dialled like any other and is not told
    apart; the race of two address families reaches no address the list does
    not have. *)

From S2P Require Import Prelude GoErrors GoStrings NetAddr Logging Http Safedial Httpsend.

(** What the transport asks of the outside. The proxy is the environment's, the
    addresses are IP addresses with ports. *)
Class Dialing (W : Type) := {
  net_Proxy : Request -> option URL;
  net_Resolve : URL -> W -> res (list string) * W;
  net_Connect : string -> W -> option error * W;
  net_Exchange : string -> Z -> Request -> W -> res Response * W;
  net_Redirect : Request -> Response -> option Request;   (* where a redirect points *)
  net_Now : W -> Z;
  net_Log : log_record -> W -> W;
  net_ParseURL : string -> res URL;
  net_ParseTime : string -> option Z;
}.

Section transport.
Context {W : Type} `{!Dialing W}.

(** The addresses connected to, and the rest of the world. *)
Abbreviation conns := (list string * W)%type.

Definition dial_error (address : string) (e : error) : error :=
  Errorf "dial tcp %s: %w" [OStr address; OWrap e].

(** [sysDialer.dialSerial]: the first success, or the first error. *)
Fixpoint dialSerial (d : Dialer) (first : option error) (addresses : list string) (s : conns)
  : res string * conns :=
  match addresses with
  | [] => (Fail (default (New "missing address") first), s)
  | a :: rest =>
      match dial_check d a with
      | Some e => dialSerial d (first ∪ Some (dial_error a e)) rest s
      | None =>
          let '(tr, w) := s in
          match net_Connect a w with
          | (None, w) => (Ok a, (tr ++ [a], w))
          | (Some e, w) => dialSerial d (first ∪ Some (dial_error a e)) rest (tr ++ [a], w)
          end
      end
  end.

(** Whose host a request's connection goes to. *)
Definition connect_target (c : Client) (req : Request) (u : URL) : URL :=
  if transport_Proxy c then default u (net_Proxy req) else u.

(** One exchange: [Transport.RoundTrip]. *)
Definition RoundTrip (c : Client) (limit : Z) (req : Request) (s : conns) : res Response * conns :=
  match req_URL req with
  | None => (Fail (New "http: nil Request.URL"), s)
  | Some u =>
      match net_Resolve (connect_target c req u) s.2 with
      | (Fail e, w) => (Fail (dial_error (url_Host u) e), (s.1, w))
      | (Ok addresses, w) =>
          match dialSerial (transport_Dialer c) None addresses (s.1, w) with
          | (Fail e, s) => (Fail e, s)
          | (Ok a, (tr, w)) => let '(r, w) := net_Exchange a limit req w in (r, (tr, w))
          end
      end
  end.

(** [Client.Do]: at most ten requests, one when CheckRedirect returns
    ErrUseLastResponse; an error is wrapped in an url.Error. *)
Fixpoint follow (n : nat) (c : Client) (limit : Z) (req : Request) (s : conns)
  : res Response * conns :=
  match RoundTrip c limit req s with
  | (Fail e, s) => (Fail (Errorf "%s: %w" [OStr (Method req); OWrap e]), s)
  | (Ok resp, s) =>
      if ErrUseLastResponse c then (Ok resp, s)
      else match net_Redirect req resp, n with
      | None, _ => (Ok resp, s)
      | Some _, O => (Fail (New "stopped after 10 redirects"), s)
      | Some req, S n => follow n c limit req s
      end
  end.
Definition Do : Client -> Z -> Request -> conns -> res Response * conns := follow 9.
End transport.

(** The outside of an executor, with its connections. *)
#[export] Instance dialing_Net {W} `{!Dialing W} : Net (list string * W) := {|
  http_Do := Do;
  time_Now s := net_Now s.2;
  log_write r '(tr, w) := (tr, net_Log r w);
  url_Parse := net_ParseURL;
  http_ParseTime := net_ParseTime;
|}.

(** ** Guarded connections *)

(** An address of the public internet, by the range table; a zoned address
    escapes the table ([Safedial.zoned_address_bypass]). *)
Definition public_address (address : string) : Prop :=
  exists host port ip, SplitHostPort address = Some (host, port) /\ ParseAddr host = Some ip /\
    (zone_of ip = "" -> public_spec ip = true).

(** The world went on, with connections to public addresses only. *)
Definition connects_public {W} (s s' : list string * W) : Prop :=
  exists new, s'.1 = s.1 ++ new /\ Forall public_address new.

#[export] Instance connects_public_preorder {W} : PreOrder (@connects_public W).
Proof.
  split.
  - intros s. exists []. by rewrite app_nil_r.
  - intros s1 s2 s3 (n1 & H1 & F1) (n2 & H2 & F2). exists (n1 ++ n2).
    split; [by rewrite H2, H1, app_assoc|by apply Forall_app].
Qed.

(** No connection at all. *)
Lemma connects_none {W} tr (w w' : W) : connects_public (tr, w) (tr, w').
Proof. exists []. by rewrite app_nil_r. Qed.

Section guarded.
Context {W : Type} `{!Dialing W}.

Lemma dialSerial_public d first addresses (s : list string * W) :
  (forall a, dial_check d a = None -> public_address a) ->
  connects_public s (dialSerial d first addresses s).2.
Proof.
  intros Hd. revert first s. induction addresses as [|a rest IH]; intros first s; [done|].
  cbn [dialSerial]. destruct (dial_check d a) as [e|] eqn:Ha; [apply IH|]. destruct s as [tr w].
  assert (forall w', connects_public (tr, w) (tr ++ [a], w')) as Hstep.
  { intros w'. exists [a]. split; [done|]. constructor; [by apply Hd|constructor]. }
  destruct (net_Connect a w) as [[e|] w']; [|apply Hstep].
  etransitivity; [apply Hstep|apply IH].
Qed.

(** When every address is refused, nothing is connected and the refusal is the
    error. *)
Lemma dialSerial_blocked d first addresses (s : list string * W) :
  Forall (fun a => errors_Is_opt (dial_check d a) ErrBlocked = true) addresses ->
  (match first with Some e => errors_Is e ErrBlocked = true | None => addresses <> [] end) ->
  exists e, dialSerial d first addresses s = (Fail e, s) /\ errors_Is e ErrBlocked = true.
Proof.
  intros HF. revert first. induction HF as [|a rest Ha _ IH]; intros first Hf.
  - destruct first as [e|]; [|done]. by exists e.
  - cbn [dialSerial]. destruct (dial_check d a) as [e|]; [|done]. cbn in Ha. apply IH.
    destruct first as [e'|]; [exact Hf|]. cbn. by rewrite Ha.
Qed.

Lemma RoundTrip_public c limit req (s : list string * W) :
  (forall a, dial_check (transport_Dialer c) a = None -> public_address a) ->
  connects_public s (RoundTrip c limit req s).2.
Proof.
  intros Hc. unfold RoundTrip. destruct (req_URL req) as [u|]; [|done].
  destruct s as [tr w]. cbn [fst snd]. destruct (net_Resolve _ w) as [[addrs|e] w']; [|apply connects_none].
  pose proof (dialSerial_public (transport_Dialer c) None addrs (tr, w') Hc) as H.
  destruct (dialSerial _ None addrs (tr, w')) as [[a|e] [tr' w'']].
  - etransitivity; [apply (connects_none tr w w')|]. destruct (net_Exchange a limit req w'') as [r w3].
    etransitivity; [exact H|apply connects_none].
  - etransitivity; [apply (connects_none tr w w')|exact H].
Qed.

Lemma follow_public n c limit req (s : list string * W) :
  (forall a, dial_check (transport_Dialer c) a = None -> public_address a) ->
  connects_public s (follow n c limit req s).2.
Proof.
  intros Hc. revert req s. induction n as [|n IH]; intros req s; cbn [follow];
    pose proof (RoundTrip_public c limit req s Hc) as H;
    destruct (RoundTrip c limit req s) as [[resp|e] s']; try exact H;
    (destruct (ErrUseLastResponse c); [exact H|]);
    destruct (net_Redirect req resp) as [req'|]; try exact H.
  etransitivity; [exact H|apply IH].
Qed.

Lemma guarded_dial a : dial_check (transport_Dialer (NewClient false)) a = None -> public_address a.
Proof.
  intros H. apply CheckAddr_public in H. exact H.
Qed.

(** A guarded client connects to public addresses only, whatever the name service
    answers and wherever redirects point. *)
Lemma Do_public limit req (s : list string * W) :
  connects_public s (http_Do (NewClient false) limit req s).2.
Proof. apply follow_public, guarded_dial. Qed.

(** A host all of whose addresses are refused: one error that says so. *)
Lemma Do_blocked limit req u addrs tr (w w' : W) :
  req_URL req = Some u -> net_Resolve u w = (Ok addrs, w') -> addrs <> [] ->
  Forall (fun a => CheckAddr a <> None) addrs ->
  exists e, http_Do (NewClient false) limit req (tr, w) = (Fail e, (tr, w')) /\
            errors_Is e ErrBlocked = true.
Proof.
  intros Hu Hr Hne HF. cbn [http_Do dialing_Net]. unfold Do. cbn [follow]. unfold RoundTrip, connect_target.
  rewrite Hu. cbn [transport_Proxy NewClient fst snd]. rewrite Hr.
  destruct (dialSerial_blocked (transport_Dialer (NewClient false)) None addrs (tr, w'))
    as (e & -> & He); [|done|].
  - eapply Forall_impl; [exact HF|]. intros a Ha. by apply CheckAddr_blocks.
  - eexists. split; [reflexivity|]. cbn. by rewrite He.
Qed.
End guarded.
