(* ===== verification/Executor.v ===== *)
(** * Executors (executor.go, version.go)

    The type-erased job, the executor interface over an abstract world, the
    registry of executor types and the adapter to mkq's handler signature. A
    Go panic is the [Fail] of [RegisterExecutor]; the mutex makes each registry
    operation one step. *)

From S2P Require Import Prelude GoErrors GoStrings Logging.

Definition Version : string := "0.3.0".
Definition UserAgent : string := "mkqd/" +:+ Version.

(** The handler results the program produces: nil, or raw JSON. *)
Inductive any : Type :=
| ANil
| ARaw (raw : string).

(** mkq.Job[json.RawMessage], as mkqd reads it. [mkq_handle] is the part of it
    that reaches back to Redis. *)
Record mkq_Job := mkMkqJob {
  mkq_ID : string;
  mkq_Name : string;
  mkq_Data : string;
  mkq_AttemptsMade : Z;
  mkq_Timestamp : Z;
}.

Record Job := mkJob {
  job_Queue : string;
  job_ID : string;
  job_Name : string;
  job_Data : string;
  job_AttemptsMade : Z;
  job_Timestamp : Z;
  job_src : option mkq_Job;
}.

(** The Executor interface: one operation over a world [W]. *)
Record Executor (W : Type) := mkExecutor {
  Execute : Job -> W -> (any * option error) * W;
}.
Arguments mkExecutor {W} Execute.
Arguments Execute {W} e job w.

(** ExecutorFunc *)
Definition ExecutorFunc {W} (f : Job -> W -> (any * option error) * W) : Executor W :=
  mkExecutor f.

Section mkq_job.
Context {W : Type}.
Context (mkq_UpdateProgress : mkq_Job -> any -> W -> option error * W).
Context (mkq_Log : mkq_Job -> string -> W -> option error * W).

Definition UpdateProgress (j : Job) (v : any) (w : W) : option error * W :=
  match job_src j with
  | None => (Some (Sentinel ErrJobDetached), w)
  | Some src => mkq_UpdateProgress src v w
  end.

Definition Job_Log (j : Job) (line : string) (w : W) : option error * W :=
  match job_src j with
  | None => (Some (Sentinel ErrJobDetached), w)
  | Some src => mkq_Log src line w
  end.
End mkq_job.

(** [executorHandler]: mkq's handler for a queue. *)
Definition executorHandler {W} (queue : string) (ex : Executor W) (job : mkq_Job) (w : W)
  : (any * option error) * W :=
  Execute ex
    (mkJob queue (mkq_ID job) (mkq_Name job) (mkq_Data job) (mkq_AttemptsMade job)
       (mkq_Timestamp job) (Some job)) w.

(** ** The registry *)

Section registry.
(** What is registered. *)
Context {F : Type}.

Definition RegisterExecutor (factories : gmap string F) (typ : string) (f : option F)
  : res (gmap string F) :=
  if bool_decide (typ = "") then Fail (New "mkqd: RegisterExecutor with empty type")
  else match f with
  | None => Fail (New "mkqd: RegisterExecutor with nil factory")
  | Some f =>
      match factories !! typ with
      | Some _ => Fail (Errorf "mkqd: executor type %q registered twice" [OStr typ])
      | None => Ok (<[typ := f]> factories)
      end
  end.

(** [RegisteredExecutors]: [keys] is the order in which the map was
    iterated. *)
Definition RegisteredExecutors_of (keys : list string) : list string :=
  merge_sort String.le keys.
Definition RegisteredExecutors (factories : gmap string F) : list string :=
  RegisteredExecutors_of (map_to_list factories).*1.

Definition lookupExecutorFactory (factories : gmap string F) (typ : string) : option F :=
  factories !! typ.
End registry.

Definition builtinExecutorPackages : gmap string string :=
  list_to_map
    [("http", "github.com/elythia-network/mkqd/executor/httpexec");
     ("webhook", "github.com/elythia-network/mkqd/executor/httpexec");
     ("activitypub_deliver", "github.com/elythia-network/mkqd/executor/apdeliver")].

Definition plannedExecutors : gmap string unit := ∅.

Definition unknownExecutorError (registered : list string) (typ : string) : error :=
  match builtinExecutorPackages !! typ with
  | Some pkg =>
      Errorf "executor type %q is built in but not linked; add `import _ %q` (registered: %v)"
        [OStr typ; OStr pkg; OSprintf "%v" (map OStr registered)]
  | None =>
      match plannedExecutors !! typ with
      | Some _ =>
          Errorf "executor type %q is not implemented yet in mkqd %s (registered: %v)"
            [OStr typ; OStr Version; OSprintf "%v" (map OStr registered)]
      | None =>
          Errorf "unknown executor type %q (registered: %v)"
            [OStr typ; OSprintf "%v" (map OStr registered)]
      end
  end.

(** The "log" executor: it records the job in the log (the world's part it
    writes) and succeeds. *)
Definition log_executor : Executor (list log_record) :=
  ExecutorFunc (fun job logs =>
    ((ANil, None),
     logs ++ [LogRec LevelInfo "job received"
                [("job_id", AStr (job_ID job)); ("job_name", AStr (job_Name job));
                 ("attempt", AInt (wrap64 (job_AttemptsMade job + 1)));
                 ("data", AStr (job_Data job))]])).

(** ** Lemmas *)

Lemma sort_strings_unique l1 l2 :
  l1 ≡ₚ l2 -> merge_sort String.le l1 = merge_sort String.le l2.
Proof.
  intros H. apply (Sorted_unique String.le).
  - apply (Sorted_merge_sort String.le).
  - apply (Sorted_merge_sort String.le).
  - by rewrite !merge_sort_Permutation.
Qed.

Lemma sort_strings_elem l x : x ∈ merge_sort String.le l <-> x ∈ l.
Proof. by rewrite merge_sort_Permutation. Qed.

(** Registrations in sequence, as package initialisation runs them. *)
Fixpoint register_all {F} (factories : gmap string F) (regs : list (string * F))
  : res (gmap string F) :=
  match regs with
  | [] => Ok factories
  | (typ, f) :: regs =>
      m ← RegisterExecutor factories typ (Some f);
      register_all m regs
  end.

Lemma RegisterExecutor_ok {F} (m : gmap string F) typ f m' :
  RegisterExecutor m typ f = Ok m' <->
  exists g, f = Some g /\ typ <> "" /\ m !! typ = None /\ m' = <[typ := g]> m.
Proof.
  unfold RegisterExecutor. case_bool_decide as Ht.
  { split; [done|]. by intros (? & _ & ? & _). }
  destruct f as [g|]; [|split; [done|by intros (? & ? & _)]].
  destruct (m !! typ) as [g'|] eqn:E.
  - split; [done|]. intros (? & _ & _ & ? & _). congruence.
  - split.
    + intros [= <-]. by exists g.
    + intros (g' & [= <-] & _ & _ & ->). done.
Qed.

Lemma register_all_ok {F} (regs : list (string * F)) m m' :
  register_all m regs = Ok m' ->
  NoDup regs.*1 /\ (forall t f, (t, f) ∈ regs -> m !! t = None) /\
  m' = list_to_map regs ∪ m.
Proof.
  revert m. induction regs as [|[t f] regs IH]; intros m H; cbn [register_all] in H.
  { injection H as <-. split_and!; [constructor|set_solver|].
    cbn. by rewrite (left_id_L ∅ (∪)). }
  inv_bind H. apply RegisterExecutor_ok in H0 as (g & [= <-] & Ht & Hm & ->).
  apply IH in H as (Hnd & Hfresh & ->). split_and!.
  - cbn. constructor; [|done]. intros ((t', f') & Ht' & Hin)%list_elem_of_fmap. cbn in Ht'. subst.
    apply Hfresh in Hin. by rewrite lookup_insert_eq in Hin.
  - intros t' f' [[= -> ->]|Hin]%elem_of_cons; [done|].
    apply Hfresh, lookup_insert_None in Hin. by destruct Hin.
  - cbn. rewrite <- insert_union_r; [by rewrite insert_union_l|].
    apply not_elem_of_list_to_map_1. intros ((t', f') & Ht' & Hin)%list_elem_of_fmap.
    cbn in Ht'. subst. apply Hfresh in Hin. by rewrite lookup_insert_eq in Hin.
Qed.

Lemma register_all_complete {F} (regs : list (string * F)) m :
  NoDup regs.*1 -> (forall t f, (t, f) ∈ regs -> t <> "" /\ m !! t = None) ->
  exists m', register_all m regs = Ok m'.
Proof.
  revert m. induction regs as [|[t f] regs IH]; intros m Hnd Hok; cbn [register_all].
  { by eexists. }
  cbn in Hnd. apply NoDup_cons in Hnd as [Hnot Hnd].
  destruct (Hok t f) as [Ht Hm]; [by left|].
  assert (RegisterExecutor m t (Some f) = Ok (<[t := f]> m)) as ->
    by (apply RegisterExecutor_ok; by exists f).
  cbn [mbind res_bind]. apply IH; [done|].
  intros t' f' Hin. destruct (Hok t' f') as [Ht' Hm']; [by right|]. split; [done|].
  rewrite lookup_insert_ne; [done|]. intros ->. apply Hnot.
  apply list_elem_of_fmap. by exists (t', f').
Qed.

Lemma register_all_nonempty {F} (regs : list (string * F)) m m' :
  register_all m regs = Ok m' -> forall t f, (t, f) ∈ regs -> t <> "".
Proof.
  revert m. induction regs as [|[t f] regs IH]; intros m H t' f' Hin; [set_solver|].
  cbn [register_all] in H. inv_bind H.
  apply elem_of_cons in Hin as [[= -> ->]|Hin]; [|by eapply IH].
  by apply RegisterExecutor_ok in H0 as (? & _ & ? & _).
Qed.

(** ** Properties *)

(** The order in which linked packages register their executors does not
    matter: if a sequence of registrations succeeds, every permutation of it
    succeeds with the same registry, a type is found exactly when it was
    registered, with its factory, and the listing is the same sorted list
    whatever order the map is iterated in. *)
Theorem registry_order_independent {F} (regs regs' : list (string * F)) m keys :
  register_all ∅ regs = Ok m -> regs ≡ₚ regs' -> keys ≡ₚ (map_to_list m).*1 ->
  register_all ∅ regs' = Ok m /\
  (forall t f, lookupExecutorFactory m t = Some f <-> (t, f) ∈ regs) /\
  RegisteredExecutors_of keys = RegisteredExecutors m /\
  Sorted String.le (RegisteredExecutors m) /\
  RegisteredExecutors m ≡ₚ regs.*1.
Proof.
  intros H Hp Hk. pose proof (register_all_ok _ _ _ H) as (Hnd & _ & Hm).
  rewrite (right_id_L ∅ (∪)) in Hm.
  assert (NoDup regs'.*1) as Hnd' by (by rewrite <- Hp).
  split_and!.
  - destruct (register_all_complete regs' ∅ Hnd') as [m' H'].
    { intros t f Hin. split; [|apply lookup_empty].
      eapply (register_all_nonempty regs _ _ H). by rewrite Hp. }
    rewrite H'. f_equal. apply register_all_ok in H' as (_ & _ & ->).
    rewrite (right_id_L ∅ (∪)), Hm. symmetry. by apply list_to_map_proper.
  - intros t f. unfold lookupExecutorFactory. rewrite Hm. symmetry.
    by apply elem_of_list_to_map.
  - by apply sort_strings_unique.
  - apply (Sorted_merge_sort String.le).
  - unfold RegisteredExecutors, RegisteredExecutors_of. rewrite merge_sort_Permutation, Hm.
    by rewrite map_to_list_to_map.
Qed.

Definition linked : list (string * nat) := [("log", 0%nat); ("http", 1%nat); ("webhook", 1%nat)].

Definition linked_registry : gmap string nat :=
  match register_all ∅ linked with Ok m => m | Fail _ => ∅ end.

Lemma registry_order_independent_witness :
  register_all ∅ linked = Ok linked_registry /\
  register_all ∅ (rev linked) = Ok linked_registry /\
  RegisteredExecutors linked_registry = ["http"; "log"; "webhook"].
Proof.
  assert (register_all ∅ linked = Ok linked_registry) as H by (vm_compute; reflexivity).
  split; [exact H|]. split; [|vm_compute; reflexivity].
  apply (registry_order_independent linked (rev linked) linked_registry
           (map_to_list linked_registry).*1 H); [|reflexivity].
  apply Permutation.Permutation_rev.
Defined.
