(* ===== verification/Config.v ===== *)
(** * Configuration (config.go)

    The configuration records, the expansion of environment references in a
    parsed document, the defaults, [Validate] and the sizing of the connection
    pool. The YAML library is a parameter: what it parses is a tree of nodes,
    modelled with its kinds, values, tags and styles. What an expansion is supposed
    to be is stated in Expansion.v. *)

From S2P Require Import Prelude GoErrors GoStrings Duration Logging.

#[local] Set Warnings "-register-all".

(** ** The data *)

Record RedisConfig := mkRedisConfig {
  Addrs : list string;
  DB : Z;
  Username : string;
  Password : string;
  MasterName : string;
  PoolSize : Z;
}.

Record ServerConfig := mkServerConfig { srv_Addr : string; Metrics : bool }.

Record QueueDefaults := mkQueueDefaults {
  d_Concurrency : Z;
  d_LockDuration : Z;
  d_StalledInterval : Z;
  d_MaxStalledCount : Z;
  d_JobMetrics : Z;
}.

Record RateLimitConfig := mkRateLimitConfig { rl_Max : Z; rl_Duration : Z }.

(** yaml.Node *)
Inductive node_kind : Set :=
  ZeroNode | DocumentNode | SequenceNode | MappingNode | ScalarNode | AliasNode.

#[global] Instance node_kind_eq_dec : EqDecision node_kind.
Proof. solve_decision. Defined.

Inductive node : Type :=
  Node (Kind : node_kind) (Style : Z) (Tag Value : string) (Content : list node).

Definition Kind (n : node) := let '(Node k _ _ _ _) := n in k.
Definition Value (n : node) := let '(Node _ _ _ v _) := n in v.
Definition Tag (n : node) := let '(Node _ _ t _ _) := n in t.
Definition Content (n : node) := let '(Node _ _ _ _ c) := n in c.

Record ExecutorConfig := mkExecutorConfig { ec_Type : string; ec_node : option node }.

Record QueueConfig := mkQueueConfig {
  q_Name : string;
  q_Concurrency : option Z;
  q_LockDuration : option Z;
  q_StalledInterval : option Z;
  q_MaxStalledCount : option Z;
  q_JobMetrics : option Z;
  q_RateLimit : option RateLimitConfig;
  q_Executor : option ExecutorConfig;
}.

Record Config := mkConfig {
  Redis : RedisConfig;
  KeyPrefix : string;
  Log : LogConfig;
  Server : ServerConfig;
  ShutdownTimeout : Z;
  Defaults : QueueDefaults;
  Queues : list QueueConfig;
}.

Definition zero_Config : Config :=
  mkConfig (mkRedisConfig [] 0 "" "" "" 0) "" (mkLogConfig "" "") (mkServerConfig "" false)
    0 (mkQueueDefaults 0 0 0 0 0) [].

(** ** Environment references

    The pattern is a dollar sign and an opening brace, a name, an optional
    colon-hyphen with a default, and a closing brace. *)

Definition is_name_start (c : ascii) : bool :=
  byte_in 65 90 c || byte_in 97 122 c || bool_decide (c = "_"%char).
Definition is_name_byte (c : ascii) : bool := is_name_start c || is_digit c.

(** A reference: its text, its name (group 1) and its default (group 2, empty
    when it did not take part). *)
Record env_ref := mkRef { ref_text : string; ref_name : string; ref_default : string }.

(** A match of [envPattern] that starts where [s] does. *)
Definition match_env (s : string) : option env_ref :=
  match s with
  | String "$" (String "{" s1) =>
      let '(name, s2) := span is_name_byte s1 in
      match name with
      | String c _ =>
          if is_name_start c then
            match s2 with
            | String "}" _ => Some (mkRef ("${" +:+ name +:+ "}") name "")
            | String ":" (String "-" s3) =>
                let '(def, s4) := span (not_byte "}") s3 in
                match s4 with
                | String "}" _ => Some (mkRef ("${" +:+ name +:+ ":-" +:+ def +:+ "}") name def)
                | _ => None
                end
            | _ => None
            end
          else None
      | EmptyString => None
      end
  | _ => None
  end.

(** [envPattern.MatchString] *)
Fixpoint MatchString (s : string) : bool :=
  match match_env s with
  | Some _ => true
  | None => match s with EmptyString => false | String _ s' => MatchString s' end
  end.

(** [ReplaceAllStringFunc] with a callback that threads a state: matches are
    taken left to right, each as soon as it starts, and the text of a match is
    skipped ([skip] bytes of it are still ahead). *)
Fixpoint replace_go {St} (f : env_ref -> St -> string * St) (skip : nat) (s : string) (st : St)
  : string * St :=
  match s with
  | EmptyString => ("", st)
  | String c s' =>
      match skip with
      | S k => replace_go f k s' st
      | O =>
          match match_env s with
          | Some r =>
              let '(v, st) := f r st in
              let '(out, st) := replace_go f (Nat.pred (String.length (ref_text r))) s' st in
              (v +:+ out, st)
          | None =>
              let '(out, st) := replace_go f 0 s' st in
              (String c out, st)
          end
      end
  end.
Definition ReplaceAllStringFunc {St} (f : env_ref -> St -> string * St) (s : string) (st : St)
  : string * St := replace_go f 0 s st.

Section expand.
(** [os.LookupEnv] *)
Context (LookupEnv : string -> option string).

(** The callback of [expandEnvNode]: the replacement, and [missing]. *)
Definition substitute (r : env_ref) (missing : list string) : string * list string :=
  match LookupEnv (ref_name r) with
  | Some v => (v, missing)
  | None =>
      if Contains (ref_text r) ":-" then (ref_default r, missing)
      else ("", missing ++ [ref_name r])
  end.

(** What is done to one scalar. *)
Definition expand_scalar (n : node) (missing : list string) : node * list string :=
  let '(Node kind style tag value content) := n in
  if negb (MatchString value) then (n, missing)
  else
    let '(value, missing) := ReplaceAllStringFunc substitute value missing in
    (Node kind style "" value content, missing).

(** [walkScalars]: document order, a scalar's own content is not entered. *)
Fixpoint walkScalars {St} (fn : node -> St -> node * St) (n : node) (st : St) {struct n}
  : node * St :=
  let '(Node kind style tag value content) := n in
  if bool_decide (kind = ScalarNode) then fn n st
  else
    let '(content, st) :=
      (fix walk (l : list node) (st : St) : list node * St :=
         match l with
         | [] => ([], st)
         | c :: l =>
             let '(c, st) := walkScalars fn c st in
             let '(l, st) := walk l st in
             (c :: l, st)
         end) content st in
    (Node kind style tag value content, st).
End expand.

(** [dedupe], on the array it shares with its argument: [i] is read, [j] is
    where the next kept element goes, and [out] is the first [j] cells. *)
Fixpoint dedupe_loop (fuel i j : nat) (seen : gset string) (buf : list string)
  : nat * list string :=
  match fuel with
  | O => (j, buf)
  | S fuel =>
      match buf !! i with
      | None => (j, buf)
      | Some s =>
          if bool_decide (s ∈ seen) then dedupe_loop fuel (S i) j seen buf
          else dedupe_loop fuel (S i) (S j) ({[s]} ∪ seen) (<[j := s]> buf)
      end
  end.

Definition dedupe (l : list string) : list string :=
  let '(j, buf) := dedupe_loop (length l) 0 0 ∅ l in take j buf.

Definition expandEnvNode (LookupEnv : string -> option string) (n : node) : res node :=
  let '(n, missing) := walkScalars (expand_scalar LookupEnv) n [] in
  match missing with
  | [] => Ok n
  | _ =>
      Fail (Errorf "mkqd: undefined environment variable(s) in config: %s"
              [OStr (Join (dedupe missing) ", ")])
  end.

(** ** Defaults and validation *)

Definition defaultConcurrency : Z := 16.
Definition defaultLockDuration : Z := 30 * Second.
Definition defaultStalledInterval : Z := 30 * Second.
Definition defaultMaxStalled : Z := 1.
Definition defaultShutdownTimeout : Z := 30 * Second.
Definition defaultServerAddr : string := "127.0.0.1:9464".
Definition serverOff : string := "off".
Definition poolHeadroom : Z := 8.

Definition or_string (v d : string) : string := if bool_decide (v = "") then d else v.
Definition or_int (v d : Z) : Z := if v =? 0 then d else v.

Definition applyDefaults (c : Config) : Config :=
  mkConfig (Redis c) (KeyPrefix c)
    (mkLogConfig (or_string (Level (Log c)) "info") (or_string (Format (Log c)) "text"))
    (mkServerConfig (or_string (srv_Addr (Server c)) defaultServerAddr) (Metrics (Server c)))
    (or_int (ShutdownTimeout c) defaultShutdownTimeout)
    (mkQueueDefaults
       (or_int (d_Concurrency (Defaults c)) defaultConcurrency)
       (or_int (d_LockDuration (Defaults c)) defaultLockDuration)
       (or_int (d_StalledInterval (Defaults c)) defaultStalledInterval)
       (or_int (d_MaxStalledCount (Defaults c)) defaultMaxStalled)
       (d_JobMetrics (Defaults c)))
    (Queues c).

(** The checks of one queue that do not look at the others. *)
Definition validate_queue (q : QueueConfig) : option error :=
  match q_Concurrency q with
  | Some n =>
      if n <? 1 then
        Some (Errorf "mkqd: queues[%s].concurrency must be >= 1, got %d" [OStr (q_Name q); OInt n])
      else None
  | None => None
  end
  ∪ match q_RateLimit q with
    | Some rl =>
        if rl_Max rl <? 1 then
          Some (Errorf "mkqd: queues[%s].rate_limit.max must be >= 1" [OStr (q_Name q)])
        else if rl_Duration rl <=? 0 then
          Some (Errorf "mkqd: queues[%s].rate_limit.duration must be > 0" [OStr (q_Name q)])
        else None
    | None => None
    end
  ∪ match q_Executor q with
    | Some e =>
        if bool_decide (ec_Type e = "") then
          Some (Errorf "mkqd: queues[%s].executor.type is required" [OStr (q_Name q)])
        else None
    | None => None
    end.

(** The loop over the queues, [i] the index and [seen] the names so far. *)
Fixpoint validate_queues (i : Z) (seen : gset string) (qs : list QueueConfig) : option error :=
  match qs with
  | [] => None
  | q :: qs =>
      if bool_decide (q_Name q = "") then
        Some (Errorf "mkqd: queues[%d].name is required" [OInt i])
      else if bool_decide (q_Name q ∈ seen) then
        Some (Errorf "mkqd: queue %q is declared more than once" [OStr (q_Name q)])
      else
        match validate_queue q with
        | Some e => Some e
        | None => validate_queues (i + 1) ({[q_Name q]} ∪ seen) qs
        end
  end.

Definition log_levels : list string := ["debug"; "info"; "warn"; "error"].
Definition log_formats : list string := ["text"; "json"].

Definition Validate (c : Config) : option error :=
  if bool_decide (Addrs (Redis c) = []) then Some (New "mkqd: redis.addrs is required")
  else if negb (str_mem (Level (Log c)) log_levels) then
    Some (Errorf "mkqd: log.level %q is not one of debug, info, warn, error"
            [OStr (Level (Log c))])
  else if negb (str_mem (Format (Log c)) log_formats) then
    Some (Errorf "mkqd: log.format %q is not one of text, json" [OStr (Format (Log c))])
  else if d_Concurrency (Defaults c) <? 1 then
    Some (Errorf "mkqd: defaults.concurrency must be >= 1, got %d"
            [OInt (d_Concurrency (Defaults c))])
  else if ShutdownTimeout c <? 0 then
    Some (New "mkqd: shutdown_timeout must not be negative")
  else validate_queues 0 ∅ (Queues c).

(** ** Pool sizing *)

Definition serverEnabled (c : Config) : bool :=
  negb (bool_decide (srv_Addr (Server c) = "")) &&
  negb (bool_decide (srv_Addr (Server c) = serverOff)).

Definition queue_concurrency (c : Config) (q : QueueConfig) : Z :=
  default (d_Concurrency (Defaults c)) (q_Concurrency q).

(** The sum, as a 64-bit [int] accumulates it. *)
Definition declaredConcurrency (c : Config) : Z :=
  let total := fold_left (fun t q => wrap64 (t + queue_concurrency c q)) (Queues c) 0 in
  if total =? 0 then d_Concurrency (Defaults c) else total.

Definition autoPoolSize (c : Config) : Z := wrap64 (declaredConcurrency c + poolHeadroom).

Definition queueConfig (c : Config) (name : string) : option QueueConfig :=
  List.find (fun q => bool_decide (q_Name q = name)) (Queues c).

(** ** Decoding *)

(** The pairs of a mapping whose key is not "type"; a trailing key without a
    value is dropped. *)
Fixpoint without_type (content : list node) : list node :=
  match content with
  | k :: v :: rest =>
      if bool_decide (Value k = "type") then without_type rest else k :: v :: without_type rest
  | _ => []
  end.

Section yaml.
(** The YAML library: parse to a node ([None] for an empty document),
    serialise, decode rejecting unknown keys (the value as it was left, and
    the error), and decode a node into a value. *)
Context (yaml_Unmarshal : string -> res (option node)).
Context (yaml_Marshal : node -> res string).

Definition DecodeStrict {V} (decode_known : string -> V -> V * option error)
  (e : ExecutorConfig) (v : V) : V * option error :=
  match ec_node e with
  | None => (v, None)
  | Some (Node kind style tag value content) =>
      let content := if bool_decide (kind = MappingNode) then without_type content else content in
      match yaml_Marshal (Node kind style tag value content) with
      | Fail e => (v, Some e)
      | Ok raw =>
          match decode_known raw v with
          | (v, Some e) => if errors_Is e ErrEOF then (v, None) else (v, Some e)
          | (v, None) => (v, None)
          end
      end
  end.

Definition ExecutorConfig_Decode {V} (decode : node -> V -> V * option error)
  (e : ExecutorConfig) (v : V) : V * option error :=
  match ec_node e with None => (v, None) | Some n => decode n v end.

(** [ExecutorConfig.UnmarshalYAML]; [decode_head] reads the type key. *)
Definition ExecutorConfig_UnmarshalYAML (decode_head : node -> res string) (n : node)
  : res ExecutorConfig :=
  typ ← decode_head n;
  Ok (mkExecutorConfig typ (Some n)).

(** [Duration.UnmarshalYAML]; [decode_string] reads a scalar into a string. *)
Definition Duration_UnmarshalYAML (decode_string : node -> res string) (n : node) : res Z :=
  s ← map_err (fun e => Errorf ("duration must be a string such as " +:+ String quote
                              ("30s" +:+ String quote ": %w")) [OWrap e])
        (decode_string n);
  map_err (fun e => Errorf "invalid duration %q: %w" [OStr s; OWrap e]) (ParseDuration s).

(** [Duration.MarshalYAML]: the string the library then encodes. *)
Definition Duration_MarshalYAML (d : Z) : res string := Ok (Duration_String d).

Context (decode_config : string -> Config -> res Config).
Context (LookupEnv : string -> option string).

Definition parse_error (e : error) : error := Errorf "mkqd: parse config: %w" [OWrap e].

Definition ParseConfig (raw : string) : res Config :=
  root ← map_err parse_error (yaml_Unmarshal raw);
  cfg ← match root with
        | None => Ok zero_Config
        | Some root =>
            root ← expandEnvNode LookupEnv root;
            expanded ← map_err parse_error (yaml_Marshal root);
            map_err parse_error (decode_config expanded zero_Config)
        end;
  let cfg := applyDefaults cfg in
  match Validate cfg with Some e => Fail e | None => Ok cfg end.

Definition LoadConfig (ReadFile : string -> res string) (path : string) : res Config :=
  raw ← map_err (fun e => Errorf "mkqd: read config: %w" [OWrap e]) (ReadFile path);
  ParseConfig raw.
End yaml.

(** ** Lemmas: validation *)

Lemma validate_queue_spec q :
  validate_queue q = None <->
  (forall n, q_Concurrency q = Some n -> 1 <= n) /\
  (forall rl, q_RateLimit q = Some rl -> 1 <= rl_Max rl /\ 0 < rl_Duration rl) /\
  (forall e, q_Executor q = Some e -> ec_Type e <> "").
Proof.
  unfold validate_queue. split.
  - intros [[H1 H2]%union_None H3]%union_None. split_and!.
    + intros n Hn. rewrite Hn in H1. destruct (Z.ltb_spec n 1); [done|lia].
    + intros rl Hrl. rewrite Hrl in H2.
      destruct (Z.ltb_spec (rl_Max rl) 1); [done|].
      destruct (Z.leb_spec (rl_Duration rl) 0); [done|lia].
    + intros e He. rewrite He in H3. by case_bool_decide.
  - intros (Hc & Hr & He). apply union_None. split; [apply union_None; split|].
    + destruct (q_Concurrency q) as [n|]; [|done].
      destruct (Z.ltb_spec n 1); [specialize (Hc n eq_refl); lia|done].
    + destruct (q_RateLimit q) as [rl|]; [|done]. destruct (Hr rl eq_refl).
      destruct (Z.ltb_spec (rl_Max rl) 1); [lia|].
      by destruct (Z.leb_spec (rl_Duration rl) 0); [lia|].
    + destruct (q_Executor q) as [e|]; [|done].
      rewrite bool_decide_eq_false_2; [done|by apply He].
Qed.

Lemma validate_queues_spec i seen qs :
  validate_queues i seen qs = None <->
  Forall (fun q => q_Name q <> "" /\ (q_Name q ∉ seen) /\ validate_queue q = None) qs /\
  NoDup (map q_Name qs).
Proof.
  revert i seen. induction qs as [|q qs IH]; intros i seen; cbn [validate_queues].
  { split; [by split; constructor|done]. }
  rewrite Forall_cons.
  case_bool_decide as Hn; [split; [done|by intros [[(? & _) _] _]]|].
  case_bool_decide as Hs; [split; [done|by intros [[(_ & ? & _) _] _]]|].
  destruct (validate_queue q) as [e|] eqn:Hq.
  { split; [done|by intros [[(_ & _ & ?) _] _]]. }
  rewrite IH. cbn [map]. rewrite NoDup_cons. split.
  - intros [HF Hnd]. split_and!; try done.
    + eapply Forall_impl; [exact HF|]. cbn. intros q' (? & Hns & ?). split_and!; [done| |done].
      intros Hin. apply Hns, elem_of_union. by right.
    + intros (q' & Hq' & Hin)%list_elem_of_fmap. rewrite Forall_forall in HF.
      destruct (HF _ Hin) as (_ & Hns & _). apply Hns, elem_of_union. left.
      by apply elem_of_singleton.
  - intros [[_ HF] [Hnot Hnd]]. split; [|done].
    rewrite Forall_forall in HF |- *. intros q' Hin. destruct (HF _ Hin) as (? & ? & ?).
    split_and!; try done. rewrite elem_of_union, elem_of_singleton. intros [E|]; [|done].
    apply Hnot. rewrite <- E. apply list_elem_of_fmap. by exists q'.
Qed.

(** What a configuration must satisfy. *)
Definition valid_queue (q : QueueConfig) : Prop :=
  q_Name q <> "" /\
  (forall n, q_Concurrency q = Some n -> 1 <= n) /\
  (forall rl, q_RateLimit q = Some rl -> 1 <= rl_Max rl /\ 0 < rl_Duration rl) /\
  (forall e, q_Executor q = Some e -> ec_Type e <> "").

Record valid_config (c : Config) : Prop := {
  valid_addrs : Addrs (Redis c) <> [];
  valid_level : Level (Log c) ∈ log_levels;
  valid_format : Format (Log c) ∈ log_formats;
  valid_default_concurrency : 1 <= d_Concurrency (Defaults c);
  valid_shutdown : 0 <= ShutdownTimeout c;
  valid_names : NoDup (map q_Name (Queues c));
  valid_queues : Forall valid_queue (Queues c);
}.

Lemma Validate_valid c : Validate c = None <-> valid_config c.
Proof.
  unfold Validate. split.
  - case_bool_decide; [done|].
    destruct (str_mem (Level (Log c)) _) eqn:Hl; [|done].
    destruct (str_mem (Format (Log c)) _) eqn:Hf; [|done]. cbn [negb].
    destruct (Z.ltb_spec (d_Concurrency (Defaults c)) 1); [done|].
    destruct (Z.ltb_spec (ShutdownTimeout c) 0); [done|].
    intros [HF Hnd]%validate_queues_spec. split; try done; try lia; try by apply str_mem_spec.
    eapply Forall_impl; [exact HF|]. cbn. intros q (Hn & _ & Hq%validate_queue_spec). by split.
  - intros [Ha Hl Hf Hc Hs Hnd HF].
    rewrite bool_decide_eq_false_2 by done.
    apply str_mem_spec in Hl as ->. apply str_mem_spec in Hf as ->. cbn [negb].
    destruct (Z.ltb_spec (d_Concurrency (Defaults c)) 1); [lia|].
    destruct (Z.ltb_spec (ShutdownTimeout c) 0); [lia|].
    apply validate_queues_spec. split; [|done].
    eapply Forall_impl; [exact HF|]. cbn. intros q (Hn & Hq). split_and!; [done|set_solver|].
    by apply validate_queue_spec.
Qed.

Lemma or_string_idem v d : d <> "" -> or_string (or_string v d) d = or_string v d.
Proof. unfold or_string. intros Hd. by repeat case_bool_decide. Qed.

Lemma or_int_idem v d : d <> 0 -> or_int (or_int v d) d = or_int v d.
Proof.
  unfold or_int. intros Hd. destruct (Z.eqb_spec v 0) as [_|Hv].
  - by destruct (Z.eqb_spec d 0).
  - by destruct (Z.eqb_spec v 0).
Qed.

Lemma applyDefaults_idem c : applyDefaults (applyDefaults c) = applyDefaults c.
Proof.
  unfold applyDefaults. cbn.
  rewrite !or_string_idem, !or_int_idem by done. done.
Qed.

(** ** Lemmas: references *)

Lemma Contains_app a b sub : Contains b sub = true -> Contains (a +:+ b) sub = true.
Proof.
  intros H. induction a as [|c a IH]; [done|].
  rewrite str_app_cons. cbn [Contains]. by rewrite IH, orb_true_r.
Qed.

Lemma prefix_app_true sub t : String.prefix sub (sub +:+ t) = true.
Proof.
  induction sub as [|c sub IH]; [by destruct t|].
  rewrite str_app_cons. cbn. by destruct (ascii_dec c c).
Qed.

Lemma Contains_here sub t : Contains (sub +:+ t) sub = true.
Proof.
  pose proof (prefix_app_true sub t) as H.
  destruct (sub +:+ t) as [|c s]; cbn [Contains]; by rewrite H.
Qed.

Lemma Contains_no_first c sub s :
  str_forallb (not_byte c) s = true -> Contains s (String c sub) = false.
Proof.
  induction s as [|d s IH]; [done|]. cbn [str_forallb]. intros [Hd Hs]%andb_prop.
  cbn [Contains]. rewrite IH by done. rewrite orb_false_r. cbn.
  destruct (ascii_dec c d) as [->|]; [|done].
  unfold not_byte in Hd. by rewrite bool_decide_eq_true_2 in Hd.
Qed.

(** A name as the pattern's first group matches it. *)
Definition valid_name (name : string) : bool :=
  match name with
  | EmptyString => false
  | String c _ => is_name_start c && str_forallb is_name_byte name
  end.

Definition plain_ref (name : string) : string := "${" +:+ name +:+ "}".
Definition default_ref (name def : string) : string := "${" +:+ name +:+ ":-" +:+ def +:+ "}".

Lemma match_env_plain name post :
  valid_name name = true ->
  match_env (plain_ref name +:+ post) = Some (mkRef (plain_ref name) name "").
Proof.
  intros Hv. unfold plain_ref. rewrite !str_app_assoc. cbn [match_env].
  change ("${" +:+ ?x) with (String "$" (String "{" x)). cbn [match_env].
  destruct name as [|c name]; [done|]. cbn [valid_name] in Hv. apply andb_prop in Hv as [Hc Hn].
  rewrite span_app by done. by rewrite Hc.
Qed.

Lemma match_env_default name def post :
  valid_name name = true -> str_forallb (not_byte "}") def = true ->
  match_env (default_ref name def +:+ post) = Some (mkRef (default_ref name def) name def).
Proof.
  intros Hv Hd. unfold default_ref. rewrite !str_app_assoc.
  change ("${" +:+ ?x) with (String "$" (String "{" x)). cbn [match_env].
  destruct name as [|c name]; [done|]. cbn [valid_name] in Hv. apply andb_prop in Hv as [Hc Hn].
  rewrite span_app by done. rewrite Hc.
  change (":-" +:+ ?x) with (String ":" (String "-" x)). cbn iota beta.
  rewrite span_app by done. reflexivity.
Qed.

Lemma name_byte_no_colon c : is_name_byte c = true -> not_byte ":" c = true.
Proof. by byte_cases c. Qed.

Lemma plain_ref_no_default name : valid_name name = true -> Contains (plain_ref name) ":-" = false.
Proof.
  intros Hv. apply Contains_no_first. unfold plain_ref.
  rewrite !str_forallb_app. destruct name as [|c name]; [done|].
  apply andb_prop in Hv as [_ Hn].
  by rewrite (str_forallb_impl _ _ _ name_byte_no_colon Hn).
Qed.

Lemma default_ref_default name def : Contains (default_ref name def) ":-" = true.
Proof. unfold default_ref. apply Contains_app, Contains_app, Contains_here. Qed.

Lemma substitute_plain LookupEnv name m :
  valid_name name = true ->
  substitute LookupEnv (mkRef (plain_ref name) name "") m =
  (default "" (LookupEnv name),
   match LookupEnv name with Some _ => m | None => m ++ [name] end).
Proof.
  intros Hv. unfold substitute. cbn [ref_name ref_text].
  rewrite plain_ref_no_default by done. by destruct (LookupEnv name).
Qed.

Lemma substitute_default LookupEnv name def m :
  substitute LookupEnv (mkRef (default_ref name def) name def) m =
  (default def (LookupEnv name), m).
Proof.
  unfold substitute. cbn [ref_name ref_text ref_default].
  rewrite default_ref_default. by destruct (LookupEnv name).
Qed.

Section replace.
Context {St : Type} (f : env_ref -> St -> string * St).

Lemma replace_skip t s st :
  replace_go f (String.length t) (t +:+ s) st = replace_go f 0 s st.
Proof. induction t as [|c t IH]; [by destruct s|]. rewrite str_app_cons. apply IH. Qed.

Lemma replace_plain pre s st :
  str_forallb (not_byte "$") pre = true ->
  replace_go f 0 (pre +:+ s) st =
  (pre +:+ (replace_go f 0 s st).1, (replace_go f 0 s st).2).
Proof.
  induction pre as [|c pre IH]; intros Hp.
  { change ("" +:+ ?x) with x. apply surjective_pairing. }
  cbn [str_forallb] in Hp. apply andb_prop in Hp as [Hc Hp].
  rewrite str_app_cons. cbn [replace_go].
  assert (match_env (String c (pre +:+ s)) = None) as ->.
  { unfold not_byte in Hc. apply negb_true_iff, bool_decide_eq_false in Hc.
    cbn. by byte_cases c. }
  by rewrite IH.
Qed.

Lemma replace_match t s st r :
  t <> "" -> match_env (t +:+ s) = Some r -> ref_text r = t ->
  replace_go f 0 (t +:+ s) st =
  ((f r st).1 +:+ (replace_go f 0 s (f r st).2).1, (replace_go f 0 s (f r st).2).2).
Proof.
  destruct t as [|c t]; [done|]. intros _ Hm Ht. rewrite str_app_cons in Hm |- *.
  cbn [replace_go]. rewrite Hm, Ht. cbn [String.length Nat.pred].
  destruct (f r st) as [v st1]. rewrite replace_skip. cbn [fst snd].
  by destruct (replace_go f 0 s st1).
Qed.
End replace.

(** The references of a scalar, in the order they are replaced. *)
Fixpoint refs_go (skip : nat) (s : string) : list env_ref :=
  match s with
  | EmptyString => []
  | String _ s' =>
      match skip with
      | S k => refs_go k s'
      | O =>
          match match_env s with
          | Some r => r :: refs_go (Nat.pred (String.length (ref_text r))) s'
          | None => refs_go 0 s'
          end
      end
  end.

(** The references of a document, in document order. *)
Fixpoint all_refs (n : node) : list env_ref :=
  let '(Node kind _ _ value content) := n in
  if bool_decide (kind = ScalarNode) then refs_go 0 value else List.flat_map all_refs content.

Lemma replace_state {St} (f : env_ref -> St -> string * St) skip s st :
  (replace_go f skip s st).2 = fold_left (fun st r => (f r st).2) (refs_go skip s) st.
Proof.
  revert skip st. induction s as [|c s IH]; intros skip st; [done|].
  cbn [replace_go refs_go]. destruct skip as [|k]; [|apply IH].
  destruct (match_env (String c s)) as [r|].
  - cbn [fold_left]. rewrite <- IH. destruct (f r st) as [v st1]. cbn [snd].
    by destruct (replace_go _ _ s st1).
  - rewrite <- IH. by destruct (replace_go _ _ s st).
Qed.

Lemma MatchString_refs s : MatchString s = false -> refs_go 0 s = [].
Proof.
  induction s as [|c s IH]; [done|]. cbn [MatchString refs_go].
  destruct (match_env (String c s)); [done|]. apply IH.
Qed.

(** Induction on documents. *)
Lemma node_ind' (P : node -> Prop) :
  (forall k st t v c, Forall P c -> P (Node k st t v c)) -> forall n, P n.
Proof.
  intros H. fix IH 1. intros [k st t v c]. apply H.
  induction c as [|n c IHc]; constructor; [apply IH|exact IHc].
Qed.

Lemma walkScalars_list {St} (fn : node -> St -> node * St) k st t v c s :
  k <> ScalarNode ->
  (walkScalars fn (Node k st t v c) s).2 =
  fold_left (fun s n => (walkScalars fn n s).2) c s.
Proof.
  intros Hk. cbn [walkScalars]. rewrite bool_decide_eq_false_2 by done.
  revert s. induction c as [|n c IH]; intros s; [done|].
  cbn [fold_left]. destruct (walkScalars fn n s) as [n' s1]. cbn [snd]. rewrite <- IH.
  destruct ((fix walk (l : list node) (s0 : St) : list node * St := _) c s1). done.
Qed.

Section missing.
Context (LookupEnv : string -> option string).

(** A reference without a value: the variable is not set and the reference
    has no default. *)
Definition unresolved (r : env_ref) : bool :=
  match LookupEnv (ref_name r) with
  | Some _ => false
  | None => negb (Contains (ref_text r) ":-")
  end.

Definition missing_names (rs : list env_ref) : list string :=
  map ref_name (List.filter unresolved rs).

Lemma substitute_missing rs m :
  fold_left (fun st r => (substitute LookupEnv r st).2) rs m = m ++ missing_names rs.
Proof.
  revert m. induction rs as [|r rs IH]; intros m; cbn [fold_left]; [by rewrite app_nil_r|].
  rewrite IH. unfold missing_names, substitute. cbn [List.filter].
  unfold unresolved at 2. destruct (LookupEnv (ref_name r)); [done|].
  destruct (Contains (ref_text r) ":-"); [done|]. cbn. by rewrite <- app_assoc.
Qed.

Lemma expand_scalar_missing n m :
  (expand_scalar LookupEnv n m).2 = m ++ missing_names (refs_go 0 (Value n)).
Proof.
  destruct n as [k st t v c]. cbn [expand_scalar Value].
  destruct (MatchString v) eqn:Hm; cbn [negb].
  - pose proof (replace_state (substitute LookupEnv) 0 v m) as H.
    rewrite substitute_missing in H. unfold ReplaceAllStringFunc.
    by destruct (replace_go _ 0 v m).
  - rewrite MatchString_refs by done. by rewrite app_nil_r.
Qed.

Lemma missing_names_app a b : missing_names (a ++ b) = missing_names a ++ missing_names b.
Proof. unfold missing_names. by rewrite List.filter_app, map_app. Qed.

Lemma walk_missing n m :
  (walkScalars (expand_scalar LookupEnv) n m).2 = m ++ missing_names (all_refs n).
Proof.
  revert m. induction n as [k st t v c IH] using node_ind'. intros m.
  destruct (decide (k = ScalarNode)) as [->|Hk].
  { exact (expand_scalar_missing (Node ScalarNode st t v c) m). }
  rewrite walkScalars_list by done. cbn [all_refs]. rewrite bool_decide_eq_false_2 by done.
  revert m. induction IH as [|n c Hn _ IHc]; intros m; cbn [fold_left List.flat_map].
  { by rewrite app_nil_r. }
  by rewrite Hn, IHc, missing_names_app, app_assoc.
Qed.
End missing.

(** ** Lemmas: dedupe *)

(** Each element at its first occurrence. *)
Fixpoint first_occurrences (seen : gset string) (l : list string) : list string :=
  match l with
  | [] => []
  | s :: l =>
      if bool_decide (s ∈ seen) then first_occurrences seen l
      else s :: first_occurrences ({[s]} ∪ seen) l
  end.

Lemma dedupe_loop_spec fuel i j seen buf :
  (length buf <= i + fuel)%nat -> (j <= i)%nat ->
  let '(j', buf') := dedupe_loop fuel i j seen buf in
  take j' buf' = take j buf ++ first_occurrences seen (drop i buf).
Proof.
  revert i j seen buf. induction fuel as [|fuel IH]; intros i j seen buf Hl Hj; cbn [dedupe_loop].
  { rewrite drop_ge by lia. by rewrite app_nil_r. }
  destruct (buf !! i) as [s|] eqn:Hs.
  2:{ apply lookup_ge_None in Hs. rewrite drop_ge by done. by rewrite app_nil_r. }
  rewrite (drop_S buf s i Hs). cbn [first_occurrences].
  pose proof (lookup_lt_Some _ _ _ Hs).
  case_bool_decide; [apply IH; lia|].
  specialize (IH (S i) (S j) ({[s]} ∪ seen) (<[j:=s]> buf)).
  destruct (dedupe_loop _ _ _ _ _) as [j' buf']. rewrite IH by (rewrite ?length_insert; lia).
  rewrite drop_insert_lt by lia.
  rewrite (take_S_r _ _ s) by (apply list_lookup_insert_eq; lia).
  rewrite take_insert_ge by lia. by rewrite <- app_assoc.
Qed.

Lemma dedupe_first l : dedupe l = first_occurrences ∅ l.
Proof.
  unfold dedupe. pose proof (dedupe_loop_spec (length l) 0 0 ∅ l) as H.
  destruct (dedupe_loop _ _ _ _ _). rewrite H by lia. done.
Qed.

Lemma first_occurrences_elem seen l x :
  x ∈ first_occurrences seen l <-> x ∈ l /\ x ∉ seen.
Proof.
  revert seen. induction l as [|s l IH]; intros seen; cbn [first_occurrences]; [set_solver|].
  case_bool_decide; rewrite ?elem_of_cons, IH; [set_solver|].
  destruct (decide (x = s)); set_solver.
Qed.

Lemma first_occurrences_NoDup seen l : NoDup (first_occurrences seen l).
Proof.
  revert seen. induction l as [|s l IH]; intros seen; cbn [first_occurrences]; [constructor|].
  case_bool_decide; [done|]. constructor; [|done].
  rewrite first_occurrences_elem. set_solver.
Qed.

(** ** Lemmas: the pool *)

Definition sum_concurrency (c : Config) : Z :=
  fold_right Z.add 0 (map (queue_concurrency c) (Queues c)).

Lemma sum_nonneg c l :
  Forall (fun q => 1 <= queue_concurrency c q) l ->
  Z.of_nat (length l) <= fold_right Z.add 0 (map (queue_concurrency c) l).
Proof. induction 1; cbn [map fold_right length]; lia. Qed.

Lemma fold_wrap_sum c l a :
  Forall (fun q => 1 <= queue_concurrency c q) l ->
  0 <= a -> a + fold_right Z.add 0 (map (queue_concurrency c) l) <= MaxInt64 ->
  fold_left (fun t q => wrap64 (t + queue_concurrency c q)) l a =
  a + fold_right Z.add 0 (map (queue_concurrency c) l).
Proof.
  intros HF. revert a. induction HF as [|q l Hq HF IH]; intros a Ha Hb;
    cbn [fold_left map fold_right] in *; [lia|].
  pose proof (sum_nonneg c l HF).
  rewrite wrap64_id by (unfold in_int64, MinInt64; lia).
  rewrite IH by lia. lia.
Qed.

Lemma valid_concurrency c :
  valid_config c -> Forall (fun q => 1 <= queue_concurrency c q) (Queues c).
Proof.
  intros Hv. eapply Forall_impl; [apply valid_queues, Hv|]. intros q (_ & Hc & _).
  unfold queue_concurrency. destruct (q_Concurrency q) as [n|]; cbn; [by apply Hc|].
  apply valid_default_concurrency, Hv.
Qed.

Lemma autoPoolSize_sum c :
  valid_config c ->
  Z.max (sum_concurrency c) (d_Concurrency (Defaults c)) + poolHeadroom <= MaxInt64 ->
  autoPoolSize c =
  (if bool_decide (Queues c = []) then d_Concurrency (Defaults c) else sum_concurrency c)
  + poolHeadroom.
Proof.
  intros Hv Hb. pose proof (valid_concurrency c Hv) as HF.
  pose proof (sum_nonneg c _ HF) as Hs. fold (sum_concurrency c) in Hs.
  pose proof (valid_default_concurrency c Hv).
  unfold autoPoolSize, declaredConcurrency, poolHeadroom in *.
  rewrite fold_wrap_sum by (try fold (sum_concurrency c); auto; lia).
  fold (sum_concurrency c). rewrite Z.add_0_l.
  destruct (Queues c) as [|q qs] eqn:Hq.
  - rewrite bool_decide_eq_true_2 by done.
    assert (sum_concurrency c = 0) as -> by (unfold sum_concurrency; by rewrite Hq).
    cbn. rewrite wrap64_id; [done|unfold in_int64, MinInt64; lia].
  - rewrite bool_decide_eq_false_2 by done. cbn [length] in Hs.
    destruct (Z.eqb_spec (sum_concurrency c) 0); [lia|].
    rewrite wrap64_id; [done|unfold in_int64, MinInt64; lia].
Qed.

(** ** Properties *)

(** C19 [Validate] accepts exactly the configurations the documentation allows:
    at least one Redis address, a known log level and format, a default
    concurrency of one or more, no negative shutdown timeout, queues with
    distinct non-empty names whose concurrency, rate limit and executor block,
    where given, are usable. *)
Theorem Validate_spec c : Validate c = None <-> valid_config c.
Proof. apply Validate_valid. Qed.

(** C20 Every configuration [ParseConfig] returns, whatever the YAML library
    gives it, is valid, has its defaults filled in (so that a second
    [applyDefaults], as [New] makes, changes nothing) and came from a document
    with no unresolved environment reference. *)
Theorem ParseConfig_valid yaml_Unmarshal yaml_Marshal decode_config LookupEnv raw cfg :
  ParseConfig yaml_Unmarshal yaml_Marshal decode_config LookupEnv raw = Ok cfg ->
  valid_config cfg /\ applyDefaults cfg = cfg /\
  (forall root, yaml_Unmarshal raw = Ok (Some root) ->
     Forall (fun r => unresolved LookupEnv r = false) (all_refs root)).
Proof.
  unfold ParseConfig. intros H. inv_bind H. inv_bind H.
  destruct (Validate (applyDefaults r0)) eqn:Hv; [done|]. injection H as <-.
  split_and!; [by apply Validate_valid|apply applyDefaults_idem|].
  intros root Hroot. rewrite Hroot in H0. injection H0 as <-. inv_bind H1.
  unfold expandEnvNode in H0. pose proof (walk_missing LookupEnv root []) as Hw.
  destruct (walkScalars _ root []) as [n' missing]. destruct missing; [|done].
  cbn in Hw. clear H0 H1 Hroot. induction (all_refs root) as [|x xs IH]; constructor.
  - unfold missing_names in Hw. cbn [List.filter] in Hw. by destruct (unresolved LookupEnv x).
  - apply IH. unfold missing_names in *. cbn [List.filter] in Hw.
    by destruct (unresolved LookupEnv x).
Qed.

(** A document with a reference that resolves, and a decoder that reads it. *)
Definition sample_scalar : node := Node ScalarNode 0 "!!str" "redis://${HOST:-localhost}" [].
Definition sample_doc : node := Node DocumentNode 0 "" "" [sample_scalar].
Definition sample_decode (raw : string) (c : Config) : res Config :=
  Ok (mkConfig (mkRedisConfig [raw] 0 "" "" "" 0) (KeyPrefix c) (Log c) (Server c)
        (ShutdownTimeout c) (Defaults c)
        [mkQueueConfig "inbox" (Some 4) None None None None None None]).
Definition sample_marshal (n : node) : res string :=
  match n with Node _ _ _ _ [Node _ _ _ v _] => Ok v | _ => Fail (New "yaml") end.
Definition sample_config : Config :=
  match ParseConfig (fun _ => Ok (Some sample_doc)) sample_marshal sample_decode
          (fun _ => None) "raw" with
  | Ok c => c
  | Fail _ => zero_Config
  end.

Lemma ParseConfig_valid_witness :
  valid_config sample_config /\ Addrs (Redis sample_config) = ["redis://localhost"] /\
  d_Concurrency (Defaults sample_config) = 16.
Proof.
  split; [|split; [vm_compute; reflexivity|vm_compute; reflexivity]].
  apply (ParseConfig_valid (fun _ => Ok (Some sample_doc)) sample_marshal sample_decode
           (fun _ => None) "raw" sample_config).
  vm_compute. reflexivity.
Defined.

(** What a reference becomes: the text before it is copied, the reference is
    replaced by the variable's value or else its default, the value is not
    scanned again whatever it contains, and the expansion goes on after it. *)
Theorem expand_reference LookupEnv pre name def post missing :
  str_forallb (not_byte "$") pre = true -> valid_name name = true ->
  str_forallb (not_byte "}") def = true ->
  let expand := ReplaceAllStringFunc (substitute LookupEnv) in
  let missing' := match LookupEnv name with Some _ => missing | None => missing ++ [name] end in
  expand (pre +:+ plain_ref name +:+ post) missing =
    (pre +:+ default "" (LookupEnv name) +:+ (expand post missing').1, (expand post missing').2) /\
  expand (pre +:+ default_ref name def +:+ post) missing =
    (pre +:+ default def (LookupEnv name) +:+ (expand post missing).1, (expand post missing).2).
Proof.
  intros Hp Hn Hd. cbv zeta. unfold ReplaceAllStringFunc. split.
  - rewrite replace_plain by done.
    rewrite (replace_match _ _ _ _ (mkRef (plain_ref name) name "")); [|done|by apply match_env_plain|done].
    rewrite substitute_plain by done. by destruct (LookupEnv name).
  - rewrite replace_plain by done.
    rewrite (replace_match _ _ _ _ (mkRef (default_ref name def) name def));
      [|done|by apply match_env_default|done].
    by rewrite substitute_default.
Qed.

Lemma expand_reference_witness :
  ReplaceAllStringFunc (substitute (fun n => if bool_decide (n = "A") then Some "${B}" else None))
    ("x" +:+ plain_ref "A" +:+ "y") [] = ("x${B}y", []).
Proof.
  destruct (expand_reference (fun n => if bool_decide (n = "A") then Some "${B}" else None)
              "x" "A" "" "y" [] eq_refl eq_refl eq_refl) as [H _].
  exact H.
Defined.

(** The automatic pool size is enough: for a valid configuration whose
    declared concurrency fits the machine, it is the sum of the concurrency of
    the declared queues (the default concurrency when there are none) plus the
    head-room of eight, without wrap-around. *)
Theorem autoPoolSize_spec c :
  valid_config c ->
  Z.max (sum_concurrency c) (d_Concurrency (Defaults c)) + poolHeadroom <= MaxInt64 ->
  autoPoolSize c =
  (if bool_decide (Queues c = []) then d_Concurrency (Defaults c) else sum_concurrency c)
  + poolHeadroom.
Proof. apply autoPoolSize_sum. Qed.

Lemma autoPoolSize_spec_witness : autoPoolSize sample_config = 12.
Proof.
  rewrite (autoPoolSize_spec sample_config).
  - vm_compute. reflexivity.
  - apply Validate_valid. vm_compute. reflexivity.
  - vm_compute. discriminate.
Defined.

(** C38 A duration of the configuration survives the file: whatever its 64-bit
    value, [UnmarshalYAML] reads back what [MarshalYAML] hands to the YAML
    library, given that the library gives back the strings it encodes. A bare
    number is refused whatever its length, so that it is never taken for
    nanoseconds; the one exception is a lone zero, which is zero in every unit. *)
Theorem Duration_yaml_roundtrip (encode_string : string -> node) (decode_string : node -> res string)
  (Hyaml : forall s, decode_string (encode_string s) = Ok s) :
  (forall d, in_int64 d ->
     (s ← Duration_MarshalYAML d; Duration_UnmarshalYAML decode_string (encode_string s)) = Ok d) /\
  (forall s, str_forallb is_digit s = true ->
     match Duration_UnmarshalYAML decode_string (encode_string s) with
     | Ok d => s = "0" /\ d = 0
     | Fail e => s <> "0" /\ exists cause, e = Errorf "invalid duration %q: %w" [OStr s; OWrap cause]
     end).
Proof.
  unfold Duration_UnmarshalYAML. split.
  - intros d Hd. cbn [mbind res_bind Duration_MarshalYAML]. rewrite Hyaml.
    cbn [map_err mbind res_bind]. by rewrite ParseDuration_String.
  - intros s Hs. rewrite Hyaml. cbn [map_err mbind res_bind].
    destruct (decide (s = "0")) as [->|Hne]; [done|].
    destruct (ParseDuration_digits s Hs Hne) as [e ->]. cbn. eauto.
Qed.

Lemma Duration_yaml_roundtrip_witness :
  let encode s := Node ScalarNode 0 "!!str" s [] in
  let decode n := if bool_decide (Kind n = ScalarNode) then Ok (Value n) else Fail (New "not a scalar") in
  Duration_UnmarshalYAML decode (encode (Duration_String MinInt64)) = Ok MinInt64 /\
  match Duration_UnmarshalYAML decode (encode "30") with Ok _ => False | Fail _ => True end.
Proof.
  intros encode decode.
  destruct (Duration_yaml_roundtrip encode decode (fun s => eq_refl)) as [Hr Hn]. split.
  - apply (Hr MinInt64). unfold in_int64, MinInt64, MaxInt64. lia.
  - specialize (Hn "30" eq_refl). destruct (Duration_UnmarshalYAML decode (encode "30")); [|done].
    by destruct Hn.
Defined.
