(* ===== verification/Expansion.v ===== *)
(** * What environment expansion means (config.go: expandEnvNode)

    A specification of the expansion that does not mention how it is computed: a
    grammar of references, a relation between a scalar and its expansion, and its
    lifting to documents. The relation is proved total and deterministic, and
    [expandEnvNode] to compute it. *)

From S2P Require Import Prelude GoErrors GoStrings Config.

(** ** The specification *)

(** A dollar sign and braces around a name of letters, digits and underscores that
    begins with no digit, and possibly, after a colon and a hyphen, a default: any
    text without a closing brace. *)
Definition letters : string := "ABCDEFGHIJKLMNOPQRSTUVWXYZabcdefghijklmnopqrstuvwxyz_".
Definition env_name (name : string) : Prop :=
  exists c rest, name = String c rest /\ has_byte letters c = true /\
    str_forallb (has_byte (letters +:+ "0123456789")) rest = true.

Inductive reference : string -> string -> option string -> Prop :=
| plain_reference name :
    env_name name -> reference ("${" +:+ name +:+ "}") name None
| default_reference name def :
    env_name name -> has_byte def "}" = false ->
    reference ("${" +:+ name +:+ ":-" +:+ def +:+ "}") name (Some def).

Definition starts_reference (s : string) : Prop :=
  exists t name def rest, s = t +:+ rest /\ reference t name def.
Definition has_reference (s : string) : Prop :=
  exists pre rest, s = pre +:+ rest /\ starts_reference rest.

Section expanded.
Context (env : string -> option string).

(** What a reference stands for, and the variable that is missing when it stands
    for nothing. *)
Definition reference_value (name : string) (def : option string) : string :=
  default (default "" def) (env name).
Definition reference_missing (name : string) (def : option string) : list string :=
  match env name, def with None, None => [name] | _, _ => [] end.

(** A text, its expansion and the variables missing from it, in order: references
    are found from the left and do not overlap, values are not scanned again. *)
Inductive expanded : string -> string -> list string -> Prop :=
| expanded_end : expanded "" "" []
| expanded_reference t name def rest out missing :
    reference t name def -> expanded rest out missing ->
    expanded (t +:+ rest) (reference_value name def +:+ out) (reference_missing name def ++ missing)
| expanded_byte c rest out missing :
    ~ starts_reference (String c rest) -> expanded rest out missing ->
    expanded (String c rest) (String c out) missing.

(** A document: its scalars are expanded, and one that held a reference loses its
    tag; everything else is as it was. *)
Inductive expanded_doc : node -> node -> list string -> Prop :=
| doc_scalar style tag v v' content missing :
    has_reference v -> expanded v v' missing ->
    expanded_doc (Node ScalarNode style tag v content) (Node ScalarNode style "" v' content) missing
| doc_plain style tag v content :
    ~ has_reference v ->
    expanded_doc (Node ScalarNode style tag v content) (Node ScalarNode style tag v content) []
| doc_inner kind style tag v content content' missing :
    kind <> ScalarNode -> expanded_docs content content' missing ->
    expanded_doc (Node kind style tag v content) (Node kind style tag v content') missing
with expanded_docs : list node -> list node -> list string -> Prop :=
| docs_nil : expanded_docs [] [] []
| docs_cons n n' ns ns' missing missing' :
    expanded_doc n n' missing -> expanded_docs ns ns' missing' ->
    expanded_docs (n :: ns) (n' :: ns') (missing ++ missing').
End expanded.

(** ** The pattern recognises the grammar *)

Lemma letters_name_start c : has_byte letters c = is_name_start c.
Proof. by byte_cases c. Qed.
Lemma letters_name_byte c : has_byte (letters +:+ "0123456789") c = is_name_byte c.
Proof. by byte_cases c. Qed.

Lemma env_name_valid name : env_name name <-> valid_name name = true.
Proof.
  split.
  - intros (c & rest & -> & Hc & Hr). cbn [valid_name str_forallb].
    rewrite letters_name_start in Hc. unfold is_name_byte at 1. rewrite Hc. cbn [orb andb].
    eapply str_forallb_impl; [|exact Hr]. intros d. by rewrite letters_name_byte.
  - destruct name as [|c rest]; [done|]. cbn [valid_name str_forallb].
    intros [Hc [_ Hr]%andb_prop]%andb_prop.
    exists c, rest. split_and!; [done|by rewrite letters_name_start|].
    eapply str_forallb_impl; [|exact Hr]. intros d. by rewrite letters_name_byte.
Qed.

Lemma no_brace def : has_byte def "}" = false <-> str_forallb (not_byte "}") def = true.
Proof.
  induction def as [|c def IH]; [done|]. cbn [has_byte str_forallb].
  rewrite orb_false_iff, andb_true_iff, IH. unfold not_byte. by rewrite negb_true_iff.
Qed.

Lemma span_parts p s a b :
  span p s = (a, b) -> s = a +:+ b /\ str_forallb p a = true.
Proof.
  revert a b. induction s as [|c s IH]; intros a b; cbn [span]; [by intros [= <- <-]|].
  destruct (p c) eqn:Hc; [|by intros [= <- <-]]. destruct (span p s) as [a' b'].
  intros [= <- <-]. destruct (IH a' b' eq_refl) as [-> Ha]. cbn [str_forallb].
  by rewrite Hc, Ha.
Qed.

Lemma reference_matches t name def rest :
  reference t name def -> match_env (t +:+ rest) = Some (mkRef t name (default "" def)).
Proof.
  intros [name' Hn|name' d Hn Hd]; apply env_name_valid in Hn.
  - by apply match_env_plain.
  - apply match_env_default; [done|by apply no_brace].
Qed.

Lemma matches_reference s r :
  match_env s = Some r ->
  exists def rest, s = ref_text r +:+ rest /\ reference (ref_text r) (ref_name r) def /\
                   ref_default r = default "" def.
Proof.
  destruct s as [|c s]; [done|]. unfold match_env.
  destruct (decide (c = "$"%char)) as [->|Hc]; [|by byte_cases c].
  destruct s as [|c s]; [done|].
  destruct (decide (c = "{"%char)) as [->|Hc]; [|by byte_cases c].
  destruct (span is_name_byte s) as [name s2] eqn:Hs. apply span_parts in Hs as [-> Hname].
  destruct name as [|a name]; [done|]. destruct (is_name_start a) eqn:Ha; [|done].
  assert (env_name (String a name)) as Hen.
  { apply env_name_valid. cbn [valid_name]. by rewrite Ha, Hname. }
  destruct s2 as [|b s2]; [done|].
  destruct (decide (b = "}"%char)) as [->|Hb1].
  { intros [= <-]. exists None, s2. cbn [ref_text ref_name ref_default default].
    split_and!; [by rewrite !str_app_assoc|by constructor|done]. }
  destruct (decide (b = ":"%char)) as [->|Hb2]; [|by byte_cases b].
  destruct s2 as [|d s2]; [done|].
  destruct (decide (d = "-"%char)) as [->|Hd]; [|by byte_cases d].
  destruct (span (not_byte "}") s2) as [def s4] eqn:Hs. apply span_parts in Hs as [-> Hdef].
  destruct s4 as [|e s4]; [done|]. destruct (decide (e = "}"%char)) as [->|He]; [|by byte_cases e].
  intros [= <-]. exists (Some def), s4. cbn [ref_text ref_name ref_default default].
  split_and!; [by rewrite !str_app_assoc|constructor; [done|by apply no_brace]|done].
Qed.

Lemma starts_reference_matches s : starts_reference s <-> is_Some (match_env s).
Proof.
  split.
  - intros (t & name & def & rest & -> & Ht). erewrite reference_matches by exact Ht. by eexists.
  - intros [r Hr]. apply matches_reference in Hr as (def & rest & -> & Hr & _).
    by exists (ref_text r), (ref_name r), def, rest.
Qed.

Lemma has_reference_cons c s : has_reference (String c s) <-> starts_reference (String c s) \/ has_reference s.
Proof.
  split.
  - intros (pre & rest & Hs & Hr). destruct pre as [|a pre]; [left|right].
    + change ("" +:+ rest) with rest in Hs. by rewrite Hs.
    + rewrite str_app_cons in Hs. injection Hs as _ ->. by exists pre, rest.
  - intros [Hr|(pre & rest & -> & Hr)]; [by exists "", (String c s)|]. by exists (String c pre), rest.
Qed.

Lemma MatchString_reference s : MatchString s = true <-> has_reference s.
Proof.
  induction s as [|c s IH].
  - split; [done|]. intros (pre & rest & Hs & Hr). destruct pre, rest; try done.
    by apply starts_reference_matches in Hr as [r Hr].
  - rewrite has_reference_cons, <- IH, starts_reference_matches. cbn [MatchString].
    destruct (match_env (String c s)); [by split; [left; eexists|]|].
    split; [by right|by intros [[? ?]|?]].
Qed.

(** ** The relation is a function, and the code computes it *)

Section computed.
Context (env : string -> option string).

Lemma substitute_reference t name def m :
  reference t name def ->
  substitute env (mkRef t name (default "" def)) m
  = (reference_value env name def, m ++ reference_missing env name def).
Proof.
  unfold reference_value, reference_missing.
  intros [name' Hn|name' d Hn Hd]; apply env_name_valid in Hn.
  - cbn [default]. fold (plain_ref name'). rewrite (substitute_plain env name' m Hn). destruct (env name'); [by rewrite app_nil_r|done].
  - change (substitute env _ m) with (substitute env (mkRef (default_ref name' d) name' d) m).
    rewrite (substitute_default env name' d m). by destruct (env name'); rewrite app_nil_r.
Qed.

Lemma reference_text_nonempty t name def : reference t name def -> t <> "".
Proof. by intros [? ?|? ? ? ?]. Qed.

Lemma expanded_computed s out missing m :
  expanded env s out missing -> replace_go (substitute env) 0 s m = (out, m ++ missing).
Proof.
  intros H. revert m. induction H as [|t name def rest out missing Ht _ IH|c rest out missing Hn _ IH]; intros m.
  - by rewrite app_nil_r.
  - rewrite (replace_match _ t rest m (mkRef t name (default "" def)));
      [|by eapply reference_text_nonempty|by apply reference_matches|done].
    rewrite substitute_reference by done. cbn [fst snd]. by rewrite IH, app_assoc.
  - cbn [replace_go]. destruct (match_env (String c rest)) as [r|] eqn:Hm.
    + destruct Hn. apply starts_reference_matches. by exists r.
    + by rewrite IH.
Qed.

Lemma expanded_total s : exists out missing, expanded env s out missing.
Proof.
  remember (String.length s) as k eqn:Hk. revert s Hk.
  induction (lt_wf k) as [k _ IH]. intros s ->. destruct s as [|c s]; [by exists "", []; constructor|].
  destruct (match_env (String c s)) as [r|] eqn:Hm.
  - apply matches_reference in Hm as (def & rest & Hs & Hr & _).
    destruct (IH (String.length rest)) with (s := rest) as (out & missing & He); [|done|].
    { rewrite Hs, str_length_app. pose proof (reference_text_nonempty _ _ _ Hr).
      destruct (ref_text r); [done|]. cbn. lia. }
    rewrite Hs. eexists _, _. by eapply expanded_reference.
  - destruct (IH (String.length s)) with (s := s) as (out & missing & He); [cbn; lia|done|].
    eexists _, _. apply expanded_byte; [|done].
    intros [r Hr]%starts_reference_matches. by rewrite Hm in Hr.
Qed.

Scheme expanded_doc_mut := Induction for expanded_doc Sort Prop
  with expanded_docs_mut := Induction for expanded_docs Sort Prop.

Lemma expanded_doc_computed n n' missing :
  expanded_doc env n n' missing ->
  forall m, walkScalars (expand_scalar env) n m = (n', m ++ missing).
Proof.
  intros H. induction H using expanded_doc_mut with
    (P0 := fun ns ns' missing _ => forall m,
       (fix walk (l : list node) (st : list string) : list node * list string :=
          match l with
          | [] => ([], st)
          | c :: l =>
              let '(c, st) := walkScalars (expand_scalar env) c st in
              let '(l, st) := walk l st in (c :: l, st)
          end) ns m = (ns', m ++ missing)); intros m.
  - cbn [walkScalars]. rewrite bool_decide_eq_true_2 by done. unfold expand_scalar.
    apply MatchString_reference in h as ->. cbn [negb]. unfold ReplaceAllStringFunc.
    by rewrite (expanded_computed _ _ _ _ e).
  - cbn [walkScalars]. rewrite bool_decide_eq_true_2 by done. unfold expand_scalar.
    destruct (MatchString v) eqn:Hm; [by apply MatchString_reference in Hm|]. by rewrite app_nil_r.
  - cbn [walkScalars]. rewrite bool_decide_eq_false_2 by done. by rewrite IHexpanded_doc.
  - by rewrite app_nil_r.
  - rewrite IHexpanded_doc, IHexpanded_doc0. by rewrite app_assoc.
Qed.

Lemma expanded_doc_total n : exists n' missing, expanded_doc env n n' missing.
Proof.
  induction n as [kind style tag v content IH] using node_ind'.
  destruct (decide (kind = ScalarNode)) as [->|Hk].
  - destruct (MatchString v) eqn:Hm.
    + destruct (expanded_total v) as (v' & missing & Hv). apply MatchString_reference in Hm.
      eexists _, _. by constructor.
    + eexists _, _. apply doc_plain. intros Hr%MatchString_reference. congruence.
  - assert (exists content' missing, expanded_docs env content content' missing) as (content' & missing & Hc).
    { induction IH as [|n ns (n' & ms & Hn) _ (ns' & ms' & Hns)]; [by eexists _, _; constructor|].
      eexists _, _. by constructor. }
    eexists _, _. by apply doc_inner.
Qed.
End computed.

Lemma first_occurrences_sublist seen l : first_occurrences seen l `sublist_of` l.
Proof.
  revert seen. induction l as [|x l IH]; intros seen; cbn [first_occurrences]; [done|].
  case_bool_decide; by constructor.
Qed.

(** ** Properties *)

(** C39 Expansion means what its grammar says: every document has exactly one
    expansion, in which each reference of a scalar, found from the left, is replaced
    by its variable's value or else its default, no value is scanned again, a
    scalar that held a reference loses its tag and nothing else changes; expandEnvNode
    returns that document when no reference is without a value, and otherwise fails
    with an error that names each missing variable once, in the order the document
    has them. *)
Theorem expandEnvNode_spec env n :
  exists n' missing, expanded_doc env n n' missing /\
    (forall n'' missing', expanded_doc env n n'' missing' -> n'' = n' /\ missing' = missing) /\
    match expandEnvNode env n with
    | Ok out => missing = [] /\ out = n'
    | Fail e =>
        missing <> [] /\ exists names,
          e = Errorf "mkqd: undefined environment variable(s) in config: %s" [OStr (Join names ", ")] /\
          NoDup names /\ names `sublist_of` missing /\ forall x, x ∈ names <-> x ∈ missing
    end.
Proof.
  destruct (expanded_doc_total env n) as (n' & missing & Hd). exists n', missing. split; [exact Hd|].
  pose proof (expanded_doc_computed env n n' missing Hd []) as Hc. cbn [app] in Hc. split.
  - intros n'' missing' Hd'. pose proof (expanded_doc_computed env n n'' missing' Hd' []) as Hc'.
    rewrite Hc in Hc'. by injection Hc' as -> ->.
  - unfold expandEnvNode. rewrite Hc. destruct missing as [|x xs]; [done|]. split; [done|].
    exists (dedupe (x :: xs)). rewrite dedupe_first. split_and!; [done|apply first_occurrences_NoDup|
      apply first_occurrences_sublist|]. intros y. rewrite first_occurrences_elem. set_solver.
Qed.

(** On a document: the value of HOST is not scanned again, the default is used, the
    missing variables are named. *)
Example expansions :
  let env x := if bool_decide (x = "HOST") then Some "${PORT}" else None in
  let doc v := Node DocumentNode 0 "" "" [Node ScalarNode 0 "!!str" v []] in
  expandEnvNode env (doc "${HOST}:${PORT:-6379}/$x")
    = Ok (Node DocumentNode 0 "" "" [Node ScalarNode 0 "" "${PORT}:6379/$x" []]) /\
  expandEnvNode env (doc "${B}${A}${B}")
    = Fail (Errorf "mkqd: undefined environment variable(s) in config: %s" [OStr "B, A"]).
Proof. vm_compute. split; reflexivity. Qed.
