(* ===== verification/Register.v ===== *)
(** * Queue registration and tuning (register.go)

    The per-queue knobs and their three layers, the registry of queues a
    runtime holds, and the queues the configuration adds to it. The runtime's
    record is here; its life cycle is in Runtime.v. *)

From S2P Require Import Prelude GoErrors GoStrings Logging Config Executor.

(** ** Tuning *)

Record queueTuning := mkTuning {
  t_concurrency : option Z;
  t_lockDuration : option Z;
  t_stalledInterval : option Z;
  t_maxStalledCount : option Z;
  t_jobMetrics : option Z;
  t_rateLimit : option RateLimitConfig;
}.

Definition no_tuning : queueTuning := mkTuning None None None None None None.

(** A QueueOption is one of the package's constructors: the type it acts on is
    not exported. *)
Inductive QueueOption : Type :=
| WithConcurrency (n : Z)
| WithLockDuration (d : Z)
| WithStalledInterval (d : Z)
| WithMaxStalledCount (n : Z)
| WithRateLimit (max window : Z)
| WithJobMetrics (n : Z).

Definition apply_option (o : QueueOption) (t : queueTuning) : queueTuning :=
  let '(mkTuning c l s m j r) := t in
  match o with
  | WithConcurrency n => mkTuning (Some n) l s m j r
  | WithLockDuration d => mkTuning c (Some d) s m j r
  | WithStalledInterval d => mkTuning c l (Some d) m j r
  | WithMaxStalledCount n => mkTuning c l s (Some n) j r
  | WithRateLimit max window => mkTuning c l s m j (Some (mkRateLimitConfig max window))
  | WithJobMetrics n => mkTuning c l s m (Some n) r
  end.

(** A nil option is skipped. *)
Definition tuningFromOptions (opts : list (option QueueOption)) : queueTuning :=
  fold_left (fun t o => match o with Some o => apply_option o t | None => t end) opts no_tuning.

Definition tuningFromConfig (q : QueueConfig) : queueTuning :=
  mkTuning (q_Concurrency q) (q_LockDuration q) (q_StalledInterval q)
    (q_MaxStalledCount q) (q_JobMetrics q) (q_RateLimit q).

(** A pointer field, replaced when the overlay sets it. *)
Definition over_field {A} (over t : option A) : option A :=
  match over with Some v => Some v | None => t end.

Definition overlay (t over : queueTuning) : queueTuning :=
  mkTuning
    (over_field (t_concurrency over) (t_concurrency t))
    (over_field (t_lockDuration over) (t_lockDuration t))
    (over_field (t_stalledInterval over) (t_stalledInterval t))
    (over_field (t_maxStalledCount over) (t_maxStalledCount t))
    (over_field (t_jobMetrics over) (t_jobMetrics t))
    (over_field (t_rateLimit over) (t_rateLimit t)).

Record resolved := mkResolved {
  r_concurrency : Z;
  r_lockDuration : Z;
  r_stalledInterval : Z;
  r_maxStalledCount : Z;
  r_jobMetrics : Z;
  r_rateLimit : option RateLimitConfig;
}.

Definition resolve (t : queueTuning) (d : QueueDefaults) : resolved :=
  mkResolved
    (default (d_Concurrency d) (t_concurrency t))
    (default (d_LockDuration d) (t_lockDuration t))
    (default (d_StalledInterval d) (t_stalledInterval t))
    (default (d_MaxStalledCount d) (t_maxStalledCount t))
    (default (d_JobMetrics d) (t_jobMetrics t))
    (t_rateLimit t).

(** mkq.WorkerOption, by constructor. *)
Inductive WorkerOption : Type :=
| MkqConcurrency (n : Z)
| MkqLockDuration (d : Z)
| MkqStalledInterval (d : Z)
| MkqMaxStalledCount (n : Z)
| MkqRateLimit (max window : Z)
| MkqJobMetrics (n : Z)
| MkqRetryDelayOverride.                (* rt.retryDelay *)

Definition workerOptions (r : resolved) : list WorkerOption :=
  [MkqConcurrency (r_concurrency r); MkqLockDuration (r_lockDuration r);
   MkqStalledInterval (r_stalledInterval r); MkqMaxStalledCount (r_maxStalledCount r)]
  ++ match r_rateLimit r with
     | Some rl => [MkqRateLimit (rl_Max rl) (rl_Duration rl)]
     | None => []
     end
  ++ (if 0 <? r_jobMetrics r then [MkqJobMetrics (r_jobMetrics r)] else []).

Definition workerOptionsFor (r : resolved) : list WorkerOption :=
  workerOptions r ++ [MkqRetryDelayOverride].

(** ** The runtime *)

(** A handler as mkq calls it. A typed handler is seen behind the decoding mkq
    does for it. *)
Abbreviation handler W := (mkq_Job -> W -> (any * option error) * W).

(** [start] is a closure over the queue name and the handler. *)
Record registration (W : Type) := mkRegistration {
  r_queue : string;
  r_tune : queueTuning;
  r_handler : handler W;
  r_fromCode : bool;
}.
Arguments mkRegistration {W}.
Arguments r_queue {W}.
Arguments r_tune {W}.
Arguments r_handler {W}.
Arguments r_fromCode {W}.

Record BuildContext := mkBuildContext { bc_Queue : string; bc_Config : Config }.

(** An ExecutorFactory; it may read files. *)
Abbreviation ExecutorFactory W :=
  (BuildContext -> ExecutorConfig -> W -> res (Executor W) * W).

(** The Runtime of runtime.go: [K] is the type of mkq's workers, [logs] what has
    been logged, [stopErr] is [Some] once the body of [Shutdown] has run. *)
Record Runtime (W K : Type) := mkRuntime {
  cfg : Config;
  logs : list log_record;
  registry : gmap string (registration W);
  order : list string;
  workers : list (string * K);
  started : bool;
  stopped : bool;
  srv : option string;
  unwindGrace : Z;
  stopErr : option (option error);
}.
Arguments mkRuntime {W K}.
Arguments cfg {W K}.
Arguments logs {W K}.
Arguments registry {W K}.
Arguments order {W K}.
Arguments workers {W K}.
Arguments started {W K}.
Arguments stopped {W K}.
Arguments srv {W K}.
Arguments unwindGrace {W K}.
Arguments stopErr {W K}.

Section runtime.
Context {W K : Type}.
Implicit Types rt : Runtime W K.

Definition with_registry rt (m : gmap string (registration W)) (o : list string) : Runtime W K :=
  mkRuntime (cfg rt) (logs rt) m o (workers rt) (started rt) (stopped rt) (srv rt)
    (unwindGrace rt) (stopErr rt).
Definition with_log rt (l : log_record) : Runtime W K :=
  mkRuntime (cfg rt) (logs rt ++ [l]) (registry rt) (order rt) (workers rt) (started rt)
    (stopped rt) (srv rt) (unwindGrace rt) (stopErr rt).

(** [register], under the runtime's mutex. *)
Definition register rt (r : registration W) : option error * Runtime W K :=
  if bool_decide (r_queue r = "") then (Some (New "mkqd: queue name must not be empty"), rt)
  else if started rt then
    (Some (Errorf "mkqd: cannot register queue %q after Start" [OStr (r_queue r)]), rt)
  else match registry rt !! r_queue r with
  | Some _ => (Some (Errorf "mkqd: queue %q is already registered" [OStr (r_queue r)]), rt)
  | None =>
      (None, with_registry rt (<[r_queue r := r]> (registry rt)) (order rt ++ [r_queue r]))
  end.

Definition Handle rt (queue : string) (h : option (handler W))
  (opts : list (option QueueOption)) : option error * Runtime W K :=
  match h with
  | None => (Some (Errorf "mkqd: Handle(%q): handler is nil" [OStr queue]), rt)
  | Some h => register rt (mkRegistration queue (tuningFromOptions opts) h true)
  end.

Definition HandleExecutor rt (queue : string) (ex : option (Executor W))
  (opts : list (option QueueOption)) : option error * Runtime W K :=
  match ex with
  | None => (Some (Errorf "mkqd: HandleExecutor(%q): executor is nil" [OStr queue]), rt)
  | Some ex =>
      register rt (mkRegistration queue (tuningFromOptions opts) (executorHandler queue ex) true)
  end.

(** [existing, claimed := rt.registry[name]; claimed && existing.fromCode] *)
Definition claimed rt (q : string) : bool :=
  match registry rt !! q with Some existing => r_fromCode existing | None => false end.

Context (factories : gmap string (ExecutorFactory W)).

(** One iteration of [buildConfiguredQueues]. *)
Definition build_queue rt (qc : QueueConfig) (w : W) : option error * Runtime W K * W :=
  if claimed rt (q_Name qc) then
    (None,
     match q_Executor qc with
     | Some e =>
         with_log rt
           (LogRec LevelWarn
              "queue has both a code handler and an executor config; the code handler wins"
              [("queue", AStr (q_Name qc)); ("executor", AStr (ec_Type e))])
     | None => rt
     end, w)
  else match q_Executor qc with
  | None =>
      (Some (Errorf "mkqd: queue %q has no executor in the config and no handler registered in code"
               [OStr (q_Name qc)]), rt, w)
  | Some e =>
      match lookupExecutorFactory factories (ec_Type e) with
      | None =>
          (Some (Errorf "mkqd: queue %q: %w"
                   [OStr (q_Name qc);
                    OWrap (unknownExecutorError (RegisteredExecutors factories) (ec_Type e))]),
           rt, w)
      | Some factory =>
          match factory (mkBuildContext (q_Name qc) (cfg rt)) e w with
          | (Fail err, w) =>
              (Some (Errorf "mkqd: queue %q: build executor %q: %w"
                       [OStr (q_Name qc); OStr (ec_Type e); OWrap err]), rt, w)
          | (Ok ex, w) =>
              let name := q_Name qc in
              let reg := mkRegistration name no_tuning (executorHandler name ex) false in
              (None, with_registry rt (<[name := reg]> (registry rt)) (order rt ++ [name]), w)
          end
      end
  end.

Fixpoint build_queues (qcs : list QueueConfig) rt (w : W) : option error * Runtime W K * W :=
  match qcs with
  | [] => (None, rt, w)
  | qc :: qcs =>
      match build_queue rt qc w with
      | (Some e, rt, w) => (Some e, rt, w)
      | (None, rt, w) => build_queues qcs rt w
      end
  end.

Definition buildConfiguredQueues rt (w : W) : option error * Runtime W K * W :=
  build_queues (Queues (cfg rt)) rt w.

(** [resolveTuning] *)
Definition resolveTuning rt (r : registration W) : resolved :=
  let t := match queueConfig (cfg rt) (r_queue r) with
           | Some qc => overlay (r_tune r) (tuningFromConfig qc)
           | None => r_tune r
           end in
  resolve t (Defaults (cfg rt)).

(** [registeredQueues]: the loop keeps the first occurrence of each name. *)
Definition registeredQueues rt : list string := first_occurrences ∅ (order rt).
End runtime.

Definition sortedQueueNames (names : list string) : list string := merge_sort String.le names.

(** ** Lemmas: tuning *)

(** What an option sets in each field. *)
Definition sets_concurrency (o : QueueOption) := match o with WithConcurrency n => Some n | _ => None end.
Definition sets_lockDuration (o : QueueOption) := match o with WithLockDuration d => Some d | _ => None end.
Definition sets_stalledInterval (o : QueueOption) :=
  match o with WithStalledInterval d => Some d | _ => None end.
Definition sets_maxStalledCount (o : QueueOption) :=
  match o with WithMaxStalledCount n => Some n | _ => None end.
Definition sets_jobMetrics (o : QueueOption) := match o with WithJobMetrics n => Some n | _ => None end.
Definition sets_rateLimit (o : QueueOption) :=
  match o with WithRateLimit m w => Some (mkRateLimitConfig m w) | _ => None end.

(** The last value a list of options gives to a field. *)
Definition last_set {A} (sets : QueueOption -> option A) (opts : list (option QueueOption)) : option A :=
  last (omap (fun o => o ≫= sets) opts).

Lemma last_set_field {A} (proj : queueTuning -> option A) sets opts :
  (forall o t, proj (apply_option o t) = over_field (sets o) (proj t)) ->
  proj no_tuning = None ->
  proj (tuningFromOptions opts) = last_set sets opts.
Proof.
  intros Hset Hno. unfold tuningFromOptions, last_set.
  induction opts as [|o opts IH] using rev_ind; [done|].
  rewrite fold_left_app, omap_app. cbn [fold_left omap list_omap].
  destruct o as [o|]; cbn [mbind option_bind]; [|by rewrite app_nil_r].
  rewrite Hset, IH. destruct (sets o); cbn; [by rewrite last_snoc|by rewrite app_nil_r].
Qed.

Lemma tuning_fields opts :
  let t := tuningFromOptions opts in
  t_concurrency t = last_set sets_concurrency opts /\
  t_lockDuration t = last_set sets_lockDuration opts /\
  t_stalledInterval t = last_set sets_stalledInterval opts /\
  t_maxStalledCount t = last_set sets_maxStalledCount opts /\
  t_jobMetrics t = last_set sets_jobMetrics opts /\
  t_rateLimit t = last_set sets_rateLimit opts.
Proof. split_and!; apply last_set_field; try done; by intros [] []. Qed.

(** ** Lemmas: names *)

Lemma first_occurrences_app seen a b :
  first_occurrences seen (a ++ b) =
  first_occurrences seen a ++ first_occurrences (list_to_set a ∪ seen) b.
Proof.
  revert seen. induction a as [|x a IH]; intros seen; cbn [app first_occurrences].
  { f_equal. set_solver. }
  case_bool_decide as Hx.
  - rewrite IH. do 2 f_equal. set_solver.
  - rewrite IH. cbn [app]. do 3 f_equal. set_solver.
Qed.

Lemma first_occurrences_fresh seen l :
  NoDup l -> (forall x, x ∈ l -> x ∉ seen) -> first_occurrences seen l = l.
Proof.
  intros Hnd. revert seen. induction Hnd as [|x l Hx Hnd IH]; intros seen Hs; [done|].
  cbn [first_occurrences]. rewrite bool_decide_eq_false_2 by (apply Hs; by left).
  f_equal. apply IH. intros y Hy. rewrite elem_of_union, elem_of_singleton.
  intros [->|Hin]; [done|]. apply (Hs y); [by right|done].
Qed.

Lemma first_occurrences_seen seen l :
  (forall x, x ∈ l -> x ∈ seen) -> first_occurrences seen l = [].
Proof.
  induction l as [|x l IH]; intros Hs; [done|]. cbn [first_occurrences].
  rewrite bool_decide_eq_true_2 by (apply Hs; by left). apply IH. intros y Hy. apply Hs. by right.
Qed.

(** ** Lemmas: the registry *)

Section registry_lemmas.
Context {W K : Type}.
Implicit Types rt : Runtime W K.

(** Before [Start]: the order lists each registered queue once. *)
Record wf_runtime rt : Prop := {
  wf_order : NoDup (order rt);
  wf_listed : forall q, q ∈ order rt <-> is_Some (registry rt !! q);
  wf_named : forall q r, registry rt !! q = Some r -> r_queue r = q /\ q <> "";
}.

Lemma wf_same rt rt' :
  registry rt' = registry rt -> order rt' = order rt -> wf_runtime rt -> wf_runtime rt'.
Proof. intros Hr Ho [H1 H2 H3]. split; rewrite ?Hr, ?Ho; done. Qed.

Lemma wf_registeredQueues rt : wf_runtime rt -> registeredQueues rt = order rt.
Proof. intros Hwf. apply first_occurrences_fresh; [apply Hwf|set_solver]. Qed.

Lemma register_cases rt r :
  match register rt r with
  | (None, rt') =>
      r_queue r <> "" /\ started rt = false /\ registry rt !! r_queue r = None /\
      rt' = with_registry rt (<[r_queue r := r]> (registry rt)) (order rt ++ [r_queue r])
  | (Some e, rt') =>
      rt' = rt /\ (r_queue r = "" \/ started rt = true \/ is_Some (registry rt !! r_queue r))
  end.
Proof.
  unfold register. case_bool_decide; [by auto|].
  destruct (started rt); [by auto|].
  destruct (registry rt !! r_queue r) eqn:E; [|by auto]. split; [done|]. by right; right.
Qed.

Lemma register_wf rt r rt' : wf_runtime rt -> register rt r = (None, rt') -> wf_runtime rt'.
Proof.
  intros [Ho Hl Hn] H. pose proof (register_cases rt r) as Hc. rewrite H in Hc.
  destruct Hc as (Hq & _ & Hnone & ->). split; cbn.
  - apply NoDup_app. split_and!; [done| |repeat constructor; set_solver].
    intros x Hx ->%list_elem_of_singleton. apply Hl in Hx as [? Hx]. congruence.
  - intros q. rewrite elem_of_app, list_elem_of_singleton, Hl.
    destruct (decide (q = r_queue r)) as [->|Hne].
    + rewrite lookup_insert_eq. split; [by eexists|by right].
    + rewrite lookup_insert_ne by done. split; [by intros [|]|by left].
  - intros q r' [[<- <-]|[Hne Hr']]%lookup_insert_Some; [done|by apply Hn].
Qed.

Context (factories : gmap string (ExecutorFactory W)).

(** How a configured queue came to be registered. *)
Definition built (c : Config) (qc : QueueConfig) (r : registration W) : Prop :=
  exists e factory ex w1 w2,
    q_Executor qc = Some e /\ factories !! ec_Type e = Some factory /\
    factory (mkBuildContext (q_Name qc) c) e w1 = (Ok ex, w2) /\
    r = mkRegistration (q_Name qc) no_tuning (executorHandler (q_Name qc) ex) false.

Lemma build_queue_ok rt qc w rt' w' :
  build_queue factories rt qc w = (None, rt', w') ->
  cfg rt' = cfg rt /\ started rt' = started rt /\ workers rt' = workers rt /\
  if claimed rt (q_Name qc) then registry rt' = registry rt /\ order rt' = order rt
  else exists r, built (cfg rt) qc r /\ registry rt' = <[q_Name qc := r]> (registry rt) /\
                 order rt' = order rt ++ [q_Name qc].
Proof.
  unfold build_queue. destruct (claimed rt (q_Name qc)).
  { intros [= <- <-]. by destruct (q_Executor qc). }
  destruct (q_Executor qc) as [e|] eqn:He; [|done].
  unfold lookupExecutorFactory. destruct (factories !! ec_Type e) as [f|] eqn:Hf; [|done].
  destruct (f _ e w) as [[ex|] w1] eqn:Hx; [|done]. intros [= <- <-].
  split_and!; [done..|]. eexists. split; [by eexists e, f, ex, w, w1|done].
Qed.

Lemma built_not_code c qc r : built c qc r -> r_fromCode r = false /\ r_queue r = q_Name qc.
Proof. by intros (? & ? & ? & ? & ? & _ & _ & _ & ->). Qed.

Lemma build_queue_claimed rt qc w rt' w' q :
  build_queue factories rt qc w = (None, rt', w') -> claimed rt' q = claimed rt q.
Proof.
  intros (_ & _ & _ & H)%build_queue_ok. unfold claimed in *.
  destruct (registry rt !! q_Name qc) as [r0|] eqn:E; [destruct (r_fromCode r0) eqn:Ec|].
  - by destruct H as [-> _].
  - destruct H as (r & [Hr _]%built_not_code & -> & _).
    destruct (decide (q = q_Name qc)) as [->|]; [by rewrite lookup_insert_eq, E, Ec|].
    by rewrite lookup_insert_ne.
  - destruct H as (r & [Hr _]%built_not_code & -> & _).
    destruct (decide (q = q_Name qc)) as [->|]; [by rewrite lookup_insert_eq, E|].
    by rewrite lookup_insert_ne.
Qed.

Lemma build_queues_ok qcs rt w rt' w' :
  build_queues factories qcs rt w = (None, rt', w') ->
  cfg rt' = cfg rt /\ started rt' = started rt /\ workers rt' = workers rt /\
  order rt' = order rt ++ List.filter (fun q => negb (claimed rt q)) (map q_Name qcs) /\
  (forall q, claimed rt q = true \/ q ∉ map q_Name qcs -> registry rt' !! q = registry rt !! q) /\
  (NoDup (map q_Name qcs) -> forall qc, qc ∈ qcs -> claimed rt (q_Name qc) = false ->
     exists r, registry rt' !! q_Name qc = Some r /\ built (cfg rt) qc r).
Proof.
  revert rt w. induction qcs as [|qc qcs IH]; intros rt w H; cbn [build_queues] in H.
  { injection H as <- <-. split_and!; try done; [by rewrite app_nil_r|set_solver]. }
  destruct (build_queue factories rt qc w) as [[[e|] rt1] w1] eqn:E; [done|].
  pose proof (fun q => build_queue_claimed rt qc w rt1 w1 q E) as Hclaim.
  apply build_queue_ok in E as (Hc & Hs & Hw & E).
  apply IH in H as (Hc' & Hs' & Hw' & Ho & Hk & Hb). clear IH.
  rewrite Hc in *. split; [congruence|]. split; [congruence|]. split; [congruence|].
  assert (List.filter (fun q => negb (claimed rt1 q)) (map q_Name qcs) =
          List.filter (fun q => negb (claimed rt q)) (map q_Name qcs)) as Hf
    by (apply List.filter_ext; intros q; by rewrite Hclaim).
  rewrite Hf in Ho. cbn [map List.filter]. split; [|split].
  - rewrite Ho. destruct (claimed rt (q_Name qc)) eqn:Eq; cbn [negb].
    + by destruct E as [_ ->].
    + destruct E as (r & _ & _ & ->). by rewrite <- app_assoc.
  - intros q Hq. rewrite Hk by (rewrite Hclaim; set_solver).
    destruct (claimed rt (q_Name qc)) eqn:Eq; [by destruct E as [-> _]|].
    destruct E as (r & _ & -> & _). apply lookup_insert_ne. intros <-.
    destruct Hq as [Hq|Hq]; [congruence|set_solver].
  - intros [Hnot Hnd]%NoDup_cons qc' [->|Hin]%elem_of_cons Hfree.
    + rewrite Hfree in E. destruct E as (r & Hr & E & _). exists r. split; [|done].
      rewrite Hk by (by right). by rewrite E, lookup_insert_eq.
    + apply Hb; [done|done|]. by rewrite Hclaim.
Qed.
End registry_lemmas.

Section listing.
Context {W K : Type} (factories : gmap string (ExecutorFactory W)).
Implicit Types rt : Runtime W K.

(** Every listed name is registered. *)
Definition listed_registered rt : Prop := forall q, q ∈ order rt -> is_Some (registry rt !! q).

Lemma build_listed rt w rt' w' :
  NoDup (map q_Name (Queues (cfg rt))) -> listed_registered rt ->
  buildConfiguredQueues factories rt w = (None, rt', w') -> listed_registered rt'.
Proof.
  intros Hnd Hl H q. pose proof (build_queues_ok _ _ _ _ _ _ H) as (_ & _ & _ & Ho & Hk & Hb).
  assert (forall q, q ∈ map q_Name (Queues (cfg rt)) -> claimed rt q = false ->
            is_Some (registry rt' !! q)) as Hconf.
  { intros q' (qc & -> & Hin)%list_elem_of_fmap Hcl.
    destruct (Hb Hnd qc Hin Hcl) as (r & Hr & _). by exists r. }
  rewrite Ho, elem_of_app, filter_elem, negb_true_iff. intros [Hq|[Hq Hcl]]; [|by apply Hconf].
  destruct (claimed rt q) eqn:Hcl; [rewrite Hk by (by left); by apply Hl|].
  destruct (decide (q ∈ map q_Name (Queues (cfg rt)))) as [Hin|Hnin]; [by apply Hconf|].
  rewrite Hk by (by right). by apply Hl.
Qed.

(** A second build adds no name to the listing. *)
Lemma build_twice_queues rt w rt1 w1 rt2 w2 :
  buildConfiguredQueues factories rt w = (None, rt1, w1) ->
  buildConfiguredQueues factories rt1 w1 = (None, rt2, w2) ->
  registeredQueues rt2 = registeredQueues rt1.
Proof.
  unfold buildConfiguredQueues. intros H1 H2.
  pose proof (build_queues_ok _ _ _ _ _ _ H1) as (Hc & _ & _ & Ho1 & Hk1 & _).
  apply build_queues_ok in H2 as (_ & _ & _ & Ho2 & _). rewrite Hc in Ho2.
  unfold registeredQueues. rewrite Ho2, first_occurrences_app.
  rewrite (first_occurrences_seen _ (List.filter _ _)); [apply app_nil_r|].
  intros x [Hx Hcl]%filter_elem. rewrite elem_of_union, elem_of_list_to_set. left.
  rewrite Ho1, elem_of_app. right. apply filter_elem. split; [done|].
  apply negb_true_iff in Hcl. apply negb_true_iff.
  destruct (claimed rt x) eqn:E; [|done].
  unfold claimed in Hcl, E. by rewrite Hk1, E in Hcl by (by left).
Qed.
End listing.

(** ** Properties *)

(** C18 The precedence of tuning, for a queue registered in code with a list of
    options: each knob is the one of the queue's block in the configuration
    file when the block sets it, else the last option that set it, else the
    default; only the rate limit has no default. *)
Theorem tuning_precedence {W K} (rt rt' : Runtime W K) queue h opts r :
  Handle rt queue h opts = (None, rt') -> registry rt' !! queue = Some r ->
  let yaml A (f : QueueConfig -> option A) : option A := queueConfig (cfg rt) queue ≫= f in
  let d := Defaults (cfg rt) in
  resolveTuning rt' r = mkResolved
    (default (default (d_Concurrency d) (last_set sets_concurrency opts)) (yaml _ q_Concurrency))
    (default (default (d_LockDuration d) (last_set sets_lockDuration opts)) (yaml _ q_LockDuration))
    (default (default (d_StalledInterval d) (last_set sets_stalledInterval opts)) (yaml _ q_StalledInterval))
    (default (default (d_MaxStalledCount d) (last_set sets_maxStalledCount opts)) (yaml _ q_MaxStalledCount))
    (default (default (d_JobMetrics d) (last_set sets_jobMetrics opts)) (yaml _ q_JobMetrics))
    (yaml _ q_RateLimit ∪ last_set sets_rateLimit opts).
Proof.
  unfold Handle. destruct h as [h|]; [|done]. intros H Hr.
  pose proof (register_cases rt (mkRegistration queue (tuningFromOptions opts) h true)) as Hc.
  rewrite H in Hc. destruct Hc as (_ & _ & _ & ->). cbn in Hr.
  rewrite lookup_insert_eq in Hr. injection Hr as <-. cbv zeta.
  destruct (tuning_fields opts) as (E1 & E2 & E3 & E4 & E5 & E6).
  rewrite <- E1, <- E2, <- E3, <- E4, <- E5, <- E6.
  unfold resolveTuning. cbn [cfg with_registry r_queue r_tune].
  destruct (queueConfig (cfg rt) queue) as [[n c l s m j rl e]|]; cbn [mbind option_bind].
  - unfold resolve, overlay, tuningFromConfig. cbn.
    by destruct c, l, s, m, j, rl, (t_rateLimit (tuningFromOptions opts)).
  - unfold resolve. by destruct (t_rateLimit (tuningFromOptions opts)).
Qed.

(** A fresh runtime over the sample configuration, and a handler. *)
Definition sample_runtime : Runtime unit nat :=
  mkRuntime sample_config [] ∅ [] [] false false None (5 * Second) None.
Definition nop_handler : handler unit := fun _ w => ((ANil, None), w).
Definition sample_opts : list (option QueueOption) :=
  [Some (WithConcurrency 64); None; Some (WithLockDuration Minute); Some (WithConcurrency 32)].
Definition sample_registered : Runtime unit nat :=
  (Handle sample_runtime "inbox" (Some nop_handler) sample_opts).2.

Lemma tuning_precedence_witness :
  exists r, registry sample_registered !! "inbox" = Some r /\
    resolveTuning sample_registered r = mkResolved 4 Minute (30 * Second) 1 0 None.
Proof.
  exists (mkRegistration "inbox" (tuningFromOptions sample_opts) nop_handler true).
  split; [reflexivity|].
  refine (eq_trans (tuning_precedence sample_runtime sample_registered "inbox" (Some nop_handler)
            sample_opts _ eq_refl eq_refl) _).
  vm_compute. reflexivity.
Defined.

(** Registration, case by case: it is refused, with the runtime unchanged,
    exactly for an empty name, after Start, or for a queue already registered;
    otherwise the queue is added at the end of the listing with what was
    registered, the others are untouched, and the registry stays consistent. *)
Theorem register_spec {W K} (rt : Runtime W K) r :
  wf_runtime rt ->
  match register rt r with
  | (None, rt') =>
      wf_runtime rt' /\ registeredQueues rt' = registeredQueues rt ++ [r_queue r] /\
      registry rt' !! r_queue r = Some r /\
      (forall q, q <> r_queue r -> registry rt' !! q = registry rt !! q) /\
      started rt = false /\ (r_queue r ∉ registeredQueues rt)
  | (Some e, rt') =>
      rt' = rt /\ (r_queue r = "" \/ started rt = true \/ r_queue r ∈ registeredQueues rt)
  end.
Proof.
  intros Hwf. rewrite (wf_registeredQueues rt Hwf). pose proof (register_cases rt r) as Hc.
  destruct (register rt r) as [[e|] rt'] eqn:E.
  - destruct Hc as [-> [?|[?|?]]]; split; auto. right. right. by apply Hwf.
  - assert (wf_runtime rt') as Hwf' by (by eapply register_wf).
    rewrite (wf_registeredQueues rt' Hwf').
    destruct Hc as (Hq & Hst & Hn & ->). cbn [registry order with_registry]. split_and!; try done.
    + apply lookup_insert_eq.
    + intros q Hne. by apply lookup_insert_ne.
    + intros [? ?]%(wf_listed rt Hwf). congruence.
Qed.

Lemma register_spec_witness :
  wf_runtime sample_runtime /\ registeredQueues sample_registered = ["inbox"].
Proof.
  assert (wf_runtime sample_runtime) as Hwf.
  { split; cbn.
    - constructor.
    - intros q. rewrite lookup_empty. split; [by intros ?%elem_of_nil|by intros [? ?]].
    - intros q r. by rewrite lookup_empty. }
  split; [exact Hwf|].
  exact (proj1 (proj2 (register_spec sample_runtime
           (mkRegistration "inbox" (tuningFromOptions sample_opts) nop_handler true) Hwf))).
Defined.

(** C36 Building the configured queues, when it succeeds: a queue registered in
    code keeps its handler, every other queue of the file gets the executor its
    factory built, under its own name and without tuning of its own, the names
    are appended in the order of the file, and doing it twice (as [Check]
    followed by [Start] does) leaves the same list of queues. *)
Theorem buildConfiguredQueues_spec {W K} (factories : gmap string (ExecutorFactory W))
    (rt rt' : Runtime W K) w w' :
  valid_config (cfg rt) -> wf_runtime rt ->
  buildConfiguredQueues factories rt w = (None, rt', w') ->
  (forall q, claimed rt q = true -> registry rt' !! q = registry rt !! q) /\
  (forall qc, qc ∈ Queues (cfg rt) -> claimed rt (q_Name qc) = false ->
     exists r, registry rt' !! q_Name qc = Some r /\ built factories (cfg rt) qc r) /\
  order rt' = order rt ++
    List.filter (fun q => negb (claimed rt q)) (map q_Name (Queues (cfg rt))) /\
  (forall rt2 w2, buildConfiguredQueues factories rt' w' = (None, rt2, w2) ->
     registeredQueues rt2 = registeredQueues rt').
Proof.
  intros Hv Hwf H. pose proof (build_queues_ok _ _ _ _ _ _ H) as (_ & _ & _ & Ho & Hk & Hb).
  split_and!; [|by apply Hb, valid_names|done|].
  - intros q Hq. apply Hk. by left.
  - intros rt2 w2 H2. by eapply build_twice_queues.
Qed.

(** A file with a queue for code and one for an executor. *)
Definition two_queue_config : Config :=
  mkConfig (Redis sample_config) "bull" (Log sample_config) (Server sample_config)
    (ShutdownTimeout sample_config) (Defaults sample_config)
    [mkQueueConfig "mail" None None None None None None (Some (mkExecutorConfig "log" None));
     mkQueueConfig "inbox" (Some 4) None None None None None None].
Definition two_queue_runtime : Runtime unit nat :=
  (Handle (mkRuntime two_queue_config [] ∅ [] [] false false None (5 * Second) None)
     "inbox" (Some nop_handler) []).2.
Definition nop_factories : gmap string (ExecutorFactory unit) :=
  {[ "log" := fun _ _ w => (Ok (ExecutorFunc (fun _ w => ((ANil, None), w))), w) ]}.
Definition two_queue_built := buildConfiguredQueues nop_factories two_queue_runtime tt.

Lemma two_queue_wf : wf_runtime two_queue_runtime.
Proof.
  apply (register_wf (mkRuntime two_queue_config [] ∅ [] [] false false None (5 * Second) None)
           (mkRegistration "inbox" no_tuning nop_handler true)); [|reflexivity].
  split; cbn.
  - constructor.
  - intros q. rewrite lookup_empty. split; [by intros ?%elem_of_nil|by intros [? ?]].
  - intros q r. by rewrite lookup_empty.
Qed.

Lemma buildConfiguredQueues_spec_witness :
  order two_queue_built.1.2 = ["inbox"; "mail"] /\
  registry two_queue_built.1.2 !! "inbox" = registry two_queue_runtime !! "inbox".
Proof.
  destruct (buildConfiguredQueues_spec nop_factories two_queue_runtime two_queue_built.1.2 tt tt)
    as (H1 & _ & H2 & _).
  - apply Validate_valid. vm_compute. reflexivity.
  - apply two_queue_wf.
  - reflexivity.
  - split; [exact H2|]. apply H1. reflexivity.
Defined.
