(* ===== verification/Runtime.v ===== *)
(** * The runtime, up to its workers (runtime.go)

    Building a runtime, starting its workers and rolling a failed start back,
    the pool warning and the reports. What mkq, Redis and the listener answer is
    given by oracles; the calls made to them are recorded in a trace. *)

From S2P Require Import Prelude GoErrors GoStrings Logging RetryAfter Config Executor Register.

Definition defaultUnwindGrace : Z := 5 * Second.
Definition pingTimeout : Z := 2 * Second.
Definition probePoolSize : Z := 2.

(** redis.UniversalOptions, as far as mkqd sets it. *)
Record UniversalOptions := mkUniversalOptions {
  uo_Addrs : list string;
  uo_DB : Z;
  uo_Username : string;
  uo_Password : string;
  uo_MasterName : string;
  uo_PoolSize : Z;
}.

Definition universalOptions (r : RedisConfig) (autoPool : Z) : UniversalOptions :=
  let pool := if PoolSize r =? 0 then autoPool else PoolSize r in
  mkUniversalOptions (Addrs r) (DB r) (Username r) (Password r) (MasterName r) pool.

(** The health probe's client. *)
Definition probeOptions (r : RedisConfig) : UniversalOptions :=
  let o := universalOptions r probePoolSize in
  mkUniversalOptions (uo_Addrs o) (uo_DB o) (uo_Username o) (uo_Password o) (uo_MasterName o)
    probePoolSize.

(** mkq.Config, as far as mkqd sets it: [Metrics] is an adapter over the registry
    [New] makes, when there is one. *)
Record mkqConfig := mkMkqConfig {
  mc_Redis : UniversalOptions;
  mc_KeyPrefix : string;
  mc_Metrics : bool;
}.
Definition mkq_config (c : Config) : mkqConfig :=
  mkMkqConfig (universalOptions (Redis c) (autoPoolSize c)) (KeyPrefix c) (Metrics (Server c)).

(** What the runtime asks of mkq, Redis and the network. [K] is mkq's worker. *)
Inductive event (K : Type) : Type :=
| EvProcess (queue : string) (opts : list WorkerOption) (k : K)     (* worker launched *)
| EvListen (addr : string)
| EvStop (k : K).                                                   (* Worker.Stop *)
Arguments EvProcess {K}.
Arguments EvListen {K}.
Arguments EvStop {K}.

Section runtime.
Context {W K : Type}.
Implicit Types rt : Runtime W K.

Definition with_workers rt (ws : list (string * K)) : Runtime W K :=
  mkRuntime (cfg rt) (logs rt) (registry rt) (order rt) ws (started rt) (stopped rt) (srv rt)
    (unwindGrace rt) (stopErr rt).
Definition with_started rt : Runtime W K :=
  mkRuntime (cfg rt) (logs rt) (registry rt) (order rt) (workers rt) true (stopped rt) (srv rt)
    (unwindGrace rt) (stopErr rt).
Definition with_srv rt (s : option string) : Runtime W K :=
  mkRuntime (cfg rt) (logs rt) (registry rt) (order rt) (workers rt) (started rt) (stopped rt) s
    (unwindGrace rt) (stopErr rt).
Definition with_stopped rt (e : option error) : Runtime W K :=
  mkRuntime (cfg rt) (logs rt) (registry rt) (order rt) (workers rt) (started rt) true (srv rt)
    (unwindGrace rt) (Some e).

(** [New]; [NewClient] is mkq's. *)
Definition New_runtime (NewClient : mkqConfig -> option error) (c : Config)
  : res (Runtime W K) :=
  let c := applyDefaults c in
  match Validate c with
  | Some e => Fail e
  | None =>
      _ ← newLogger (Log c);
      match NewClient (mkq_config c) with
      | Some e => Fail e
      | None => Ok (mkRuntime c [] ∅ [] [] false false None defaultUnwindGrace None)
      end
  end.

Definition NewFromFile (NewClient : mkqConfig -> option error)
  (LoadConfig : string -> res Config) (path : string) : res (Runtime W K) :=
  c ← LoadConfig path;
  New_runtime NewClient c.

(** ** Starting *)

(** The sum over the queues; the names come from the registry. *)
Definition total_concurrency rt (names : list string) : Z :=
  fold_left (fun t name =>
               match registry rt !! name with
               | Some r => wrap64 (t + r_concurrency (resolveTuning rt r))
               | None => t
               end) names 0.

Definition effective_pool (c : Config) : Z :=
  if PoolSize (Redis c) =? 0 then autoPoolSize c else PoolSize (Redis c).

Definition warnPoolSize rt (names : list string) : Runtime W K :=
  let total := total_concurrency rt names in
  let pool := effective_pool (cfg rt) in
  let want := wrap64 (total + poolHeadroom) in
  if pool <? want then
    with_log rt
      (LogRec LevelWarn
         "redis pool is smaller than the total worker concurrency; set redis.pool_size"
         [("pool_size", AInt pool); ("total_concurrency", AInt total); ("recommended", AInt want)])
  else rt.

Abbreviation trace := (list (event K)).

(** The answers: they may depend on everything that was done before. *)
Context (mkq_Process : trace -> string -> handler W -> list WorkerOption -> res K).
Context (mkq_Stop : trace -> K -> option error).
Context (net_Listen : trace -> string -> res string).
(** [takeWorkers]: one section under the mutex. *)
Definition takeWorkers rt : list (string * K) * Runtime W K := (workers rt, with_workers rt []).

(** The order in which the goroutines of [abortWorkers] reach their worker. *)
Context (schedule : list (string * K) -> list (string * K)).

(** [abortWorkers]: stop without draining; failures are logged. *)
Fixpoint stop_all rt (tr : trace) (ws : list (string * K)) : Runtime W K * trace :=
  match ws with
  | [] => (rt, tr)
  | (name, k) :: ws =>
      let rt := match mkq_Stop tr k with
                | Some e =>
                    with_log rt
                      (LogRec LevelWarn "worker did not stop cleanly during startup rollback"
                         [("queue", AStr name); ("error", AErr e)])
                | None => rt
                end in
      stop_all rt (tr ++ [EvStop k]) ws
  end.

Definition abortWorkers rt (tr : trace) : Runtime W K * trace :=
  let '(ws, rt) := takeWorkers rt in
  stop_all rt tr (schedule ws).

(** The loop that launches the workers. The names come from the registry; one
    that did not would panic on its nil [start]. *)
Fixpoint launch rt (tr : trace) (names : list string) : option error * Runtime W K * trace :=
  match names with
  | [] => (None, rt, tr)
  | name :: names =>
      match registry rt !! name with
      | None => (Some (New "invalid memory address or nil pointer dereference"), rt, tr)
      | Some r =>
          let tune := resolveTuning rt r in
          let opts := workerOptionsFor tune in
          match mkq_Process tr (r_queue r) (r_handler r) opts with
          | Fail e =>
              let '(rt, tr) := abortWorkers rt tr in
              (Some (Errorf "mkqd: start worker for queue %q: %w" [OStr name; OWrap e]), rt, tr)
          | Ok k =>
              let rt := with_workers rt (workers rt ++ [(name, k)]) in
              let rt := with_log rt
                (LogRec LevelInfo "queue started"
                   [("queue", AStr name); ("concurrency", AInt (r_concurrency tune));
                    ("lock_duration", ADur (r_lockDuration tune));
                    ("rate_limited", ABool (bool_decide (r_rateLimit tune <> None)))]) in
              launch rt (tr ++ [EvProcess (r_queue r) opts k]) names
          end
      end
  end.

(** The end of [Start]: the health listener ([newHealthServer]), when there is
    one. *)
(** [newHealthServer]: the listener; what it serves is in Server.v. *)
Definition newHealthServer rt (tr : trace) : res string :=
  let addr := srv_Addr (Server (cfg rt)) in
  map_err (fun e => Errorf "mkqd: listen on %s: %w" [OStr addr; OWrap e]) (net_Listen tr addr).

Definition start_server rt (tr : trace) : option error * Runtime W K * trace :=
  if serverEnabled (cfg rt) then
    match newHealthServer rt tr with
    | Fail e => let '(rt, tr) := abortWorkers rt tr in (Some e, rt, tr)
    | Ok addr =>
        let rt := with_log (with_srv rt (Some addr))
          (LogRec LevelInfo "health server listening"
             [("addr", AStr addr); ("metrics", ABool (Metrics (Server (cfg rt))))]) in
        (None, rt, tr ++ [EvListen addr])
    end
  else (None, rt, tr).

Context (factories : gmap string (ExecutorFactory W)).

Definition Start rt (tr : trace) (w : W) : option error * Runtime W K * trace * W :=
  if started rt then (Some (New "mkqd: Start called twice"), rt, tr, w)
  else
    match buildConfiguredQueues factories (with_started rt) w with
    | (Some e, rt, w) => (Some e, rt, tr, w)
    | (None, rt, w) =>
        let names := registeredQueues rt in
        match names with
        | [] =>
            (Some (New "mkqd: no queues registered; declare queues in the config or call Handle"),
             rt, tr, w)
        | _ =>
            let rt := warnPoolSize rt names in
            match launch rt tr names with
            | (Some e, rt, tr) => (Some e, rt, tr, w)
            | (None, rt, tr) =>
                let '(err, rt, tr) := start_server rt tr in (err, rt, tr, w)
            end
        end
    end.

(** ** Probes and reports *)

Definition isServing rt : bool := started rt && negb (stopped rt).

(** [ping]; [rdb] is [None] for a runtime without a Redis client. *)
Definition ping (rdb : option (option error)) : option error :=
  match rdb with
  | None => Some (New "mkqd: runtime has no redis client")
  | Some answer => answer
  end.

Definition Check rt (rdb : option (option error)) (w : W) : option error * Runtime W K * W :=
  match ping rdb with
  | Some e => (Some (Errorf "mkqd: redis ping: %w" [OWrap e]), rt, w)
  | None => buildConfiguredQueues factories rt w
  end.

Definition runtime_Queues rt : list string := sortedQueueNames (registeredQueues rt).

Definition QueueTuning rt (queue : string) : option (Z * Z) :=
  match registry rt !! queue with
  | None => None
  | Some r => let t := resolveTuning rt r in Some (r_concurrency t, r_lockDuration t)
  end.

Definition ServerAddr rt : string := default "" (srv rt).

(** The accessors for embedding code. *)
Definition Runtime_Config rt : Config := cfg rt.
Definition Runtime_Logger rt : list log_record := logs rt.
End runtime.

(** ** Lemmas: starting *)

Section start.
Context {W K : Type}.
Implicit Types rt : Runtime W K.
Context (mkq_Process : list (event K) -> string -> handler W -> list WorkerOption -> res K).
Context (mkq_Stop : list (event K) -> K -> option error).
Context (net_Listen : list (event K) -> string -> res string).
Context (schedule : list (string * K) -> list (string * K)).
Context (factories : gmap string (ExecutorFactory W)).

(** The workers a trace launched, and those it stopped. *)
Definition launched (tr : list (event K)) : list K :=
  omap (fun e => match e with EvProcess _ _ k => Some k | _ => None end) tr.
Definition stops (tr : list (event K)) : list K :=
  omap (fun e => match e with EvStop k => Some k | _ => None end) tr.

Lemma launched_app a b : launched (a ++ b) = launched a ++ launched b.
Proof. apply omap_app. Qed.
Lemma stops_app a b : stops (a ++ b) = stops a ++ stops b.
Proof. apply omap_app. Qed.

Definition stop_events (ws : list (string * K)) : list (event K) := map (fun p => EvStop p.2) ws.

Lemma stop_events_stops ws : stops (stop_events ws) = map snd ws.
Proof. induction ws as [|w ws IH]; [done|]. unfold stops, stop_events in *. cbn. by f_equal. Qed.
Lemma stop_events_launched ws : launched (stop_events ws) = [].
Proof. by induction ws. Qed.

(** What the rest of a start leaves alone: everything but the workers and the
    log. *)
Definition same_setup rt rt' : Prop :=
  cfg rt' = cfg rt /\ registry rt' = registry rt /\ order rt' = order rt /\
  started rt' = started rt /\ (stopped rt' = stopped rt /\ stopErr rt' = stopErr rt) /\
  srv rt' = srv rt.

Lemma same_setup_trans a b c : same_setup a b -> same_setup b c -> same_setup a c.
Proof. unfold same_setup. intuition congruence. Qed.

Lemma stop_all_spec ws rt tr :
  let '(rt', tr') := stop_all mkq_Stop rt tr ws in
  same_setup rt rt' /\ workers rt' = workers rt /\ tr' = tr ++ stop_events ws.
Proof.
  revert rt tr. induction ws as [|[name k] ws IH]; intros rt tr; cbn [stop_all].
  { split_and!; [done..|]. by rewrite app_nil_r. }
  specialize (IH (match mkq_Stop tr k with
                  | Some e => with_log rt
                      (LogRec LevelWarn "worker did not stop cleanly during startup rollback"
                         [("queue", AStr name); ("error", AErr e)])
                  | None => rt end) (tr ++ [EvStop k])).
  destruct (stop_all _ _ _ ws) as [rt' tr']. destruct IH as (Hs & Hw & ->).
  split_and!; [|by rewrite Hw; destruct (mkq_Stop tr k)|by rewrite <- app_assoc].
  eapply same_setup_trans; [|exact Hs]. by destruct (mkq_Stop tr k).
Qed.

Lemma abortWorkers_spec rt tr :
  let '(rt', tr') := abortWorkers mkq_Stop schedule rt tr in
  same_setup rt rt' /\ workers rt' = [] /\ tr' = tr ++ stop_events (schedule (workers rt)).
Proof.
  unfold abortWorkers, takeWorkers. pose proof (stop_all_spec (schedule (workers rt)) (with_workers rt []) tr) as H.
  by destruct (stop_all _ _ _ _).
Qed.

(** A worker launched for a registered queue, with its resolved tuning. *)
Definition launch_event rt (p : string * K) (e : event K) : Prop :=
  exists r, registry rt !! p.1 = Some r /\
    e = EvProcess (r_queue r) (workerOptionsFor (resolveTuning rt r)) p.2.

Lemma launch_event_same rt rt' p e :
  cfg rt' = cfg rt -> registry rt' = registry rt -> launch_event rt' p e -> launch_event rt p e.
Proof.
  intros Hc Hr (r & H & ->). exists r. rewrite Hr in H. split; [done|].
  unfold resolveTuning. by rewrite Hc.
Qed.

Lemma launch_events_launched rt added events :
  Forall2 (launch_event rt) added events ->
  launched events = map snd added /\ stops events = [].
Proof.
  induction 1 as [|p e added events (r & _ & ->) _ [IH1 IH2]]; [done|]. cbn.
  unfold launched, stops in *. by rewrite IH1, IH2.
Qed.

Lemma launch_spec names rt tr :
  Forall (fun n => is_Some (registry rt !! n)) names ->
  let '(err, rt', tr') := launch mkq_Process mkq_Stop schedule rt tr names in
  same_setup rt rt' /\
  exists added events,
    Forall2 (launch_event rt) added events /\ map fst added `prefix_of` names /\
    match err with
    | None =>
        map fst added = names /\ workers rt' = workers rt ++ added /\ tr' = tr ++ events
    | Some _ =>
        workers rt' = [] /\
        tr' = tr ++ events ++ stop_events (schedule (workers rt ++ added))
    end.
Proof.
  intros HF. revert rt tr HF. induction names as [|name names IH]; intros rt tr HF; cbn [launch].
  { split; [done|]. exists [], []. rewrite !app_nil_r. by split_and!. }
  inversion HF as [|? ? [r Hr] HF']; subst. rewrite Hr. cbv zeta.
  set (opts := workerOptionsFor (resolveTuning rt r)).
  destruct (mkq_Process tr (r_queue r) (r_handler r) opts) as [k|e].
  - set (rt1 := with_log (with_workers rt (workers rt ++ [(name, k)])) _).
    specialize (IH rt1 (tr ++ [EvProcess (r_queue r) opts k])).
    assert (same_setup rt rt1) as Hs1 by done.
    destruct (launch _ _ _ rt1 _ names) as [[err rt'] tr'].
    destruct IH as (Hs & added & events & H2 & Hp & H); [exact HF'|].
    split; [by eapply same_setup_trans|].
    exists ((name, k) :: added), (EvProcess (r_queue r) opts k :: events). split_and!.
    + constructor; [by exists r|].
      eapply Forall2_impl; [exact H2|]. intros p e. destruct Hs1 as (? & ? & _).
      by apply launch_event_same.
    + cbn. by apply prefix_cons.
    + destruct err as [err|]; cbn [workers with_log with_workers rt1] in H.
      * destruct H as [Hw ->]. split; [done|]. by rewrite <- !app_assoc.
      * destruct H as (Hn & -> & ->). cbn. rewrite Hn. split_and!; [done| |];
          by rewrite <- app_assoc.
  - pose proof (abortWorkers_spec rt tr) as H.
    destruct (abortWorkers mkq_Stop schedule rt tr) as [rt' tr']. destruct H as (Hs & Hw & ->).
    split; [done|]. exists [], []. rewrite app_nil_r. split_and!; [done|apply prefix_nil|done|done].
Qed.

Lemma warnPoolSize_same rt names :
  same_setup rt (warnPoolSize rt names) /\ workers (warnPoolSize rt names) = workers rt.
Proof. unfold warnPoolSize. cbv zeta. by destruct (_ <? _). Qed.

Lemma registered_listed rt :
  listed_registered rt -> Forall (fun n => is_Some (registry rt !! n)) (registeredQueues rt).
Proof.
  intros Hl. apply Forall_forall. intros n Hn. apply Hl.
  unfold registeredQueues in Hn. apply first_occurrences_elem in Hn. tauto.
Qed.

(** What building a queue leaves alone. *)
Lemma build_queue_keeps rt qc w err rt' w' :
  build_queue factories rt qc w = (err, rt', w') ->
  started rt' = started rt /\ workers rt' = workers rt /\ srv rt' = srv rt /\
  cfg rt' = cfg rt /\ (stopped rt' = stopped rt /\ stopErr rt' = stopErr rt).
Proof.
  unfold build_queue. destruct (claimed rt (q_Name qc)).
  { intros [= <- <- <-]. by destruct (q_Executor qc). }
  destruct (q_Executor qc) as [e|]; [|by intros [= <- <- <-]].
  destruct (lookupExecutorFactory _ _) as [f|]; [|by intros [= <- <- <-]].
  destruct (f _ e w) as [[ex|] w2]; by intros [= <- <- <-].
Qed.

Lemma build_setup rt w rt' w' err :
  buildConfiguredQueues factories rt w = (err, rt', w') ->
  started rt' = started rt /\ workers rt' = workers rt /\ srv rt' = srv rt /\
  cfg rt' = cfg rt /\ (stopped rt' = stopped rt /\ stopErr rt' = stopErr rt).
Proof.
  unfold buildConfiguredQueues. generalize (Queues (cfg rt)). intros qcs.
  revert rt w. induction qcs as [|qc qcs IH]; intros rt w; cbn [build_queues].
  { by intros [= <- <- <-]. }
  destruct (build_queue factories rt qc w) as [[[e|] rt1] w1] eqn:E;
    apply build_queue_keeps in E; [by intros [= <- <- <-]|].
  intros H. apply IH in H as (-> & -> & -> & -> & -> & ->). exact E.
Qed.
End start.

(** A start that is rolled back stops what it launched. *)
Lemma aborted_events {K} (schedule : list (string * K) -> list (string * K))
    (events : list (event K)) added :
  (forall l, schedule l ≡ₚ l) -> launched events = map snd added -> stops events = [] ->
  stops (events ++ stop_events (schedule added)) ≡ₚ
  launched (events ++ stop_events (schedule added)).
Proof.
  intros Hsched Hl Hs.
  by rewrite stops_app, launched_app, Hl, Hs, stop_events_stops, stop_events_launched, app_nil_r,
    Hsched.
Qed.

(** ** Properties of a start *)

(** What a start may leave, [tr] being the trace before it. *)
Definition all_or_nothing {W K} (tr : list (event K))
    (result : option error * Runtime W K * list (event K)) : Prop :=
  let '(err, rt', tr') := result in
  started rt' = true /\
  exists new, tr' = tr ++ new /\
    match err with
    | None =>
        map fst (workers rt') = registeredQueues rt' /\ launched new = map snd (workers rt') /\
        stops new = [] /\
        exists events rest, new = events ++ rest /\ launched rest = [] /\
          Forall2 (launch_event rt') (workers rt') events
    | Some _ => workers rt' = [] /\ stops new ≡ₚ launched new /\ srv rt' = None
    end.

(** Once every worker is up, the listener decides. *)
Lemma start_server_spec {W K} mkq_Stop net_Listen schedule (rt : Runtime W K) tr events :
  (forall l, schedule l ≡ₚ l) -> started rt = true -> srv rt = None ->
  map fst (workers rt) = registeredQueues rt -> launched events = map snd (workers rt) ->
  stops events = [] -> Forall2 (launch_event rt) (workers rt) events ->
  all_or_nothing tr (start_server mkq_Stop net_Listen schedule rt (tr ++ events)).
Proof.
  intros Hsched Hst Hsrv Hn Hl Hs He. unfold start_server, newHealthServer, all_or_nothing. cbv zeta.
  destruct (serverEnabled (cfg rt)).
  2:{ split; [done|]. exists events. split_and!; [done..|].
      exists events, []. rewrite app_nil_r. by split_and!. }
  destruct (net_Listen _ _) as [addr|e]; cbn [map_err].
  - split; [done|]. exists (events ++ [EvListen addr]). split; [by rewrite app_assoc|].
    rewrite launched_app, stops_app, Hl, Hs. split_and!; [done|by rewrite app_nil_r|done|].
    by exists events, [EvListen addr].
  - pose proof (abortWorkers_spec mkq_Stop schedule rt (tr ++ events)) as HA.
    destruct (abortWorkers _ _ rt _) as [rt4 tr4].
    destruct HA as ((_ & _ & _ & Hst4 & _ & Hsrv4) & Hw4 & ->).
    split; [congruence|]. exists (events ++ stop_events (schedule (workers rt))).
    split_and!; [by rewrite app_assoc|done|by apply aborted_events|congruence].
Qed.

Lemma start_outcome {W K} mkq_Process mkq_Stop net_Listen schedule factories
    (rt : Runtime W K) tr w :
  (forall l, schedule l ≡ₚ l) ->
  valid_config (cfg rt) -> wf_runtime rt -> started rt = false -> workers rt = [] -> srv rt = None ->
  all_or_nothing tr (Start mkq_Process mkq_Stop net_Listen schedule factories rt tr w).1.
Proof.
  intros Hsched Hv Hwf Hst Hws Hsrv. unfold Start. rewrite Hst.
  destruct (buildConfiguredQueues factories (with_started rt) w) as [[[e|] rt1] w1] eqn:Hb.
  { cbn [all_or_nothing fst]. apply build_setup in Hb as (-> & -> & -> & _). split; [done|]. exists [].
    rewrite app_nil_r. by split_and!. }
  pose proof (build_setup _ _ _ _ _ _ Hb) as (Hs1 & Hw1 & Hsrv1 & Hc1 & _).
  cbn [with_started started workers srv cfg] in Hs1, Hw1, Hsrv1, Hc1.
  apply build_listed in Hb;
    [|apply valid_names, Hv|intros q Hq; by apply (wf_listed rt Hwf)].
  destruct (registeredQueues rt1) as [|n ns] eqn:Hnames.
  { cbn [all_or_nothing fst]. split; [congruence|]. exists []. rewrite app_nil_r.
    split_and!; try done; congruence. }
  rewrite <- Hnames. set (rt2 := warnPoolSize rt1 (registeredQueues rt1)).
  destruct (warnPoolSize_same rt1 (registeredQueues rt1)) as [H12 Hw2]. fold rt2 in H12, Hw2.
  pose proof (launch_spec mkq_Process mkq_Stop schedule (registeredQueues rt1) rt2 tr) as HL.
  destruct (launch _ _ _ rt2 tr _) as [[err rt3] tr3].
  destruct HL as (H23 & added & events & H2 & Hp & HL).
  { destruct H12 as (_ & -> & _). by apply registered_listed. }
  pose proof (launch_events_launched _ _ _ H2) as [Hlaunch Hstops].
  pose proof (same_setup_trans _ _ _ H12 H23) as (Hc3 & Hr3 & Ho3 & Hst3 & _ & Hsrv3).
  rewrite Hw2, Hw1, Hws in HL.
  destruct err as [e|].
  { destruct HL as (Hw3 & ->). cbn [all_or_nothing fst]. split; [congruence|]. exists (events ++ stop_events (schedule added)).
    split_and!; [done|done|by apply aborted_events|congruence]. }
  destruct HL as (Hn & Hw3 & ->). cbn [app] in Hw3. subst added.
  pose proof (start_server_spec mkq_Stop net_Listen schedule rt3 tr events) as Hsv.
  destruct (start_server _ _ _ rt3 _) as [[err rt4] tr4]. apply Hsv; try done; try congruence.
  - rewrite Hn. unfold registeredQueues. congruence.
  - eapply Forall2_impl; [exact H2|]. intros p e.
    destruct H12 as (? & ? & _). apply launch_event_same; congruence.
Qed.

(** A start changes neither the configuration nor the memo of [Shutdown]. *)
Lemma Start_keeps {W K} mkq_Process mkq_Stop net_Listen schedule factories
    (rt rt' : Runtime W K) tr tr' w w' err :
  (forall q, q ∈ order rt -> is_Some (registry rt !! q)) -> NoDup (map q_Name (Queues (cfg rt))) ->
  Start mkq_Process mkq_Stop net_Listen schedule factories rt tr w = (err, rt', tr', w') ->
  cfg rt' = cfg rt /\ stopped rt' = stopped rt /\ stopErr rt' = stopErr rt.
Proof.
  intros Hreg Hnd. unfold Start. destruct (started rt); [by intros [= <- <- <- <-]|].
  destruct (buildConfiguredQueues factories (with_started rt) w) as [[[e|] rt1] w1] eqn:Hb.
  { apply build_setup in Hb as (_ & _ & _ & Hc & Hs). by intros [= <- <- <- <-]. }
  pose proof (build_setup _ _ _ _ _ _ Hb) as (_ & _ & _ & Hc & Ht & Hs).
  apply build_listed in Hb; [|done|done].
  destruct (registeredQueues rt1) as [|n ns] eqn:Hnames; [by intros [= <- <- <- <-]|].
  rewrite <- Hnames. set (rt2 := warnPoolSize rt1 (registeredQueues rt1)).
  destruct (warnPoolSize_same rt1 (registeredQueues rt1)) as [H12 _]. fold rt2 in H12.
  pose proof (launch_spec mkq_Process mkq_Stop schedule (registeredQueues rt1) rt2 tr) as HL.
  destruct (launch _ _ _ rt2 tr _) as [[err3 rt3] tr3].
  destruct HL as (H23 & _).
  { destruct H12 as (_ & -> & _). by apply registered_listed. }
  pose proof (same_setup_trans _ _ _ H12 H23) as (Hc3 & _ & _ & _ & (Ht3 & Hs3) & _).
  cbn [with_started cfg stopped stopErr] in Hc, Ht, Hs.
  destruct err3 as [e|]; [intros [= <- <- <- <-]; split_and!; congruence|].
  unfold start_server. destruct (serverEnabled (cfg rt3));
    [|intros [= <- <- <- <-]; split_and!; congruence].
  destruct (newHealthServer _ _ _); [intros [= <- <- <- <-]; cbn; split_and!; congruence|].
  pose proof (abortWorkers_spec mkq_Stop schedule rt3 tr3) as HA.
  destruct (abortWorkers _ _ rt3 _). destruct HA as ((Hc4 & _ & _ & _ & (Ht4 & Hs4) & _) & _ & _).
  intros [= <- <- <- <-]. split_and!; congruence.
Qed.

(** C8 A start is all or nothing. On success there is one worker per registered
    queue, in registration order, each launched for its queue with its resolved
    tuning, and none was stopped. On failure, wherever it failed, no worker is
    left running: the runtime holds none, every worker launched on the way was
    stopped, each once, and there is no listener. Either way a second [Start] is
    refused. *)
Theorem Start_all_or_nothing {W K} mkq_Process mkq_Stop net_Listen schedule factories
    (rt : Runtime W K) tr w :
  (forall l, schedule l ≡ₚ l) ->
  valid_config (cfg rt) -> wf_runtime rt -> started rt = false -> workers rt = [] -> srv rt = None ->
  let '(err, rt', tr', _) :=
    Start mkq_Process mkq_Stop net_Listen schedule factories rt tr w in
  started rt' = true /\
  exists new, tr' = tr ++ new /\
    match err with
    | None =>
        map fst (workers rt') = registeredQueues rt' /\ launched new = map snd (workers rt') /\
        stops new = [] /\
        exists events rest, new = events ++ rest /\ launched rest = [] /\
          Forall2 (launch_event rt') (workers rt') events
    | Some _ => workers rt' = [] /\ stops new ≡ₚ launched new /\ srv rt' = None
    end.
Proof.
  intros Hsched Hv Hwf Hst Hws Hsrv.
  pose proof (start_outcome mkq_Process mkq_Stop net_Listen schedule factories rt tr w) as H.
  destruct (Start _ _ _ _ _ rt tr w) as [[[err rt'] tr'] w']. by apply H.
Qed.

(** A start whose second worker cannot be launched. *)
Definition failing_process (tr : list (event nat)) (queue : string) (h : handler unit)
  (opts : list WorkerOption) : res nat :=
  if bool_decide (queue = "mail") then Fail (New "redis down") else Ok (length tr).
Definition failed_start :=
  Start failing_process (fun _ _ => None) (fun _ a => Ok a) (@rev _) nop_factories
    two_queue_runtime [] tt.

Lemma Start_all_or_nothing_witness :
  workers failed_start.1.1.2 = [] /\ launched failed_start.1.2 = [0%nat] /\
  stops failed_start.1.2 = [0%nat].
Proof.
  pose proof (Start_all_or_nothing failing_process (fun _ _ => None) (fun _ a => Ok a) (@rev _)
                nop_factories two_queue_runtime [] tt) as H.
  split; [|split; vm_compute; reflexivity].
  assert (valid_config (cfg two_queue_runtime)) as Hv
    by (apply Validate_valid; vm_compute; reflexivity).
  assert (forall l : list (string * nat), rev l ≡ₚ l) as Hrev
    by (intros l; symmetry; apply Permutation.Permutation_rev).
  specialize (H Hrev Hv two_queue_wf eq_refl eq_refl eq_refl).
  assert (bool_decide (failed_start.1.1.1 = None) = false) as Hfail by (vm_compute; reflexivity).
  revert H Hfail. unfold failed_start. clear.
  destruct (Start _ _ _ _ _ _ _ _) as [[[[e|] rt'] tr'] w']; [|discriminate].
  intros (_ & new & _ & Hw & _) _. exact Hw.
Defined.

(** ** Pool sizing *)

Lemma no_pool_warning {W K} (rt : Runtime W K) names :
  wrap64 (total_concurrency rt names + poolHeadroom) <= effective_pool (cfg rt) ->
  warnPoolSize rt names = rt.
Proof.
  intros H. unfold warnPoolSize. cbv zeta.
  destruct (Z.ltb_spec (effective_pool (cfg rt)) (wrap64 (total_concurrency rt names + poolHeadroom)));
    [lia|done].
Qed.

Lemma queueConfig_in (c : Config) qc :
  NoDup (map q_Name (Queues c)) -> qc ∈ Queues c -> queueConfig c (q_Name qc) = Some qc.
Proof.
  unfold queueConfig. induction (Queues c) as [|q qs IH]; [by intros _ ?%elem_of_nil|].
  cbn [map]. intros [Hnot Hnd]%NoDup_cons Hin. cbn [List.find].
  case_bool_decide as Hn.
  - apply elem_of_cons in Hin as [->|Hin]; [done|]. destruct Hnot. rewrite Hn.
    apply list_elem_of_fmap. by exists qc.
  - apply elem_of_cons in Hin as [->|Hin]; [done|]. by apply IH.
Qed.

(** The concurrency of a queue built from the configuration. *)
Lemma built_concurrency {W K} (factories : gmap string (ExecutorFactory W)) (rt : Runtime W K) c qc r :
  NoDup (map q_Name (Queues (cfg rt))) -> qc ∈ Queues (cfg rt) -> built factories c qc r ->
  r_concurrency (resolveTuning rt r) = queue_concurrency (cfg rt) qc.
Proof.
  intros Hnd Hin (? & ? & ? & ? & ? & _ & _ & _ & ->). unfold resolveTuning. cbn [r_queue r_tune].
  rewrite queueConfig_in by done. cbn. unfold queue_concurrency. by destruct (q_Concurrency qc).
Qed.

(** Building the queues of a runtime in which code registered none. *)
Lemma fresh_build {W K} factories (rt rt' : Runtime W K) w w' :
  valid_config (cfg rt) -> registry rt = ∅ -> order rt = [] ->
  buildConfiguredQueues factories rt w = (None, rt', w') ->
  cfg rt' = cfg rt /\ registeredQueues rt' = map q_Name (Queues (cfg rt)) /\
  forall qc, qc ∈ Queues (cfg rt) ->
    exists r, registry rt' !! q_Name qc = Some r /\ built factories (cfg rt) qc r.
Proof.
  intros Hv Hreg Hord Hb. pose proof (valid_names _ Hv) as Hnd.
  apply build_queues_ok in Hb as (Hc & _ & _ & Ho & _ & Hbuilt).
  assert (forall q, claimed rt q = false) as Hcl
    by (intros q; unfold claimed; by rewrite Hreg, lookup_empty).
  rewrite Hord in Ho. cbn [app] in Ho.
  assert (List.filter (fun q => negb (claimed rt q)) (map q_Name (Queues (cfg rt))) =
          map q_Name (Queues (cfg rt))) as Hf.
  { clear -Hcl. induction (map q_Name (Queues (cfg rt))) as [|q l IH]; [done|].
    cbn. by rewrite Hcl, IH. }
  split_and!; [done| |by intros qc Hin; apply Hbuilt].
  unfold registeredQueues. rewrite Ho, Hf. apply first_occurrences_fresh; [done|set_solver].
Qed.

(** The automatic pool never triggers its own warning: when every consumed
    queue comes from a valid file and the pool size is left to the runtime, the
    check that [Start] makes after building the queues logs nothing. *)
Theorem auto_pool_never_warns {W K} factories (rt rt' : Runtime W K) w w' :
  valid_config (cfg rt) -> PoolSize (Redis (cfg rt)) = 0 ->
  registry rt = ∅ -> order rt = [] ->
  Z.max (sum_concurrency (cfg rt)) (d_Concurrency (Defaults (cfg rt))) + poolHeadroom <= MaxInt64 ->
  buildConfiguredQueues factories rt w = (None, rt', w') ->
  registeredQueues rt' = map q_Name (Queues (cfg rt)) /\
  warnPoolSize rt' (registeredQueues rt') = rt'.
Proof.
  intros Hv Hpool Hreg Hord Hsum Hb. pose proof (valid_names _ Hv) as Hnd.
  apply fresh_build in Hb as (Hc & Hq & Hbuilt); [|done..].
  split; [done|]. rewrite Hq. apply no_pool_warning.
  unfold effective_pool, total_concurrency. rewrite Hc, Hpool. cbn [Z.eqb].
  assert (forall l a, (forall qc, qc ∈ l -> qc ∈ Queues (cfg rt)) ->
    fold_left (fun t name => match registry rt' !! name with
                             | Some r => wrap64 (t + r_concurrency (resolveTuning rt' r))
                             | None => t end) (map q_Name l) a =
    fold_left (fun t q => wrap64 (t + queue_concurrency (cfg rt) q)) l a) as Hfold.
  { induction l as [|qc l IH]; intros a Hl; [done|]. cbn [map fold_left].
    destruct (Hbuilt qc (Hl qc ltac:(by left))) as (r & Hr & Hbr). rewrite Hr.
    rewrite (built_concurrency factories rt' (cfg rt) qc r) by (rewrite ?Hc; auto; apply Hl; by left).
    rewrite Hc. apply IH. intros qc' Hin. apply Hl. by right. }
  rewrite Hfold by done. clear Hfold Hbuilt Hq.
  rewrite autoPoolSize_sum by done.
  pose proof (valid_concurrency _ Hv) as HF. pose proof (sum_nonneg _ _ HF) as Hs.
  fold (sum_concurrency (cfg rt)) in Hs. pose proof (valid_default_concurrency _ Hv).
  unfold poolHeadroom in *.
  rewrite fold_wrap_sum by (try fold (sum_concurrency (cfg rt)); auto; lia).
  fold (sum_concurrency (cfg rt)).
  rewrite wrap64_id by (unfold in_int64, MinInt64; lia).
  case_bool_decide as Hnil; [|lia]. unfold sum_concurrency. rewrite Hnil. cbn. lia.
Qed.

Definition one_queue_runtime : Runtime unit nat :=
  mkRuntime
    (mkConfig (Redis sample_config) "bull" (Log sample_config) (Server sample_config)
       (ShutdownTimeout sample_config) (Defaults sample_config)
       [mkQueueConfig "mail" (Some 128) None None None None None (Some (mkExecutorConfig "log" None))])
    [] ∅ [] [] false false None (5 * Second) None.
Definition one_queue_built := (buildConfiguredQueues nop_factories one_queue_runtime tt).1.2.

Lemma auto_pool_never_warns_witness :
  registeredQueues one_queue_built = ["mail"] /\ logs (warnPoolSize one_queue_built ["mail"]) = [].
Proof.
  destruct (auto_pool_never_warns nop_factories one_queue_runtime one_queue_built tt tt) as [H1 H2].
  - apply Validate_valid. vm_compute. reflexivity.
  - reflexivity.
  - reflexivity.
  - reflexivity.
  - vm_compute. discriminate.
  - reflexivity.
  - split; [exact H1|]. rewrite H1 in H2. cbn [map] in H2.
    change (map q_Name (Queues (cfg one_queue_runtime))) with ["mail"] in H2.
    rewrite H2. reflexivity.
Defined.
