(* ===== verification/Server.v ===== *)
(** * The health server (server.go)

    The routes, as net/http's ServeMux resolves them: a request is answered by
    what [serve] computes from its method and path. The exposition behind
    /metrics is the Prometheus library's. *)

From S2P Require Import Prelude GoErrors GoStrings Config Register Runtime.

(** ** Paths *)

Fixpoint split_slash (cur s : string) : list string :=
  match s with
  | EmptyString => [cur]
  | String c s =>
      if bool_decide (c = "/"%char) then cur :: split_slash "" s
      else split_slash (cur +:+ String c "") s
  end.

(** The elements of a rooted path, [stack] being those kept so far in reverse. *)
Fixpoint clean_elements (stack l : list string) : list string :=
  match l with
  | [] => rev stack
  | x :: l =>
      if bool_decide (x = "") || bool_decide (x = ".") then clean_elements stack l
      else if bool_decide (x = "..") then clean_elements (tail stack) l
      else clean_elements (x :: stack) l
  end.

Definition ends_with_slash (s : string) : bool := HasPrefix (str_rev s) "/".

(** net/http's [cleanPath]: [path.Clean] of the path made rooted, which keeps a
    slash at its end. *)
Definition cleanPath (p : string) : string :=
  if bool_decide (p = "") then "/"
  else
    let rooted := if HasPrefix p "/" then p else "/" +:+ p in
    let np := "/" +:+ Join (clean_elements [] (split_slash "" rooted)) "/" in
    if ends_with_slash rooted && negb (bool_decide (np = "/")) then np +:+ "/" else np.

(** [url.PathUnescape]; [None] when a percent sign has no two hex digits. *)
Fixpoint PathUnescape (s : string) : option string :=
  match s with
  | EmptyString => Some ""
  | String "%" (String a (String b s)) =>
      match hex_val a, hex_val b with
      | Some x, Some y => String (ascii_of_N (16 * x + y)) <$> PathUnescape s
      | _, _ => None
      end
  | String "%" _ => None
  | String c s => String c <$> PathUnescape s
  end.

(** The segment a path of one segment is matched by; an escape that does not
    decode is matched as it is. *)
Definition segment (path : string) : option string :=
  match path with
  | String "/" r =>
      if has_byte r "/" then None
      else if bool_decide (r = "") then None
      else Some (default r (PathUnescape r))
  | _ => None
  end.

(** ** Requests and replies *)

Record http_request := mkHttpRequest { rq_method : string; rq_path : string (* URL.EscapedPath() *) }.

(** What a request is answered. A plain body is kept as its parts, an error
    among them as the value whose text is written. *)
Inductive reply : Type :=
| Plain (code : Z) (contentType : string) (body : list (operand error))
| Exposition                              (* promhttp's handler *)
| MovedPermanently (path : string)        (* 301 to the cleaned path *)
| MethodNotAllowed (allow : list string)  (* 405 *)
| NotFound.                               (* 404 *)

Definition writePlain (code : Z) (body : list (operand error)) : reply :=
  Plain code "text/plain; charset=utf-8" (body ++ [OStr (String "010" "")]).

Definition status_of (r : reply) : option Z :=
  match r with
  | Plain code _ _ => Some code
  | Exposition => None
  | MovedPermanently _ => Some 301
  | MethodNotAllowed _ => Some 405
  | NotFound => Some 404
  end.

Section server.
Context {W K : Type}.
Implicit Types rt : Runtime W K.

(** [rt.reg] is set by [New] when the configuration asks for metrics, and by
    nothing else. *)
Definition has_registry rt : bool := Metrics (Server (cfg rt)).

(** /healthz *)
Definition healthz : reply := writePlain 200 [OStr "ok"].

(** /readyz; Redis is not asked when the runtime is not serving. *)
Definition readyz rt (rdb : option (option error)) : reply :=
  if negb (isServing rt) then writePlain 503 [OStr "not serving"]
  else
    match ping rdb with
    | Some e => writePlain 503 [OStr "redis unavailable: "; OVal e]
    | None => writePlain 200 [OStr "ready"]
    end.

(** The patterns registered with the mux, all of them for GET, by their one
    segment. *)
Definition routes rt (rdb : option (option error)) : list (string * reply) :=
  [("healthz", healthz); ("readyz", readyz rt rdb)] ++
  (if Metrics (Server (cfg rt)) && has_registry rt then [("metrics", Exposition)] else []).

Definition route rt rdb (path : string) : option reply :=
  seg ← segment path;
  snd <$> List.find (fun p => bool_decide (p.1 = seg)) (routes rt rdb).

(** A pattern for GET serves HEAD too. *)
Definition is_get (method : string) : bool := str_mem method ["GET"; "HEAD"].

(** [ServeMux.ServeHTTP] over these patterns. *)
Definition serve rt rdb (req : http_request) : reply :=
  let path := if bool_decide (rq_method req = "CONNECT") then rq_path req
              else cleanPath (rq_path req) in
  if bool_decide (path <> rq_path req) then MovedPermanently path
  else
    match route rt rdb path with
    | None => NotFound
    | Some h => if is_get (rq_method req) then h else MethodNotAllowed ["GET"; "HEAD"]
    end.
End server.

Example clean_paths :
  map cleanPath ["/readyz"; ""; "readyz"; "//readyz"; "/a/../readyz"; "/readyz/"; "/../.."; "/./readyz/."; "/a/b/.."]
  = ["/readyz"; "/"; "/readyz"; "/readyz"; "/readyz"; "/readyz/"; "/"; "/readyz"; "/a"].
Proof. vm_compute. reflexivity. Qed.

Example segments :
  map segment ["/readyz"; "/%72eadyz"; "/"; "/a/b"; "/%zz"; "/readyz/"]
  = [Some "readyz"; Some "readyz"; None; None; Some "%zz"; None].
Proof. vm_compute. reflexivity. Qed.

(** ** Lemmas: cleaned paths *)

(** An element a cleaned path keeps. *)
Definition kept_element (x : string) : Prop :=
  has_byte x "/" = false /\ x <> "" /\ x <> "." /\ x <> "..".

Lemma has_byte_app s t b : has_byte (s +:+ t) b = has_byte s b || has_byte t b.
Proof.
  induction s as [|c s IH]; [done|]. rewrite str_app_cons. cbn [has_byte].
  by rewrite IH, orb_assoc.
Qed.

Lemma split_slash_app cur x s :
  has_byte x "/" = false ->
  split_slash cur (x +:+ String "/" s) = (cur +:+ x) :: split_slash "" s.
Proof.
  revert cur. induction x as [|c x IH]; intros cur Hx.
  - change ("" +:+ String "/" s) with (String "/" s). by rewrite str_app_nil_r.
  - rewrite str_app_cons. cbn [has_byte split_slash] in *. apply orb_false_iff in Hx as [Hc Hx].
    rewrite Hc, IH by done. rewrite str_app_assoc. done.
Qed.

Lemma split_slash_last cur x :
  has_byte x "/" = false -> split_slash cur x = [cur +:+ x].
Proof.
  revert cur. induction x as [|c x IH]; intros cur Hx; cbn [has_byte split_slash] in *.
  - by rewrite str_app_nil_r.
  - apply orb_false_iff in Hx as [Hc Hx]. rewrite Hc, IH by done. by rewrite str_app_assoc.
Qed.

Lemma split_join l :
  l <> [] -> Forall (fun x => has_byte x "/" = false) l -> split_slash "" (Join l "/") = l.
Proof.
  intros Hne H. induction H as [|x l Hx Hl IH]; [done|]. destruct l as [|y l].
  - by apply (split_slash_last "").
  - change (Join (x :: y :: l) "/") with (x +:+ String "/" (Join (y :: l) "/")).
    rewrite split_slash_app by done. by rewrite IH.
Qed.

Lemma split_slash_elements cur s :
  has_byte cur "/" = false -> Forall (fun x => has_byte x "/" = false) (split_slash cur s).
Proof.
  revert cur. induction s as [|c s IH]; intros cur Hc; cbn [split_slash]; [by constructor|].
  case_bool_decide as Hs; [constructor; [done|by apply IH]|].
  apply IH. rewrite has_byte_app, Hc. cbn [has_byte]. by rewrite bool_decide_eq_false_2.
Qed.

Lemma clean_elements_kept stack l :
  Forall kept_element stack -> Forall (fun x => has_byte x "/" = false) l ->
  Forall kept_element (clean_elements stack l).
Proof.
  intros Hs Hl. revert stack Hs. induction Hl as [|x l Hx Hl IH]; intros stack Hs; cbn [clean_elements].
  { by apply Forall_rev. }
  repeat case_bool_decide; cbn [orb]; apply IH; try done.
  - destruct stack; [done|]. by inversion Hs.
  - by constructor.
Qed.

Lemma clean_elements_id stack l :
  Forall kept_element l -> clean_elements stack l = rev stack ++ l.
Proof.
  intros H. revert stack. induction H as [|x l (_ & H1 & H2 & H3) _ IH]; intros stack; cbn [clean_elements].
  - by rewrite app_nil_r.
  - rewrite !bool_decide_eq_false_2 by done. cbn [orb]. rewrite IH. cbn [rev].
    by rewrite <- app_assoc.
Qed.

Lemma clean_elements_slash stack l :
  Forall kept_element l -> clean_elements stack (l ++ [""]) = rev stack ++ l.
Proof.
  intros H. revert stack. induction H as [|x l (_ & H1 & H2 & H3) _ IH]; intros stack;
    cbn [clean_elements app].
  - by rewrite app_nil_r.
  - rewrite !bool_decide_eq_false_2 by done. cbn [orb]. rewrite IH. cbn [rev].
    by rewrite <- app_assoc.
Qed.

Lemma ends_with_slash_snoc s : ends_with_slash (s +:+ "/") = true.
Proof.
  unfold ends_with_slash. rewrite str_rev_app. change (str_rev "/") with "/". apply prefix_app_true.
Qed.

Lemma ends_with_slash_last s x :
  x <> "" -> has_byte x "/" = false -> ends_with_slash (s +:+ x) = false.
Proof.
  intros Hx Hn. unfold ends_with_slash. rewrite str_rev_app.
  destruct (str_rev x) as [|c r] eqn:E.
  { apply (f_equal str_rev) in E. by rewrite str_rev_involutive in E. }
  rewrite str_app_cons.
  assert (c <> "/"%char) as Hc.
  { intros ->. apply (f_equal str_rev) in E. rewrite str_rev_involutive, str_rev_cons in E.
    rewrite E, has_byte_app in Hn. apply orb_false_iff in Hn as [_ Hn]. cbn [has_byte] in Hn.
    by rewrite bool_decide_eq_true_2 in Hn. }
  clear -Hc. byte_cases c; first [reflexivity | by destruct Hc].
Qed.

Lemma Join_last l :
  l <> [] -> Forall kept_element l ->
  exists s x, Join l "/" = s +:+ x /\ x <> "" /\ has_byte x "/" = false.
Proof.
  intros Hne H. induction H as [|x l (Hx & Hx' & _) Hl IH]; [done|]. destruct l as [|y l].
  - exists "", x. by split_and!.
  - change (Join (x :: y :: l) "/") with (x +:+ "/" +:+ Join (y :: l) "/").
    destruct IH as (s & z & -> & ? & ?); [done|]. exists (x +:+ "/" +:+ s), z.
    split_and!; [|done..]. by rewrite !str_app_assoc.
Qed.

(** Rooted elements, with or without a slash at the end, are what they are cleaned to. *)
Lemma cleanPath_elements l :
  Forall kept_element l ->
  cleanPath ("/" +:+ Join l "/") = "/" +:+ Join l "/" /\
  (l <> [] -> cleanPath (("/" +:+ Join l "/") +:+ "/") = ("/" +:+ Join l "/") +:+ "/").
Proof.
  intros Hl.
  assert (Forall (fun x => has_byte x "/" = false) l) as Hns by (eapply Forall_impl; [exact Hl|by intros x []]).
  assert (forall s, HasPrefix ("/" +:+ s) "/" = true) as Hp by (intros s; apply prefix_app_true).
  assert (forall s, split_slash "" ("/" +:+ s) = "" :: split_slash "" s) as Hsp by done.
  assert (l <> [] -> ends_with_slash ("/" +:+ Join l "/") = false /\ "/" +:+ Join l "/" <> "/") as Hend.
  { intros Hne. destruct (Join_last l Hne Hl) as (s & x & -> & Hx & Hx').
    rewrite <- str_app_assoc. split; [by apply ends_with_slash_last|].
    rewrite str_app_assoc. intros [= H]. by destruct s, x. }
  unfold cleanPath. cbv zeta. split.
  - rewrite bool_decide_eq_false_2 by done. rewrite Hp, Hsp. cbn [clean_elements].
    destruct l as [|x l]; [reflexivity|]. rewrite split_join by done.
    rewrite (bool_decide_eq_true_2 ("" = "")) by done.
    cbn [orb]. rewrite clean_elements_id by done. cbn [rev app].
    destruct Hend as [-> _]; [done|]. done.
  - intros Hne. rewrite bool_decide_eq_false_2 by done. 
    assert (HasPrefix (("/" +:+ Join l "/") +:+ "/") "/" = true) as ->
      by (rewrite str_app_assoc; apply Hp).
    rewrite ends_with_slash_snoc, (str_app_assoc "/" _ "/"), Hsp. cbn [clean_elements].
    assert (split_slash "" (Join l "/" +:+ "/") = l ++ [""]) as ->.
    { clear -Hne Hns. induction Hns as [|x l Hx Hl IH]; [done|]. destruct l as [|y l].
      - cbn [Join app]. rewrite (split_slash_app "" x "") by done. done.
      - change (Join (x :: y :: l) "/") with (x +:+ String "/" (Join (y :: l) "/")).
        rewrite str_app_assoc, str_app_cons, split_slash_app, IH by done. done. }
    rewrite (bool_decide_eq_true_2 ("" = "")) by done. cbn [orb]. rewrite clean_elements_slash by done.
    cbn [rev app]. rewrite bool_decide_eq_false_2 by (by apply Hend). reflexivity.
Qed.

(** Cleaning twice is cleaning once: a redirect leads to a path that is not
    redirected. *)
Lemma cleanPath_idem p : cleanPath (cleanPath p) = cleanPath p.
Proof.
  unfold cleanPath at 2 3. case_bool_decide; [reflexivity|]. cbv zeta.
  set (l := clean_elements [] _).
  assert (Forall kept_element l) as Hl
    by (apply clean_elements_kept; [constructor|by apply split_slash_elements]).
  destruct (cleanPath_elements l Hl) as [H1 H2].
  destruct (_ && _) eqn:E; [|exact H1]. apply H2. intros ->.
  rewrite bool_decide_eq_true_2, andb_false_r in E by done. done.
Qed.

(** ** The answers *)

Definition known_segment {W K} (rt : Runtime W K) (s : option string) : Prop :=
  s = Some "healthz" \/ s = Some "readyz" \/ (s = Some "metrics" /\ Metrics (Server (cfg rt)) = true).

Lemma route_spec {W K} (rt : Runtime W K) rdb p :
  match route rt rdb p with
  | Some r =>
      (segment p = Some "healthz" /\ r = healthz) \/
      (segment p = Some "readyz" /\ r = readyz rt rdb) \/
      (segment p = Some "metrics" /\ Metrics (Server (cfg rt)) = true /\ r = Exposition)
  | None => ~ known_segment rt (segment p)
  end.
Proof.
  unfold route, known_segment. destruct (segment p) as [s|]; [|by intros [|[|[]]]].
  unfold mbind, option_bind, routes, has_registry. rewrite andb_diag.
  destruct (Metrics _); cbn [app List.find fst];
    repeat (case_bool_decide; subst; cbn [fmap option_fmap option_map snd]); auto;
    intros [|[|[]]]; congruence.
Qed.

(** C37 What the health server answers, by method and path. A success is the
    liveness route, or the readiness route of a runtime that serves and whose
    Redis answered, or the exposition when the configuration asks for it; a
    refused readiness is a 503 for one of these two reasons; any other method on
    a known route is a 405, and a redirect leads to a path answered for good. *)
Theorem serve_spec {W K} (rt : Runtime W K) rdb m p :
  match serve rt rdb (mkHttpRequest m p) with
  | Plain code _ _ =>
      is_get m = true /\
      ((segment p = Some "healthz" /\ code = 200) \/
       (segment p = Some "readyz" /\
        ((code = 200 /\ isServing rt = true /\ ping rdb = None) \/
         (code = 503 /\ (isServing rt = false \/ is_Some (ping rdb))))))
  | Exposition => is_get m = true /\ segment p = Some "metrics" /\ Metrics (Server (cfg rt)) = true
  | MovedPermanently p' =>
      m <> "CONNECT" /\ p' <> p /\
      forall p'', serve rt rdb (mkHttpRequest m p') <> MovedPermanently p''
  | MethodNotAllowed allow =>
      is_get m = false /\ allow = ["GET"; "HEAD"] /\ known_segment rt (segment p)
  | NotFound => ~ known_segment rt (segment p)
  end.
Proof.
  unfold serve. cbn [rq_method rq_path].
  set (p' := if bool_decide (m = "CONNECT") then p else cleanPath p).
  assert (m <> "CONNECT" -> cleanPath p' = p') as Hidem
    by (intros ?; subst p'; rewrite bool_decide_eq_false_2 by done; apply cleanPath_idem).
  destruct (decide (p' = p)) as [Heq|Hne].
  - rewrite Heq, bool_decide_eq_false_2 by (by intros H; apply H).
    pose proof (route_spec rt rdb p) as Hr. destruct (route rt rdb p) as [h|]; [|exact Hr].
    destruct (is_get m); [|split; [done|split; [done|]]; unfold known_segment;
      destruct Hr as [[Hs _]|[[Hs _]|(Hs & Hm & _)]]; auto].
    destruct Hr as [[Hs ->]|[[Hs ->]|(Hs & Hm & ->)]]; cbn; [by auto| |by auto].
    unfold readyz. destruct (isServing rt); cbn [negb]; [|cbn; by auto 8].
    destruct (ping rdb) eqn:E; cbn; eauto 10.
  - rewrite bool_decide_eq_true_2 by done.
    assert (m <> "CONNECT") as Hm
      by (intros ->; subst p'; rewrite bool_decide_eq_true_2 in Hne by done; done).
    split_and!; [done..|]. intros p''. rewrite (bool_decide_eq_false_2 (m = "CONNECT")), Hidem by done.
    rewrite bool_decide_eq_false_2 by (by intros H; apply H).
    pose proof (route_spec rt rdb p') as Hr. destruct (route rt rdb p') as [h|]; [|done].
    destruct (is_get m); [|done].
    destruct Hr as [[Hs ->]|[[Hs ->]|(Hs & _ & ->)]]; [done| |done].
    unfold readyz. destruct (isServing rt); [|done]. by destruct (ping rdb).
Qed.
