(* ===== verification/Shutdown.v ===== *)
(** * Shutting a runtime down, and running one (runtime.go)

    The goroutines of a shutdown are the interleavings of a step relation, which
    the sequential [Shutdown] is shown to summarise; [Run] composes a start and a
    shutdown. What mkq, Redis and the listener answer is given by oracles. *)

From S2P Require Import Prelude GoErrors GoStrings Logging Config Executor Register Runtime.
From S2P Require Import Server.

(** ** Shutdown *)

(** server.go, [healthServer.Close]: [shutdown] is what http.Server.Shutdown
    answers within the context, [close] what http.Server.Close does. *)
Definition healthServer_Close (shutdown close : option error) : option error :=
  if errors_Is_opt shutdown ErrDeadlineExceeded then close else shutdown.

(** Where the goroutine of one worker is. *)
Inductive wphase : Type :=
| Draining                       (* in Worker.Drain *)
| Unwinding                      (* budget expired: in Worker.Stop *)
| Returned (err : option error).

(** Where [Shutdown] is. *)
Inductive sd_pc : Set := AtServer | AtWorkers | AtClient | AtRedis | Finished.

#[global] Instance sd_pc_eq_dec : EqDecision sd_pc.
Proof. solve_decision. Defined.

(** What it does to the outside, with the answer. *)
Inductive sd_event : Type :=
| SdServer (err : option error)
| SdDrain (i : nat) (err : option error)
| SdStop (i : nat) (err : option error)
| SdClient (err : option error)
| SdRedis (err : option error).

Record sd_state := mkSd {
  sd_at : sd_pc;
  sd_workers : list wphase;
  sd_errs : list error;
  sd_trace : list sd_event;
}.

(** The outside of one shutdown: whether there is a listener, what each worker's
    [Drain] and [Stop] answer, and the three closings. *)
Record sd_world := mkSdWorld {
  has_srv : bool;
  srv_answer : option error;
  n_workers : nat;
  drain_answer : nat -> option error;
  stop_answer : nat -> option error;
  client_answer : option error;
  redis_answer : option error;
}.

Definition collect (errs : list error) (f : error -> error) (e : option error) : list error :=
  match e with Some e => errs ++ [f e] | None => errs end.

Definition server_error (e : error) : error := Errorf "health server: %w" [OWrap e].
Definition client_error (e : error) : error := Errorf "close mkq client: %w" [OWrap e].
Definition redis_error (e : error) : error := Errorf "close redis client: %w" [OWrap e].

(** The results of the workers, once all have returned. *)
Definition returned (p : wphase) : option (option error) :=
  match p with Returned e => Some e | _ => None end.

Section shutdown.
Context (o : sd_world).

Definition sd_init : sd_state :=
  mkSd AtServer (replicate (n_workers o) Draining) [] [].

(** One step of [Shutdown]. While the main goroutine waits, the goroutines of
    the workers move in any order. *)
Inductive sd_step : sd_state -> sd_state -> Prop :=
| step_server ws errs tr :
    has_srv o = true ->
    sd_step (mkSd AtServer ws errs tr)
      (mkSd AtWorkers ws (collect errs server_error (srv_answer o))
         (tr ++ [SdServer (srv_answer o)]))
| step_no_server ws errs tr :
    has_srv o = false ->
    sd_step (mkSd AtServer ws errs tr) (mkSd AtWorkers ws errs tr)
| step_drained i ws errs tr :
    ws !! i = Some Draining -> drain_answer o i = None ->
    sd_step (mkSd AtWorkers ws errs tr)
      (mkSd AtWorkers (<[i := Returned None]> ws) errs (tr ++ [SdDrain i None]))
| step_expired i e ws errs tr :
    ws !! i = Some Draining -> drain_answer o i = Some e ->
    sd_step (mkSd AtWorkers ws errs tr)
      (mkSd AtWorkers (<[i := Unwinding]> ws) errs (tr ++ [SdDrain i (Some e)]))
| step_stopped i ws errs tr :
    ws !! i = Some Unwinding ->
    sd_step (mkSd AtWorkers ws errs tr)
      (mkSd AtWorkers (<[i := Returned (stop_answer o i)]> ws) errs
         (tr ++ [SdStop i (stop_answer o i)]))
| step_joined ws results errs tr :
    mapM returned ws = Some results ->
    sd_step (mkSd AtWorkers ws errs tr)
      (mkSd AtClient ws (collect errs (fun e => e) (errors_Join results)) tr)
| step_client ws errs tr :
    sd_step (mkSd AtClient ws errs tr)
      (mkSd AtRedis ws (collect errs client_error (client_answer o))
         (tr ++ [SdClient (client_answer o)]))
| step_redis ws errs tr :
    sd_step (mkSd AtRedis ws errs tr)
      (mkSd Finished ws (collect errs redis_error (redis_answer o))
         (tr ++ [SdRedis (redis_answer o)])).

(** [drainWorker], and what it does. *)
Definition drainWorker (i : nat) : option error * list sd_event :=
  match drain_answer o i with
  | None => (None, [SdDrain i None])
  | Some e => (stop_answer o i, [SdDrain i (Some e); SdStop i (stop_answer o i)])
  end.

(** [stopWorkers]: the errors by index, whatever the order of the
    goroutines. *)
Definition stopWorkers : option error :=
  match n_workers o with
  | O => None
  | _ => errors_Join (map (fun i => (drainWorker i).1) (seq 0 (n_workers o)))
  end.

(** The error [Shutdown] computes. *)
Definition shutdown_error : option error :=
  let errs := if has_srv o then collect [] server_error (srv_answer o) else [] in
  let errs := collect errs (fun e => e) stopWorkers in
  let errs := collect errs client_error (client_answer o) in
  let errs := collect errs redis_error (redis_answer o) in
  errors_Join (map Some errs).
End shutdown.

(** The answers one shutdown gets. *)
Record sd_answers := mkSdAnswers {
  a_srv_shutdown : option error;
  a_srv_close : option error;
  a_drain : nat -> option error;
  a_stop : nat -> option error;
  a_client : option error;
  a_redis : option error;
}.

Definition world_of {W K} (rt : Runtime W K) (a : sd_answers) : sd_world :=
  mkSdWorld (bool_decide (srv rt <> None)) (healthServer_Close (a_srv_shutdown a) (a_srv_close a))
    (length (workers rt)) (a_drain a) (a_stop a)
    (a_client a) (a_redis a).

(** What [drainWorker] logs of the workers whose budget ran out. The goroutines
    may write these records in any order; they are listed by worker. *)
Definition drain_warnings {W K} (rt : Runtime W K) (a : sd_answers) : list log_record :=
  concat (imap (fun i p =>
    match a_drain a i with
    | None => []
    | Some e =>
        [LogRec LevelWarn "drain budget expired; cancelling in-flight handlers"
           [("queue", AStr p.1); ("error", AErr e); ("unwind_grace", ADur (unwindGrace rt))]]
    end) (workers rt)).

(** [Shutdown]: the body runs once, later calls return what it returned. The
    workers are taken ([takeWorkers]) before they are drained. *)
Definition Shutdown {W K} (rt : Runtime W K) (a : sd_answers) : option error * Runtime W K :=
  match stopErr rt with
  | Some err => (err, rt)
  | None =>
      let err := shutdown_error (world_of rt a) in
      let rt := fold_left with_log (drain_warnings rt a) rt in
      let rt := with_stopped (takeWorkers rt).2 err in
      (err, match err with
            | None => with_log rt (LogRec LevelInfo "mkqd stopped" [])
            | Some _ => rt
            end)
  end.

(** ** Running *)

(** [Run]: start, wait for the context or a signal, shut down within the
    configured timeout. [a] is what the outside answers to a shutdown that is
    given that long. A start that fails is returned as it is. *)
Definition Run {W K} mkq_Process mkq_Stop net_Listen schedule factories
  (rt : Runtime W K) (tr : list (event K)) (w : W) (a : Z -> sd_answers)
  : option error * Runtime W K * list (event K) * W :=
  match Start mkq_Process mkq_Stop net_Listen schedule factories rt tr w with
  | (Some err, rt, tr, w) => (Some err, rt, tr, w)
  | (None, rt, tr, w) =>
      let rt := with_log rt
        (LogRec LevelInfo "mkqd started"
           [("version", AStr Version); ("queues", AStrs (sortedQueueNames (registeredQueues rt)))]) in
      let timeout := ShutdownTimeout (cfg rt) in
      let rt := with_log rt
        (LogRec LevelInfo "shutting down; in-flight handlers are allowed to finish"
           [("timeout", ADur timeout)]) in
      let '(err, rt) := Shutdown rt (a timeout) in
      (err, rt, tr, w)
  end.

(** ** Lemmas: shutdown *)

Definition is_close (e : sd_event) : bool :=
  match e with SdClient _ | SdRedis _ => true | _ => false end.

Section shutdown_lemmas.
Context (o : sd_world).

Definition reachable (st : sd_state) : Prop := rtc (sd_step o) (sd_init o) st.

(** Worker [i] has been seen to the end: it drained, or it was cancelled and
    its unwinding awaited. *)
Definition finished_in (tr : list sd_event) (i : nat) : Prop :=
  SdDrain i None ∈ tr \/
  exists e, SdDrain i (Some e) ∈ tr /\ SdStop i (stop_answer o i) ∈ tr.

(** What the trace holds of a worker in each phase. *)
Definition phase_ok (tr : list sd_event) (i : nat) (p : wphase) : Prop :=
  match p with
  | Draining => True
  | Unwinding => exists e, drain_answer o i = Some e /\ SdDrain i (Some e) ∈ tr
  | Returned e => e = (drainWorker o i).1 /\ finished_in tr i
  end.

Definition all_returned (ws : list wphase) : Prop :=
  Forall (fun p => exists e, p = Returned e) ws.

(** Every close comes after all the workers, and only closes come after. *)
Definition close_last (tr : list sd_event) : Prop :=
  forall tr1 e tr2, tr = tr1 ++ e :: tr2 -> is_close e = true ->
    (forall i, (i < n_workers o)%nat -> finished_in tr1 i) /\
    Forall (fun e => is_close e = true) tr2.

Definition server_errs : list error :=
  if has_srv o then collect [] server_error (srv_answer o) else [].

Record sd_inv (st : sd_state) : Prop := {
  inv_length : length (sd_workers st) = n_workers o;
  inv_phase : forall i p, sd_workers st !! i = Some p -> phase_ok (sd_trace st) i p;
  inv_open : sd_at st = AtServer \/ sd_at st = AtWorkers ->
             Forall (fun e => is_close e = false) (sd_trace st);
  inv_joined : sd_at st <> AtServer -> sd_at st <> AtWorkers -> all_returned (sd_workers st);
  inv_close : close_last (sd_trace st);
  inv_errs : sd_errs st =
    match sd_at st with
    | AtServer => []
    | AtWorkers => server_errs
    | AtClient => collect server_errs (fun e => e) (stopWorkers o)
    | AtRedis =>
        collect (collect server_errs (fun e => e) (stopWorkers o)) client_error (client_answer o)
    | Finished =>
        collect (collect (collect server_errs (fun e => e) (stopWorkers o)) client_error
                   (client_answer o)) redis_error (redis_answer o)
    end;
}.

Lemma finished_app tr t i : finished_in tr i -> finished_in (tr ++ t) i.
Proof. unfold finished_in. intros [H|(e & H1 & H2)]; [left|right; exists e]; set_solver. Qed.

Lemma phase_app tr t i p : phase_ok tr i p -> phase_ok (tr ++ t) i p.
Proof.
  destruct p as [| |e]; cbn; [done| |].
  - intros (e & ? & ?). exists e. set_solver.
  - intros [? ?]. split; [done|]. by apply finished_app.
Qed.

Lemma close_last_snoc tr e :
  close_last tr ->
  (if is_close e then forall i, (i < n_workers o)%nat -> finished_in tr i
   else Forall (fun e => is_close e = false) tr) ->
  close_last (tr ++ [e]).
Proof.
  intros Hc He tr1 e' tr2 Heq Hcl.
  destruct tr2 as [|x tr2 _] using rev_ind.
  - apply app_inj_tail in Heq as [<- <-]. rewrite Hcl in He. split; [done|constructor].
  - rewrite app_comm_cons, app_assoc in Heq. apply app_inj_tail in Heq as [-> <-].
    destruct (Hc tr1 e' tr2 eq_refl Hcl) as [H1 H2]. split; [done|].
    apply Forall_app. split; [done|]. constructor; [|constructor].
    destruct (is_close e); [done|]. exfalso.
    apply Forall_app in He as [_ He]. inversion He; congruence.
Qed.

Lemma open_snoc tr e :
  is_close e = false -> Forall (fun e => is_close e = false) tr ->
  Forall (fun e => is_close e = false) (tr ++ [e]).
Proof. intros He Ht. apply Forall_app. by split; [|constructor]. Qed.

Lemma mapM_returned ws results :
  mapM returned ws = Some results <-> ws = map Returned results.
Proof.
  rewrite mapM_Some. split.
  - induction 1 as [|p r ws results Hp _ IH]; [done|]. cbn. rewrite IH.
    f_equal. destruct p; cbn in Hp; congruence.
  - intros ->. induction results; constructor; done.
Qed.

(** What the workers returned, by index. *)
Lemma results_by_index tr ws results :
  length ws = n_workers o -> ws = map Returned results ->
  (forall i p, ws !! i = Some p -> phase_ok tr i p) ->
  results = map (fun i => (drainWorker o i).1) (seq 0 (n_workers o)).
Proof.
  intros Hl -> Hp. rewrite length_map in Hl. apply list_eq. intros i.
  destruct (decide (i < n_workers o)%nat) as [Hi|Hi].
  - rewrite (list_lookup_fmap _ (seq 0 (n_workers o)) i), lookup_seq_lt by done.
    destruct (lookup_lt_is_Some_2 results i) as [r Hr]; [lia|]. rewrite Hr. cbn.
    assert (map Returned results !! i = Some (Returned r)) as Hi'
      by (change (map Returned results) with (Returned <$> results);
          by rewrite (list_lookup_fmap Returned results i), Hr).
    by destruct (Hp i (Returned r) Hi') as [-> _].
  - rewrite !lookup_ge_None_2; [done|rewrite length_map, length_seq; lia|lia].
Qed.

Lemma join_results results :
  results = map (fun i => (drainWorker o i).1) (seq 0 (n_workers o)) ->
  errors_Join results = stopWorkers o.
Proof. intros ->. unfold stopWorkers. by destruct (n_workers o). Qed.

Lemma insert_phase (ws : list wphase) tr i p e :
  (forall i p, ws !! i = Some p -> phase_ok tr i p) ->
  phase_ok (tr ++ [e]) i p ->
  forall j q, <[i := p]> ws !! j = Some q -> phase_ok (tr ++ [e]) j q.
Proof.
  intros Hws Hp j q [(-> & <- & _)|[_ Hj]]%list_lookup_insert_Some; [done|].
  by apply phase_app, Hws.
Qed.

Lemma all_finished (ws : list wphase) tr :
  length ws = n_workers o -> (forall i p, ws !! i = Some p -> phase_ok tr i p) ->
  all_returned ws -> forall i, (i < n_workers o)%nat -> finished_in tr i.
Proof.
  intros Hl Hp Hr i Hi. destruct (lookup_lt_is_Some_2 ws i) as [p Hpi]; [lia|].
  destruct (Forall_lookup_1 _ _ _ _ Hr Hpi) as [e ->]. by destruct (Hp _ _ Hpi).
Qed.

Lemma sd_inv_step st st' : sd_inv st -> sd_step o st st' -> sd_inv st'.
Proof.
  intros [Hl Hp Ho Hj Hc He] Hstep.
  destruct Hstep; cbn [sd_at sd_workers sd_errs sd_trace] in *.
  - split; cbn; [done| | |done| |].
    + intros i p Hi. by apply phase_app, Hp.
    + intros _. apply open_snoc; [done|]. apply Ho. by left.
    + apply close_last_snoc; [done|]. cbn. apply Ho. by left.
    + subst errs. unfold server_errs. by rewrite H.
  - split; cbn; [done|done| |done|done|].
    + intros _. apply Ho. by left.
    + subst errs. unfold server_errs. by rewrite H.
  - split; cbn; [by rewrite length_insert| | |done| |done].
    + apply insert_phase; [done|]. cbn. unfold drainWorker. rewrite H0. split; [done|].
      left. set_solver.
    + intros _. apply open_snoc; [done|]. apply Ho. by right.
    + apply close_last_snoc; [done|]. cbn. apply Ho. by right.
  - split; cbn; [by rewrite length_insert| | |done| |done].
    + apply insert_phase; [done|]. cbn. exists e. set_solver.
    + intros _. apply open_snoc; [done|]. apply Ho. by right.
    + apply close_last_snoc; [done|]. cbn. apply Ho. by right.
  - destruct (Hp i Unwinding H) as (e & Hd & Hin).
    split; cbn; [by rewrite length_insert| | |done| |done].
    + apply insert_phase; [done|]. cbn. unfold drainWorker. rewrite Hd. split; [done|].
      right. exists e. set_solver.
    + intros _. apply open_snoc; [done|]. apply Ho. by right.
    + apply close_last_snoc; [done|]. cbn. apply Ho. by right.
  - apply mapM_returned in H. split; cbn; [done|done|by intros [|]| |done|].
    + intros _ _. rewrite H. apply Forall_forall. intros p (e & -> & _)%list_elem_of_fmap. by exists e.
    + rewrite (join_results results (results_by_index tr ws results Hl H Hp)). by subst errs.
  - split; cbn; [done| |by intros [|]| | |by subst errs].
    + intros i p Hi. by apply phase_app, Hp.
    + intros _ _. by apply Hj.
    + apply close_last_snoc; [done|]. cbn. apply (all_finished ws); [done|done|by apply Hj].
  - split; cbn; [done| |by intros [|]| | |by subst errs].
    + intros i p Hi. by apply phase_app, Hp.
    + intros _ _. by apply Hj.
    + apply close_last_snoc; [done|]. cbn. apply (all_finished ws); [done|done|by apply Hj].
Qed.

Lemma sd_inv_init : sd_inv (sd_init o).
Proof.
  split; cbn; [apply length_replicate| |constructor|by intros []| |done].
  - by intros i p [-> _]%lookup_replicate.
  - intros tr1 e tr2 H. by destruct tr1.
Qed.

Lemma sd_inv_reachable st : reachable st -> sd_inv st.
Proof.
  unfold reachable. intros H.
  assert (forall a b, rtc (sd_step o) a b -> sd_inv a -> sd_inv b) as Hind.
  { induction 1 as [|x y z Hxy _ IH]; [done|]. intros Hx. by eapply IH, sd_inv_step. }
  eapply Hind; [exact H|apply sd_inv_init].
Qed.

(** ** Progress: the steps that are left *)

Definition phase_weight (p : wphase) : nat :=
  match p with Draining => 2 | Unwinding => 1 | Returned _ => 0 end.
Definition pc_weight (pc : sd_pc) : nat :=
  match pc with AtServer => 4 | AtWorkers => 3 | AtClient => 2 | AtRedis => 1 | Finished => 0 end.
Definition weight (st : sd_state) : nat :=
  (pc_weight (sd_at st) + sum_list_with phase_weight (sd_workers st))%nat.

Lemma weight_insert (ws : list wphase) i p q :
  ws !! i = Some p -> (phase_weight q < phase_weight p)%nat ->
  (sum_list_with phase_weight (<[i := q]> ws) < sum_list_with phase_weight ws)%nat.
Proof.
  revert i. induction ws as [|x ws IH]; intros [|i] H Hq; try done.
  - injection H as ->. cbn in Hq |- *. lia.
  - specialize (IH i H Hq).
    change (phase_weight x + sum_list_with phase_weight (<[i := q]> ws)
            < phase_weight x + sum_list_with phase_weight ws)%nat. lia.
Qed.

Lemma step_weight st st' : sd_step o st st' -> (weight st' < weight st)%nat.
Proof.
  destruct 1; unfold weight; cbn [sd_at sd_workers pc_weight]; try lia;
    match goal with
    | H : ?ws !! ?i = Some ?p |- context [<[?i := ?q]> ?ws] =>
        pose proof (weight_insert ws i p q H ltac:(cbn; lia)); lia
    end.
Qed.

(** A worker that has not returned can move; when all have, the wait ends. *)
Lemma workers_progress (ws : list wphase) errs tr :
  exists st', sd_step o (mkSd AtWorkers ws errs tr) st'.
Proof.
  destruct (mapM returned ws) as [results|] eqn:E; [by eexists; eapply step_joined|].
  assert (exists i p, ws !! i = Some p /\ returned p = None) as (i & p & Hi & Hp).
  { clear -E. induction ws as [|p ws IH]; [done|].
    destruct (returned p) eqn:Hp; [|by exists 0%nat, p].
    cbn in E. rewrite Hp in E. cbn in E.
    destruct (mapM returned ws) eqn:E'; [done|]. destruct IH as (i & q & ? & ?); [done|].
    by exists (S i), q. }
  destruct p as [| |e]; [| |done].
  - destruct (drain_answer o i) eqn:Hd; eexists; [by eapply step_expired|by eapply step_drained].
  - eexists. by eapply step_stopped.
Qed.

Lemma sd_progress st : sd_at st <> Finished -> exists st', sd_step o st st'.
Proof.
  destruct st as [[] ws errs tr]; cbn; intros H; try done.
  - destruct (has_srv o) eqn:E; eexists; [by eapply step_server|by eapply step_no_server].
  - apply workers_progress.
  - eexists. apply step_client.
  - eexists. apply step_redis.
Qed.

Lemma nsteps_weight k st st' : nsteps (sd_step o) k st st' -> (k + weight st' <= weight st)%nat.
Proof.
  induction 1 as [|k x y z Hxy _ IH]; [done|]. apply step_weight in Hxy. lia.
Qed.

Lemma init_weight : weight (sd_init o) = (4 + 2 * n_workers o)%nat.
Proof.
  unfold weight. cbn. do 4 f_equal. induction (n_workers o) as [|n IH]; [done|]. cbn. lia.
Qed.
End shutdown_lemmas.

(** ** Properties of a shutdown *)

(** C4 Redis outlives the workers: in every interleaving of a shutdown, when the
    mkq client or the Redis client is closed, every worker has drained, or was
    cancelled after its budget ran out and its unwinding awaited, and nothing
    but the closing of the clients happens from then on. *)
Theorem shutdown_closes_last o st :
  reachable o st -> close_last o (sd_trace st).
Proof. intros H. by apply sd_inv_reachable in H as [_ _ _ _ ? _]. Qed.

Definition sample_world : sd_world :=
  mkSdWorld true None 2
    (fun i => if Nat.eqb i 0 then Some (Sentinel ErrDeadlineExceeded) else None)
    (fun _ => None) None None.

(** One interleaving: the second worker drains while the first unwinds. *)
Definition sample_trace : list sd_event :=
  [SdServer None; SdDrain 0 (Some (Sentinel ErrDeadlineExceeded)); SdDrain 1 None; SdStop 0 None;
   SdClient None; SdRedis None].

Lemma sample_run :
  reachable sample_world (mkSd Finished [Returned None; Returned None] [] sample_trace).
Proof.
  unfold reachable, sd_init.
  eapply rtc_l; [by apply step_server|].
  eapply rtc_l; [by eapply (step_expired _ 0)|].
  eapply rtc_l; [by eapply (step_drained _ 1)|].
  eapply rtc_l; [by eapply (step_stopped _ 0)|].
  eapply rtc_l; [by eapply (step_joined _ _ [None; None])|].
  eapply rtc_l; [by apply step_client|].
  eapply rtc_l; [by apply step_redis|].
  apply rtc_refl.
Qed.

Lemma shutdown_closes_last_witness : close_last sample_world sample_trace.
Proof. exact (shutdown_closes_last sample_world _ sample_run). Defined.

(** C17 The interleavings refine the sequential [Shutdown]: whenever a run of the
    goroutines finishes, the errors it collected join to the error [Shutdown]
    returns, which lists the workers' errors by position, not by the order in
    which they came. *)
Theorem shutdown_refines {W K} (rt : Runtime W K) a st :
  stopErr rt = None -> reachable (world_of rt a) st -> sd_at st = Finished ->
  errors_Join (map Some (sd_errs st)) = (Shutdown rt a).1.
Proof.
  intros Hs H Hf. apply sd_inv_reachable in H as [_ _ _ _ _ He]. rewrite Hf in He. rewrite He.
  unfold Shutdown. by rewrite Hs.
Qed.

(** A finished shutdown has seen every worker to the end. *)
Lemma finished_all o st i :
  reachable o st -> sd_at st = Finished -> (i < n_workers o)%nat -> finished_in o (sd_trace st) i.
Proof.
  intros H Hf. apply sd_inv_reachable in H as [Hl Hp _ Hj _ _].
  apply (all_finished o (sd_workers st)); [done|done|]. apply Hj; congruence.
Qed.

Lemma logs_kept {W K} l (rt : Runtime W K) :
  let rt' := fold_left with_log l rt in
  cfg rt' = cfg rt /\ registry rt' = registry rt /\ order rt' = order rt /\
  started rt' = started rt /\ srv rt' = srv rt.
Proof. revert rt. induction l as [|r l IH]; intros rt; [done|]. exact (IH (with_log rt r)). Qed.

Lemma Shutdown_keeps {W K} (rt : Runtime W K) a :
  let rt' := (Shutdown rt a).2 in
  cfg rt' = cfg rt /\ registry rt' = registry rt /\ order rt' = order rt /\
  started rt' = started rt /\ srv rt' = srv rt.
Proof.
  unfold Shutdown. destruct (stopErr rt); [done|].
  pose proof (logs_kept (drain_warnings rt a) rt) as H. by destruct (shutdown_error _).
Qed.

Lemma Shutdown_first {W K} (rt : Runtime W K) a :
  stopErr rt = None ->
  let '(err, rt') := Shutdown rt a in
  err = shutdown_error (world_of rt a) /\ workers rt' = [] /\ isServing rt' = false /\
  stopErr rt' = Some err.
Proof.
  intros Hs. unfold Shutdown. rewrite Hs. unfold isServing.
  destruct (shutdown_error (world_of rt a)); cbn; by rewrite andb_false_r.
Qed.

Definition sample_running : Runtime unit nat :=
  mkRuntime sample_config [] ∅ [] [("a", 0%nat); ("b", 1%nat)] true false
    (Some "127.0.0.1:9464") (5 * Second) None.
Definition all_well : sd_answers :=
  mkSdAnswers None None (fun i => if Nat.eqb i 0 then Some (Sentinel ErrDeadlineExceeded) else None)
    (fun _ => None) None None.

Lemma shutdown_refines_witness : (Shutdown sample_running all_well).1 = None.
Proof.
  rewrite <- (shutdown_refines sample_running all_well _ eq_refl sample_run eq_refl). reflexivity.
Defined.

(** Shutdown terminates, whatever mkq and Redis answer: no run of the
    goroutines has more than four steps and two per worker, and a run that is
    not finished can always go on. *)
Theorem shutdown_terminates o k st :
  nsteps (sd_step o) k (sd_init o) st ->
  (k <= 4 + 2 * n_workers o)%nat /\
  (sd_at st <> Finished -> exists st', sd_step o st st').
Proof.
  intros H. split; [|apply sd_progress].
  apply nsteps_weight in H. rewrite init_weight in H. lia.
Qed.

Lemma shutdown_terminates_witness :
  exists st', sd_step sample_world (sd_init sample_world) st'.
Proof.
  apply (shutdown_terminates sample_world 0 (sd_init sample_world)); [constructor|done].
Defined.

(** [Shutdown] is idempotent: the second call, whatever the outside would
    answer now, does nothing and returns the first call's error; after the first
    the runtime holds no workers, is not serving and answers 503 to /readyz. *)
Theorem Shutdown_idempotent {W K} (rt : Runtime W K) a a' :
  stopErr rt = None ->
  let '(err, rt') := Shutdown rt a in
  Shutdown rt' a' = (err, rt') /\ workers rt' = [] /\ isServing rt' = false /\
  forall rdb, status_of (readyz rt' rdb) = Some 503.
Proof.
  intros Hs. unfold Shutdown at 1. rewrite Hs.
  destruct (shutdown_error (world_of rt a)); cbn.
  all: split_and!; try done; unfold isServing; cbn; try by rewrite andb_false_r.
  all: intros rdb; unfold readyz, isServing; cbn; by rewrite andb_false_r.
Qed.

Lemma Shutdown_idempotent_witness :
  let rt' := (Shutdown sample_running all_well).2 in
  Shutdown rt' all_well = (None, rt') /\ workers rt' = [].
Proof.
  destruct (Shutdown_idempotent sample_running all_well all_well eq_refl) as (H1 & H2 & _).
  split; [exact H1|exact H2].
Defined.

(** C9 A run leaves nothing behind. Either the start failed and what it launched
    was stopped, or every registered queue got its worker and, in whatever
    order the goroutines of the shutdown ran, each of these workers drained or
    was stopped after its budget, and the errors met are the result. In both
    cases no worker is held at the end. *)
Theorem Run_lifecycle {W K} mkq_Process mkq_Stop net_Listen schedule factories
    (rt : Runtime W K) tr w a :
  (forall l, schedule l ≡ₚ l) -> valid_config (cfg rt) -> wf_runtime rt ->
  started rt = false -> workers rt = [] -> srv rt = None -> stopErr rt = None ->
  let '(err, rt', tr', _) := Run mkq_Process mkq_Stop net_Listen schedule factories rt tr w a in
  workers rt' = [] /\
  exists new, tr' = tr ++ new /\
    ((err <> None /\ stops new ≡ₚ launched new) \/
     exists rt1,
       (Start mkq_Process mkq_Stop net_Listen schedule factories rt tr w).1.1 = (None, rt1) /\
       map fst (workers rt1) = registeredQueues rt1 /\ map snd (workers rt1) = launched new /\
       isServing rt' = false /\
       let o := world_of rt1 (a (ShutdownTimeout (cfg rt))) in
       forall st, reachable o st -> sd_at st = Finished ->
         errors_Join (map Some (sd_errs st)) = err /\
         forall i k, launched new !! i = Some k -> finished_in o (sd_trace st) i).
Proof.
  intros Hsched Hv Hwf Hst Hws Hsrv Hse. unfold Run.
  pose proof (start_outcome mkq_Process mkq_Stop net_Listen schedule factories rt tr w
                Hsched Hv Hwf Hst Hws Hsrv) as H.
  destruct (Start _ _ _ _ _ rt tr w) as [[[err rt1] tr1] w1] eqn:Hstart. cbn [fst] in H.
  destruct H as (_ & new & -> & H). destruct err as [e|].
  { destruct H as (Hw & Hp & _). split; [done|]. exists new. split; [done|]. by left. }
  destruct H as (Hq & Hl & _).
  apply Start_keeps in Hstart as (Hc & _ & Hs);
    [|intros q Hq'; by apply (wf_listed rt Hwf)|apply valid_names, Hv].
  rewrite Hse in Hs. cbn [with_log cfg]. rewrite Hc.
  set (rt2 := with_log (with_log rt1 _) _). set (ans := a (ShutdownTimeout (cfg rt))).
  pose proof (Shutdown_first rt2 ans Hs) as HS. destruct (Shutdown rt2 ans) as [err rt3].
  destruct HS as (-> & Hw & Hserv & _). split; [done|]. exists new. split; [done|]. right.
  exists rt1. split_and!; [done..|]. cbv zeta. intros st Hr Hf. split.
  - apply sd_inv_reachable in Hr as [_ _ _ _ _ He]. rewrite Hf in He. by rewrite He.
  - intros i k Hi. apply finished_all; [done|done|]. cbn.
    apply lookup_lt_Some in Hi. rewrite Hl, length_map in Hi. exact Hi.
Qed.

(** Two queues, started and shut down; the first worker is cancelled. *)
Definition ready_process (tr : list (event nat)) (queue : string) (h : handler unit)
  (opts : list WorkerOption) : res nat := Ok (length tr).
Definition sample_lifecycle :=
  Run ready_process (fun _ _ => None) (fun _ a => Ok a) (@rev _) nop_factories
    two_queue_runtime [] tt (fun _ => all_well).

Lemma Run_lifecycle_witness :
  workers sample_lifecycle.1.1.2 = [] /\ sample_lifecycle.1.1.1 = None /\
  launched sample_lifecycle.1.2 = [0; 1]%nat /\ stops sample_lifecycle.1.2 = [].
Proof.
  pose proof (Run_lifecycle ready_process (fun _ _ => None) (fun _ a => Ok a) (@rev _)
                nop_factories two_queue_runtime [] tt (fun _ => all_well)) as H.
  split; [|split; [|split]; vm_compute; reflexivity].
  assert (valid_config (cfg two_queue_runtime)) as Hv
    by (apply Validate_valid; vm_compute; reflexivity).
  assert (forall l : list (string * nat), rev l ≡ₚ l) as Hrev
    by (intros l; symmetry; apply Permutation.Permutation_rev).
  specialize (H Hrev Hv two_queue_wf eq_refl eq_refl eq_refl eq_refl).
  revert H. unfold sample_lifecycle. clear.
  destruct (Run _ _ _ _ _ _ _ _) as [[[err rt'] tr'] w']. by intros [Hw _].
Defined.
