(* ===== verification/Startup.v ===== *)
(** * Concurrent starts and registrations (runtime.go, register.go)

    An embedding application may call Handle and Start from several goroutines.
    A registration is one section under the runtime's mutex; Start holds it for
    its guard only, and what follows - each configured queue, the names, each
    worker, the listener - interleaves with the other calls. The file proves
    that the guard is enough: every schedule is the registrations before it, one
    sequential start, and refusals. *)

From S2P Require Import Prelude GoErrors GoStrings Logging Config Executor Register Runtime Shutdown.

(** Where a call of [Start] is. *)
Inductive start_pc : Type :=
| AtGuard
| AtQueue (rest : list QueueConfig)      (* buildConfiguredQueues *)
| AtNames
| AtWorker (rest : list string)          (* the launching loop *)
| AtListen
| Ended (err : option error).

(** What the calls of an application do next. *)
Inductive call_event (W : Type) : Type :=
| CallRegister (r : registration W)
| CallStart
| MoveStart (i : nat).
Arguments CallRegister {W}.
Arguments CallStart {W}.
Arguments MoveStart {W}.

Section startup.
Context {W K : Type}.
Implicit Types rt : Runtime W K.
Context (mkq_Process : list (event K) -> string -> handler W -> list WorkerOption -> res K).
Context (mkq_Stop : list (event K) -> K -> option error).
Context (net_Listen : list (event K) -> string -> res string).
Context (schedule : list (string * K) -> list (string * K)).
Context (factories : gmap string (ExecutorFactory W)).

(** The runtime, what was asked of mkq and the network, and the outside. *)
Abbreviation shared := (Runtime W K * list (event K) * W)%type.

(** One step of [Start]. *)
Definition start_move (pc : start_pc) (s : shared) : start_pc * shared :=
  let '(rt, tr, w) := s in
  match pc with
  | AtGuard =>
      if started rt then (Ended (Some (New "mkqd: Start called twice")), s)
      else (AtQueue (Queues (cfg rt)), (with_started rt, tr, w))
  | AtQueue [] => (AtNames, s)
  | AtQueue (qc :: rest) =>
      match build_queue factories rt qc w with
      | (Some e, rt, w) => (Ended (Some e), (rt, tr, w))
      | (None, rt, w) => (AtQueue rest, (rt, tr, w))
      end
  | AtNames =>
      match registeredQueues rt with
      | [] =>
          (Ended (Some (New "mkqd: no queues registered; declare queues in the config or call Handle")),
           s)
      | names => (AtWorker names, (warnPoolSize rt names, tr, w))
      end
  | AtWorker [] => (AtListen, s)
  | AtWorker (name :: rest) =>
      match launch mkq_Process mkq_Stop schedule rt tr [name] with
      | (Some e, rt, tr) => (Ended (Some e), (rt, tr, w))
      | (None, rt, tr) => (AtWorker rest, (rt, tr, w))
      end
  | AtListen =>
      let '(err, rt, tr) := start_server mkq_Stop net_Listen schedule rt tr in
      (Ended err, (rt, tr, w))
  | Ended err => (Ended err, s)
  end.

(** The calls of [Start], and the registrations in the order they took the mutex,
    with what each returned. *)
Record app := mkApp {
  app_shared : shared;
  app_starts : list start_pc;
  app_registered : list (registration W * option error);
}.

Definition app_step (st : app) (e : call_event W) : app :=
  let '(rt, tr, w) := app_shared st in
  match e with
  | CallRegister r =>
      let '(err, rt) := register rt r in
      mkApp (rt, tr, w) (app_starts st) (app_registered st ++ [(r, err)])
  | CallStart => mkApp (app_shared st) (app_starts st ++ [AtGuard]) (app_registered st)
  | MoveStart i =>
      match app_starts st !! i with
      | None => st
      | Some pc =>
          let '(pc, s) := start_move pc (app_shared st) in
          mkApp s (<[i := pc]> (app_starts st)) (app_registered st)
      end
  end.

Definition app_run (st : app) (events : list (call_event W)) : app := fold_left app_step events st.

(** ** What is left of a start *)

Definition finish_workers (names : list string) (s : shared)
  : option error * Runtime W K * list (event K) * W :=
  let '(rt, tr, w) := s in
  match launch mkq_Process mkq_Stop schedule rt tr names with
  | (Some e, rt, tr) => (Some e, rt, tr, w)
  | (None, rt, tr) =>
      let '(err, rt, tr) := start_server mkq_Stop net_Listen schedule rt tr in (err, rt, tr, w)
  end.

Definition finish_names (s : shared) : option error * Runtime W K * list (event K) * W :=
  let '(rt, tr, w) := s in
  match registeredQueues rt with
  | [] =>
      (Some (New "mkqd: no queues registered; declare queues in the config or call Handle"), rt, tr, w)
  | names => finish_workers names (warnPoolSize rt names, tr, w)
  end.

(** Everything a start still does when nothing comes in between. *)
Definition finish (pc : start_pc) (s : shared) : option error * Runtime W K * list (event K) * W :=
  let '(rt, tr, w) := s in
  match pc with
  | AtGuard => Start mkq_Process mkq_Stop net_Listen schedule factories rt tr w
  | AtQueue rest =>
      match build_queues factories rest rt w with
      | (Some e, rt, w) => (Some e, rt, tr, w)
      | (None, rt, w) => finish_names (rt, tr, w)
      end
  | AtNames => finish_names s
  | AtWorker names => finish_workers names s
  | AtListen =>
      let '(err, rt, tr) := start_server mkq_Stop net_Listen schedule rt tr in (err, rt, tr, w)
  | Ended err => (err, rt, tr, w)
  end.

Lemma launch_cons rt tr name names :
  launch mkq_Process mkq_Stop schedule rt tr (name :: names) =
  match launch mkq_Process mkq_Stop schedule rt tr [name] with
  | (Some e, rt, tr) => (Some e, rt, tr)
  | (None, rt, tr) => launch mkq_Process mkq_Stop schedule rt tr names
  end.
Proof.
  cbn [launch]. destruct (registry rt !! name) as [r|]; [|done]. cbv zeta.
  destruct (mkq_Process _ _ _ _) as [k|e]; [done|].
  by destruct (abortWorkers mkq_Stop schedule rt tr).
Qed.

(** A move does not change what a start comes to. *)
Lemma finish_move pc s :
  let '(pc', s') := start_move pc s in finish pc' s' = finish pc s.
Proof.
  destruct s as [[rt tr] w]. destruct pc as [|[|qc rest]| |[|name rest]| |err]; cbn [start_move].
  - destruct (started rt) eqn:Hs; cbn [finish]; unfold Start; rewrite Hs; [done|].
    unfold buildConfiguredQueues. cbn [cfg with_started].
    destruct (build_queues factories _ _ w) as [[[e|] rt1] w1]; [done|].
    unfold finish_names. by destruct (registeredQueues rt1).
  - done.
  - cbn [finish build_queues]. by destruct (build_queue factories rt qc w) as [[[e|] rt1] w1].
  - cbn [finish]. unfold finish_names. by destruct (registeredQueues rt).
  - done.
  - cbn [finish]. unfold finish_workers. rewrite (launch_cons rt tr name rest).
    by destruct (launch _ _ _ rt tr [name]) as [[[e|] rt1] tr1].
  - cbn [finish]. by destruct (start_server _ _ _ rt tr) as [[err rt1] tr1].
  - done.
Qed.

(** ** One start at a time *)

Lemma launch_started rt tr names :
  started (launch mkq_Process mkq_Stop schedule rt tr names).1.2 = started rt.
Proof.
  revert rt tr. induction names as [|name names IH]; intros rt tr; cbn [launch]; [done|].
  destruct (registry rt !! name) as [r|]; [|done]. cbv zeta.
  destruct (mkq_Process _ _ _ _) as [k|e]; [by rewrite IH|].
  pose proof (abortWorkers_spec mkq_Stop schedule rt tr) as H.
  destruct (abortWorkers mkq_Stop schedule rt tr) as [rt' tr']. by destruct H as ((_ & _ & _ & H & _) & _).
Qed.

Lemma start_server_started rt tr :
  started (start_server mkq_Stop net_Listen schedule rt tr).1.2 = started rt.
Proof.
  unfold start_server. destruct (serverEnabled (cfg rt)); [|done].
  destruct (newHealthServer net_Listen rt tr) as [addr|e]; [done|].
  pose proof (abortWorkers_spec mkq_Stop schedule rt tr) as H.
  destruct (abortWorkers mkq_Stop schedule rt tr) as [rt' tr']. by destruct H as ((_ & _ & _ & H & _) & _).
Qed.

Lemma build_queue_started rt qc w :
  started (build_queue factories rt qc w).1.2 = started rt.
Proof.
  destruct (build_queue factories rt qc w) as [[err rt1] w1] eqn:E.
  by apply build_queue_keeps in E as [E _].
Qed.

(** Past its guard a start leaves [started] set. *)
Lemma move_started pc (s : shared) :
  started s.1.1 = true ->
  (start_move pc s).1 <> AtGuard /\ started (start_move pc s).2.1.1 = true.
Proof.
  destruct s as [[rt tr] w]. cbn [fst]. intros Hs.
  destruct pc as [|[|qc rest]| |[|name rest]| |err]; cbn [start_move].
  - by rewrite Hs.
  - done.
  - pose proof (build_queue_started rt qc w) as H.
    destruct (build_queue factories rt qc w) as [[[e|] rt1] w1]; cbn in *; by rewrite H.
  - destruct (registeredQueues rt); [done|]. split; [done|]. cbn.
    destruct (warnPoolSize_same rt (s :: l)) as [(_ & _ & _ & H & _) _]. by rewrite H.
  - done.
  - pose proof (launch_started rt tr [name]) as H.
    destruct (launch _ _ _ rt tr [name]) as [[[e|] rt1] tr1]; cbn in *; by rewrite H.
  - pose proof (start_server_started rt tr) as H.
    destruct (start_server _ _ _ rt tr) as [[err rt1] tr1]; cbn in *; by rewrite H.
  - done.
Qed.

(** Registrations one after the other, with what each returned. *)
Definition registrations (rs : list (registration W)) (rt : Runtime W K)
  : Runtime W K * list (registration W * option error) :=
  fold_left (fun '(rt, out) r => let '(err, rt) := register rt r in (rt, out ++ [(r, err)])) rs (rt, []).

Lemma registrations_snoc rs r rt :
  registrations (rs ++ [r]) rt =
  let '(rt1, out) := registrations rs rt in
  let '(err, rt2) := register rt1 r in (rt2, out ++ [(r, err)]).
Proof. unfold registrations. rewrite fold_left_app. by destruct (fold_left _ rs _). Qed.

Lemma register_keeps_started rt r : started (register rt r).2 = started rt.
Proof.
  unfold register. case_bool_decide; [done|]. destruct (started rt) eqn:E; [done|].
  by destruct (registry rt !! r_queue r).
Qed.

Definition late_error (r : registration W) : error :=
  if bool_decide (r_queue r = "") then New "mkqd: queue name must not be empty"
  else Errorf "mkqd: cannot register queue %q after Start" [OStr (r_queue r)].

Lemma register_late rt r : started rt = true -> register rt r = (Some (late_error r), rt).
Proof. intros Hs. unfold register, late_error. rewrite Hs. by case_bool_decide. Qed.

Definition refused : start_pc := Ended (Some (New "mkqd: Start called twice")).

(** Nobody passed the guard, or one call did and the others are or will be
    refused. *)
Definition before_start (rt0 : Runtime W K) (w0 : W) (rs : list (registration W)) (st : app) : Prop :=
  let '(rt1, results) := registrations rs rt0 in
  started rt1 = false /\ app_shared st = (rt1, [], w0) /\ app_registered st = results /\
  Forall (fun pc => pc = AtGuard) (app_starts st).

Definition after_start (rt0 : Runtime W K) (w0 : W) (rs : list (registration W)) (st : app) : Prop :=
  let '(rt1, results) := registrations rs rt0 in
  started rt1 = false /\ started (app_shared st).1.1 = true /\
  (exists late, app_registered st = results ++ late /\
                Forall (fun p => p.2 = Some (late_error p.1)) late) /\
  exists i pc, app_starts st !! i = Some pc /\ pc <> AtGuard /\
    finish pc (app_shared st) = Start mkq_Process mkq_Stop net_Listen schedule factories rt1 [] w0 /\
    forall j pc', j <> i -> app_starts st !! j = Some pc' -> pc' = AtGuard \/ pc' = refused.

Lemma before_start_step rt0 w0 rs st e :
  before_start rt0 w0 rs st ->
  (exists rs', before_start rt0 w0 rs' (app_step st e)) \/ after_start rt0 w0 rs (app_step st e).
Proof.
  unfold before_start, after_start. destruct (registrations rs rt0) as [rt1 results] eqn:Hr.
  destruct st as [s pcs regs]. cbn [app_shared app_starts app_registered].
  intros (Hs & -> & -> & HF). destruct e as [r| |i]; unfold app_step; cbn [app_shared app_starts app_registered].
  - left. exists (rs ++ [r]). rewrite registrations_snoc, Hr.
    pose proof (register_keeps_started rt1 r) as Hk. destruct (register rt1 r) as [err rt2].
    cbn in *. split_and!; [congruence|done..].
  - left. exists rs. rewrite Hr. split_and!; [done..|]. cbn. apply Forall_app.
    by repeat constructor.
  - destruct (pcs !! i) as [pc|] eqn:Hi; [|left; exists rs; by rewrite Hr].
    pose proof (Forall_lookup_1 _ _ _ _ HF Hi) as ->. right.
    pose proof (finish_move AtGuard (rt1, [], w0)) as Hf. revert Hf. cbn [start_move]. rewrite Hs.
    intros Hf. cbn [app_shared app_starts app_registered fst snd]. split_and!; [done|done| |].
    + exists []. by rewrite app_nil_r.
    + exists i, (AtQueue (Queues (cfg rt1))). split_and!; [|done|exact Hf|].
      * rewrite list_lookup_insert_eq; [done|]. by eapply lookup_lt_Some.
      * intros j pc' Hne. rewrite list_lookup_insert_ne by done. intros Hj.
        left. exact (Forall_lookup_1 _ _ _ _ HF Hj).
Qed.

Lemma after_start_step rt0 w0 rs st e :
  after_start rt0 w0 rs st -> after_start rt0 w0 rs (app_step st e).
Proof.
  unfold after_start. destruct (registrations rs rt0) as [rt1 results].
  destruct st as [[[rt tr] w] pcs regs]. cbn [app_shared app_starts app_registered fst snd].
  intros (Hs & Hst & (late & -> & HF) & i & pc & Hi & Hpc & Hf & Ho).
  destruct e as [r| |k]; unfold app_step; cbn [app_shared app_starts app_registered].
  - rewrite register_late by done. cbn. split_and!; [done|done| |by exists i, pc].
    exists (late ++ [(r, Some (late_error r))]). split; [by rewrite app_assoc|].
    apply Forall_app. split; [done|]. by repeat constructor.
  - cbn. split_and!; [done|done|by exists late|]. exists i, pc. split_and!; [by apply lookup_app_l_Some|done|done|].
    intros j pc' Hne [Hj|[_ Hj]]%lookup_app_Some; [by eapply Ho|].
    left. by apply list_lookup_singleton_Some in Hj as [_ <-].
  - destruct (pcs !! k) as [pck|] eqn:Hk;
      [|cbn; split_and!; [done|done|by exists late|by exists i, pc]].
    pose proof (move_started pck (rt, tr, w) Hst) as [Hm1 Hm2].
    pose proof (finish_move pck (rt, tr, w)) as Hfm.
    destruct (decide (k = i)) as [->|Hne].
    + rewrite Hi in Hk. injection Hk as <-. destruct (start_move pc (rt, tr, w)) as [pc' s'].
      cbn in *. split_and!; [done|done|by exists late|]. exists i, pc'. split_and!; [|done|congruence|].
      * rewrite list_lookup_insert_eq; [done|]. by eapply lookup_lt_Some.
      * intros j q Hj. rewrite list_lookup_insert_ne by done. by apply Ho.
    + assert (start_move pck (rt, tr, w) = (refused, (rt, tr, w))) as ->.
      { destruct (Ho k pck Hne Hk) as [->| ->]; [|done]. cbn in *. by rewrite Hst. }
      cbn. split_and!; [done|done|by exists late|]. exists i, pc. split_and!; [|done|done|].
      * by rewrite list_lookup_insert_ne.
      * intros j q Hj. destruct (decide (j = k)) as [->|Hjk].
        -- rewrite list_lookup_insert_eq by by eapply lookup_lt_Some. intros [= <-]. by right.
        -- rewrite list_lookup_insert_ne by done. by apply Ho.
Qed.

Lemma app_run_cases rt0 w0 events st rs :
  before_start rt0 w0 rs st \/ after_start rt0 w0 rs st ->
  exists rs', before_start rt0 w0 rs' (app_run st events) \/ after_start rt0 w0 rs' (app_run st events).
Proof.
  revert st rs. induction events as [|e events IH]; intros st rs H; [by exists rs|]. cbn.
  destruct H as [H|H].
  - destruct (before_start_step _ _ _ _ e H) as [[rs' H']|H']; (eapply IH; eauto).
  - eapply IH. right. by apply after_start_step.
Qed.
End startup.

(** ** Properties *)

(** C13 Registrations and starts from several goroutines: in every schedule at
    most one call of Start passes its guard, every other one is refused or has
    not looked yet; the registrations that took the mutex before it returned
    what they return one after the other, the later ones are refused; and when
    the winner returns, the runtime, its workers and what was asked of mkq are
    those of one undisturbed Start after those registrations. *)
Theorem concurrent_start_linear {W K} mkq_Process mkq_Stop net_Listen schedule factories
    (rt0 : Runtime W K) w0 events :
  started rt0 = false ->
  let st := app_run mkq_Process mkq_Stop net_Listen schedule factories
              (mkApp (rt0, [], w0) [] []) events in
  exists rs rt1 results late,
    registrations rs rt0 = (rt1, results) /\ started rt1 = false /\
    app_registered st = results ++ late /\
    Forall (fun p => p.2 = Some (late_error p.1)) late /\
    ((late = [] /\ app_shared st = (rt1, [], w0) /\ Forall (fun pc => pc = AtGuard) (app_starts st)) \/
     exists i pc, app_starts st !! i = Some pc /\ pc <> AtGuard /\
       (forall j pc', j <> i -> app_starts st !! j = Some pc' -> pc' = AtGuard \/ pc' = refused) /\
       forall err rt tr w, pc = Ended err -> app_shared st = (rt, tr, w) ->
         Start mkq_Process mkq_Stop net_Listen schedule factories rt1 [] w0 = (err, rt, tr, w)).
Proof.
  intros Hs. cbv zeta.
  destruct (app_run_cases mkq_Process mkq_Stop net_Listen schedule factories rt0 w0 events
              (mkApp (rt0, [], w0) [] []) []) as [rs H]; [left; by split_and!|].
  unfold before_start, after_start in H. exists rs.
  destruct (registrations rs rt0) as [rt1 results]. exists rt1, results.
  destruct H as [(H1 & H2 & H3 & H4)|(H1 & _ & (late & H2 & H3) & i & pc & Hi & Hpc & Hf & Ho)].
  - exists []. rewrite app_nil_r. split_and!; [done..|constructor|]. left. by split_and!.
  - exists late. split_and!; [done..|]. right. exists i, pc. split_and!; [done..|].
    intros err rt tr w -> Hsh. rewrite <- Hf, Hsh. done.
Qed.

(** ** Witnesses *)

Definition bare_runtime : Runtime unit nat :=
  mkRuntime (mkConfig (Redis sample_config) "bull" (Log sample_config) (mkServerConfig "off" false)
               (ShutdownTimeout sample_config) (Defaults sample_config) [])
    [] ∅ [] [] false false None (5 * Second) None.
Definition code_queue (q : string) : registration unit :=
  mkRegistration q no_tuning nop_handler true.

Definition sample_app (events : list (call_event unit)) (st : app (W := unit) (K := nat)) :=
  app_run (fun tr _ _ _ => Ok (length tr)) (fun _ _ => None) (fun _ a => Ok a) (fun l => l) ∅ st events.

(** Two registrations, two starts and a registration that comes in between the
    steps of the first one. *)
Definition busy_app : app (W := unit) (K := nat) :=
  sample_app
    [CallRegister (code_queue "a"); CallStart; CallStart; CallRegister (code_queue "b"); MoveStart 1;
     MoveStart 1; CallRegister (code_queue "c"); MoveStart 0; MoveStart 1; MoveStart 1; MoveStart 1;
     MoveStart 1; MoveStart 1] (mkApp (bare_runtime, [], tt) [] []).

Lemma concurrent_start_linear_witness :
  app_starts busy_app = [refused; Ended None] /\
  exists rs rt1 results late, registrations rs bare_runtime = (rt1, results) /\
    app_registered busy_app = results ++ late /\
    Forall (fun p => p.2 = Some (late_error p.1)) late /\
    map fst (workers (app_shared busy_app).1.1) = ["a"; "b"].
Proof.
  split; [vm_compute; reflexivity|].
  destruct (concurrent_start_linear (fun tr _ _ _ => Ok (length tr)) (fun _ _ => None) (fun _ a => Ok a)
              (fun l => l) ∅ bare_runtime tt
              [CallRegister (code_queue "a"); CallStart; CallStart; CallRegister (code_queue "b");
               MoveStart 1; MoveStart 1; CallRegister (code_queue "c"); MoveStart 0; MoveStart 1;
               MoveStart 1; MoveStart 1; MoveStart 1; MoveStart 1] eq_refl)
    as (rs & rt1 & results & late & H1 & _ & H2 & H3 & _).
  exists rs, rt1, results, late. split; [exact H1|]. split; [exact H2|]. split; [exact H3|].
  vm_compute. reflexivity.
Defined.

(** The mutex does not cover the launching loop: a Shutdown that runs while Start
    is between two workers takes the first one only; the second one is launched
    after the clients were closed, and no later Shutdown reaches it. *)
Example shutdown_overlaps_start :
  let st1 := sample_app
    [CallRegister (code_queue "a"); CallRegister (code_queue "b"); CallStart;
     MoveStart 0; MoveStart 0; MoveStart 0; MoveStart 0] (mkApp (bare_runtime, [], tt) [] []) in
  let '(rt1, tr1, w1) := app_shared st1 in
  let '(err, rt2) := Shutdown rt1 all_well in
  let st2 := sample_app [MoveStart 0; MoveStart 0; MoveStart 0]
               (mkApp (rt2, tr1, w1) (app_starts st1) (app_registered st1)) in
  map fst (workers rt1) = ["a"] /\ err = None /\ app_starts st2 = [Ended None] /\
  map fst (workers (app_shared st2).1.1) = ["b"] /\
  map fst (workers (Shutdown (app_shared st2).1.1 all_well).2) = ["b"].
Proof. vm_compute. split_and!; reflexivity. Qed.
