(* ===== verification/Ownership.v ===== *)
(** * Who owns a worker (runtime.go)

    Start puts the workers it launches in a field of the runtime; a start that
    fails takes them back and stops them, a shutdown takes them and drains them
    ([takeWorkers] is the one way out of the field). The schedules of Startup.v,
    with the moment a shutdown takes the workers put in between: every worker
    that was launched is in exactly one of the three places, and a shutdown that
    begins once Start has returned leaves none behind. Start's append is one
    step here, as is each section under the mutex; that a shutdown overlapping
    Start can miss workers is [shutdown_overlaps_start] of Startup.v. *)

From S2P Require Import Prelude GoErrors GoStrings Logging Config Executor Register Runtime Shutdown Startup.

Inductive own_event (W : Type) : Type :=
| InApp (e : call_event W)
| TakeWorkers.                            (* Shutdown, inside stopOnce *)
Arguments InApp {W}.
Arguments TakeWorkers {W}.

Section ownership.
Context {W K : Type}.
Implicit Types rt : Runtime W K.
Context (mkq_Process : list (event K) -> string -> handler W -> list WorkerOption -> res K).
Context (mkq_Stop : list (event K) -> K -> option error).
Context (net_Listen : list (event K) -> string -> res string).
Context (schedule : list (string * K) -> list (string * K)).
Context (factories : gmap string (ExecutorFactory W)).

(** The calls, and the workers in the hands of the shutdown once it took them. *)
Record owners := mkOwners {
  own_app : app (W := W) (K := K);
  own_taken : option (list (string * K));
}.

Definition own_step (st : owners) (e : own_event W) : owners :=
  match e with
  | InApp e =>
      mkOwners (app_step mkq_Process mkq_Stop net_Listen schedule factories (own_app st) e)
        (own_taken st)
  | TakeWorkers =>
      match own_taken st with
      | Some _ => st
      | None =>
          let '(rt, tr, w) := app_shared (own_app st) in
          let '(ws, rt) := takeWorkers rt in
          mkOwners (mkApp (rt, tr, w) (app_starts (own_app st)) (app_registered (own_app st))) (Some ws)
      end
  end.

Definition own_run (st : owners) (events : list (own_event W)) : owners :=
  fold_left own_step events st.

(** ** Every worker has one owner *)

Definition owned (tr : list (event K)) (taken : list (string * K)) rt : Prop :=
  launched tr ≡ₚ stops tr ++ map snd taken ++ map snd (workers rt).

Definition all_owned (st : owners) : Prop :=
  let '(rt, tr, _) := app_shared (own_app st) in owned tr (default [] (own_taken st)) rt.

Hypothesis Hsched : forall l, schedule l ≡ₚ l.

Lemma owned_same tr taken rt rt' : workers rt' = workers rt -> owned tr taken rt -> owned tr taken rt'.
Proof. unfold owned. by intros ->. Qed.

(** A rollback moves what the field held to what was stopped. *)
Lemma owned_abort tr taken rt :
  owned tr taken rt ->
  let '(rt', tr') := abortWorkers mkq_Stop schedule rt tr in owned tr' taken rt'.
Proof.
  intros H. pose proof (abortWorkers_spec mkq_Stop schedule rt tr) as HA.
  destruct (abortWorkers mkq_Stop schedule rt tr) as [rt' tr']. destruct HA as (_ & Hw & ->).
  unfold owned in *. rewrite launched_app, stops_app, stop_events_launched, stop_events_stops, Hw.
  rewrite (Hsched (workers rt)), H, !app_nil_r, <- !app_assoc. f_equiv. apply Permutation_app_comm.
Qed.

Lemma owned_launch tr taken rt name :
  owned tr taken rt ->
  let '(_, rt', tr') := launch mkq_Process mkq_Stop schedule rt tr [name] in owned tr' taken rt'.
Proof.
  intros H. cbn [launch]. destruct (registry rt !! name) as [r|]; [|exact H]. cbv zeta.
  destruct (mkq_Process _ _ _ _) as [k|e].
  - unfold owned in *. rewrite launched_app, stops_app, H.
    cbn [workers with_log with_workers launched stops omap list_omap].
    by rewrite map_app, !app_nil_r, <- !app_assoc.
  - apply owned_abort in H. by destruct (abortWorkers mkq_Stop schedule rt tr).
Qed.

Lemma owned_server tr taken rt :
  owned tr taken rt ->
  let '(_, rt', tr') := start_server mkq_Stop net_Listen schedule rt tr in owned tr' taken rt'.
Proof.
  intros H. unfold start_server. destruct (serverEnabled (cfg rt)); [|exact H].
  destruct (newHealthServer net_Listen rt tr) as [addr|e].
  - unfold owned in *. by rewrite launched_app, stops_app, !app_nil_r.
  - apply owned_abort in H. by destruct (abortWorkers mkq_Stop schedule rt tr).
Qed.

Lemma owned_move pc taken rt tr (w : W) :
  owned tr taken rt ->
  let '(_, (rt', tr', _)) :=
    start_move mkq_Process mkq_Stop net_Listen schedule factories pc (rt, tr, w) in owned tr' taken rt'.
Proof.
  intros H. destruct pc as [|[|qc rest]| |[|name rest]| |err]; cbn [start_move]; try exact H.
  - by destruct (started rt).
  - destruct (build_queue factories rt qc w) as [[[e|] rt1] w1] eqn:E;
      apply build_queue_keeps in E as (_ & E & _); by apply (owned_same _ _ rt).
  - destruct (registeredQueues rt) as [|n names]; [exact H|].
    apply (owned_same _ _ rt); [|exact H]. apply warnPoolSize_same.
  - apply (owned_launch _ _ _ name) in H. by destruct (launch _ _ _ rt tr [name]) as [[[e|] rt1] tr1].
  - apply owned_server in H. by destruct (start_server _ _ _ rt tr) as [[err rt1] tr1].
Qed.

Lemma register_workers rt r : workers (register rt r).2 = workers rt.
Proof.
  unfold register. case_bool_decide; [done|]. destruct (started rt); [done|].
  by destruct (registry rt !! r_queue r).
Qed.

Lemma own_step_owned st e : all_owned st -> all_owned (own_step st e).
Proof.
  unfold all_owned. destruct st as [[[[rt tr] w] pcs regs] taken]. cbn [own_app app_shared own_taken].
  intros H. destruct e as [[r| |i]|]; cbn [own_step own_app own_taken app_step app_shared app_starts app_registered].
  - pose proof (register_workers rt r) as Hw. destruct (register rt r) as [err rt1].
    by apply (owned_same _ _ rt).
  - exact H.
  - destruct (pcs !! i) as [pc|]; [|exact H]. apply (owned_move pc _ _ _ w) in H.
    by destruct (start_move _ _ _ _ _ pc (rt, tr, w)) as [pc' [[rt' tr'] w']].
  - destruct taken as [ws|]; [exact H|]. cbn. unfold owned in *. cbn in *. by rewrite app_nil_r.
Qed.

(** ** Once Start has returned *)

(** Somebody passed the guard, and whoever did has returned. *)
Definition at_rest (st : app (W := W) (K := K)) : Prop :=
  started (app_shared st).1.1 = true /\
  Forall (fun pc => pc = AtGuard \/ exists err, pc = Ended err) (app_starts st).

Lemma at_rest_step st e :
  at_rest st ->
  let st' := app_step mkq_Process mkq_Stop net_Listen schedule factories st e in
  at_rest st' /\ app_shared st' = app_shared st.
Proof.
  destruct st as [[[rt tr] w] pcs regs]. unfold at_rest. cbn [app_shared app_starts fst snd].
  intros [Hs HF]. cbv zeta. destruct e as [r| |i]; cbn [app_step app_shared app_starts app_registered].
  - by rewrite register_late.
  - split; [|done]. split; [done|]. apply Forall_app. split; [done|]. constructor; [by left|done].
  - destruct (pcs !! i) as [pc|] eqn:Hi; [|done].
    assert (exists err, start_move mkq_Process mkq_Stop net_Listen schedule factories pc (rt, tr, w)
                        = (Ended err, (rt, tr, w))) as [err ->].
    { destruct (Forall_lookup_1 _ _ _ _ HF Hi) as [->|[err ->]]; cbn [start_move];
        [rewrite Hs|]; by eexists. }
    split; [|done]. split; [done|]. apply Forall_insert; [done|]. right. by eexists.
Qed.

(** After the shutdown took the workers of a runtime at rest nothing comes back. *)
Lemma settled_run st ws s events :
  at_rest (own_app st) -> own_taken st = Some ws -> app_shared (own_app st) = s ->
  let st' := own_run st events in
  own_taken st' = Some ws /\ app_shared (own_app st') = s.
Proof.
  cbv zeta. revert st. induction events as [|e events IH]; intros st Hr Ht Hs; [done|].
  cbn [own_run fold_left]. destruct e as [e|]; cbn [own_step].
  - destruct (at_rest_step (own_app st) e Hr) as [Hr' Hs']. apply IH; [done|done|exact (eq_trans Hs' Hs)].
  - rewrite Ht. by apply IH.
Qed.

Lemma settled_take st after :
  at_rest (own_app st) -> own_taken st = None ->
  let st' := own_run st (TakeWorkers :: after) in
  own_taken st' = Some (workers (app_shared (own_app st)).1.1) /\
  workers (app_shared (own_app st')).1.1 = [].
Proof.
  intros Hr Ht. cbv zeta. cbn [own_run fold_left]. cbn [own_step]. rewrite Ht.
  destruct (app_shared (own_app st)) as [[rt tr] w] eqn:Hs. cbn [takeWorkers].
  destruct (settled_run
    (mkOwners (mkApp (with_workers rt [], tr, w) (app_starts (own_app st)) (app_registered (own_app st)))
       (Some (workers rt))) (workers rt) (with_workers rt [], tr, w) after) as [H1 H2]; [|done|done|].
  { unfold at_rest in *. by rewrite Hs in Hr. }
  split; [exact H1|]. unfold own_run in H2. by rewrite H2.
Qed.

Lemma own_run_owned events st : all_owned st -> all_owned (own_run st events).
Proof.
  revert st. induction events as [|e events IH]; intros st H; [done|]. by apply IH, own_step_owned.
Qed.
End ownership.

(** ** Properties *)

(** C10 No worker is lost: in every schedule of registrations, starts and a
    shutdown, each worker that was launched is, counted with multiplicity, in
    exactly one place: stopped by a start's rollback, taken by the shutdown, or
    still the runtime's. When the shutdown takes the workers after the start that
    passed its guard returned, nothing is the runtime's any more, whatever calls
    follow; and once that shutdown has finished, in any interleaving of its
    goroutines, each worker ever launched was stopped by a rollback, or drained, or
    cancelled and its unwinding awaited. *)
Theorem no_worker_lost {W K} mkq_Process mkq_Stop net_Listen schedule factories
    (rt0 : Runtime W K) w0 events :
  (forall l, schedule l ≡ₚ l) -> workers rt0 = [] ->
  let run := own_run mkq_Process mkq_Stop net_Listen schedule factories
               (mkOwners (mkApp (rt0, [], w0) [] []) None) in
  let taken := default [] (own_taken (run events)) in
  let rt := (app_shared (own_app (run events))).1.1 in
  let tr := (app_shared (own_app (run events))).1.2 in
  launched tr ≡ₚ stops tr ++ map snd taken ++ map snd (workers rt) /\
  forall before after, events = before ++ TakeWorkers :: after ->
    at_rest (own_app (run before)) -> own_taken (run before) = None ->
    workers rt = [] /\
    forall a sd, reachable (world_of (app_shared (own_app (run before))).1.1 a) sd -> sd_at sd = Finished ->
      forall k, k ∈ launched tr ->
        k ∈ stops tr \/
        exists i name, taken !! i = Some (name, k) /\
          finished_in (world_of (app_shared (own_app (run before))).1.1 a) (sd_trace sd) i.
Proof.
  intros Hsched Hw0. cbv zeta. set (st0 := mkOwners _ _).
  assert (all_owned st0) as H0 by (unfold all_owned, owned; cbn; by rewrite Hw0).
  pose proof (own_run_owned mkq_Process mkq_Stop net_Listen schedule factories Hsched events st0 H0) as Hall.
  unfold all_owned in Hall. set (run := own_run mkq_Process mkq_Stop net_Listen schedule factories) in *.
  destruct (app_shared (own_app (run st0 events))) as [[rt tr] w] eqn:Hsh. cbn [fst snd].
  split; [exact Hall|]. intros before after -> Hrest Hnone.
  pose proof (settled_take mkq_Process mkq_Stop net_Listen schedule factories (run st0 before) after
                Hrest Hnone) as Hset.
  assert (run st0 (before ++ TakeWorkers :: after) = run (run st0 before) (TakeWorkers :: after)) as Hrun
    by apply fold_left_app.
  rewrite Hrun in Hall, Hsh |- *. destruct Hset as [Ht Hw]. fold run in Ht, Hw.
  rewrite Hsh in Hw. cbn [fst] in Hw. rewrite Ht in Hall |- *. cbn [default] in Hall |- *.
  split; [exact Hw|]. intros a sd Hreach Hfin k Hk.
  unfold owned in Hall. rewrite Hw in Hall. cbn [map] in Hall. rewrite app_nil_r in Hall.
  rewrite Hall, elem_of_app in Hk. destruct Hk as [Hk|Hk]; [by left|right].
  apply list_elem_of_fmap in Hk as ([name k'] & -> & Hin). apply list_elem_of_lookup in Hin as [i Hi].
  exists i, name. split; [exact Hi|]. apply finished_all; [done|done|].
  by eapply lookup_lt_Some.
Qed.

(** ** Witnesses *)

Definition sample_own (events : list (own_event unit)) : owners (W := unit) (K := nat) :=
  own_run (fun tr _ _ _ => Ok (length tr)) (fun _ _ => None) (fun _ a => Ok a) (fun l => l) ∅
    (mkOwners (mkApp (bare_runtime, [], tt) [] []) None) events.

(** Two queues, a start that launches both; a second start, a shutdown and a start
    that comes too late. *)
Definition two_started : list (own_event unit) :=
  map InApp
    [CallRegister (code_queue "a"); CallRegister (code_queue "b"); CallStart; CallStart; MoveStart 0;
     MoveStart 0; MoveStart 1; MoveStart 0; MoveStart 0; MoveStart 0; MoveStart 0; MoveStart 0].
Definition too_late : list (own_event unit) :=
  [InApp CallStart; InApp (MoveStart 2); TakeWorkers].

Definition down_trace : list sd_event :=
  [SdDrain 0 (Some (Sentinel ErrDeadlineExceeded)); SdDrain 1 None; SdStop 0 None; SdClient None;
   SdRedis None].

Lemma two_down :
  reachable (world_of (app_shared (own_app (sample_own two_started))).1.1 all_well)
    (mkSd Finished [Returned None; Returned None] [] down_trace).
Proof.
  unfold reachable, sd_init.
  eapply rtc_l; [by apply step_no_server|].
  eapply rtc_l; [by eapply (step_expired _ 0)|].
  eapply rtc_l; [by eapply (step_drained _ 1)|].
  eapply rtc_l; [by eapply (step_stopped _ 0)|].
  eapply rtc_l; [by eapply (step_joined _ _ [None; None])|].
  eapply rtc_l; [apply step_client|].
  eapply rtc_l; [apply step_redis|]. done.
Qed.

Lemma no_worker_lost_witness :
  let st := sample_own (two_started ++ TakeWorkers :: too_late) in
  own_taken st = Some [("a", 0%nat); ("b", 1%nat)] /\
  app_starts (own_app st) = [Ended None; refused; refused] /\
  workers (app_shared (own_app st)).1.1 = [] /\
  exists i name, [("a", 0%nat); ("b", 1%nat)] !! i = Some (name, 1%nat) /\
    finished_in (world_of (app_shared (own_app (sample_own two_started))).1.1 all_well) down_trace i.
Proof.
  cbv zeta. split; [vm_compute; reflexivity|]. split; [vm_compute; reflexivity|].
  destruct (no_worker_lost (fun tr _ _ _ => Ok (length tr)) (fun _ _ => None) (fun _ a => Ok a)
              (fun l => l) ∅ bare_runtime tt (two_started ++ TakeWorkers :: too_late))
    as [_ H]; [by intros|reflexivity|].
  destruct (H two_started too_late eq_refl) as [Hw Hd].
  - split; [vm_compute; reflexivity|].
    repeat first [apply Forall_nil_2 | apply Forall_cons_2; [right; by eexists|]].
  - reflexivity.
  - split; [exact Hw|].
    destruct (Hd all_well _ two_down eq_refl 1%nat) as [Hk|Hk].
    + apply (bool_decide_unpack _). vm_compute. exact I.
    + exfalso. revert Hk. apply (bool_decide_unpack (_ ∉ _)). vm_compute. exact I.
    + exact Hk.
Defined.
