(* ===== verification/Lifecycle.v ===== *)
(** * A running process (runtime.go, server.go)

    The runtime as its environment sees it once started: readiness probes come
    and go on the health listener while, at some point, a shutdown begins and its
    goroutines move. The two interleave in one step relation, of which the
    shutdown of Shutdown.v is a projection. *)

From S2P Require Import Prelude GoErrors GoStrings Logging Config Executor Register Runtime.
From S2P Require Import Server Shutdown.

(** ** Closing the listener *)

(** What becomes of the requests in flight when [healthServer.Close] returns.
    http.Server.Shutdown waits for them unless its context ends, and Close drops
    the connections; a context that was cancelled rather than expired leaves
    them as they are. *)
Inductive close_mode : Set := Graceful | Forced | Abandoned.

#[global] Instance close_mode_eq_dec : EqDecision close_mode.
Proof. solve_decision. Defined.

Definition close_mode_of (shutdown : option error) : close_mode :=
  if errors_Is_opt shutdown ErrDeadlineExceeded then Forced
  else if errors_Is_opt shutdown ErrCanceled then Abandoned
  else Graceful.

(** A GET of /readyz in flight: not yet looked at, or past [isServing]. *)
Inductive probe : Set := Accepted | Pinging.

(** The requests left when the closing is over; [None] while it cannot be. *)
Definition release (mode : close_mode) (conns : list probe) : option (list probe) :=
  match mode with
  | Graceful => match conns with [] => Some [] | _ => None end
  | Forced => Some []
  | Abandoned => Some conns
  end.

Inductive lc_event : Type :=
| LcReply (r : reply)
| LcSd (e : sd_event).

(** [lc_down] is where [Shutdown] is, once it was called. *)
Record lc_state := mkLc {
  lc_open : bool;
  lc_conns : list probe;
  lc_stopped : bool;
  lc_down : option sd_state;
  lc_trace : list lc_event;
}.

Section lifecycle.
Context {W K : Type}.
(** A started runtime, and what the outside answers to its shutdown. *)
Context (rt : Runtime W K) (a : sd_answers).

Definition sd_of : sd_world := world_of rt a.

(** The runtime a probe sees: [stopped] is set at the end of [Shutdown]. *)
Definition rt_of (st : lc_state) : Runtime W K :=
  if lc_stopped st then with_stopped rt None else rt.

Definition lc_init : lc_state := mkLc (bool_decide (srv rt <> None)) [] false None [].

Inductive lc_step : lc_state -> lc_state -> Prop :=
| lc_accept conns s down tr :
    lc_step (mkLc true conns s down tr) (mkLc true (conns ++ [Accepted]) s down tr)
| lc_refuse i st :
    lc_conns st !! i = Some Accepted -> isServing (rt_of st) = false ->
    lc_step st
      (mkLc (lc_open st) (delete i (lc_conns st)) (lc_stopped st) (lc_down st)
         (lc_trace st ++ [LcReply (readyz (rt_of st) None)]))
| lc_serving i st :
    lc_conns st !! i = Some Accepted -> isServing (rt_of st) = true ->
    lc_step st
      (mkLc (lc_open st) (<[i := Pinging]> (lc_conns st)) (lc_stopped st) (lc_down st) (lc_trace st))
| lc_pinged i answer st :
    lc_conns st !! i = Some Pinging ->
    lc_step st
      (mkLc (lc_open st) (delete i (lc_conns st)) (lc_stopped st) (lc_down st)
         (lc_trace st ++ [LcReply (readyz rt (Some answer))]))
| lc_shutdown open conns s tr :                     (* Shutdown is called *)
    lc_step (mkLc open conns s None tr) (mkLc false conns s (Some (sd_init sd_of)) tr)
| lc_closed open conns conns' s sd sd' evs tr :     (* rt.srv.Close returned *)
    sd_at sd = AtServer -> sd_step sd_of sd sd' -> sd_trace sd' = sd_trace sd ++ evs ->
    release (if has_srv sd_of then close_mode_of (a_srv_shutdown a) else Graceful) conns
      = Some conns' ->
    lc_step (mkLc open conns s (Some sd) tr) (mkLc open conns' s (Some sd') (tr ++ map LcSd evs))
| lc_goroutine open conns s sd sd' evs tr :
    sd_at sd <> AtServer -> sd_step sd_of sd sd' -> sd_trace sd' = sd_trace sd ++ evs ->
    lc_step (mkLc open conns s (Some sd) tr) (mkLc open conns s (Some sd') (tr ++ map LcSd evs))
| lc_stop open conns sd tr :                        (* stopped = true *)
    sd_at sd = Finished ->
    lc_step (mkLc open conns false (Some sd) tr) (mkLc open conns true (Some sd) tr).

Definition lc_reachable (st : lc_state) : Prop := rtc lc_step lc_init st.

(** ** The invariant *)

Definition is_shutdown_event (e : lc_event) : bool :=
  match e with LcSd _ => true | LcReply _ => false end.

(** Nothing of the shutdown was seen while the listener is being closed, and
    no request is left after. *)
Record lc_inv (st : lc_state) : Prop := {
  lc_projects : match lc_down st with
                | Some sd => reachable sd_of sd /\ lc_open st = false
                | None => lc_stopped st = false
                end;
  lc_no_srv : srv rt = None -> lc_conns st = [] /\ lc_open st = false;
  lc_finished : lc_stopped st = true -> exists sd, lc_down st = Some sd /\ sd_at sd = Finished;
  lc_probes : (srv rt <> None -> close_mode_of (a_srv_shutdown a) <> Abandoned) ->
    match lc_down st with
    | Some sd => sd_at sd = AtServer \/ lc_conns st = []
    | None => True
    end;
  lc_quiet : match lc_down st with
             | Some sd => sd_at sd = AtServer
             | None => True
             end -> Forall (fun e => is_shutdown_event e = false) (lc_trace st);
}.

Lemma at_server_trace sd : reachable sd_of sd -> sd_at sd = AtServer -> sd_trace sd = [].
Proof.
  intros H Hs. apply rtc_inv_r in H as [<-|(x & _ & Hx)]; [done|].
  by destruct Hx; cbn in Hs.
Qed.

Lemma lc_inv_init : lc_inv lc_init.
Proof.
  split; cbn; [done| |done|done|by constructor].
  intros ->. by rewrite bool_decide_eq_false_2 by (by intros H).
Qed.

Lemma release_kept mode conns conns' :
  release mode conns = Some conns' -> mode <> Abandoned -> conns' = [].
Proof. destruct mode, conns; cbn; congruence. Qed.

Lemma sd_step_past sd sd' : sd_step sd_of sd sd' -> sd_at sd' <> AtServer.
Proof. by destruct 1. Qed.
Lemma reachable_step sd sd' : reachable sd_of sd -> sd_step sd_of sd sd' -> reachable sd_of sd'.
Proof. apply rtc_r. Qed.

(** A request in flight moves or is answered. *)
Lemma lc_inv_probe st conns rs :
  lc_inv st -> lc_conns st <> [] ->
  lc_inv (mkLc (lc_open st) conns (lc_stopped st) (lc_down st) (lc_trace st ++ map LcReply rs)).
Proof.
  intros [Hp Hn Hf Hr Hq] Hne. split; cbn; [done| |done| |].
  - intros Hs. by destruct (Hn Hs).
  - intros Ha. specialize (Hr Ha). destruct (lc_down st); [|done]. destruct Hr; [by left|done].
  - intros Hd. apply Forall_app. split; [by apply Hq|]. by apply Forall_fmap, Forall_true.
Qed.

Lemma lc_inv_step st st' : lc_inv st -> lc_step st st' -> lc_inv st'.
Proof.
  intros [Hp Hn Hf Hr Hq] Hstep. destruct Hstep;
    cbn [lc_open lc_conns lc_stopped lc_down lc_trace] in *.
  - split; cbn; try done.
    + intros Hs. destruct (Hn Hs) as [_ [=]].
    + intros Ha. destruct down; [|done]. by destruct Hp.
  - by apply (lc_inv_probe st _ [_]); [split|intros Hc; rewrite Hc in H].
  - rewrite <- (app_nil_r (lc_trace st)).
    by apply (lc_inv_probe st _ []); [split|intros Hc; rewrite Hc in H].
  - by apply (lc_inv_probe st _ [_]); [split|intros Hc; rewrite Hc in H].
  - split; cbn; try done.
    + split; [apply rtc_refl|done].
    + intros Hs. by destruct (Hn Hs).
    + intros ->. discriminate Hp.
    + intros _. by left.
    + intros _. by apply Hq.
  - destruct Hp as [Hp ->]. split; cbn; try done.
    + split; [by eapply reachable_step|done].
    + intros Hs. destruct (Hn Hs) as [-> _]. split; [|done].
      destruct (if has_srv _ then _ else _) in H2; cbn in H2; congruence.
    + intros ->. destruct Hf as (? & [= <-] & ?); [done|]. congruence.
    + intros Ha. right. apply (release_kept _ _ _ H2). cbn. case_bool_decide; [by apply Ha|done].
    + intros Hd. by apply sd_step_past in H0.
  - destruct Hp as [Hp ->]. split; cbn; try done.
    + split; [by eapply reachable_step|done].
    + intros ->. destruct Hf as (? & [= <-] & ?); [done|]. exists sd'. split; [done|].
      inversion H0; subst; cbn in *; congruence.
    + intros Ha. destruct (Hr Ha) as [?|?]; [congruence|by right].
    + intros Hd. by apply sd_step_past in H0.
  - split; cbn; try done. intros _. by exists sd.
Qed.

Lemma lc_inv_reachable st : lc_reachable st -> lc_inv st.
Proof.
  unfold lc_reachable. intros H.
  assert (forall x y, rtc lc_step x y -> lc_inv x -> lc_inv y) as Hind.
  { induction 1 as [|x y z Hxy _ IH]; [done|]. intros Hx. by eapply IH, lc_inv_step. }
  eapply Hind; [exact H|apply lc_inv_init].
Qed.

(** ** The order of what is seen *)

Definition waits : Prop := srv rt <> None -> close_mode_of (a_srv_shutdown a) <> Abandoned.

(** The answers come first, each of them computed from Redis' answer; then the
    shutdown's own events. *)
Definition answers_first (tr : list lc_event) : Prop :=
  exists answers evs, tr = map (fun an => LcReply (readyz rt (Some an))) answers ++ map LcSd evs.

Lemma quiet_answers tr :
  answers_first tr -> Forall (fun e => is_shutdown_event e = false) tr ->
  exists answers, tr = map (fun an => LcReply (readyz rt (Some an))) answers.
Proof.
  intros (answers & [|e evs] & ->) Hq; [exists answers; by rewrite app_nil_r|].
  apply Forall_app in Hq as [_ Hq]. by inversion Hq.
Qed.

(** While a request is in flight nothing was shut down yet. *)
Lemma probe_quiet st :
  lc_inv st -> waits -> lc_conns st <> [] ->
  Forall (fun e => is_shutdown_event e = false) (lc_trace st) /\ lc_stopped st = false.
Proof.
  intros [Hp _ Hf Hr Hq] Hw Hc. specialize (Hr Hw). split.
  - apply Hq. destruct (lc_down st); [|done]. by destruct Hr.
  - destruct (lc_stopped st); [|done]. destruct Hf as (sd & Hd & Hfin); [done|].
    rewrite Hd in Hr. destruct Hr; [congruence|done].
Qed.

Lemma lookup_ne {A} (l : list A) i x : l !! i = Some x -> l <> [].
Proof. by intros H ->. Qed.

Lemma answers_first_reply st an :
  lc_inv st -> waits -> lc_conns st <> [] -> answers_first (lc_trace st) ->
  answers_first (lc_trace st ++ [LcReply (readyz rt (Some an))]).
Proof.
  intros Hi Hw Hc Ht. destruct (probe_quiet st Hi Hw Hc) as [Hq _].
  destruct (quiet_answers _ Ht Hq) as [answers ->]. exists (answers ++ [an]), [].
  by rewrite map_app, app_nil_r.
Qed.

Lemma answers_first_events tr evs : answers_first tr -> answers_first (tr ++ map LcSd evs).
Proof.
  intros (answers & evs' & ->). exists answers, (evs' ++ evs).
  by rewrite map_app, app_assoc.
Qed.

Lemma lc_answers_first st :
  isServing rt = true -> waits -> lc_reachable st -> answers_first (lc_trace st).
Proof.
  intros Hs Hw. unfold lc_reachable. revert st.
  apply (rtc_ind_r (fun st => answers_first (lc_trace st)) lc_init).
  { by exists [], []. }
  intros st st' Hr Hstep IH. apply lc_inv_reachable in Hr.
  destruct Hstep; cbn [lc_trace] in *; try done.
  - exfalso. destruct (probe_quiet st Hr Hw) as [_ Hst]; [by eapply lookup_ne|].
    unfold rt_of in H0. rewrite Hst in H0. congruence.
  - apply answers_first_reply; try done. by eapply lookup_ne.
  - by apply answers_first_events.
  - by apply answers_first_events.
Qed.
End lifecycle.

(** ** Properties *)

(** C11 A probe that is answered finds the workers up. Once a start succeeded, every
    registered queue has its worker, and in every interleaving of the probes
    with the shutdown, as long as the shutdown's context is not cancelled
    outright, an answer of /readyz precedes the first event of the shutdown: no
    worker was drained or stopped and no client closed. The answer is 200
    exactly when Redis answered the ping, never the 503 of a runtime that does
    not serve. *)
Theorem ready_means_up {W K} mkq_Process mkq_Stop net_Listen schedule factories
    (rt0 rt : Runtime W K) tr w tr' w' a st before r after :
  (forall l, schedule l ≡ₚ l) -> valid_config (cfg rt0) -> wf_runtime rt0 ->
  started rt0 = false -> workers rt0 = [] -> srv rt0 = None -> stopped rt0 = false ->
  Start mkq_Process mkq_Stop net_Listen schedule factories rt0 tr w = (None, rt, tr', w') ->
  close_mode_of (a_srv_shutdown a) <> Abandoned ->
  lc_reachable rt a st -> lc_trace st = before ++ LcReply r :: after ->
  map fst (workers rt) = registeredQueues rt /\
  Forall (fun e => is_shutdown_event e = false) before /\
  exists answer, r = readyz rt (Some answer) /\ (status_of r = Some 200 <-> answer = None).
Proof.
  intros Hsched Hv Hwf Hst Hws Hsrv Hstop Hstart Hmode Hr Htr.
  pose proof (start_outcome mkq_Process mkq_Stop net_Listen schedule factories rt0 tr w
                Hsched Hv Hwf Hst Hws Hsrv) as H.
  rewrite Hstart in H. destruct H as (Hst' & new & _ & Hq & _).
  apply Start_keeps in Hstart as (_ & Hstop' & _);
    [|intros q Hq'; by apply (wf_listed rt0 Hwf)|apply valid_names, Hv].
  assert (isServing rt = true) as Hs by (unfold isServing; by rewrite Hst', Hstop', Hstop).
  destruct (lc_answers_first rt a st Hs (fun _ => Hmode) Hr) as (answers & evs & Heq).
  rewrite Htr in Heq. split; [done|].
  assert (exists l an, before = map (fun an => LcReply (readyz rt (Some an))) l /\
            r = readyz rt (Some an)) as (l & an & -> & ->).
  { clear -Heq. revert before Heq. induction answers as [|an answers IH]; intros before Heq.
    - assert (LcReply r ∈ map LcSd evs) as (e & [=] & _)%list_elem_of_fmap.
      cbn in Heq. rewrite <- Heq. apply elem_of_app. right. constructor.
    - destruct before as [|e before]; cbn in Heq; injection Heq as -> Heq.
      + by exists [], an.
      + destruct (IH before Heq) as (l & an' & -> & ->). by exists (an :: l), an'. }
  split; [by apply Forall_fmap, Forall_true|]. exists an. split; [done|].
  unfold readyz. rewrite Hs. cbn [negb ping]. by destruct an.
Qed.

(** Two queues are started; one probe is answered, another is in flight when the
    shutdown begins and is waited for. *)
Definition sample_start :=
  Start ready_process (fun _ _ => None) (fun _ a => Ok a) (@rev _) nop_factories
    two_queue_runtime [] tt.
Definition sample_up : Runtime unit nat := sample_start.1.1.2.
Definition redis_down : error := New "connection refused".

Lemma sample_lc :
  exists st, lc_reachable sample_up all_well st /\
    lc_trace st = [LcReply (readyz sample_up (Some None))] ++
                  LcReply (readyz sample_up (Some (Some redis_down))) :: [LcSd (SdServer None)].
Proof.
  eexists. split; [|shelve]. unfold lc_reachable, lc_init.
  assert (isServing sample_up = true) as Hs by (vm_compute; reflexivity).
  assert (bool_decide (srv sample_up <> None) = true) as -> by (vm_compute; reflexivity).
  eapply rtc_l; [apply lc_accept|]. cbn [app].
  eapply rtc_l; [apply (lc_serving _ _ 0); [reflexivity|exact Hs]|]. cbn.
  eapply rtc_l; [apply (lc_pinged _ _ 0 None); reflexivity|]. cbn [lc_open lc_conns lc_stopped lc_down lc_trace delete list_delete app].
  eapply rtc_l; [apply lc_accept|]. cbn [app].
  eapply rtc_l; [apply (lc_serving _ _ 0); [reflexivity|exact Hs]|]. cbn.
  eapply rtc_l; [apply lc_shutdown|].
  eapply rtc_l; [apply (lc_pinged _ _ 0 (Some redis_down)); reflexivity|].
  eapply rtc_l; [eapply (lc_closed _ _ _ _ [] _ _ _ [SdServer None]); [reflexivity|by apply step_server|reflexivity|reflexivity]|].
  apply rtc_refl.
  Unshelve. reflexivity.
Qed.

Lemma ready_means_up_witness :
  map fst (workers sample_up) = ["inbox"; "mail"] /\
  exists answer, readyz sample_up (Some (Some redis_down)) = readyz sample_up (Some answer) /\
    (status_of (readyz sample_up (Some (Some redis_down))) = Some 200 <-> answer = None).
Proof.
  destruct sample_lc as (st & Hr & Htr).
  assert (valid_config (cfg two_queue_runtime)) as Hv
    by (apply Validate_valid; vm_compute; reflexivity).
  assert (forall l : list (string * nat), rev l ≡ₚ l) as Hrev
    by (intros l; symmetry; apply Permutation.Permutation_rev).
  assert (sample_start = (None, sample_up, sample_start.1.2, sample_start.2)) as Hst
    by (vm_compute; reflexivity).
  assert (close_mode_of (a_srv_shutdown all_well) <> Abandoned) as Hm by (vm_compute; discriminate).
  destruct (ready_means_up ready_process (fun _ _ => None) (fun _ a => Ok a) (@rev _) nop_factories
    two_queue_runtime sample_up [] tt _ _ all_well st _ _ _ Hrev Hv two_queue_wf
    eq_refl eq_refl eq_refl eq_refl Hst Hm Hr Htr) as (Hq & _ & Hex).
  split; [rewrite Hq; vm_compute; reflexivity|exact Hex].
Defined.

(** A context that is cancelled, not expired: the closing gives up at once and
    leaves the request in flight, which is answered 200 after the workers have
    gone, [stopped] being set last. *)
Definition cancelled : sd_answers :=
  mkSdAnswers (Some (Sentinel ErrCanceled)) None (fun _ => None) (fun _ => None) None None.

Lemma ready_after_drain :
  exists st, lc_reachable sample_running cancelled st /\
    lc_trace st = [LcSd (SdServer (Some (Sentinel ErrCanceled))); LcSd (SdDrain 0 None);
                   LcSd (SdDrain 1 None); LcReply (readyz sample_running (Some None))] /\
    status_of (readyz sample_running (Some None)) = Some 200.
Proof.
  eexists. split; [|split; [shelve|reflexivity]]. unfold lc_reachable, lc_init.
  assert (bool_decide (srv sample_running <> None) = true) as -> by (vm_compute; reflexivity).
  eapply rtc_l; [apply lc_accept|]. cbn [app].
  eapply rtc_l; [apply lc_shutdown|].
  eapply rtc_l.
  { eapply (lc_closed _ _ _ _ [Accepted] _ _ _ [_]);
      [reflexivity|by apply step_server|reflexivity|reflexivity]. }
  eapply rtc_l.
  { eapply (lc_goroutine _ _ _ _ _ _ _ [_]); [done|by apply (step_drained _ 0)|reflexivity]. }
  eapply rtc_l.
  { eapply (lc_goroutine _ _ _ _ _ _ _ [_]); [done|by apply (step_drained _ 1)|reflexivity]. }
  eapply rtc_l; [apply (lc_serving _ _ 0); reflexivity|].
  eapply rtc_l; [apply (lc_pinged _ _ 0 None); reflexivity|].
  apply rtc_refl.
  Unshelve. reflexivity.
Qed.

(** ** Liveness of a shutdown *)

Section inevitable_end.
Context {W K : Type} (rt : Runtime W K) (a : sd_answers).

Definition probe_weight (p : probe) : nat := match p with Accepted => 2 | Pinging => 1 end.
Definition lc_weight (st : lc_state) : nat :=
  (sum_list_with probe_weight (lc_conns st) + match lc_down st with Some sd => weight sd | None => 0 end
   + if lc_stopped st then 0 else 1)%nat.

Lemma weight_delete (conns : list probe) i p :
  conns !! i = Some p ->
  (sum_list_with probe_weight (delete i conns) < sum_list_with probe_weight conns)%nat.
Proof.
  intros (l1 & l2 & -> & ->)%list_elem_of_split_length. rewrite delete_middle.
  rewrite !sum_list_with_app. cbn. destruct p; cbn; lia.
Qed.

Lemma weight_serving (conns : list probe) i :
  conns !! i = Some Accepted ->
  (sum_list_with probe_weight (<[i := Pinging]> conns) < sum_list_with probe_weight conns)%nat.
Proof.
  intros (l1 & l2 & -> & ->)%list_elem_of_split_length.
  rewrite insert_app_r_alt, Nat.sub_diag by lia. rewrite !sum_list_with_app. cbn. lia.
Qed.

Lemma release_weight mode conns conns' :
  release mode conns = Some conns' ->
  (sum_list_with probe_weight conns' <= sum_list_with probe_weight conns)%nat.
Proof. destruct mode, conns; cbn; intros [= <-]; cbn; lia. Qed.

(** What is left of a run once [Shutdown] was called. *)
Definition going_down (st : lc_state) : Prop := lc_reachable rt a st /\ lc_down st <> None.

Lemma going_down_step st st' :
  going_down st -> lc_step rt a st st' -> going_down st' /\ (lc_weight st' < lc_weight st)%nat.
Proof.
  intros [Hr Hd] Hstep. split; [split; [by eapply rtc_r|]|].
  { by destruct Hstep; cbn in *. }
  apply lc_inv_reachable in Hr as [Hp _ _ _ _]. unfold lc_weight.
  destruct Hstep; cbn [lc_conns lc_down lc_stopped lc_open] in *; try done.
  - destruct down as [sd|]; [|done]. by destruct Hp.
  - pose proof (weight_delete _ _ _ H). lia.
  - pose proof (weight_serving _ _ H). lia.
  - pose proof (weight_delete _ _ _ H). lia.
  - pose proof (release_weight _ _ _ H2). pose proof (step_weight _ _ _ H0). lia.
  - pose proof (step_weight _ _ _ H0). lia.
  - lia.
Qed.

(** A request in flight can always be answered. *)
Lemma probe_progress st : lc_conns st <> [] -> exists st', lc_step rt a st st'.
Proof.
  destruct (lc_conns st) as [|[] conns] eqn:Hc; intros H; [done| |].
  - destruct (isServing (rt_of rt st)) eqn:E; eexists;
      [apply (lc_serving rt a 0)|apply (lc_refuse rt a 0)]; by rewrite ?Hc.
  - eexists. apply (lc_pinged rt a 0 None). by rewrite Hc.
Qed.

Lemma sd_step_events o sd sd' :
  sd_step o sd sd' -> exists evs, sd_trace sd' = sd_trace sd ++ evs.
Proof. destruct 1; cbn; eexists; try done; by rewrite app_nil_r. Qed.

Definition lc_over (st : lc_state) : Prop :=
  lc_stopped st = true /\ exists sd, lc_down st = Some sd /\ sd_at sd = Finished.

Lemma going_down_progress st : going_down st -> lc_over st \/ exists st', lc_step rt a st st'.
Proof.
  intros [Hr Hd]. apply lc_inv_reachable in Hr as [_ _ Hf _ _].
  destruct (decide (lc_conns st = [])) as [Hc|Hc]; [|right; by apply probe_progress].
  destruct st as [open conns s [sd|] tr]; cbn in *; [|done]. subst conns.
  destruct (decide (sd_at sd = Finished)) as [Hfin|Hfin].
  { destruct s; [|right; eexists; by apply lc_stop]. left. split; [done|]. by exists sd. }
  right. destruct (sd_progress (sd_of rt a) sd Hfin) as [sd' Hsd].
  destruct (sd_step_events _ _ _ Hsd) as [evs Hevs].
  destruct (decide (sd_at sd = AtServer)) as [Hat|Hat]; eexists.
  - eapply lc_closed; [done|exact Hsd|exact Hevs|]. by destruct (if has_srv _ then _ else _).
  - by eapply lc_goroutine.
Qed.
End inevitable_end.

(** C12 A shutdown that was called is carried through: whatever mkq, Redis and the
    listener answer, and however the probes still in flight and the workers'
    goroutines interleave, every execution gets to the end. There [stopped] is
    set, every worker was drained or stopped, and the errors met join to what
    [Shutdown] returns. (Each step is the return of a call that the code bounds
    by a context.) *)
Theorem shutdown_inevitable {W K} (rt : Runtime W K) a st :
  stopErr rt = None -> lc_reachable rt a st -> lc_down st <> None ->
  inevitable (lc_step rt a)
    (fun st' => lc_stopped st' = true /\
       exists sd, lc_down st' = Some sd /\ sd_at sd = Finished /\
         errors_Join (map Some (sd_errs sd)) = (Shutdown rt a).1 /\
         forall i, (i < length (workers rt))%nat -> finished_in (world_of rt a) (sd_trace sd) i) st.
Proof.
  intros Hs Hr Hd. apply (inevitable_measure _ _ (going_down rt a) lc_weight).
  - intros s Hg. destruct (going_down_progress rt a s Hg) as [(Hst & sd & Hsd & Hf)|?]; [left|by right].
    destruct Hg as [Hg _]. apply lc_inv_reachable in Hg as [Hp _ _ _ _]. rewrite Hsd in Hp.
    destruct Hp as [Hp _]. split; [done|]. exists sd. split_and!; [done|done| |].
    + unfold Shutdown. rewrite Hs. cbn [fst].
      apply sd_inv_reachable in Hp as [_ _ _ _ _ He]. rewrite Hf in He. by rewrite He.
    + intros i Hi. by apply finished_all.
  - intros s s' Hg Hss. by apply going_down_step.
  - by split.
Qed.

(** The shutdown of two workers, begun with a probe in flight. *)
Lemma shutdown_inevitable_witness :
  let st := mkLc false [Accepted] false (Some (sd_init (sd_of sample_running all_well))) [] in
  inevitable (lc_step sample_running all_well)
    (fun st' => lc_stopped st' = true /\
       exists sd, lc_down st' = Some sd /\ sd_at sd = Finished /\
         errors_Join (map Some (sd_errs sd)) = (Shutdown sample_running all_well).1 /\
         forall i, (i < 2)%nat -> finished_in (world_of sample_running all_well) (sd_trace sd) i) st.
Proof.
  intros st. apply (shutdown_inevitable sample_running all_well st eq_refl); [|done].
  unfold lc_reachable, lc_init.
  assert (bool_decide (srv sample_running <> None) = true) as -> by (vm_compute; reflexivity).
  eapply rtc_l; [apply lc_accept|]. cbn [app].
  eapply rtc_l; [apply lc_shutdown|]. apply rtc_refl.
Defined.

(** ** Starting after a shutdown *)

(** [Start] looks at [started] and not at [stopped]: a runtime that was shut down
    before it was started can still be started, and when that succeeds the
    workers it launched are out of the reach of every later [Shutdown]. *)
Lemma start_after_shutdown {W K} mkq_Process mkq_Stop net_Listen schedule factories
    (rt rt1 : Runtime W K) tr w tr' w' a a' :
  (forall l, schedule l ≡ₚ l) -> valid_config (cfg rt) -> wf_runtime rt ->
  started rt = false -> srv rt = None -> stopErr rt = None ->
  Start mkq_Process mkq_Stop net_Listen schedule factories (Shutdown rt a).2 tr w
    = (None, rt1, tr', w') ->
  workers (Shutdown rt1 a').2 = workers rt1 /\ map fst (workers rt1) = registeredQueues rt1 /\
  (Shutdown rt1 a').1 = (Shutdown rt a).1.
Proof.
  intros Hsched Hv Hwf Hst Hsrv Hse Hstart.
  pose proof (Shutdown_first rt a Hse) as HS. pose proof (Shutdown_keeps rt a) as HK.
  destruct (Shutdown rt a) as [err rt']. cbn [fst snd] in *. cbv zeta in HK.
  destruct HS as (-> & Hw & _ & Hse'), HK as (Hc & Hrg & Ho & Hst' & Hsrv').
  rewrite <- Hc in Hv. rewrite <- Hst' in Hst. rewrite <- Hsrv' in Hsrv.
  apply (wf_same rt rt' Hrg Ho) in Hwf.
  pose proof (start_outcome mkq_Process mkq_Stop net_Listen schedule factories rt' tr w
                Hsched Hv Hwf Hst Hw Hsrv) as H.
  rewrite Hstart in H. destruct H as (_ & new & _ & Hq & _).
  apply Start_keeps in Hstart as (_ & _ & Hs1);
    [|intros q Hq'; by apply (wf_listed rt' Hwf)|apply valid_names, Hv].
  unfold Shutdown. rewrite Hs1, Hse'. done.
Qed.
