(* ===== verification/HttpExec.v ===== *)
(** * The http and webhook executors (executor/httpexec/httpexec.go, webhook.go)

    A job is posted as JSON to an operator's endpoint ("http") or to the URL its
    payload carries ("webhook"); the answer is classified into success, retry
    and permanent failure. The transport, the clock and the local time zone are
    parameters; the order in which a Go map of headers is ranged over is one
    too. *)

From S2P Require Import Prelude GoErrors GoStrings Logging RetryAfter Utf8 Crypto Http Json JsonFacts.
From S2P Require Import Rfc3339 Httpsend Config Executor Register.

Definition HeaderQueue : string := "X-Mkqd-Queue".
Definition HeaderJobID : string := "X-Mkqd-Job-Id".
Definition HeaderJobName : string := "X-Mkqd-Job-Name".
Definition HeaderAttempt : string := "X-Mkqd-Attempt".
Definition HeaderRetry : string := "X-Mkqd-Retry".

Definition defaultTimeout : Z := 30 * Second.
Definition defaultMaxResponseBytes : Z := DefaultMaxResponseBytes.
Definition failedReasonLimit : nat := 1024.
Definition headerValueLimit : nat := 256.

(** ** Options *)

Record Options := mkOptions {
  opt_URL : string;
  opt_Timeout : Z;
  opt_Secret : string;
  opt_UserAgent : string;
  opt_Headers : gmap string string;
  opt_MaxResponseBytes : Z;
  opt_AllowPrivateNetwork : option bool;
}.

Definition timeout (o : Options) : Z :=
  if opt_Timeout o <=? 0 then defaultTimeout else opt_Timeout o.
Definition maxResponseBytes (o : Options) : Z :=
  if opt_MaxResponseBytes o <=? 0 then defaultMaxResponseBytes else opt_MaxResponseBytes o.
Definition allowPrivate (o : Options) : bool := default true (opt_AllowPrivateNetwork o).

(** The webhook block has the same fields but the URL. *)
Record WebhookOptions := mkWebhookOptions {
  wh_Timeout : Z;
  wh_Secret : string;
  wh_UserAgent : string;
  wh_Headers : gmap string string;
  wh_MaxResponseBytes : Z;
  wh_AllowPrivateNetwork : option bool;
}.

Definition wh_timeout (o : WebhookOptions) : Z :=
  if wh_Timeout o <=? 0 then defaultTimeout else wh_Timeout o.
Definition wh_maxResponseBytes (o : WebhookOptions) : Z :=
  if wh_MaxResponseBytes o <=? 0 then defaultMaxResponseBytes else wh_MaxResponseBytes o.
Definition wh_allowPrivate (o : WebhookOptions) : bool := default false (wh_AllowPrivateNetwork o).

Record WebhookPayload := mkWebhookPayload {
  wp_URL : string;
  wp_Secret : string;
  wp_Headers : gmap string string;
  wp_Body : string;
}.

Record envelope := mkEnvelope {
  env_Queue : string;
  env_ID : string;
  env_Name : string;
  env_Data : string;
  env_AttemptsMade : Z;
  env_Timestamp : Z;
}.

Definition envelope_json (zone : Z -> Z) (e : envelope) : jout :=
  OObject [("queue", OString (env_Queue e)); ("id", OString (env_ID e)); ("name", OString (env_Name e));
           ("data", ORaw (env_Data e)); ("attemptsMade", OInt64 (env_AttemptsMade e));
           ("timestamp", time_json zone (env_Timestamp e))].

(** ** Header validity *)

Definition validHeaderValueByte (b : ascii) : bool :=
  ((32 <=? b2n b)%N || bool_decide (b = tab)) && negb (b2n b =? 127)%N.
Definition isTokenByte (b : ascii) : bool :=
  byte_in 97 122 b || byte_in 65 90 b || byte_in 48 57 b || has_byte "!#$%&'*+-.^_`|~" b.
Definition validHeaderName (s : string) : bool :=
  negb (bool_decide (s = "")) && str_forallb isTokenByte s.
Definition validHeaderValue (s : string) : bool := str_forallb validHeaderValueByte s.

(** [checkHeaders], on the order in which the map is ranged over. *)
Fixpoint checkHeaders (h : list (string * string)) : option error :=
  match h with
  | [] => None
  | (k, v) :: h =>
      if negb (validHeaderName k) then Some (Errorf "invalid header name %q" [OStr k])
      else if negb (validHeaderValue v) then Some (Errorf "invalid value for header %q" [OStr k])
      else checkHeaders h
  end.

Definition sanitizeHeaderValue (v : string) : string :=
  let v := if (headerValueLimit <? String.length v)%nat then Truncate v headerValueLimit else v in
  str_map (fun b => if validHeaderValueByte b then b else "_"%char) v.

Definition permanent (format : string) (args : list (operand error)) : error :=
  Errorf "mkqd/http: %w: %s" [OWrap (Sentinel ErrUnrecoverable); OSprintf format args].

Definition userAgent (override : string) : string :=
  if bool_decide (override = "") then UserAgent else override.

Definition Sign (secret : string) (unixSeconds : Z) (body : string) : string :=
  SignHMAC secret unixSeconds body.

(** [mergeHeaders]: the per-job headers over the configured ones. *)
Definition mergeHeaders (base over : gmap string string) : gmap string string :=
  if bool_decide (base = ∅) then over
  else if bool_decide (over = ∅) then base
  else over ∪ base.

Definition isBlocked (e : error) : bool := errors_Is e ErrBlocked.

(** ** Classification *)

Inductive outcome : Set := outcomeSuccess | outcomeRetry | outcomePermanent.

Section exec.
Context {U : Unicode}.

Definition isReservedHeader (name : string) : bool :=
  EqualFold name "Content-Type" || EqualFold name "User-Agent"
  || HasPrefix (ToLower name) "x-mkqd-".

Definition classify (status : Z) (h : header) : outcome :=
  if (200 <=? status) && (status <? 300) then outcomeSuccess
  else if EqualFold (header_Get h HeaderRetry) "no" then outcomePermanent
  else if (300 <=? status) && (status <? 400) then outcomePermanent
  else if (status =? StatusBadRequest) || (status =? StatusConflict)
          || (status =? StatusGone) || (status =? StatusUnprocessableEntity)
  then outcomePermanent
  else outcomeRetry.

(** The fields of a payload, as they are decoded. *)
Definition set_webhook (v : WebhookPayload) (key raw : string) (x : json)
  : WebhookPayload * option error :=
  match field_of ["url"; "secret"; "headers"; "body"] key with
  | Some "url" =>
      let '(s, e) := set_string "WebhookPayload" "url" (wp_URL v) x in
      (mkWebhookPayload s (wp_Secret v) (wp_Headers v) (wp_Body v), e)
  | Some "secret" =>
      let '(s, e) := set_string "WebhookPayload" "secret" (wp_Secret v) x in
      (mkWebhookPayload (wp_URL v) s (wp_Headers v) (wp_Body v), e)
  | Some "headers" =>
      let '(m, e) := set_map "WebhookPayload" "headers" (wp_Headers v) x in
      (mkWebhookPayload (wp_URL v) (wp_Secret v) m (wp_Body v), e)
  | Some _ => (mkWebhookPayload (wp_URL v) (wp_Secret v) (wp_Headers v) raw, None)
  | None => (v, None)
  end.
Definition decode_webhook (data : string) : res WebhookPayload :=
  Unmarshal "httpexec.WebhookPayload" set_webhook (mkWebhookPayload "" "" ∅ "") data.

(** The message of an endpoint's error object. *)
Definition decode_error (payload : string) : res string :=
  Unmarshal "struct" (fun v key _ x =>
      match field_of ["error"] key with Some _ => set_string "" "error" v x | None => (v, None) end)
    "" payload.

Definition returnValue (h : header) (payload : string) : any :=
  let trimmed := TrimSpace payload in
  if bool_decide (trimmed = "") then ANil
  else if negb (Contains (header_Get h "Content-Type") "json") then ANil
  else if negb (Valid trimmed) then ANil
  else ARaw trimmed.

Definition detail (h : header) (payload : string) : string :=
  let trimmed := TrimSpace payload in
  if bool_decide (trimmed = "") then "(empty response body)"
  else
    match (if Contains (header_Get h "Content-Type") "json" then decode_error trimmed else Ok "") with
    | Ok msg =>
        if bool_decide (msg = "") then Truncate trimmed failedReasonLimit
        else Truncate msg failedReasonLimit
    | Fail _ => Truncate trimmed failedReasonLimit
    end.

(** The order in which a header map is ranged over, and the local time zone. *)
Context (range : gmap string string -> list (string * string)).
Context (zone : Z -> Z).

Context {W : Type} `{!Net W}.

Definition checkTarget (raw : string) : option error :=
  if bool_decide (raw = "") then Some (New "url is required")
  else match url_Parse raw with
  | Fail err => Some (Errorf "url %q is not parseable: %v" [OStr raw; OVal err])
  | Ok u =>
      if negb (bool_decide (Scheme u = "http")) && negb (bool_decide (Scheme u = "https")) then
        Some (Errorf "url %q must use http or https" [OStr raw])
      else if bool_decide (url_Host u = "") then Some (Errorf "url %q has no host" [OStr raw])
      else None
  end.

Record sender := mkSender { snd_client : Client; snd_userAgent : string; snd_maxBytes : Z }.

Definition newSender (allow : bool) (maxBytes : Z) (ua : string) : sender :=
  mkSender (NewClient allow) ua maxBytes.

(** The loop over the extra headers. *)
Definition add_extra (h : header) (extra : list (string * string)) : header :=
  fold_left (fun h '(k, v) => if isReservedHeader k then h else header_Set h k v) extra h.

(** The headers of a dispatch, in the order they are set. *)
Definition dispatch_headers (s : sender) (extra : list (string * string)) (job : Job)
  (ts : Z) (secret body : string) : header :=
  let h := add_extra ∅ extra in
  let h := header_Set h "Content-Type" "application/json" in
  let h := header_Set h "User-Agent" (snd_userAgent s) in
  let h := header_Set h HeaderQueue (sanitizeHeaderValue (job_Queue job)) in
  let h := header_Set h HeaderJobID (sanitizeHeaderValue (job_ID job)) in
  let h := header_Set h HeaderJobName (sanitizeHeaderValue (job_Name job)) in
  let h := header_Set h HeaderAttempt (Itoa (wrap64 (job_AttemptsMade job + 1))) in
  let h := header_Set h HeaderTimestamp (FormatInt ts) in
  if bool_decide (secret = "") then h else header_Set h HeaderSignature (Sign secret ts body).

(** What [send] makes of the response: the part after [client.Do]. *)
Definition handle_response (s : sender) (target : string) (job : Job) (resp : Response) (w : W)
  : (any * option error) * W :=
  match ReadBody resp (snd_maxBytes s) with
  | (_, Some readErr, _) =>
      ((ANil, Some (Errorf "mkqd/http: POST %s: read response: %w" [OStr target; OWrap readErr])), w)
  | (payload, None, _) =>
      let h := resp_Header resp in
      let args := [OStr target; OStr (Status resp); OStr (detail h payload)] in
      match classify (StatusCode resp) h with
      | outcomeSuccess => ((returnValue h payload, None), w)
      | outcomePermanent => ((ANil, Some (permanent "POST %s: %s: %s" args)), w)
      | outcomeRetry =>
          let err := Errorf "mkqd/http: POST %s: %s: %s" args in
          let ra := header_Get h "Retry-After" in
          if bool_decide (ra = "") then ((ANil, Some err), w)
          else
            let '(d, ok) := ParseRetryAfter http_ParseTime ra (time_Now w) in
            if ok then ((ANil, Some (RetryAfter d err)), w)
            else
              ((ANil, Some err),
               log_write (LogRec LevelDebug "ignoring an unusable Retry-After"
                            [("job_id", AStr (job_ID job)); ("url", AStr target);
                             ("retry_after", AStr ra)]) w)
      end
  end.

(** What follows [client.Do] in [send]. *)
Definition after_do (s : sender) (target : string) (job : Job) (r : res Response * W)
  : (any * option error) * W :=
  match r with
  | (Fail err, w) =>
      if isBlocked err then
        ((ANil, Some (permanent "%s is not reachable: %v" [OStr target; OVal err])), w)
      else ((ANil, Some (Errorf "mkqd/http: POST %s: %w" [OStr target; OWrap err])), w)
  | (Ok resp, w) => handle_response s target job resp w
  end.

Definition send (s : sender) (limit : Z) (target body secret : string)
  (extra : list (string * string)) (job : Job) (w : W) : (any * option error) * W :=
  match NewRequest url_Parse MethodPost target body with
  | Fail err => ((ANil, Some (permanent "build request for %s: %v" [OStr target; OVal err])), w)
  | Ok req =>
      let ts := time_Now w / Second in
      let req := with_header req (dispatch_headers s extra job ts secret body) in
      after_do s target job (http_Do (snd_client s) limit req w)
  end.

(** ** The executors *)

Record httpExecutor := mkHttpExecutor { he_opts : Options; he_snd : sender }.
Record webhookExecutor := mkWebhookExecutor { we_opts : WebhookOptions; we_snd : sender }.

Definition newHTTPExecutor (decode : ExecutorConfig -> Options -> Options * option error)
  (zero : Options) (cfg : ExecutorConfig) : res httpExecutor :=
  match decode cfg zero with
  | (_, Some err) => Fail err
  | (opts, None) =>
      if bool_decide (opt_URL opts = "") then Fail (New "executor http: url is required")
      else match checkTarget (opt_URL opts) with
      | Some err => Fail (Errorf "executor http: %w" [OWrap err])
      | None =>
          match checkHeaders (range (opt_Headers opts)) with
          | Some err => Fail (Errorf "executor http: %w" [OWrap err])
          | None =>
              Ok (mkHttpExecutor opts
                    (newSender (allowPrivate opts) (maxResponseBytes opts)
                       (userAgent (opt_UserAgent opts))))
          end
      end
  end.

Definition newWebhookExecutor
  (decode : ExecutorConfig -> WebhookOptions -> WebhookOptions * option error)
  (zero : WebhookOptions) (cfg : ExecutorConfig) : res webhookExecutor :=
  match decode cfg zero with
  | (_, Some err) => Fail err
  | (opts, None) =>
      match checkHeaders (range (wh_Headers opts)) with
      | Some err => Fail (Errorf "executor webhook: %w" [OWrap err])
      | None =>
          Ok (mkWebhookExecutor opts
                (newSender (wh_allowPrivate opts) (wh_maxResponseBytes opts)
                   (userAgent (wh_UserAgent opts))))
      end
  end.

Definition job_envelope (job : Job) : envelope :=
  mkEnvelope (job_Queue job) (job_ID job) (job_Name job) (job_Data job) (job_AttemptsMade job)
    (job_Timestamp job).

(** [httpExecutor.Execute] *)
Definition http_Execute (e : httpExecutor) (job : Job) (w : W) : (any * option error) * W :=
  match Marshal (envelope_json zone (job_envelope job)) with
  | Fail err => ((ANil, Some (permanent "encode dispatch envelope: %v" [OVal err])), w)
  | Ok body =>
      send (he_snd e) (timeout (he_opts e)) (opt_URL (he_opts e)) body (opt_Secret (he_opts e))
        (range (opt_Headers (he_opts e))) job w
  end.

(** [webhookExecutor.Execute] *)
Definition webhook_Execute (e : webhookExecutor) (job : Job) (w : W) : (any * option error) * W :=
  match decode_webhook (job_Data job) with
  | Fail err =>
      ((ANil, Some (permanent "job %s: payload is not a webhook payload: %v"
                      [OStr (job_ID job); OVal err])), w)
  | Ok p =>
  match checkTarget (wp_URL p) with
  | Some err => ((ANil, Some (permanent "job %s: %v" [OStr (job_ID job); OVal err])), w)
  | None =>
  match checkHeaders (range (wp_Headers p)) with
  | Some err => ((ANil, Some (permanent "job %s: %v" [OStr (job_ID job); OVal err])), w)
  | None =>
      let secret := if bool_decide (wp_Secret p = "") then wh_Secret (we_opts e) else wp_Secret p in
      let body := if bool_decide (wp_Body p = "") then "null" else wp_Body p in
      send (we_snd e) (wh_timeout (we_opts e)) (wp_URL p) body secret
        (range (mergeHeaders (wh_Headers (we_opts e)) (wp_Headers p))) job w
  end end end.
End exec.

(** ** Lemmas: reserved headers *)

Section headers.
Context {U : Unicode}.

(** The keys the dispatch sets itself. *)
Definition own_keys : list string :=
  ["Content-Type"; "User-Agent"; HeaderQueue; HeaderJobID; HeaderJobName; HeaderAttempt;
   HeaderTimestamp; HeaderSignature].

Lemma own_keys_reserved k K :
  K ∈ own_keys -> CanonicalHeaderKey k = CanonicalHeaderKey K -> isReservedHeader k = true.
Proof.
  intros HK Hk.
  assert (is_ascii k = true /\ str_map lower_byte k = str_map lower_byte (CanonicalHeaderKey K))
    as [Ha Hl].
  { apply canonical_variant; [done|].
    repeat (apply elem_of_cons in HK as [->|HK]; [reflexivity|]). by apply elem_of_nil in HK. }
  unfold isReservedHeader, EqualFold, ToLower. rewrite Ha, Hl. clear Hk.
  repeat (apply elem_of_cons in HK as [->|HK]; [reflexivity|]). by apply elem_of_nil in HK.
Qed.

(** What an unreserved name cannot be. *)
Lemma unreserved_ne k K :
  isReservedHeader k = false -> K ∈ own_keys -> CanonicalHeaderKey K <> CanonicalHeaderKey k.
Proof. intros Hr HK He. by rewrite (own_keys_reserved k K HK) in Hr. Qed.

Lemma add_extra_own extra h K :
  K ∈ own_keys -> header_Get (add_extra h extra) K = header_Get h K.
Proof.
  intros HK. revert h. induction extra as [|[k v] extra IH]; intros h; [done|].
  cbn [add_extra fold_left]. fold (add_extra (if isReservedHeader k then h else header_Set h k v) extra).
  rewrite IH. destruct (isReservedHeader k) eqn:Hr; [done|].
  apply header_Get_Set_ne. intros He. by apply (unreserved_ne k K Hr HK).
Qed.

Lemma add_extra_app a b h : add_extra h (a ++ b) = add_extra (add_extra h a) b.
Proof. apply fold_left_app. Qed.

Lemma add_extra_other extra h K :
  Forall (fun p => isReservedHeader p.1 = false -> CanonicalHeaderKey p.1 <> CanonicalHeaderKey K) extra ->
  header_Get (add_extra h extra) K = header_Get h K.
Proof.
  intros HF. revert h. induction HF as [|[k v] extra Hk _ IH]; intros h; [done|].
  cbn [add_extra fold_left]. fold (add_extra (if isReservedHeader k then h else header_Set h k v) extra).
  rewrite IH. destruct (isReservedHeader k) eqn:Hr; [done|]. apply header_Get_Set_ne. by apply Hk.
Qed.

Lemma dispatch_other s extra job ts secret body k :
  isReservedHeader k = false ->
  header_Get (dispatch_headers s extra job ts secret body) k = header_Get (add_extra ∅ extra) k.
Proof.
  intros Hr. unfold dispatch_headers.
  assert (forall h K v, K ∈ own_keys -> header_Get (header_Set h K v) k = header_Get h k) as Hne
    by (intros h K v HK; by apply header_Get_Set_ne, unreserved_ne).
  destruct (bool_decide (secret = "")); rewrite ?Hne; try done; apply str_mem_spec; reflexivity.
Qed.
End headers.

(** ** Lemmas: what an execution does to the world *)

(** Every change of the world is its client's or the log's. *)
Section confined.
Context {U : Unicode} {W : Type} `{!Net W} (R : W -> W -> Prop) `{!PreOrder R}.
Context (range : gmap string string -> list (string * string)) (zone : Z -> Z).
Context (Hlog : forall r w, R w (log_write r w)).

Lemma handle_response_confined s target job resp w : R w (handle_response s target job resp w).2.
Proof.
  unfold handle_response. destruct (ReadBody _ _) as [[payload [e|]] rest]; [reflexivity|].
  destruct (classify _ _); [reflexivity| |reflexivity]. cbv zeta.
  case_bool_decide; [reflexivity|]. destruct (ParseRetryAfter _ _ _) as [d []]; [reflexivity|apply Hlog].
Qed.

Lemma send_confined s limit target body secret extra job w :
  (forall limit req w, R w (http_Do (snd_client s) limit req w).2) ->
  R w (send s limit target body secret extra job w).2.
Proof.
  intros Hdo. unfold send. destruct (NewRequest _ _ _ _) as [req|]; [|reflexivity]. cbv zeta.
  match goal with |- context [after_do _ _ _ (http_Do ?c ?l ?r w)] =>
    pose proof (Hdo l r w) as H; destruct (http_Do c l r w) as [[resp|e] w'] end; cbn [after_do].
  - etransitivity; [exact H|apply handle_response_confined].
  - by destruct (isBlocked e).
Qed.

Lemma http_Execute_confined e job w :
  (forall limit req w, R w (http_Do (snd_client (he_snd e)) limit req w).2) ->
  R w (http_Execute range zone e job w).2.
Proof.
  intros Hdo. unfold http_Execute. destruct (Marshal (envelope_json _ _)); [by apply send_confined|reflexivity].
Qed.

Lemma webhook_Execute_confined e job w :
  (forall limit req w, R w (http_Do (snd_client (we_snd e)) limit req w).2) ->
  R w (webhook_Execute range e job w).2.
Proof.
  intros Hdo. unfold webhook_Execute. destruct (decode_webhook _) as [p|]; [|reflexivity].
  destruct (checkTarget _); [reflexivity|]. destruct (checkHeaders _); [reflexivity|].
  cbv zeta. by apply send_confined.
Qed.
End confined.

(** ** Lemmas: errors and header values *)

Lemma permanent_unrecoverable f args : errors_Is (permanent f args) ErrUnrecoverable = true.
Proof. done. Qed.
Lemma permanent_no_hint f args : errors_As_RetryAfter (permanent f args) = None.
Proof. done. Qed.

Definition header_byte_map (b : ascii) : ascii := if validHeaderValueByte b then b else "_"%char.

Lemma sanitize_valid v : validHeaderValue (sanitizeHeaderValue v) = true.
Proof. apply str_forallb_map. intros c. by byte_cases c. Qed.

Lemma sanitize_length v : (String.length (sanitizeHeaderValue v) <= 271)%nat.
Proof.
  unfold sanitizeHeaderValue. cbv zeta. rewrite str_length_map. unfold headerValueLimit.
  destruct (Nat.ltb_spec 256 (String.length v)); [|lia].
  unfold Truncate. destruct (Nat.leb_spec (String.length v) 256); [lia|].
  rewrite str_length_app, str_length_take. pose proof (rune_cut_le v 256).
  change (String.length truncated_suffix) with 15%nat. lia.
Qed.

(** A value that is short and clean goes through unchanged. *)
Lemma sanitize_id v :
  (String.length v <= headerValueLimit)%nat -> validHeaderValue v = true -> sanitizeHeaderValue v = v.
Proof.
  intros Hl Hv. unfold sanitizeHeaderValue. cbv zeta.
  destruct (Nat.ltb_spec headerValueLimit (String.length v)); [lia|].
  clear Hl H. unfold validHeaderValue in Hv. induction v as [|c v IH]; [done|].
  cbn [str_forallb str_map] in *. apply andb_prop in Hv as [-> Hv]. by rewrite IH.
Qed.

Lemma digits_header_value s : str_forallb is_digit s = true -> validHeaderValue s = true.
Proof. apply str_forallb_impl. intros c. by byte_cases c. Qed.

Lemma FormatInt_header_value z : validHeaderValue (FormatInt z) = true.
Proof.
  unfold FormatInt. destruct (z <? 0); [|apply digits_header_value, FormatUint_digits].
  unfold validHeaderValue. cbn [str_forallb]. rewrite ?str_app_cons. cbn [str_forallb].
  apply andb_true_intro. split; [reflexivity|]. apply digits_header_value, FormatUint_digits.
Qed.


Section outcome.
Context {U : Unicode}.

Definition is_success (status : Z) : bool := (200 <=? status) && (status <? 300).

(** An answer that no retry would change. *)
Definition is_final (status : Z) (h : header) : bool :=
  negb (is_success status) &&
  (EqualFold (header_Get h HeaderRetry) "no" || ((300 <=? status) && (status <? 400))
   || bool_decide (status ∈ [400; 409; 410; 422])).

Lemma is_success_spec status : is_success status = true <-> 200 <= status < 300.
Proof. unfold is_success. rewrite andb_true_iff, Z.leb_le, Z.ltb_lt. done. Qed.

Lemma final_statuses status :
  (status =? StatusBadRequest) || (status =? StatusConflict) || (status =? StatusGone)
  || (status =? StatusUnprocessableEntity) = bool_decide (status ∈ [400; 409; 410; 422]).
Proof.
  apply eq_true_iff_eq. rewrite bool_decide_eq_true, !orb_true_iff, !Z.eqb_eq.
  rewrite !elem_of_cons, elem_of_nil. unfold StatusBadRequest, StatusConflict, StatusGone,
    StatusUnprocessableEntity. tauto.
Qed.

Lemma answer_classify_spec status h :
  classify status h =
  if is_success status then outcomeSuccess
  else if is_final status h then outcomePermanent else outcomeRetry.
Proof.
  unfold classify, is_final. rewrite final_statuses. fold (is_success status).
  destruct (is_success status); [done|]. cbn [negb andb].
  destruct (EqualFold _ _); [done|]. cbn [orb]. destruct (_ && _); [done|]. cbn [orb].
  by destruct (bool_decide _).
Qed.
End outcome.

(** ** Properties *)

Section properties.
Context {U : Unicode}.
Context (range : gmap string string -> list (string * string)).
Context {W : Type} `{!Net W}.

(** C21 The headers of a dispatch are the executor's own: whatever extra
    headers the configuration and the payload carry, in whatever order a Go
    map yields them and however they are capitalised, Content-Type,
    User-Agent and every X-Mkqd header have the executor's value, the
    signature is there exactly when a secret is set; and an extra header that
    is not reserved keeps the last value given under its name. *)
Theorem dispatch_headers_own s extra job ts secret body :
  let h := dispatch_headers s extra job ts secret body in
  header_Get h "Content-Type" = "application/json" /\
  header_Get h "User-Agent" = snd_userAgent s /\
  header_Get h HeaderQueue = sanitizeHeaderValue (job_Queue job) /\
  header_Get h HeaderJobID = sanitizeHeaderValue (job_ID job) /\
  header_Get h HeaderJobName = sanitizeHeaderValue (job_Name job) /\
  header_Get h HeaderAttempt = Itoa (wrap64 (job_AttemptsMade job + 1)) /\
  header_Get h HeaderTimestamp = FormatInt ts /\
  header_Get h HeaderSignature =
    (if bool_decide (secret = "") then "" else Sign secret ts body) /\
  (forall before k v after, extra = before ++ (k, v) :: after -> isReservedHeader k = false ->
     Forall (fun p => CanonicalHeaderKey p.1 <> CanonicalHeaderKey k) after ->
     header_Get h k = v).
Proof.
  cbv zeta. do 7 (split; [unfold dispatch_headers; destruct (bool_decide (secret = ""));
                          header_get; reflexivity|]).
  split.
  - unfold dispatch_headers. destruct (bool_decide (secret = "")); header_get; [|reflexivity].
    rewrite add_extra_own by (apply str_mem_spec; reflexivity). reflexivity.
  - intros before k v after -> Hr HF. rewrite dispatch_other, add_extra_app by done.
    cbn [add_extra fold_left].
    rewrite Hr. fold (add_extra ∅ before).
    fold (add_extra (header_Set (add_extra ∅ before) k v) after).
    rewrite add_extra_other; [by apply header_Get_Set_eq|].
    eapply Forall_impl; [exact HF|]. by intros p Hp _.
Qed.

(** How a response becomes an outcome: a 2xx is success whatever its
    headers say; otherwise the job fails for good exactly when the endpoint
    said so with X-Mkqd-Retry: no or the status is a redirect, 400, 409, 410
    or 422; every other answer is retried, with the delay of a readable
    Retry-After attached to the error and nothing attached otherwise. *)
Theorem response_outcome s target job resp w payload rest :
  ReadBody resp (snd_maxBytes s) = (payload, None, rest) ->
  let status := StatusCode resp in
  let h := resp_Header resp in
  let out := handle_response s target job resp w in
  let hint := ParseRetryAfter http_ParseTime (header_Get h "Retry-After") (time_Now w) in
  (out.1.2 = None <-> 200 <= status < 300) /\
  (200 <= status < 300 -> out.1.1 = returnValue h payload) /\
  errors_Is_opt out.1.2 ErrUnrecoverable = is_final status h /\
  fst <$> errors_As_opt out.1.2 =
    (if negb (is_success status) && negb (is_final status h) && hint.2 && (0 <? hint.1)
     then Some hint.1 else None).
Proof.
  intros Hread. cbv zeta. unfold handle_response. rewrite Hread. cbv zeta.
  rewrite answer_classify_spec, <- is_success_spec.
  destruct (is_success (StatusCode resp)) eqn:Hs.
  { unfold is_final. rewrite Hs. by split_and!. }
  cbn [negb]. destruct (is_final (StatusCode resp) (resp_Header resp)).
  { by split_and!. }
  case_bool_decide as Hra; [rewrite Hra; by split_and!|].
  destruct (ParseRetryAfter _ _ _) as [d []]; cbn [andb negb fst snd]; [|by split_and!].
  unfold RetryAfter. destruct (Z.leb_spec d 0), (Z.ltb_spec 0 d); try lia; by split_and!.
Qed.





(** C24 What an endpoint receives: a job whose data is JSON goes to the configured
    URL in one send, as a text that reads back as an object of exactly the six
    documented members, the data being the value the producer wrote; data that
    is not JSON fails the job for good without a request. *)
Theorem dispatch_envelope zone e job w :
  let out := http_Execute range zone e job w in
  match parse_json (job_Data job) with
  | None => job_Data job <> "" -> errors_Is_opt out.1.2 ErrUnrecoverable = true /\ out.2 = w
  | Some data =>
      json_depth data < maxNestingDepth ->
      time_json zone (job_Timestamp job) = OString (rfc3339 zone true (job_Timestamp job)) ->
      exists body,
        out = send (he_snd e) (timeout (he_opts e)) (opt_URL (he_opts e)) body (opt_Secret (he_opts e))
                (range (opt_Headers (he_opts e))) job w /\
        parse_json body = Some (JObject
          [("queue", JString (to_valid (job_Queue job))); ("id", JString (to_valid (job_ID job)));
           ("name", JString (to_valid (job_Name job))); ("data", data);
           ("attemptsMade", JNumber (FormatInt (job_AttemptsMade job)));
           ("timestamp", JString (rfc3339 zone true (job_Timestamp job)))])
  end.
Proof.
  cbv zeta. unfold http_Execute. pose proof (Marshal_encodes (envelope_json zone (job_envelope job))) as HM.
  unfold envelope_json, job_envelope in *. cbn [env_Queue env_ID env_Name env_Data env_AttemptsMade env_Timestamp] in *.
  destruct (parse_json (job_Data job)) as [data|] eqn:Hd.
  - intros Hdepth Ht. rewrite Ht in HM |- *. cbn [denote] in HM. rewrite Hd in HM.
    rewrite bool_decide_eq_false_2 in HM by (intros Hn; by rewrite Hn in Hd).
    destruct (Marshal _) as [body|]; [|done]. eexists. split; [done|].
    apply written_parses.
    + rewrite <- (to_valid_ascii (rfc3339 zone true (job_Timestamp job))) by apply rfc3339_ascii. exact HM.
    + unfold maxNestingDepth in *. cbn [json_depth fold_right snd]. lia.
  - intros Hne. cbn [denote] in HM. rewrite bool_decide_eq_false_2, Hd in HM by done.
    destruct (Marshal _) as [body|]; done.
Qed.
End properties.

(** A rate-limited answer and an executor, for the witnesses. *)
Definition busy : Response :=
  mkResponse 429 "429 Too Many Requests" {[ "Retry-After" := ["120"] ]} (mkBody "later" None).
Definition sample_sender : sender := mkSender (NewClient false) UserAgent 65536.
Definition sample_job : Job := mkJob "hooks" "7" "hooks" "{}" 0 0 None.
Definition fake_world : fake_net := mkFake (Ok busy) (1758500000 * Second) [] [].

Lemma response_outcome_witness :
  let out := @handle_response ascii_only fake_net fake_Net
               sample_sender "https://a.example/hook" sample_job busy fake_world in
  fst <$> errors_As_opt out.1.2 = Some (120 * Second) /\
  errors_Is_opt out.1.2 ErrUnrecoverable = false.
Proof.
  destruct (@response_outcome ascii_only fake_net fake_Net
              sample_sender "https://a.example/hook" sample_job busy fake_world "later"
              (mkBody "" None)) as (_ & _ & H1 & H2); [vm_compute; reflexivity|].
  cbv zeta. rewrite H1, H2. split; vm_compute; reflexivity.
Defined.



Definition sample_http : httpExecutor :=
  mkHttpExecutor (mkOptions "https://a.example/jobs" 0 "" "" ∅ 0 None) sample_sender.
Definition data_job : Job := mkJob "mail" "9" "send" (quoted "{'to' : [1, '<a>']}") 2 (1758500000 * Second) None.

Lemma dispatch_envelope_witness :
  exists body, fake_sent (@http_Execute ascii_only map_to_list utc fake_net fake_Net sample_http data_job fake_world).2
    = [mkRequest MethodPost (Some (mkURL "https" "" "a.example" "/jobs" false "")) "a.example"
         (@dispatch_headers ascii_only sample_sender [] data_job 1758500000 "" body) body] /\
    parse_json body <> None.
Proof.
  pose proof (@dispatch_envelope ascii_only map_to_list fake_net fake_Net utc sample_http data_job
                fake_world) as H.
  assert (parse_json (job_Data data_job)
          = Some (JObject [("to", JArray [JNumber "1"; JString "<a>"])])) as Hd by (vm_compute; reflexivity).
  cbv zeta in H. rewrite Hd in H.
  destruct H as (body & Hout & Hp); [reflexivity|reflexivity|].
  exists body. split; [rewrite Hout; reflexivity|by rewrite Hp].
Defined.

(** Which of two spellings of a header wins is left to Go's map order: a
    payload header that differs from a configured one only in capitalisation is
    merged as a second entry, and there are two orders of the merged map under
    which the dispatch carries the configured and the payload's value. *)
Theorem mergeHeaders_case_order {U : Unicode} s job ts secret body :
  exists base over order1 order2,
    order1 ≡ₚ map_to_list (mergeHeaders base over) /\
    order2 ≡ₚ map_to_list (mergeHeaders base over) /\
    header_Get (dispatch_headers s order1 job ts secret body) "X-Tenant" = "payload" /\
    header_Get (dispatch_headers s order2 job ts secret body) "X-Tenant" = "configured".
Proof.
  exists {[ "X-Tenant" := "configured" ]}, {[ "x-tenant" := "payload" ]}.
  exists [("X-Tenant", "configured"); ("x-tenant", "payload")],
         [("x-tenant", "payload"); ("X-Tenant", "configured")].
  assert (map_to_list (mergeHeaders {[ "X-Tenant" := "configured" ]} {[ "x-tenant" := "payload" ]})
          ≡ₚ [("X-Tenant", "configured"); ("x-tenant", "payload")]) as Hm.
  { assert (mergeHeaders {[ "X-Tenant" := "configured" ]} {[ "x-tenant" := "payload" ]} =
            <[ "X-Tenant" := "configured" ]> {[ "x-tenant" := "payload" ]}) as ->
      by (vm_compute; reflexivity).
    rewrite map_to_list_insert, map_to_list_singleton by reflexivity. done. }
  split; [by rewrite Hm|]. split; [rewrite Hm; apply Permutation_swap|].
  rewrite !dispatch_other by reflexivity. split; reflexivity.
Qed.
