(* ===== verification/ApDeliver.v ===== *)
(** * The ActivityPub delivery executor (executor/apdeliver/apdeliver.go)

    One activity is posted to one inbox with a digest and an HTTP signature. The
    signer is the interface of Httpsig.v over the same world the transport lives
    in: a local key, a directory of keys or a remote endpoint (Signers.v). *)

From S2P Require Import Prelude GoErrors GoStrings Logging RetryAfter Crypto Http Json Httpsig Httpsend.
From S2P Require Import Executor.

Definition defaultTimeout : Z := 30 * Second.
Definition defaultContentType : string := "application/activity+json".
Definition failedReasonLimit : nat := 1024.

Record Payload := mkPayload {
  Inbox : string;
  p_KeyId : string;
  Activity : string;              (* raw JSON; empty when absent *)
  p_Body : string;
  ContentType : string;
  Headers : gmap string string;
}.

Record Options (W : Type) := mkOptions {
  o_Signer : option (Signer W);
  o_Timeout : Z;
  o_UserAgent : string;
  o_MaxResponseBytes : Z;
  o_AllowPrivateNetwork : bool;
}.
Arguments mkOptions {W}.
Arguments o_Signer {W}.
Arguments o_Timeout {W}.
Arguments o_UserAgent {W}.
Arguments o_MaxResponseBytes {W}.
Arguments o_AllowPrivateNetwork {W}.

Record Deliverer (W : Type) := mkDeliverer {
  signer : Signer W;
  client : Client;
  e_timeout : Z;
  e_userAgent : string;
  maxBytes : Z;
  contentType : string;
}.
Arguments mkDeliverer {W}.
Arguments signer {W}.
Arguments client {W}.
Arguments e_timeout {W}.
Arguments e_userAgent {W}.
Arguments maxBytes {W}.
Arguments contentType {W}.

Definition New_deliverer {W} (opts : Options W) : res (Deliverer W) :=
  match o_Signer opts with
  | None => Fail (New "apdeliver: a signer is required")
  | Some s =>
      Ok (mkDeliverer s (NewClient (o_AllowPrivateNetwork opts))
            (if o_Timeout opts <=? 0 then defaultTimeout else o_Timeout opts)
            (if bool_decide (o_UserAgent opts = "") then UserAgent else o_UserAgent opts)
            (if o_MaxResponseBytes opts <=? 0 then DefaultMaxResponseBytes
             else o_MaxResponseBytes opts)
            defaultContentType)
  end.

Definition permanent (format : string) (args : list (operand error)) : error :=
  Errorf "apdeliver: %w: %s" [OWrap (Sentinel ErrUnrecoverable); OSprintf format args].

Definition isTokenByte (b : ascii) : bool :=
  byte_in 97 122 b || byte_in 65 90 b || byte_in 48 57 b || has_byte "!#$%&'*+-.^_`|~" b.
Definition validHeaderName (s : string) : bool :=
  negb (bool_decide (s = "")) && str_forallb isTokenByte s.
Definition invalid_value_byte (b : ascii) : bool :=
  ((b2n b <? 32)%N && negb (bool_decide (b = tab))) || (b2n b =? 127)%N.
Definition validHeaderValue (s : string) : bool :=
  str_forallb (fun b => negb (invalid_value_byte b)) s.

(** [Payload.resolveBody] *)
Definition resolveBody (p : Payload) (defaultContentType : string) : res (string * string) :=
  let contentType :=
    if bool_decide (ContentType p = "") then defaultContentType else ContentType p in
  let activity := TrimSpace (Activity p) in
  match activity with
  | String c _ =>
      if negb (bool_decide (p_Body p = "")) then
        Fail (New (qstr "activity" +:+ " and " +:+ qstr "body" +:+ " are exclusive"))
      else if negb (bool_decide (c = "{"%char)) then
        Fail (New (qstr "activity" +:+ " must be a JSON object"))
      else Ok (activity, contentType)
  | EmptyString =>
      if negb (bool_decide (p_Body p = "")) then Ok (p_Body p, contentType)
      else Fail (New ("one of " +:+ qstr "activity" +:+ " or " +:+ qstr "body" +:+ " is required"))
  end.

Inductive outcome : Set := outcomeSuccess | outcomeRetry | outcomePermanent.

Definition classify (status : Z) : outcome :=
  if (200 <=? status) && (status <? 300) then outcomeSuccess
  else if (status =? StatusUnauthorized) || (status =? StatusRequestTimeout)
          || (status =? StatusTooManyRequests) then outcomeRetry
  else if (300 <=? status) && (status <? 500) then outcomePermanent
  else outcomeRetry.

Definition detail (payload : string) : string :=
  let trimmed := TrimSpace payload in
  if bool_decide (trimmed = "") then "(empty response body)"
  else Truncate trimmed failedReasonLimit.

Definition reserved_names : list string :=
  ["host"; "date"; "digest"; "signature"; "content-type"; "content-length"; "user-agent"; "accept"].

Section deliver.
Context {U : Unicode}.

Definition isSignedOrReserved (name : string) : bool := str_mem (ToLower name) reserved_names.

(** The loop over the payload's headers, in the order they are ranged over:
    the name of the first invalid one, or the headers. *)
Fixpoint add_headers (h : header) (hs : list (string * string)) : header + string :=
  match hs with
  | [] => inl h
  | (k, v) :: hs =>
      if isSignedOrReserved k then add_headers h hs
      else if negb (validHeaderName k) || negb (validHeaderValue v) then inr k
      else add_headers (header_Set h k v) hs
  end.

(** The fields of a payload, as they are decoded. *)
Definition set_payload (v : Payload) (key raw : string) (x : json) : Payload * option error :=
  let str name old := set_string "Payload" name old x in
  match field_of ["inbox"; "keyId"; "activity"; "body"; "contentType"; "headers"] key with
  | Some "inbox" =>
      let '(s, e) := str "inbox" (Inbox v) in
      (mkPayload s (p_KeyId v) (Activity v) (p_Body v) (ContentType v) (Headers v), e)
  | Some "keyId" =>
      let '(s, e) := str "keyId" (p_KeyId v) in
      (mkPayload (Inbox v) s (Activity v) (p_Body v) (ContentType v) (Headers v), e)
  | Some "activity" =>
      (mkPayload (Inbox v) (p_KeyId v) raw (p_Body v) (ContentType v) (Headers v), None)
  | Some "body" =>
      let '(s, e) := str "body" (p_Body v) in
      (mkPayload (Inbox v) (p_KeyId v) (Activity v) s (ContentType v) (Headers v), e)
  | Some "contentType" =>
      let '(s, e) := str "contentType" (ContentType v) in
      (mkPayload (Inbox v) (p_KeyId v) (Activity v) (p_Body v) s (Headers v), e)
  | Some _ =>
      let '(m, e) := set_map "Payload" "headers" (Headers v) x in
      (mkPayload (Inbox v) (p_KeyId v) (Activity v) (p_Body v) (ContentType v) m, e)
  | None => (v, None)
  end.
Definition decode_payload (data : string) : res Payload :=
  Unmarshal "apdeliver.Payload" set_payload (mkPayload "" "" "" "" "" ∅) data.

Context (range : gmap string string -> list (string * string)).
Context {W : Type} `{!Net W}.

Definition checkInbox (raw : string) : option error :=
  if bool_decide (raw = "") then Some (New "inbox is required")
  else match url_Parse raw with
  | Fail err => Some (Errorf "inbox %q is not parseable: %v" [OStr raw; OVal err])
  | Ok u =>
      if negb (bool_decide (Scheme u = "http")) && negb (bool_decide (Scheme u = "https")) then
        Some (Errorf "inbox %q must use http or https" [OStr raw])
      else if bool_decide (url_Host u = "") then Some (Errorf "inbox %q has no host" [OStr raw])
      else None
  end.

(** The part of [Execute] that follows the response. *)
Definition handle_response (e : Deliverer W) (inbox : string) (job : Job) (resp : Response) (w : W)
  : (any * option error) * W :=
  match ReadBody resp (maxBytes e) with
  | (_, Some readErr, _) =>
      ((ANil, Some (Errorf "apdeliver: POST %s: read response: %w" [OStr inbox; OWrap readErr])), w)
  | (payload, None, _) =>
      let args := [OStr inbox; OStr (Status resp); OStr (detail payload)] in
      match classify (StatusCode resp) with
      | outcomeSuccess => ((ANil, None), w)
      | outcomePermanent => ((ANil, Some (permanent "POST %s: %s: %s" args)), w)
      | outcomeRetry =>
          let err := Errorf "apdeliver: POST %s: %s: %s" args in
          let ra := header_Get (resp_Header resp) "Retry-After" in
          if bool_decide (ra = "") then ((ANil, Some err), w)
          else
            let '(d, ok) := ParseRetryAfter http_ParseTime ra (time_Now w) in
            if ok then ((ANil, Some (RetryAfter d err)), w)
            else
              ((ANil, Some err),
               log_write (LogRec LevelDebug "ignoring an unusable Retry-After"
                            [("job_id", AStr (job_ID job)); ("inbox", AStr inbox);
                             ("retry_after", AStr ra)]) w)
      end
  end.

(** What follows [client.Do]. *)
Definition after_do (e : Deliverer W) (inbox : string) (job : Job) (r : res Response * W)
  : (any * option error) * W :=
  match r with
  | (Fail err, w) =>
      if errors_Is err ErrBlocked then
        ((ANil, Some (permanent "job %s: %s is not reachable: %v"
                        [OStr (job_ID job); OStr inbox; OVal err])), w)
      else ((ANil, Some (Errorf "apdeliver: POST %s: %w" [OStr inbox; OWrap err])), w)
  | (Ok resp, w) => handle_response e inbox job resp w
  end.

(** What follows [httpsig.SignRequest]. *)
Definition after_sign (e : Deliverer W) (inbox : string) (job : Job)
  (r : option error * Request * W) : (any * option error) * W :=
  match r with
  | (Some err, _, w) =>
      if errors_Is err ErrUnknownKey then
        ((ANil, Some (permanent "job %s: %v" [OStr (job_ID job); OVal err])), w)
      else ((ANil, Some (Errorf "apdeliver: job %s: sign: %w" [OStr (job_ID job); OWrap err])), w)
  | (None, req, w) => after_do e inbox job (http_Do (client e) (e_timeout e) req w)
  end.

Definition deliver_headers (e : Deliverer W) (contentType : string) (h : header) : header :=
  let h := header_Set h "Content-Type" contentType in
  let h := header_Set h "User-Agent" (e_userAgent e) in
  header_Set h "Accept" "application/activity+json, application/ld+json".

Definition Deliver (e : Deliverer W) (job : Job) (w : W) : (any * option error) * W :=
  match decode_payload (job_Data job) with
  | Fail err =>
      ((ANil, Some (permanent "job %s: payload is not a delivery payload: %v"
                      [OStr (job_ID job); OVal err])), w)
  | Ok p =>
  match resolveBody p (contentType e) with
  | Fail err => ((ANil, Some (permanent "job %s: %v" [OStr (job_ID job); OVal err])), w)
  | Ok (body, ct) =>
  if negb (validHeaderValue ct) then
    ((ANil, Some (permanent "job %s: invalid contentType" [OStr (job_ID job)])), w)
  else
  match checkInbox (Inbox p) with
  | Some err => ((ANil, Some (permanent "job %s: %v" [OStr (job_ID job); OVal err])), w)
  | None =>
  match NewRequest url_Parse MethodPost (Inbox p) body with
  | Fail err =>
      ((ANil, Some (permanent "job %s: build request: %v" [OStr (job_ID job); OVal err])), w)
  | Ok req =>
  match add_headers (req_Header req) (range (Headers p)) with
  | inr k => ((ANil, Some (permanent "job %s: invalid header %q" [OStr (job_ID job); OStr k])), w)
  | inl h =>
      let req := with_header req (deliver_headers e ct h) in
      after_sign e (Inbox p) job
        (SignRequest (time_Now w) req body (p_KeyId p) (Some (signer e)) w)
  end end end end end.

(** The executor behind mkqd's interface. *)
Definition deliver_executor (e : Deliverer W) : Executor.Executor W := mkExecutor (Deliver e).
End deliver.

(** ** Lemmas *)

Section lemmas.
Context {U : Unicode}.
Context (range : gmap string string -> list (string * string)).
Context {W : Type} `{!Net W}.

(** A header the loop refuses. *)
Definition bad_header (p : string * string) : Prop :=
  isSignedOrReserved p.1 = false /\ (validHeaderName p.1 = false \/ validHeaderValue p.2 = false).

Lemma add_headers_bad h hs :
  (exists k, add_headers h hs = inr k) <-> Exists bad_header hs.
Proof.
  revert h. induction hs as [|[k v] hs IH]; intros h; cbn [add_headers].
  { split; [by intros [? ?]|by intros ?%Exists_nil]. }
  rewrite Exists_cons. unfold bad_header at 1. cbn [fst snd].
  destruct (isSignedOrReserved k); [rewrite IH; naive_solver|].
  destruct (validHeaderName k); cbn [negb orb]; [|naive_solver].
  destruct (validHeaderValue v); cbn [negb]; [|naive_solver].
  rewrite IH. naive_solver.
Qed.

(** Header names the payload cannot reach. *)
Lemma reserved_variant k K :
  K ∈ reserved_names -> CanonicalHeaderKey k = CanonicalHeaderKey K -> isSignedOrReserved k = true.
Proof.
  intros HK Hk.
  assert (is_ascii k = true /\ str_map lower_byte k = str_map lower_byte (CanonicalHeaderKey K))
    as [Ha Hl].
  { apply canonical_variant; [done|].
    repeat (apply elem_of_cons in HK as [->|HK]; [reflexivity|]). by apply elem_of_nil in HK. }
  unfold isSignedOrReserved, ToLower. rewrite Ha, Hl. clear Hk.
  repeat (apply elem_of_cons in HK as [->|HK]; [reflexivity|]). by apply elem_of_nil in HK.
Qed.

Lemma add_headers_reserved h hs h' K :
  add_headers h hs = inl h' -> K ∈ reserved_names -> header_Get h' K = header_Get h K.
Proof.
  intros H HK. revert h H. induction hs as [|[k v] hs IH]; intros h; cbn [add_headers].
  { by intros [= <-]. }
  destruct (isSignedOrReserved k) eqn:Hr; [by apply IH|].
  destruct (_ || _); [done|]. intros H. rewrite (IH _ H). apply header_Get_Set_ne.
  intros He. by rewrite (reserved_variant k K HK He) in Hr.
Qed.

(** A payload no retry would make deliverable. *)
Definition defective (e : Deliverer W) (p : Payload) : Prop :=
  match resolveBody p (contentType e) with
  | Fail _ => True
  | Ok (_, ct) =>
      validHeaderValue ct = false \/ checkInbox (Inbox p) <> None \/
      Exists bad_header (map_to_list (Headers p))
  end.

Lemma checkInbox_url raw :
  checkInbox raw = None ->
  exists u, url_Parse raw = Ok u /\ (Scheme u = "http" \/ Scheme u = "https") /\ url_Host u <> "".
Proof.
  unfold checkInbox. case_bool_decide; [done|].
  destruct (url_Parse raw) as [u|] eqn:Hu; [|done]. intros Hok. exists u. split; [done|].
  destruct (bool_decide_reflect (Scheme u = "http")), (bool_decide_reflect (Scheme u = "https")),
    (bool_decide_reflect (url_Host u = "")); try done; auto.
Qed.

(** The request of a delivery before it is signed. *)
Definition unsigned (e : Deliverer W) (u : URL) (body ct : string) (h : header) : Request :=
  let host := removeEmptyPort (url_Host u) in
  mkRequest MethodPost
    (Some (mkURL (Scheme u) (Opaque u) host (EscapedPath u) (ForceQuery u) (RawQuery u)))
    host (deliver_headers e ct h) body.

Lemma Deliver_cases e job w :
  (forall m, range m ≡ₚ map_to_list m) ->
  let out := Deliver range e job w in
  (errors_Is_opt out.1.2 ErrUnrecoverable = true /\ out.2 = w /\
   forall p, decode_payload (job_Data job) = Ok p -> defective e p) \/
  exists p body ct u h,
    decode_payload (job_Data job) = Ok p /\ ~ defective e p /\
    resolveBody p (contentType e) = Ok (body, ct) /\ url_Parse (Inbox p) = Ok u /\
    (forall K, K ∈ reserved_names -> header_Get h K = "") /\
    add_headers ∅ (range (Headers p)) = inl h /\
    out = after_sign e (Inbox p) job
            (SignRequest (time_Now w) (unsigned e u body ct h) body (p_KeyId p)
               (Some (signer e)) w).
Proof.
  intros Hr. cbv zeta. unfold Deliver.
  destruct (decode_payload (job_Data job)) as [p|err] eqn:Hp; [|by left].
  destruct (resolveBody p (contentType e)) as [[body ct]|err] eqn:Hb.
  2:{ left. split_and!; [done..|]. intros ? [= <-]. unfold defective. by rewrite Hb. }
  destruct (validHeaderValue ct) eqn:Hct; cbn [negb].
  2:{ left. split_and!; [done..|]. intros ? [= <-]. unfold defective. rewrite Hb. by left. }
  destruct (checkInbox (Inbox p)) as [err|] eqn:Hi.
  { left. split_and!; [done..|]. intros ? [= <-]. unfold defective. rewrite Hb, Hi. right. by left. }
  destruct (checkInbox_url _ Hi) as (u & Hu & _). unfold NewRequest. rewrite Hu.
  cbn [mbind res_bind req_Header].
  destruct (add_headers ∅ (range (Headers p))) as [h|k] eqn:Hh.
  - right. exists p, body, ct, u, h. split_and!; try done.
    + unfold defective. rewrite Hb, Hi, Hct. intros [?|[?|Hbad]]; try done.
      rewrite <- Hr in Hbad. apply (add_headers_bad ∅) in Hbad as [k Hk]. congruence.
    + intros K HK. by rewrite (add_headers_reserved _ _ _ _ Hh HK).
  - left. split_and!; [done..|]. intros ? [= <-]. unfold defective. rewrite Hb. do 2 right.
    rewrite <- Hr. apply (add_headers_bad ∅). by exists k.
Qed.

(** Every change of the world is the signer's, its client's or the log's. *)
Lemma Deliver_confined (R : W -> W -> Prop) `{!PreOrder R} (e : Deliverer W) job w :
  (forall r w, R w (log_write r w)) ->
  (forall keyID str w, R w (Sign (signer e) keyID str w).2) ->
  (forall limit req w, R w (http_Do (client e) limit req w).2) ->
  R w (Deliver range e job w).2.
Proof.
  intros Hlog Hsign Hdo. unfold Deliver. destruct (decode_payload _) as [p|]; [|reflexivity].
  destruct (resolveBody _ _) as [[body ct]|]; [|reflexivity].
  destruct (negb _); [reflexivity|]. destruct (checkInbox _); [reflexivity|].
  destruct (NewRequest _ _ _ _) as [req|]; [|reflexivity].
  destruct (add_headers _ _) as [h|]; [|reflexivity]. cbv zeta.
  match goal with |- context [SignRequest ?t ?rq ?b ?k (Some ?sg) w] =>
    pose proof (SignRequest_world R t rq b k sg w Hsign) as H end.
  destruct (SignRequest _ _ _ _ _ w) as [[[err|] rq] w']; cbn [after_sign].
  - by destruct (errors_Is err ErrUnknownKey).
  - match goal with |- context [http_Do ?c ?l ?r w'] =>
      pose proof (Hdo l r w') as H2; destruct (http_Do c l r w') as [[resp|er] w2] end; cbn [after_do].
    + etransitivity; [exact H|]. etransitivity; [exact H2|]. unfold handle_response.
      destruct (ReadBody _ _) as [[payload [?|]] rest]; [reflexivity|].
      destruct (classify _); [reflexivity| |reflexivity]. cbv zeta.
      case_bool_decide; [reflexivity|]. destruct (ParseRetryAfter _ _ _) as [d []]; [reflexivity|apply Hlog].
    + etransitivity; [exact H|]. by destruct (errors_Is er ErrBlocked).
Qed.

(** A status that ends a delivery for good. *)
Definition is_final (status : Z) : bool :=
  (300 <=? status) && (status <? 500) && negb (bool_decide (status ∈ [401; 408; 429])).

Lemma inbox_classify_spec status :
  classify status =
  if (200 <=? status) && (status <? 300) then outcomeSuccess
  else if is_final status then outcomePermanent else outcomeRetry.
Proof.
  unfold classify, is_final. destruct ((200 <=? status) && (status <? 300)); [done|].
  assert ((status =? StatusUnauthorized) || (status =? StatusRequestTimeout)
          || (status =? StatusTooManyRequests) = bool_decide (status ∈ [401; 408; 429])) as ->.
  { apply eq_true_iff_eq. rewrite bool_decide_eq_true, !orb_true_iff, !Z.eqb_eq.
    rewrite !elem_of_cons, elem_of_nil.
    unfold StatusUnauthorized, StatusRequestTimeout, StatusTooManyRequests. tauto. }
  destruct (bool_decide _); cbn [negb]; [by rewrite andb_false_r|by rewrite andb_true_r].
Qed.

(** A delivery, against what its signer promises: an error with nothing sent, or
    one request whose parts are the job's and whose signature verifies under a
    key that was good for the payload's key id. *)
Lemma Deliver_verified {R : RSA} (e : Deliverer W) Inv good `{!SignsUnder (signer e) Inv good} job w :
  (forall m, range m ≡ₚ map_to_list m) -> Inv w ->
  let out := Deliver range e job w in
  (out.1.2 <> None /\
   (out.2 = w \/ exists now req body keyID,
                   out.2 = (SignRequest now req body keyID (Some (signer e)) w).2)) \/
  exists p body ct req u w1 pub,
    decode_payload (job_Data job) = Ok p /\ resolveBody p (contentType e) = Ok (body, ct) /\
    out = after_do e (Inbox p) job (http_Do (client e) (e_timeout e) req w1) /\
    req_URL req = Some u /\ req_Body req = body /\
    header_Get (req_Header req) "Content-Type" = ct /\
    header_Get (req_Header req) "Date" = FormatHTTPDate (time_Now w) /\
    header_Get (req_Header req) "User-Agent" = e_userAgent e /\
    good (p_KeyId p) pub w w1 /\ Verify req u body pub = None /\
    exists inbox h, url_Parse (Inbox p) = Ok inbox /\
      SignRequest (time_Now w) (unsigned e inbox body ct h) body (p_KeyId p) (Some (signer e)) w
        = (None, req, w1).
Proof.
  intros Hr Hinv. cbv zeta.
  destruct (Deliver_cases e job w Hr)
    as [(Hu & Hw & _)|(p & body & ct & u & h & Hp & _ & Hb & Hinbox & Hh & _ & ->)].
  { left. split; [|by left]. intros Hn. by rewrite Hn in Hu. }
  set (req0 := unsigned e u body ct h).
  destruct (SignRequest (time_Now w) req0 body (p_KeyId p) (Some (signer e)) w)
    as [[[err|] req] w'] eqn:Hsign.
  - left. cbn [after_sign]. split; [by destruct (errors_Is err ErrUnknownKey)|].
    right. exists (time_Now w), req0, body, (p_KeyId p). rewrite Hsign.
    by destruct (errors_Is err ErrUnknownKey).
  - right. pose proof Hsign as Hreq. apply SignRequest_ok_inv in Hreq.
    destruct Hreq as (u' & ss & sig & Hu' & _ & _ & _ & Hreq).
    destruct (signed_verifies_under _ _ _ _ _ _ _ _ _ _ _ Hinv Hu' Hsign) as (pub & Hg & Hv).
    exists p, body, ct, req, u', w', pub. split_and!; try done; last by exists u, h.
    1,2: by rewrite Hreq.
    all: rewrite Hreq; cbn [req_Header with_header]; unfold stamped_header; header_get.
    2: assert (header_Get (req_Header req0) "Date" = "") as ->
         by (cbn [req_Header unsigned req0]; unfold deliver_headers; header_get;
             apply (Hh "date"), str_mem_spec; reflexivity);
       rewrite bool_decide_eq_true_2 by done; by header_get.
    all: case_bool_decide; header_get; cbn [req_Header unsigned req0];
      unfold deliver_headers; header_get; reflexivity.
Qed.
End lemmas.

Section deliverable.
Context {U : Unicode} {W : Type} `{!Net W}.

(** ** Which payloads can be delivered, without the code's checks *)

Lemma payload_name_spec s : validHeaderName s = true <-> field_name s.
Proof. apply field_name_bytes. intros b. by byte_cases b. Qed.
Lemma payload_value_spec s : validHeaderValue s = true <-> field_value s.
Proof. apply field_value_bytes. intros b. by byte_cases b. Qed.

Lemma checkInbox_spec raw : checkInbox raw = None <-> exists u, web_url url_Parse raw u.
Proof.
  split.
  - intros H. destruct (checkInbox_url raw H) as (u & Hu & Hs & Hh). exists u. split_and!; try done.
    intros ->. done.
  - intros (u & Hne & Hu & Hs & Hh). unfold checkInbox. rewrite bool_decide_eq_false_2, Hu by done.
    rewrite (bool_decide_eq_false_2 (url_Host u = "")) by done.
    by destruct Hs as [-> | ->].
Qed.

(** The headers a delivery signs or owns. *)
Definition owned_headers : list string :=
  ["host"; "date"; "digest"; "signature"; "content-type"; "content-length"; "user-agent"; "accept"].

(** A payload that can be delivered, with the body, the content type and the inbox
    it comes to: the activity, which begins as an object does, or else the body, not
    both; a content type that can be sent; an inbox on the web; and headers that can
    be sent, those that the delivery owns aside, which are dropped. *)
Record deliverable (e : Deliverer W) (p : Payload) (body ct : string) (inbox : URL) : Prop := {
  del_body :
    (exists rest, TrimSpace (Activity p) = String "{" rest /\ p_Body p = "" /\
                  body = TrimSpace (Activity p)) \/
    (TrimSpace (Activity p) = "" /\ p_Body p <> "" /\ body = p_Body p);
  del_type : ct = (if bool_decide (ContentType p = "") then contentType e else ContentType p);
  del_type_ok : field_value ct;
  del_inbox : web_url url_Parse (Inbox p) inbox;
  del_headers : map_Forall (fun k v => ToLower k ∈ owned_headers \/ (field_name k /\ field_value v)) (Headers p);
}.

Lemma resolveBody_spec p dflt body ct :
  resolveBody p dflt = Ok (body, ct) <->
  ((exists rest, TrimSpace (Activity p) = String "{" rest /\ p_Body p = "" /\ body = TrimSpace (Activity p)) \/
   (TrimSpace (Activity p) = "" /\ p_Body p <> "" /\ body = p_Body p)) /\
  ct = (if bool_decide (ContentType p = "") then dflt else ContentType p).
Proof.
  unfold resolveBody. cbv zeta. destruct (TrimSpace (Activity p)) as [|c activity].
  - destruct (bool_decide_reflect (p_Body p = "")) as [Hb|Hb]; cbn [negb]; [naive_solver|].
    split; [intros [= <- <-]; naive_solver|]. by intros [[(? & ? & _)|(_ & _ & ->)] ->].
  - destruct (bool_decide_reflect (p_Body p = "")) as [Hb|Hb]; cbn [negb]; [|naive_solver].
    destruct (bool_decide_reflect (c = "{"%char)) as [->|Hc]; cbn [negb]; [|naive_solver].
    split; [intros [= <- <-]; naive_solver|]. by intros [[(? & _ & _ & ->)|(? & _)] ->].
Qed.

Lemma sendable_headers (m : gmap string string) :
  ~ Exists bad_header (map_to_list m) <->
  map_Forall (fun k v => ToLower k ∈ owned_headers \/ (field_name k /\ field_value v)) m.
Proof.
  rewrite map_Forall_to_list, <- Forall_Exists_neg, !Forall_forall.
  assert (forall k v, ~ bad_header (k, v) <-> ToLower k ∈ owned_headers \/ (field_name k /\ field_value v)) as H.
  { intros k v. unfold bad_header, isSignedOrReserved. cbn [fst snd].
    rewrite <- payload_name_spec, <- payload_value_spec. change owned_headers with reserved_names.
    rewrite <- (str_mem_spec (ToLower k)).
    destruct (str_mem (ToLower k) _), (validHeaderName k), (validHeaderValue v); naive_solver. }
  split; intros Hm [k v] Hin; by apply H, (Hm (k, v)).
Qed.

Lemma deliverable_spec (e : Deliverer W) p body ct u :
  deliverable e p body ct u <->
  ~ defective e p /\ resolveBody p (contentType e) = Ok (body, ct) /\ url_Parse (Inbox p) = Ok u.
Proof.
  split.
  - intros [Hb Hct Hv Hi Hh]. assert (resolveBody p (contentType e) = Ok (body, ct)) as Hr
      by by apply resolveBody_spec.
    split_and!; [|done|apply Hi]. unfold defective. rewrite Hr. apply payload_value_spec in Hv as ->.
    intros [?|[Hn|Hbad]]; [done| |].
    + apply Hn, checkInbox_spec. by exists u.
    + by apply sendable_headers in Hh.
  - intros (Hd & Hr & Hu). unfold defective in Hd. rewrite Hr in Hd.
    destruct (validHeaderValue ct) eqn:Hv; [|tauto].
    destruct (checkInbox (Inbox p)) eqn:Hi; [destruct Hd; right; by left|].
    apply resolveBody_spec in Hr as [Hb Hct]. apply checkInbox_spec in Hi as (u' & Hw).
    constructor; [done|done|by apply payload_value_spec| |apply sendable_headers; tauto].
    destruct Hw as (? & Hu' & ?). rewrite Hu' in Hu. by injection Hu as ->.
Qed.
End deliverable.

(** ** Properties *)

Section properties.
Context {U : Unicode}.
Context (range : gmap string string -> list (string * string)).
Context {W : Type} `{!Net W}.

(** C5 Nothing leaves unsigned: with a local key, whatever the job holds, a
    delivery either ends in an error with the world untouched, or makes one
    request, whose body is the resolved body, whose Date is the clock's, whose
    User-Agent is the executor's, and whose signature verifies under the
    key's public half over exactly that request and body; no payload header
    can change any of it. *)
Theorem Deliver_signed {R : RSA} (HR : RSALaws R) (e : Deliverer W) (s : LocalSigner) job w :
  (forall m, range m ≡ₚ map_to_list m) -> signer e = local_signer s ->
  let out := Deliver range e job w in
  (out.1.2 <> None /\ out.2 = w) \/
  exists p body ct req u,
    decode_payload (job_Data job) = Ok p /\ resolveBody p (contentType e) = Ok (body, ct) /\
    out = after_do e (Inbox p) job (http_Do (client e) (e_timeout e) req w) /\
    req_URL req = Some u /\ req_Body req = body /\
    header_Get (req_Header req) "Content-Type" = ct /\
    header_Get (req_Header req) "Date" = FormatHTTPDate (time_Now w) /\
    header_Get (req_Header req) "User-Agent" = e_userAgent e /\
    Verify req u body (public_of (ls_key s)) = None.
Proof.
  intros Hr Hs. cbv zeta.
  assert (SignsUnder (signer e) (fun _ => True) (fun _ pub w w' => pub = public_of (ls_key s) /\ w' = w))
    as HS by (rewrite Hs; by apply local_signs_under).
  destruct (Deliver_verified range e _ _ job w Hr I)
    as [[Hn Hw]|(p & body & ct & req & u & w1 & pub & Hp & Hb & Hout & Hu & Hbody & H1 & H2 & H3 & [-> ->] & Hv & _)].
  - left. split; [done|]. destruct Hw as [Hw|(now & req & body & keyID & Hw)]; [done|].
    rewrite Hw. symmetry. apply (SignRequest_world eq). rewrite Hs. done.
  - right. by exists p, body, ct, req, u.
Qed.

(** C32 Which payloads are refused: a job whose data is no JSON object, or whose
    payload has a field of the wrong type, carries both or neither of activity and
    body, an activity that does not begin as an object, a content type or a header
    that HTTP forbids (the headers that the delivery owns aside, which are dropped),
    or an inbox that is no http(s) URL with a host, fails for good with nothing
    signed and nothing sent; any other payload is handed to the signer as one request
    to that inbox, with that body and content type. *)
Theorem Deliver_defects (e : Deliverer W) job w :
  (forall m, range m ≡ₚ map_to_list m) ->
  let out := Deliver range e job w in
  let refused := errors_Is_opt out.1.2 ErrUnrecoverable = true /\ out.2 = w in
  match parse_json (job_Data job) with Some (JObject _) | Some JNull => True | _ => refused end /\
  match decode_payload (job_Data job) with
  | Fail _ => refused
  | Ok p =>
      ((forall body ct u, ~ deliverable e p body ct u) -> refused) /\
      (forall body ct u, deliverable e p body ct u -> exists h,
         add_headers ∅ (range (Headers p)) = inl h /\
         out = after_sign e (Inbox p) job
                 (SignRequest (time_Now w) (unsigned e u body ct h) body (p_KeyId p)
                    (Some (signer e)) w))
  end.
Proof.
  intros Hr. cbv zeta. pose proof (Deliver_cases range e job w Hr) as HC. split.
  { unfold decode_payload, Unmarshal in HC. destruct (parse_json _) as [[]|]; try done;
      destruct HC as [(? & ? & _)|(? & ? & ? & ? & ? & ? & _)]; done. }
  destruct (decode_payload (job_Data job)) as [p|err].
  - split.
    + intros Hd. destruct HC as [(? & ? & _)|(p' & body & ct & u & h & [= <-] & Hnd & Hb & Hu & _ & _ & _)]; [done|].
      destruct (Hd body ct u). by apply deliverable_spec.
    + intros body ct u (Hnd & Hb & Hu)%deliverable_spec.
      destruct HC as [(_ & _ & Hd)|(p' & body' & ct' & u' & h & [= <-] & _ & Hb' & Hu' & _ & Hh & ->)].
      * by destruct (Hnd (Hd p eq_refl)).
      * rewrite Hb in Hb'. injection Hb' as <- <-. rewrite Hu in Hu'. injection Hu' as <-. by exists h.
  - destruct HC as [(? & ? & _)|(p' & body & ct & u & h & ? & _)]; [done|done].
Qed.

(** How an inbox's answer becomes an outcome: 2xx is success; 401, 408 and
    429 and everything outside 300-499 are retried, with the delay of a
    readable Retry-After attached; the rest of 300-499 fails the job for
    good. *)
Theorem delivery_outcome (e : Deliverer W) inbox job resp w payload rest :
  ReadBody resp (maxBytes e) = (payload, None, rest) ->
  let status := StatusCode resp in
  let success := (200 <=? status) && (status <? 300) in
  let out := handle_response e inbox job resp w in
  let hint := ParseRetryAfter http_ParseTime (header_Get (resp_Header resp) "Retry-After")
                (time_Now w) in
  (out.1.2 = None <-> success = true) /\
  errors_Is_opt out.1.2 ErrUnrecoverable = is_final status /\
  fst <$> errors_As_opt out.1.2 =
    (if negb success && negb (is_final status) && hint.2 && (0 <? hint.1)
     then Some hint.1 else None).
Proof.
  intros Hread. cbv zeta. unfold handle_response. rewrite Hread. cbv zeta. rewrite inbox_classify_spec.
  destruct ((200 <=? StatusCode resp) && (StatusCode resp <? 300)) eqn:Hs.
  { split_and!; [done| |done]. unfold is_final. split_bool.
    by destruct (Z.leb_spec 300 (StatusCode resp)); [lia|]. }
  cbn [negb]. destruct (is_final (StatusCode resp)).
  { by split_and!. }
  case_bool_decide as Hra; [rewrite Hra; by split_and!|].
  destruct (ParseRetryAfter _ _ _) as [d []]; cbn [andb negb fst snd]; [|by split_and!].
  unfold RetryAfter. destruct (Z.leb_spec d 0), (Z.ltb_spec 0 d); try lia; by split_and!.
Qed.
End properties.

(** A delivery with a forged Digest header among the payload's, to an inbox that
    accepts it. *)
Definition accepted : Response := mkResponse 202 "202 Accepted" ∅ (mkBody "" None).
Definition sample_payload : string :=
  quoted "{'inbox': 'https://a.example/inbox', 'activity': {}, 'headers': {'digest': 'forged'}}".
Definition sample_deliverer : Deliverer fake_net :=
  mkDeliverer (@local_signer toy_RSA _ toy_signer) (NewClient false) defaultTimeout UserAgent 65536
    defaultContentType.
Definition deliver_job : Job := mkJob "deliver" "1" "deliver" sample_payload 0 0 None.
Definition deliver_world : fake_net := mkFake (Ok accepted) (1758500000 * Second) [] [].
Definition sample_delivery :=
  @Deliver ascii_only map_to_list fake_net fake_Net sample_deliverer deliver_job
    deliver_world.

Lemma Deliver_signed_witness :
  sample_delivery.1.2 = None /\
  exists req u body, fake_sent sample_delivery.2 = [req] /\
    @Verify toy_RSA ascii_only req u body tt = None.
Proof.
  assert (sample_delivery.1.2 = None) as Hok by (vm_compute; reflexivity).
  split; [exact Hok|].
  destruct (@Deliver_signed ascii_only map_to_list fake_net fake_Net toy_RSA
              toy_laws sample_deliverer toy_signer deliver_job deliver_world
              ltac:(intros m; reflexivity) eq_refl)
    as [[Hn _]|(p & body & ct & req & u & _ & _ & Hout & _ & _ & _ & _ & _ & HV)].
  - destruct (Hn Hok).
  - exists req, u, body. split; [|exact HV].
    unfold sample_delivery. rewrite Hout. vm_compute. reflexivity.
Defined.

Definition both_job : Job :=
  mkJob "deliver" "2" "deliver"
    (quoted "{'inbox': 'https://a.example/inbox', 'activity': {}, 'body': 'hello'}") 0 0 None.

(** A payload with both bodies, and one whose second header has a name that HTTP
    forbids; the first, of a name the delivery owns, would have been dropped. *)
Definition colon_job : Job :=
  mkJob "deliver" "3" "deliver"
    (quoted "{'inbox': 'https://a.example/inbox', 'activity': {}, 'headers': {'Host': 'evil', 'X:Y': '1'}}")
    0 0 None.

Lemma Deliver_defects_witness :
  let out job := @Deliver ascii_only map_to_list fake_net fake_Net sample_deliverer job deliver_world in
  (errors_Is_opt (out both_job).1.2 ErrUnrecoverable = true /\ fake_sent (out both_job).2 = []) /\
  (errors_Is_opt (out colon_job).1.2 ErrUnrecoverable = true /\ fake_sent (out colon_job).2 = []) /\
  exists h, out deliver_job = @after_sign fake_net fake_Net sample_deliverer "https://a.example/inbox" deliver_job
              (@SignRequest ascii_only fake_net (1758500000 * Second)
                 (@unsigned fake_net sample_deliverer
                    (mkURL "https" "" "a.example" "/inbox" false "") "{}" defaultContentType h)
                 "{}" "" (Some (signer sample_deliverer)) deliver_world).
Proof.
  pose proof (fun job => @Deliver_defects ascii_only (map_to_list (M := gmap string string)) fake_net fake_Net sample_deliverer job
                deliver_world ltac:(intros m; reflexivity)) as H.
  cbv zeta in H |- *. split; [|split].
  - destruct (H both_job) as [_ Hb].
    assert (@decode_payload ascii_only (job_Data both_job)
            = Ok (mkPayload "https://a.example/inbox" "" "{}" "hello" "" ∅)) as Hp
      by (vm_compute; reflexivity).
    rewrite Hp in Hb. destruct Hb as [[H1 H2] _]; [|split; [exact H1|by rewrite H2]].
    intros body ct u [[(rest & _ & Hn & _)|(Hn & _)] _ _ _ _]; by vm_compute in Hn.
  - destruct (H colon_job) as [_ Hb].
    assert (@decode_payload ascii_only (job_Data colon_job)
            = Ok (mkPayload "https://a.example/inbox" "" "{}" "" ""
                    {[ "Host" := "evil"; "X:Y" := "1" ]})) as Hp by (vm_compute; reflexivity).
    rewrite Hp in Hb. destruct Hb as [[H1 H2] _]; [|split; [exact H1|by rewrite H2]].
    intros body ct u [_ _ _ _ Hh]. destruct (Hh "X:Y" "1") as [Ho|[[_ Hn] _]]; [reflexivity| |].
    + apply str_mem_spec in Ho. by vm_compute in Ho.
    + by vm_compute in Hn.
  - destruct (H deliver_job) as [_ Hb].
    assert (@decode_payload ascii_only (job_Data deliver_job)
            = Ok (mkPayload "https://a.example/inbox" "" "{}" "" "" {[ "digest" := "forged" ]})) as Hp
      by (vm_compute; reflexivity).
    rewrite Hp in Hb. destruct Hb as [_ Hb].
    destruct (Hb "{}" defaultContentType (mkURL "https" "" "a.example" "/inbox" false ""))
      as (h & _ & Hout); [|by exists h].
    constructor.
    + left. exists "}". by split_and!.
    + reflexivity.
    + vm_compute. reflexivity.
    + split_and!; [done|vm_compute; reflexivity|by right|done].
    + apply map_Forall_singleton. left. apply str_mem_spec. reflexivity.
Defined.

Definition gone : Response := mkResponse 410 "410 Gone" ∅ (mkBody "" None).

Lemma delivery_outcome_witness :
  let out := @handle_response fake_net fake_Net sample_deliverer "https://a.example/inbox"
               deliver_job gone deliver_world in
  errors_Is_opt out.1.2 ErrUnrecoverable = true.
Proof.
  destruct (@delivery_outcome fake_net fake_Net sample_deliverer "https://a.example/inbox"
              deliver_job gone deliver_world "" (mkBody "" None)) as (_ & H & _);
    [vm_compute; reflexivity|].
  cbv zeta. rewrite H. vm_compute. reflexivity.
Defined.
