(* ===== verification/Signers.v ===== *)
(** * Configured signers (executor/apdeliver/signer.go, remote.go)

    The three ways a standalone process reaches a signing key: one PEM file, a
    directory with one PEM per key id and a cache, and a remote endpoint. Each
    is an implementation of the signer interface; [SignerLaws] is what the
    deliverer is promised. The file system is an interface whose every call may
    meet another state of the disk. Here a load runs alone; in
    KeyCache.v loads interleave. *)

From S2P Require Import Prelude GoErrors GoStrings Logging Utf8 Crypto Http Json JsonFacts Rfc3339 Httpsig.
From S2P Require Import Httpsend Config Executor Register ApDeliver.

Record SignerConfig := mkSignerConfig {
  sc_Type : string;
  sc_KeyID : string;
  sc_PrivateKeyPath : string;
  sc_Path : string;
  sc_URL : string;
  sc_Secret : string;
  sc_Timeout : Z;
  sc_AllowPrivateNetwork : option bool;
}.

(** The Config of the executor's block. *)
Record DeliverConfig := mkDeliverConfig {
  dc_Timeout : Z;
  dc_UserAgent : string;
  dc_MaxResponseBytes : Z;
  dc_AllowPrivateNetwork : bool;
  dc_Signer : SignerConfig;
}.

Record FileInfo := mkFileInfo { ModTime : Z; Size : Z; IsDir : bool }.

(** Package os, as the signers use it. *)
Class FS (W : Type) := {
  os_Stat : string -> W -> res FileInfo * W;
  os_ReadFile : string -> W -> res string * W;
  filepath_Join : string -> string -> string;
}.

(** ** Key files *)

Definition KeyFileName (keyID : string) : string := hex_encode (Sum256 keyID) +:+ ".pem".

(** The message of an unknown key and of its file. *)
Definition unknown_key (keyID path : string) : error :=
  Errorf "%w: %s (expected %s)" [OWrap (Sentinel ErrUnknownKey); OStr keyID; OStr path].

Section signers.
Context {U : Unicode} {R : RSA}.
(** encoding/pem and crypto/x509. *)
Context (pem_Decode : string -> option (string * string)).
Context (ParsePKCS1PrivateKey : string -> res PrivateKey).
Context (ParsePKCS8PrivateKey : string -> res (PrivateKey + string)).

Definition parse_key : string -> res PrivateKey :=
  ParsePrivateKey pem_Decode ParsePKCS1PrivateKey ParsePKCS8PrivateKey.

Record cachedKey := mkCached { ck_key : PrivateKey; ck_modTime : Z; ck_size : Z }.
(** The field of a dirSigner that its calls change. *)
Definition key_cache : Type := gmap string cachedKey.

Section files.
Context {W : Type} `{!FS W}.

Definition newFileSigner (cfg : SignerConfig) (w : W) : res LocalSigner * W :=
  if bool_decide (sc_KeyID cfg = "") then
    (Fail (New "signer.key_id is required for a file signer"), w)
  else if bool_decide (sc_PrivateKeyPath cfg = "") then
    (Fail (New "signer.private_key_path is required for a file signer"), w)
  else
    match os_ReadFile (sc_PrivateKeyPath cfg) w with
    | (Fail err, w) => (Fail (Errorf "read %s: %w" [OStr (sc_PrivateKeyPath cfg); OWrap err]), w)
    | (Ok pemBytes, w) =>
        match parse_key pemBytes with
        | Fail err => (Fail (Errorf "%s: %w" [OStr (sc_PrivateKeyPath cfg); OWrap err]), w)
        | Ok key => (NewLocalSigner (sc_KeyID cfg) (Some key), w)
        end
    end.

Definition newDirSigner (cfg : SignerConfig) (w : W) : res string * W :=
  if bool_decide (sc_Path cfg = "") then
    (Fail (New "signer.path is required for a dir signer"), w)
  else
    match os_Stat (sc_Path cfg) w with
    | (Fail err, w) => (Fail (Errorf "stat %s: %w" [OStr (sc_Path cfg); OWrap err]), w)
    | (Ok info, w) =>
        if negb (IsDir info) then
          (Fail (Errorf "%s is not a directory" [OStr (sc_Path cfg)]), w)
        else (Ok (sc_Path cfg), w)
    end.

(** [dirSigner.load]: stat, a look at the cache, and otherwise a read. *)
Definition load (dir keyID : string) (s : key_cache * W) : res PrivateKey * (key_cache * W) :=
  let '(cached, w) := s in
  let path := filepath_Join dir (KeyFileName keyID) in
  match os_Stat path w with
  | (Fail err, w) =>
      if errors_Is err ErrNotExist then (Fail (unknown_key keyID path), (cached, w))
      else (Fail (Errorf "apdeliver: stat %s: %w" [OStr path; OWrap err]), (cached, w))
  | (Ok info, w) =>
      let fresh := match cached !! keyID with
                   | Some hit =>
                       if (ck_modTime hit =? ModTime info) && (ck_size hit =? Size info)
                       then Some (ck_key hit) else None
                   | None => None
                   end in
      match fresh with
      | Some key => (Ok key, (cached, w))
      | None =>
          match os_ReadFile path w with
          | (Fail err, w) =>
              if errors_Is err ErrNotExist then (Fail (unknown_key keyID path), (cached, w))
              else (Fail (Errorf "apdeliver: read %s: %w" [OStr path; OWrap err]), (cached, w))
          | (Ok pemBytes, w) =>
              match parse_key pemBytes with
              | Fail err => (Fail (Errorf "apdeliver: %s: %w" [OStr path; OWrap err]), (cached, w))
              | Ok key =>
                  (Ok key, (<[keyID := mkCached key (ModTime info) (Size info)]> cached, w))
              end
          end
      end
  end.

Definition dirSigner_Sign (dir keyID signingString : string) (s : key_cache * W)
  : res Signature * (key_cache * W) :=
  if bool_decide (keyID = "") then
    (Fail (Errorf "%w: a dir signer has no default key" [OWrap (Sentinel ErrUnknownKey)]), s)
  else
    match load dir keyID s with
    | (Fail err, s) => (Fail err, s)
    | (Ok key, s) =>
        match NewLocalSigner keyID (Some key) with
        | Fail err => (Fail err, s)
        | Ok local => (LocalSigner_Sign local keyID signingString, s)
        end
    end.

Definition dir_signer (dir : string) : Signer (key_cache * W) := mkSigner (dirSigner_Sign dir).
End files.

(** ** The remote signer *)

Record remoteSigner := mkRemoteSigner {
  rs_url : string;
  rs_secret : string;
  rs_timeout : Z;
  rs_client : Client;
  rs_userAgent : string;
}.

Record RemoteRequest := mkRemoteRequest {
  rq_KeyID : string;
  rq_SigningString : string;
  rq_Algorithm : string;
}.

Record RemoteResponse := mkRemoteResponse {
  rp_KeyID : string;
  rp_Algorithm : string;
  rp_Signature : string;
}.

Definition request_json (r : RemoteRequest) : jout :=
  OObject [("keyId", OString (rq_KeyID r)); ("signingString", OString (rq_SigningString r));
           ("algorithm", OString (rq_Algorithm r))].

Definition defaultRemoteTimeout : Z := 5 * Second.

Definition isNoSuchKey (resp : Response) : bool :=
  if StatusCode resp =? StatusGone then true
  else if negb (StatusCode resp =? StatusNotFound) then false
  else Contains (header_Get (resp_Header resp) "Content-Type") "json".

Section remote.
Context {W : Type} `{!Net W}.

Definition set_response (v : RemoteResponse) (key _ : string) (x : json)
  : RemoteResponse * option error :=
  let str name old := set_string "RemoteResponse" name old x in
  match field_of ["keyId"; "algorithm"; "signature"] key with
  | Some "keyId" =>
      let '(s, e) := str "keyId" (rp_KeyID v) in
      (mkRemoteResponse s (rp_Algorithm v) (rp_Signature v), e)
  | Some "algorithm" =>
      let '(s, e) := str "algorithm" (rp_Algorithm v) in
      (mkRemoteResponse (rp_KeyID v) s (rp_Signature v), e)
  | Some _ =>
      let '(s, e) := str "signature" (rp_Signature v) in
      (mkRemoteResponse (rp_KeyID v) (rp_Algorithm v) s, e)
  | None => (v, None)
  end.
Definition decode_response (payload : string) : res RemoteResponse :=
  Unmarshal "apdeliver.RemoteResponse" set_response (mkRemoteResponse "" "" "") payload.

Definition newRemoteSigner (cfg : SignerConfig) : res remoteSigner :=
  if bool_decide (sc_URL cfg = "") then Fail (New "signer.url is required for a remote signer")
  else match url_Parse (sc_URL cfg) with
  | Fail err => Fail (Errorf "signer.url %q is not parseable: %v" [OStr (sc_URL cfg); OVal err])
  | Ok u =>
      if negb (bool_decide (Scheme u = "http")) && negb (bool_decide (Scheme u = "https")) then
        Fail (Errorf "signer.url %q must use http or https" [OStr (sc_URL cfg)])
      else if bool_decide (url_Host u = "") then
        Fail (Errorf "signer.url %q has no host" [OStr (sc_URL cfg)])
      else
        Ok (mkRemoteSigner (sc_URL cfg) (sc_Secret cfg)
              (if sc_Timeout cfg <=? 0 then defaultRemoteTimeout else sc_Timeout cfg)
              (NewClient (default true (sc_AllowPrivateNetwork cfg))) UserAgent)
  end.

(** What the response of the endpoint means: the part of [Sign] after it was
    read. *)
Definition decode_signature (r : remoteSigner) (keyID payload : string) : res Signature :=
  let via := OStr (rs_url r) in
  out ← map_err (fun e => Errorf "apdeliver: sign via %s: response is not JSON: %w" [via; OWrap e])
          (decode_response payload);
  match b64_decode (rp_Signature out) with
  | None =>
      Fail (Errorf "apdeliver: sign via %s: signature is not base64: %w"
              [via; OWrap (New "illegal base64 data")])
  | Some sig =>
      if bool_decide (sig = "") then
        Fail (Errorf "apdeliver: sign via %s: empty signature" [via])
      else if negb (bool_decide (keyID = "")) && negb (bool_decide (rp_KeyID out = ""))
              && negb (bool_decide (rp_KeyID out = keyID)) then
        Fail (Errorf "apdeliver: sign via %s: asked for key %q but the response used %q"
                [via; OStr keyID; OStr (rp_KeyID out)])
      else
        let resolved := if bool_decide (rp_KeyID out = "") then keyID else rp_KeyID out in
        if bool_decide (resolved = "") then
          Fail (Errorf "apdeliver: sign via %s: response has no key id" [via])
        else
          let algorithm := if bool_decide (rp_Algorithm out = "") then AlgorithmRSASHA256
                           else rp_Algorithm out in
          Ok (mkSignature resolved algorithm sig)
  end.

(** The part of [Sign] after [client.Do]. *)
Definition handle_sign_response (r : remoteSigner) (keyID : string) (resp : Response)
  : res Signature :=
  if isNoSuchKey resp then
    Fail (Errorf "%w: %s said it has no key %q"
            [OWrap (Sentinel ErrUnknownKey); OStr (rs_url r); OStr keyID])
  else
    match ReadBody resp DefaultMaxResponseBytes with
    | (_, Some err, _) =>
        Fail (Errorf "apdeliver: sign via %s: read response: %w" [OStr (rs_url r); OWrap err])
    | (payload, None, _) =>
        if (StatusCode resp <? 200) || (300 <=? StatusCode resp) then
          Fail (Errorf "apdeliver: sign via %s: %s: %s"
                  [OStr (rs_url r); OStr (Status resp); OStr (detail payload)])
        else decode_signature r keyID payload
    end.

(** What follows [client.Do] in [Sign]. *)
Definition after_sign_do (r : remoteSigner) (keyID : string) (x : res Response * W)
  : res Signature * W :=
  match x with
  | (Fail err, w) =>
      if errors_Is err ErrBlocked then
        (Fail (permanent "sign via %s: %v" [OStr (rs_url r); OVal err]), w)
      else (Fail (Errorf "apdeliver: sign via %s: %w" [OStr (rs_url r); OWrap err]), w)
  | (Ok resp, w) => (handle_sign_response r keyID resp, w)
  end.

Definition remoteSigner_Sign (r : remoteSigner) (keyID signingString : string) (w : W)
  : res Signature * W :=
  match Marshal (request_json (mkRemoteRequest keyID (b64_encode signingString) AlgorithmRSASHA256)) with
  | Fail err => (Fail (Errorf "apdeliver: encode sign request: %w" [OWrap err]), w)
  | Ok body =>
  match NewRequest url_Parse MethodPost (rs_url r) body with
  | Fail err => (Fail (Errorf "apdeliver: build sign request: %w" [OWrap err]), w)
  | Ok req =>
      let h := header_Set (req_Header req) "Content-Type" "application/json" in
      let h := header_Set h "User-Agent" (rs_userAgent r) in
      let ts := time_Now w / Second in
      let h := header_Set h HeaderTimestamp (FormatInt ts) in
      let h := if bool_decide (rs_secret r = "") then h
               else header_Set h HeaderSignature (SignHMAC (rs_secret r) ts body) in
      after_sign_do r keyID (http_Do (rs_client r) (rs_timeout r) (with_header req h) w)
  end end.

Definition remote_signer (r : remoteSigner) : Signer W := mkSigner (remoteSigner_Sign r).
End remote.

(** ** Building a signer, and the executor around it *)

(** A signer over a part of the world. *)
Definition lift_signer {C W} (sg : Signer W) : Signer (C * W) :=
  mkSigner (fun keyID str '(c, w) => let '(r, w) := Sign sg keyID str w in (r, (c, w))).

Section build.
Context {W : Type} `{!Net W} `{!FS W}.

Definition BuildSigner (cfg : SignerConfig) (w : W) : res (Signer (key_cache * W)) * W :=
  if bool_decide (sc_Type cfg = "file") then
    match newFileSigner cfg w with
    | (Ok s, w) => (Ok (local_signer s), w)
    | (Fail err, w) => (Fail err, w)
    end
  else if bool_decide (sc_Type cfg = "dir") then
    match newDirSigner cfg w with
    | (Ok dir, w) => (Ok (dir_signer dir), w)
    | (Fail err, w) => (Fail err, w)
    end
  else if bool_decide (sc_Type cfg = "remote") then
    (lift_signer ∘ remote_signer <$> newRemoteSigner cfg, w)
  else if bool_decide (sc_Type cfg = "") then
    (Fail (New "signer.type is required (file, dir or remote)"), w)
  else (Fail (Errorf "unknown signer type %q (known: file, dir, remote)" [OStr (sc_Type cfg)]), w).

(** [newExecutor], from the decoded block. *)
Definition newExecutor (decode : ExecutorConfig -> DeliverConfig -> DeliverConfig * option error)
  (zero : DeliverConfig) (raw : ExecutorConfig) (w : W)
  : res (Deliverer (key_cache * W)) * W :=
  match decode raw zero with
  | (_, Some err) => (Fail err, w)
  | (cfg, None) =>
      match BuildSigner (dc_Signer cfg) w with
      | (Fail err, w) => (Fail (Errorf "executor activitypub_deliver: %w" [OWrap err]), w)
      | (Ok sg, w) =>
          let w :=
            if bool_decide (sc_Type (dc_Signer cfg) = "remote")
               && bool_decide (sc_Secret (dc_Signer cfg) = "")
            then log_write
                   (LogRec LevelWarn
                      "remote signer has no secret; anything that can reach the endpoint can have arbitrary bytes signed"
                      [("url", AStr (sc_URL (dc_Signer cfg)))]) w
            else w in
          (New_deliverer (mkOptions (Some sg) (dc_Timeout cfg) (dc_UserAgent cfg)
                            (dc_MaxResponseBytes cfg) (dc_AllowPrivateNetwork cfg)), w)
      end
  end.
End build.
End signers.
Arguments cachedKey : clear implicits.
Arguments cachedKey {R}.
Arguments key_cache : clear implicits.
Arguments key_cache {R}.

(** ** What a signer promises *)

(** A signature that is returned names a key, the one that was asked for when
    one was, and is not empty. *)
Class SignerLaws {W} (sg : Signer W) : Prop := {
  sign_names_key : forall keyID str w sig w',
    Sign sg keyID str w = (Ok sig, w') ->
    KeyID sig <> "" /\ (keyID <> "" -> KeyID sig = keyID);
  sign_has_bytes : forall keyID str w sig w',
    Sign sg keyID str w = (Ok sig, w') -> Bytes sig <> "";
}.

Section laws.
Context {U : Unicode} {R : RSA} (HR : RSALaws R).
Context (pem_Decode : string -> option (string * string)).
Context (ParsePKCS1PrivateKey : string -> res PrivateKey).
Context (ParsePKCS8PrivateKey : string -> res (PrivateKey + string)).

Lemma LocalSigner_Sign_ok s keyID str sig :
  LocalSigner_Sign s keyID str = Ok sig ->
  KeyID sig = ls_keyID s /\ Algorithm sig = AlgorithmRSASHA256 /\ Bytes sig <> "" /\
  (keyID <> "" -> keyID = ls_keyID s) /\ SignPKCS1v15 (ls_key s) (Sum256 str) = Ok (Bytes sig).
Proof.
  unfold LocalSigner_Sign.
  destruct (bool_decide_reflect (keyID = "")), (bool_decide_reflect (keyID = ls_keyID s));
    cbn [negb andb]; try done;
    (destruct (SignPKCS1v15 _ _) as [raw|] eqn:E; [|done]; intros [= <-]; split_and!; try done;
     by eapply sign_nonempty).
Qed.

Lemma local_signer_laws {W} (s : LocalSigner) :
  ls_keyID s <> "" -> SignerLaws (@local_signer R W s).
Proof.
  intros Hs. split; intros keyID str w sig w'; cbn;
    intros [= H _]; apply LocalSigner_Sign_ok in H as (Hk & _ & Hb & Hid & _); [|done].
  rewrite Hk. split; [done|]. intros Hne. by rewrite (Hid Hne).
Qed.

Lemma NewLocalSigner_ok keyID key s :
  NewLocalSigner keyID key = Ok s -> ls_keyID s = keyID /\ keyID <> "" /\ key = Some (ls_key s).
Proof.
  unfold NewLocalSigner. case_bool_decide; [done|]. destruct key; [|done]. by intros [= <-].
Qed.

Lemma dir_signer_laws {W} `{!FS W} dir :
  SignerLaws (dir_signer pem_Decode ParsePKCS1PrivateKey ParsePKCS8PrivateKey dir (W := W)).
Proof.
  assert (forall keyID str (w : key_cache * W) sig w',
    Sign (dir_signer pem_Decode ParsePKCS1PrivateKey ParsePKCS8PrivateKey dir) keyID str w
    = (Ok sig, w') -> keyID <> "" /\ KeyID sig = keyID /\ Bytes sig <> "") as H.
  { intros keyID str w sig w'. cbn. unfold dirSigner_Sign. case_bool_decide; [done|].
    destruct (load _ _ _ dir keyID w) as [[key|err] s1]; [|done].
    destruct (NewLocalSigner keyID (Some key)) as [local|] eqn:Hl; [|done].
    apply NewLocalSigner_ok in Hl as (Hl & Hk & _).
    intros [= Hs _]. apply LocalSigner_Sign_ok in Hs as (-> & _ & Hb & _ & _).
    by rewrite Hl. }
  split; intros keyID str w sig w' Hs; apply H in Hs as (Hk & Hn & Hb);
    [by rewrite Hn|done].
Qed.

Lemma decode_signature_ok r keyID payload sig :
  decode_signature r keyID payload = Ok sig ->
  KeyID sig <> "" /\ (keyID <> "" -> KeyID sig = keyID) /\ Bytes sig <> "".
Proof.
  unfold decode_signature. intros H. inv_bind H.
  destruct (b64_decode (rp_Signature r0)) as [raw|]; [|done].
  destruct (bool_decide_reflect (raw = "")) as [|Hraw]; [done|].
  destruct (bool_decide_reflect (keyID = "")) as [Hk|Hk];
    destruct (bool_decide_reflect (rp_KeyID r0 = "")) as [Hrk|Hrk]; cbn [negb andb] in H.
  - by rewrite bool_decide_eq_true_2 in H.
  - rewrite bool_decide_eq_false_2 in H by done. by injection H as <-.
  - rewrite bool_decide_eq_false_2 in H by done. by injection H as <-.
  - destruct (bool_decide_reflect (rp_KeyID r0 = keyID)); cbn [negb] in H; [|done].
    rewrite bool_decide_eq_false_2 in H by done. by injection H as <-.
Qed.

Lemma remote_signer_laws {W} `{!Net W} r :
  SignerLaws (remote_signer r (W := W)).
Proof.
  assert (forall keyID str (w : W) sig w',
    Sign (remote_signer r) keyID str w = (Ok sig, w') ->
    KeyID sig <> "" /\ (keyID <> "" -> KeyID sig = keyID) /\ Bytes sig <> "") as H.
  { intros keyID str w sig w'. cbn. unfold remoteSigner_Sign.
    case_match; [|done].
    destruct (NewRequest _ _ _ _) as [req|]; [|done].
    destruct (http_Do _ _ _ w) as [[resp|err] w1]; cbn [after_sign_do];
      [|by destruct (errors_Is err ErrBlocked)].
    intros [= Hs _]. unfold handle_sign_response in Hs.
    destruct (isNoSuchKey resp); [done|].
    destruct (ReadBody resp _) as [[payload [e|]] rest]; [done|].
    destruct (_ || _); [done|]. by apply decode_signature_ok in Hs. }
  split; intros keyID str w sig w' Hs; apply H in Hs as (? & ? & ?); [by split|done].
Qed.

(** The body of a request to the endpoint reads back. *)
Lemma sign_body_reads keyID str :
  exists body,
    Marshal (request_json (mkRemoteRequest keyID (b64_encode str) AlgorithmRSASHA256)) = Ok body /\
    parse_json body
      = Some (JObject [("keyId", JString (to_valid keyID)); ("signingString", JString (b64_encode str));
                       ("algorithm", JString AlgorithmRSASHA256)]).
Proof.
  set (rq := mkRemoteRequest keyID (b64_encode str) AlgorithmRSASHA256).
  destruct (Marshal_ok (request_json rq) _ eq_refl) as (body & Hm & Hw).
  exists body. split; [exact Hm|]. apply written_parses; [|unfold maxNestingDepth; cbn; lia].
  cbn [rq_KeyID rq_SigningString rq_Algorithm rq] in Hw.
  by rewrite (to_valid_ascii (b64_encode str)) in Hw by apply b64_encode_ascii.
Qed.

Lemma lift_signer_laws {C W} (sg : Signer W) : SignerLaws sg -> SignerLaws (@lift_signer C W sg).
Proof.
  intros [H1 H2]. split; intros keyID str [c w] sig w'; cbn;
    destruct (Sign sg keyID str w) as [r w1] eqn:E; intros [= -> _]; by eauto.
Qed.
End laws.

(** ** The cache of a key directory *)

(** A history of a file system: what each path holds at each moment; every call
    takes a moment, in which anything may have been replaced. *)
Definition history : Type := nat -> gmap string (FileInfo * string).

Definition hist_FS (h : history) : FS nat := {|
  os_Stat p t :=
    (match h t !! p with Some (info, _) => Ok info | None => Fail (Sentinel ErrNotExist) end, S t);
  os_ReadFile p t :=
    (match h t !! p with Some (_, content) => Ok content | None => Fail (Sentinel ErrNotExist) end, S t);
  filepath_Join d n := d +:+ "/" +:+ n;
|}.

(** A file system that follows a history: [clock] is the moment a world is at, a
    call answers what the history holds at its moment and never goes back. *)
Class FollowsHistory {W} (F : FS W) (h : history) (clock : W -> nat) : Prop := {
  stat_at : forall p w, exists w', (clock w <= clock w')%nat /\
    os_Stat p w = (match h (clock w) !! p with
                   | Some (info, _) => Ok info | None => Fail (Sentinel ErrNotExist) end, w');
  read_at : forall p w, exists w', (clock w <= clock w')%nat /\
    os_ReadFile p w = (match h (clock w) !! p with
                       | Some (_, content) => Ok content | None => Fail (Sentinel ErrNotExist) end, w');
  join_is : forall d n, filepath_Join (FS := F) d n = d +:+ "/" +:+ n;
}.

#[export] Instance hist_FS_follows h : FollowsHistory (hist_FS h) h (fun t => t).
Proof.
  split; [intros p t; exists (S t); split; [lia|done]..|done].
Qed.

Section cache.
Context {R : RSA}.
Context (pem_Decode : string -> option (string * string)).
Context (ParsePKCS1PrivateKey : string -> res PrivateKey).
Context (ParsePKCS8PrivateKey : string -> res (PrivateKey + string)).
Context (h : history) (dir : string).

Let parse := parse_key pem_Decode ParsePKCS1PrivateKey ParsePKCS8PrivateKey.
Let key_path (keyID : string) : string := dir +:+ "/" +:+ KeyFileName keyID.

(** Replacing a file gives it a modification time or size it never had: a path
    that looks the same at two moments was not touched in between. *)
Definition stamps_fresh : Prop :=
  forall p t1 t t2 i1 c1 i2 c2, (t1 <= t <= t2)%nat ->
    h t1 !! p = Some (i1, c1) -> h t2 !! p = Some (i2, c2) ->
    ModTime i1 = ModTime i2 -> Size i1 = Size i2 -> h t !! p = Some (i1, c1) /\ (i2, c2) = (i1, c1).

(** A cached key was read from the file at or after the moment its stamp was
    taken. *)
Definition cache_inv (cached : key_cache) (now : nat) : Prop :=
  forall keyID ck, cached !! keyID = Some ck ->
    exists t1 t2 i1 c1 i2 c2, (t1 <= t2 <= now)%nat /\
      h t1 !! key_path keyID = Some (i1, c1) /\
      ck_modTime ck = ModTime i1 /\ ck_size ck = Size i1 /\
      h t2 !! key_path keyID = Some (i2, c2) /\ parse c2 = Ok (ck_key ck).

Definition load_at : string -> key_cache * nat -> res PrivateKey * (key_cache * nat) :=
  @load R pem_Decode ParsePKCS1PrivateKey ParsePKCS8PrivateKey nat (hist_FS h) dir.

(** The outcome of a load between two moments. *)
Definition load_ok (keyID : string) (t t' : nat) (r : res PrivateKey) : Prop :=
  match r with
  | Ok key => exists t0 i c, (t <= t0 <= t')%nat /\ h t0 !! key_path keyID = Some (i, c) /\
                             parse c = Ok key
  | Fail e => exists t0, (t <= t0 <= t')%nat /\
                ((h t0 !! key_path keyID = None /\ e = unknown_key keyID (key_path keyID)) \/
                 exists i c e', h t0 !! key_path keyID = Some (i, c) /\ parse c = Fail e')
  end.

Lemma cache_inv_later cached t t' : cache_inv cached t -> (t <= t')%nat -> cache_inv cached t'.
Proof.
  intros H Ht keyID ck Hk. destruct (H keyID ck Hk) as (t1 & t2 & i1 & c1 & i2 & c2 & ? & ?).
  exists t1, t2, i1, c1, i2, c2. split; [lia|done].
Qed.

(** One load, on any file system that follows the history. *)
Lemma load_follows {W} `{F : !FS W} {clock : W -> nat} `{!FollowsHistory F h clock} keyID cached (w : W) :
  stamps_fresh -> cache_inv cached (clock w) ->
  let '(r, (cached', w')) :=
    load pem_Decode ParsePKCS1PrivateKey ParsePKCS8PrivateKey dir keyID (cached, w) in
  (clock w <= clock w')%nat /\ cache_inv cached' (clock w') /\ load_ok keyID (clock w) (clock w') r.
Proof.
  intros Hfresh Hinv. unfold load. rewrite join_is. fold (key_path keyID). fold parse.
  destruct (stat_at (key_path keyID) w) as (w1 & Ht1 & ->).
  destruct (h (clock w) !! key_path keyID) as [[info c]|] eqn:Hstat.
  2:{ cbn. split_and!; [lia|by apply (cache_inv_later cached (clock w))|].
      exists (clock w). split; [lia|]. by left. }
  destruct (match cached !! keyID with Some hit => _ | None => None end) as [key|] eqn:Hhit.
  - split_and!; [lia|by apply (cache_inv_later cached (clock w))|].
    destruct (cached !! keyID) as [ck|] eqn:Hck; [|done].
    destruct (Z.eqb_spec (ck_modTime ck) (ModTime info)) as [Hm|]; [|done].
    destruct (Z.eqb_spec (ck_size ck) (Size info)) as [Hs|]; [|done].
    cbn [andb] in Hhit. injection Hhit as <-.
    destruct (Hinv keyID ck Hck) as (t1 & t2 & i1 & c1 & i2 & c2 & Ht & H1 & E1 & E2 & H2 & Hp).
    destruct (Hfresh (key_path keyID) t1 t2 (clock w) i1 c1 info c) as [H2' [= -> ->]];
      [lia|done|done|congruence..|].
    rewrite H2' in H2. injection H2 as <- <-.
    exists (clock w), i1, c1. split; [lia|]. by split.
  - destruct (read_at (key_path keyID) w1) as (w2 & Ht2 & ->).
    pose proof (cache_inv_later cached (clock w) (clock w2) Hinv ltac:(lia)) as Hinv2.
    destruct (h (clock w1) !! key_path keyID) as [[info2 c2]|] eqn:Hread.
    2:{ cbn. split_and!; [lia|done|]. exists (clock w1). split; [lia|]. by left. }
    destruct (parse c2) as [key|e] eqn:Hp.
    + split_and!; [lia| |exists (clock w1), info2, c2; split; [lia|by split]].
      intros keyID' ck Hck'. apply (lookup_insert_Some (M := gmap string)) in Hck'.
      destruct Hck' as [[<- <-]|[Hne Hck]]; [|exact (Hinv2 keyID' ck Hck)].
      exists (clock w), (clock w1), info, c, info2, c2. split_and!; try done; lia.
    + split_and!; [lia|done|]. exists (clock w1). split; [lia|]. right. by exists info2, c2, e.
Qed.

Lemma load_step keyID cached t :
  stamps_fresh -> cache_inv cached t ->
  let '(r, (cached', t')) := load_at keyID (cached, t) in
  (t <= t')%nat /\ cache_inv cached' t' /\ load_ok keyID t t' r.
Proof. exact (load_follows (clock := fun t => t) keyID cached t). Qed.

(** A run of earlier loads. *)
Definition loads (keyIDs : list string) (s : key_cache * nat) : key_cache * nat :=
  fold_left (fun s k => (load_at k s).2) keyIDs s.

Lemma loads_inv keyIDs s :
  stamps_fresh -> cache_inv s.1 s.2 -> cache_inv (loads keyIDs s).1 (loads keyIDs s).2.
Proof.
  intros Hf. revert s. induction keyIDs as [|k keyIDs IH]; intros [c t] Hinv; [done|].
  cbn [loads fold_left]. apply IH. pose proof (load_step k c t Hf Hinv) as H.
  destruct (load_at k (c, t)) as [r [c' t']]. by destruct H as (_ & H & _).
Qed.
End cache.

(** ** What an endpoint's answer does to a delivery *)

(** An error of the network or the standard library, which knows neither mkq's
    sentinels nor httpsig's. *)
Definition outside_error (e : error) : Prop :=
  errors_Is e ErrUnrecoverable = false /\ errors_Is e ErrUnknownKey = false.

(** The two answers that mean that the endpoint has no such key. *)
Definition says_no_such_key (resp : Response) : Prop :=
  StatusCode resp = 410 \/
  (StatusCode resp = 404 /\ Contains (header_Get (resp_Header resp) "Content-Type") "json" = true).

(** What a delivery whose signing failed with [err] comes to: it is given up, or
    retried. *)
Definition loses_delivery (err : error) : Prop :=
  forall W (net : Net W) (e : Deliverer W) inbox job req (w : W),
    errors_Is_opt (after_sign e inbox job (Some err, req, w)).1.2 ErrUnrecoverable = true.
Definition keeps_delivery (err : error) : Prop :=
  forall W (net : Net W) (e : Deliverer W) inbox job req (w : W),
    let out := after_sign e inbox job (Some err, req, w) in
    out.1.2 <> None /\ errors_Is_opt out.1.2 ErrUnrecoverable = false.

Lemma unknown_loses err : errors_Is err ErrUnknownKey = true -> loses_delivery err.
Proof. intros H W Hnet e inbox job req w. cbn [after_sign]. by rewrite H. Qed.

Lemma permanent_loses format args : loses_delivery (permanent format args).
Proof. done. Qed.

Lemma outside_keeps err : outside_error err -> keeps_delivery err.
Proof.
  intros [H1 H2] W Hnet e inbox job req w. cbn [after_sign]. rewrite H2. cbn. by rewrite H1.
Qed.

Lemma isNoSuchKey_spec resp : isNoSuchKey resp = true <-> says_no_such_key resp.
Proof.
  unfold isNoSuchKey, says_no_such_key, StatusGone, StatusNotFound.
  destruct (Z.eqb_spec (StatusCode resp) 410); [tauto|].
  destruct (Z.eqb_spec (StatusCode resp) 404); cbn [negb]; naive_solver.
Qed.

Section endpoint.
Context {U : Unicode}.

Lemma set_response_error v key raw x e : (set_response v key raw x).2 = Some e -> outside_error e.
Proof.
  unfold set_response. destruct (field_of _ key) as [f|]; [|done].
  destruct x; cbn [set_string]; repeat case_match; cbn; by intros [= <-].
Qed.

Lemma decode_response_error payload e : decode_response payload = Fail e -> outside_error e.
Proof.
  unfold decode_response, Unmarshal. destruct (parse_json payload) as [[| | | | |ms]|];
    try (by intros [= <-]).
  set (step := fun '(v, e) '((k, x), raw) => _).
  assert (forall l (acc : RemoteResponse * option error),
            from_option outside_error True acc.2 -> from_option outside_error True (fold_left step l acc).2) as H.
  { induction l as [|[[k x] raw] l IH]; intros [v e1] He; [exact He|]. apply IH. cbn.
    destruct (set_response v k raw x) as [v' e'] eqn:E. cbn. destruct e1 as [e1|]; [by destruct e'|].
    destruct e' as [e'|]; [|done]. apply (set_response_error v k raw x). by rewrite E. }
  specialize (H (combine ms (member_raws payload)) (mkRemoteResponse "" "" "", None) I).
  destruct (fold_left _ _ _) as [v [e'|]]; [|done]. by intros [= <-].
Qed.

(** An answer without a signature is no reason to give up, unless it says so. *)
Lemma decode_signature_error r keyID payload e : decode_signature r keyID payload = Fail e -> outside_error e.
Proof.
  unfold decode_signature. cbv zeta. destruct (decode_response payload) as [v|e'] eqn:Hv; cbn [map_err mbind res_bind].
  - repeat case_match; try done; by intros [= <-].
  - intros [= <-]. apply decode_response_error in Hv as [H1 H2]. split; cbn; by rewrite ?H1, ?H2.
Qed.

Lemma ReadBody_error resp max data e rest :
  ReadBody resp max = (data, Some e, rest) -> body_err (resp_Body resp) = Some e.
Proof.
  unfold ReadBody. generalize (if max <=? 0 then DefaultMaxResponseBytes else max). intros m.
  unfold read_limited. generalize drainLimit (Z.to_nat m). intros dl k. cbv zeta.
  destruct (_ <? m); [|done]. by intros [= _ -> _].
Qed.

Lemma handle_sign_response_error r keyID resp e :
  ~ says_no_such_key resp -> from_option outside_error True (body_err (resp_Body resp)) ->
  handle_sign_response r keyID resp = Fail e -> outside_error e.
Proof.
  intros Hn Hb. unfold handle_sign_response.
  destruct (isNoSuchKey resp) eqn:Hk; [by apply isNoSuchKey_spec in Hk|].
  destruct (ReadBody resp _) as [[payload [cause|]] rest] eqn:Hread.
  - apply ReadBody_error in Hread. rewrite Hread in Hb. destruct Hb as [H1 H2].
    intros [= <-]. split; cbn; by rewrite ?H1, ?H2.
  - destruct (_ || _); [by intros [= <-]|apply decode_signature_error].
Qed.
End endpoint.

(** ** Properties *)

(** Key rotation takes effect: a dir signer starting with an empty cache,
    after any sequence of loads and whatever was replaced on disk meanwhile,
    hands out a key the file held at some moment of the call, and reports an
    unknown key only if the file was absent at such a moment; provided a
    replaced file differs in modification time or size from what the path held
    before. *)
Theorem dir_load_fresh {R : RSA} pem_Decode pkcs1 pkcs8 h dir earlier keyID start :
  stamps_fresh h ->
  let s := loads pem_Decode pkcs1 pkcs8 h dir earlier (∅, start) in
  let '(r, (_, t')) := load_at pem_Decode pkcs1 pkcs8 h dir keyID s in
  load_ok pem_Decode pkcs1 pkcs8 h dir keyID s.2 t' r.
Proof.
  intros Hf. cbv zeta.
  pose proof (loads_inv pem_Decode pkcs1 pkcs8 h dir earlier (∅, start) Hf) as Hinv.
  destruct (loads pem_Decode pkcs1 pkcs8 h dir earlier (∅, start)) as [c t]. cbn [fst snd] in *.
  pose proof (load_step pem_Decode pkcs1 pkcs8 h dir keyID c t Hf) as H.
  destruct (load_at pem_Decode pkcs1 pkcs8 h dir keyID (c, t)) as [r [c' t']].
  apply H, Hinv. intros k ck Hk. by apply (lookup_empty_Some (M := gmap string)) in Hk.
Qed.

(** C31 Whatever signer the configuration builds, it keeps the interface's
    promises: its signatures name a key, the requested one when there is one,
    and are never empty. *)
Theorem BuildSigner_lawful {R : RSA} (HR : RSALaws R) pem_Decode pkcs1 pkcs8
    {U : Unicode} {W} `{!Net W} `{!FS W} cfg (w w' : W) sg :
  BuildSigner pem_Decode pkcs1 pkcs8 cfg w = (Ok sg, w') ->
  SignerLaws sg.
Proof.
  unfold BuildSigner. repeat case_bool_decide; try done.
  - destruct (newFileSigner pem_Decode pkcs1 pkcs8 cfg w) as [[s|] w1] eqn:Hf; [|done].
    intros [= <- _]. apply local_signer_laws; [done|].
    unfold newFileSigner in Hf. case_bool_decide; [done|]. case_bool_decide; [done|].
    destruct (os_ReadFile _ w) as [[pem|] w2]; [|done].
    destruct (parse_key _ _ _ pem) as [key|]; [|done]. injection Hf as Hf _.
    apply NewLocalSigner_ok in Hf as (-> & ? & _). done.
  - destruct (newDirSigner cfg w) as [[dir|] w1]; [|done].
    intros [= <- _]. by apply dir_signer_laws.
  - destruct (newRemoteSigner cfg) as [r|]; [|done].
    intros [= <- _]. by apply lift_signer_laws, remote_signer_laws.
Qed.

(** Against the interface alone: a request signed by a lawful signer whose
    algorithm names hold no quote carries a Signature header that parses, covers
    what a verifier requires, names the key that was asked for, and decodes to
    the signature's bytes. *)
Theorem signed_header_names_key {U : Unicode} {W} (sg : Signer W) `{!SignerLaws sg}
    now req body keyID w req' w' :
  (forall k s w sig w', Sign sg k s w = (Ok sig, w') ->
     str_forallb (not_byte quote) (Algorithm sig) = true) ->
  SignRequest now req body keyID (Some sg) w = (None, req', w') ->
  exists parsed bytes,
    ParseSignatureHeader (header_Get (req_Header req') "Signature") = Ok parsed /\
    requireCoverage (p_Headers parsed) = None /\
    (keyID <> "" -> p_KeyID parsed = keyID) /\
    b64_decode (p_Signature parsed) = Some bytes /\ bytes <> "".
Proof.
  intros Halg H. apply SignRequest_ok_inv in H as (u & ss & sig & _ & _ & Hs & Hv & ->).
  apply validateKeyID_quotes in Hv as [Hq Hne].
  pose proof (sign_names_key _ _ _ _ _ Hs) as [_ Hk].
  pose proof (sign_has_bytes _ _ _ _ _ Hs) as Hb.
  pose proof (Halg _ _ _ _ _ Hs) as Ha.
  cbn [req_Header with_header]. rewrite header_Get_Set_eq by reflexivity.
  eexists _, (Bytes sig). split.
  - apply parse_header_general;
      [done| |reflexivity|apply b64_encode_no_quote|done|by apply b64_encode_nonempty|done
       |apply Fields_DefaultHeaders].
    unfold effective_algorithm. by case_bool_decide.
  - cbn [p_Headers p_KeyID p_Signature]. rewrite b64_decode_encode.
    split_and!; [apply requireCoverage_Default|done|done|done].
Qed.

(** C34 When a delivery is lost to its signing endpoint: an answer of 410, or of 404
    in JSON, means that there is no such key, and the delivery fails for good whatever
    became of the answer's body; so does a delivery whose endpoint is at an address
    the guard refuses, which no retry would change. Every other answer that yields
    no signature (another 404, a failing status, a body that cannot be read, is no
    JSON or holds no usable signature) and every other failure of the call is
    retried, the activity is kept. *)
Theorem remote_missing_key {U : Unicode} {W} `{!Net W} r keyID str u (w : W) :
  url_Parse (rs_url r) = Ok u ->
  exists sreq, req_Host sreq = removeEmptyPort (url_Host u) /\
  let signed := remoteSigner_Sign r keyID str w in
  match http_Do (rs_client r) (rs_timeout r) sreq w with
  | (Ok resp, w1) =>
      (says_no_such_key resp -> exists err, signed = (Fail err, w1) /\ loses_delivery err) /\
      (~ says_no_such_key resp -> from_option outside_error True (body_err (resp_Body resp)) ->
       forall err w2, signed = (Fail err, w2) -> w2 = w1 /\ keeps_delivery err)
  | (Fail cause, w1) =>
      outside_error cause ->
      exists err, signed = (Fail err, w1) /\
        if errors_Is cause ErrBlocked then loses_delivery err else keeps_delivery err
  end.
Proof.
  intros Hu. cbv zeta. unfold remoteSigner_Sign. destruct (sign_body_reads keyID str) as (body & -> & _).
  unfold NewRequest. rewrite Hu. cbn [mbind res_bind]. set (post := mkRequest MethodPost _ _ _ body).
  match goal with |- context [with_header post ?h] => exists (with_header post h) end.
  split; [reflexivity|]. destruct (http_Do _ _ _ w) as [[resp|cause] w1]; cbn [after_sign_do].
  - split.
    + intros Hk%isNoSuchKey_spec. unfold handle_sign_response. rewrite Hk.
      eexists. split; [done|]. by apply unknown_loses.
    + intros Hn Hb err w2 [= He <-]. split; [done|].
      by apply outside_keeps, (handle_sign_response_error r keyID resp).
  - intros [H1 H2]. destruct (errors_Is cause ErrBlocked); eexists; (split; [done|]).
    + apply permanent_loses.
    + apply outside_keeps. split; cbn; by rewrite ?H1, ?H2.
Qed.

(** C35 What a signing endpoint is asked: the request's body reads back as the key
    id, the text to sign in base64 and the algorithm, the text decoding to the
    exact bytes; it is posted to the configured URL with the time, and with the
    HMAC of time and body exactly when a secret is set, so the endpoint can
    tell who asks; and the answer to that one request decides. *)
Theorem remote_request_reads {U : Unicode} {W} `{!Net W} r keyID str u (w : W) :
  url_Parse (rs_url r) = Ok u ->
  exists body text req,
    parse_json body = Some (JObject [("keyId", JString (to_valid keyID)); ("signingString", JString text);
                                     ("algorithm", JString AlgorithmRSASHA256)]) /\
    b64_decode text = Some str /\
    Method req = MethodPost /\ req_Host req = removeEmptyPort (url_Host u) /\ req_Body req = body /\
    header_Get (req_Header req) "Content-Type" = "application/json" /\
    header_Get (req_Header req) HeaderTimestamp = FormatInt (time_Now w / Second) /\
    header_Get (req_Header req) HeaderSignature =
      (if bool_decide (rs_secret r = "") then "" else SignHMAC (rs_secret r) (time_Now w / Second) body) /\
    remoteSigner_Sign r keyID str w
      = after_sign_do r keyID (http_Do (rs_client r) (rs_timeout r) req w).
Proof.
  intros Hu. unfold remoteSigner_Sign. destruct (sign_body_reads keyID str) as (body & -> & Hbody).
  unfold NewRequest. rewrite Hu. cbn [mbind res_bind]. eexists body, (b64_encode str), _.
  split_and!; last reflexivity.
  - exact Hbody.
  - apply b64_decode_encode.
  - done.
  - done.
  - done.
  - cbn [req_Header with_header]. case_bool_decide; header_get; reflexivity.
  - cbn [req_Header with_header]. case_bool_decide; header_get; reflexivity.
  - cbn [req_Header with_header]. case_bool_decide; header_get; reflexivity.
Qed.

(** ** Witnesses *)

(** Keys that are strings: the signature of a digest is the key and the digest. *)
Definition named_RSA : RSA := {|
  PrivateKey := string;
  PublicKey := string;
  public_of k := k;
  SignPKCS1v15 k d := Ok ("sig:" +:+ k +:+ d);
  VerifyPKCS1v15 k d s :=
    if bool_decide (s = "sig:" +:+ k +:+ d) then None
    else Some (New "crypto/rsa: verification error");
|}.

Lemma named_laws : RSALaws named_RSA.
Proof.
  split; cbn.
  - intros k d s [= <-]. by rewrite bool_decide_eq_true_2.
  - by intros k d s [= <-].
Qed.

Definition any_pem (s : string) : option (string * string) := Some ("RSA PRIVATE KEY", s).
Definition any_pkcs1 (s : string) : res string := Ok s.
Definition any_pkcs8 (s : string) : res (string + string) := Fail (New "x509").

Definition alice_file : string := "/keys/" +:+ KeyFileName "https://a/alice#main-key".

(** One file whose content is replaced at the third moment, under a new
    modification time. *)
Definition rotated : history := fun t =>
  if (t <? 3)%nat then {[ alice_file := (mkFileInfo 1 3 false, "old") ]}
  else {[ alice_file := (mkFileInfo 2 3 false, "new") ]}.

Lemma rotated_fresh : stamps_fresh rotated.
Proof.
  intros p t1 t t2 i1 c1 i2 c2 Ht. unfold rotated. generalize alice_file. intros f.
  destruct (Nat.ltb_spec t1 3), (Nat.ltb_spec t 3), (Nat.ltb_spec t2 3); try lia;
    intros [<- [= <- <-]]%lookup_singleton_Some [_ [= <- <-]]%lookup_singleton_Some; cbn;
    intros Hm _; try lia; (split; [by rewrite lookup_singleton_eq|done]).
Qed.

Definition before_rotation : list string := ["https://a/alice#main-key"; "https://a/alice#main-key"].
Definition after_rotation : key_cache * nat :=
  @loads named_RSA any_pem any_pkcs1 any_pkcs8 rotated "/keys" before_rotation (∅, 0%nat).
Definition rotated_load :=
  @load_at named_RSA any_pem any_pkcs1 any_pkcs8 rotated "/keys" "https://a/alice#main-key"
    after_rotation.

Lemma dir_load_fresh_witness :
  rotated_load.1 = Ok "new" /\
  @load_ok named_RSA any_pem any_pkcs1 any_pkcs8 rotated "/keys" "https://a/alice#main-key"
    after_rotation.2 rotated_load.2.2 rotated_load.1.
Proof.
  split; [vm_compute; reflexivity|].
  pose proof (@dir_load_fresh named_RSA any_pem any_pkcs1 any_pkcs8 rotated "/keys" before_rotation
                "https://a/alice#main-key" 0%nat rotated_fresh) as H.
  cbv zeta in H. fold after_rotation in H. fold rotated_load in H.
  destruct rotated_load as [r [c t']]. exact H.
Defined.

Definition file_config : SignerConfig :=
  mkSignerConfig "file" "https://a/alice#main-key" "/keys/alice.pem" "" "" "" 0 None.
Definition key_FS : FS fake_net := {|
  os_Stat p w := (Fail (Sentinel ErrNotExist), w);
  os_ReadFile p w := (Ok "alice", w);
  filepath_Join d n := d +:+ "/" +:+ n;
|}.
Definition built_signer :=
  @BuildSigner ascii_only named_RSA any_pem any_pkcs1 any_pkcs8 fake_net fake_Net key_FS
    file_config
    (mkFake (Fail (New "down")) 0 [] []).

Lemma BuildSigner_lawful_witness :
  exists sg, built_signer.1 = Ok sg /\ SignerLaws sg.
Proof.
  exists (@local_signer named_RSA _ (@mkLocalSigner named_RSA "https://a/alice#main-key" "alice")).
  split; [reflexivity|].
  apply (@BuildSigner_lawful named_RSA named_laws any_pem any_pkcs1 any_pkcs8 ascii_only fake_net fake_Net key_FS
           file_config
           (mkFake (Fail (New "down")) 0 [] []) (mkFake (Fail (New "down")) 0 [] [])).
  reflexivity.
Defined.

Lemma signed_header_names_key_witness :
  exists parsed bytes,
    ParseSignatureHeader (header_Get (req_Header toy_signed.1.2) "Signature") = Ok parsed /\
    requireCoverage (U := ascii_only) (p_Headers parsed) = None /\
    ("" <> "" -> p_KeyID parsed = "") /\
    b64_decode (p_Signature parsed) = Some bytes /\ bytes <> "".
Proof.
  assert (SignerLaws (@local_signer toy_RSA unit toy_signer)) as HL
    by (apply local_signer_laws; [exact toy_laws|done]).
  apply (@signed_header_names_key ascii_only unit (@local_signer toy_RSA unit toy_signer) HL
           0 toy_request "{}" "" tt toy_signed.1.2 tt); [|vm_compute; reflexivity].
  intros k s w sig w'. cbn. intros [= Hs _]. apply LocalSigner_Sign_ok in Hs; [|exact toy_laws].
  destruct Hs as (_ & -> & _). reflexivity.
Defined.

Definition sample_remote : remoteSigner :=
  mkRemoteSigner "http://127.0.0.1/sign" "" defaultRemoteTimeout (NewClient true) UserAgent.

Definition secret_remote : remoteSigner :=
  mkRemoteSigner "https://keys.example/sign" "s3cret" defaultRemoteTimeout (NewClient true) UserAgent.

(** A worker that says 410 and hangs up, and a proxy that does not know the page. *)
Definition cut_410 : fake_net :=
  mkFake (Ok (mkResponse 410 "410 Gone" ∅ (mkBody "no su" (Some (New "unexpected EOF"))))) 0 [] [].
Definition plain_404 : fake_net :=
  mkFake (Ok (mkResponse 404 "404 Not Found" ∅ (mkBody "no such page" None))) 0 [] [].
Definition secret_url : URL := mkURL "https" "" "keys.example" "/sign" false "".

Lemma remote_missing_key_witness :
  (exists err, (@remoteSigner_Sign ascii_only fake_net fake_Net secret_remote "k" "(request-target)" cut_410).1
     = Fail err /\ loses_delivery err) /\
  (exists err, (@remoteSigner_Sign ascii_only fake_net fake_Net secret_remote "k" "(request-target)" plain_404).1
     = Fail err /\ keeps_delivery err).
Proof.
  pose proof (@remote_missing_key ascii_only fake_net fake_Net secret_remote "k" "(request-target)"
                secret_url) as H. split.
  - destruct (H cut_410) as (sreq & _ & Hc & _); [reflexivity|].
    destruct Hc as (err & Hs & Hl); [by left|]. exists err. by rewrite Hs.
  - destruct (H plain_404) as (sreq & _ & _ & Hc); [reflexivity|].
    destruct (remoteSigner_Sign secret_remote "k" _ plain_404) as [[sig|err] w2] eqn:Hs; [by vm_compute in Hs|].
    exists err. split; [done|]. apply (Hc ltac:(by intros [?|[_ ?]]) I err w2 eq_refl).
Defined.

Lemma remote_request_reads_witness :
  exists req text,
    fake_sent (@remoteSigner_Sign ascii_only fake_net fake_Net secret_remote "k" "(request-target)"
                 deliver_world).2 = [req] /\
    parse_json (req_Body req) = Some (JObject [("keyId", JString "k"); ("signingString", JString text);
                                               ("algorithm", JString AlgorithmRSASHA256)]) /\
    b64_decode text = Some "(request-target)".
Proof.
  destruct (@remote_request_reads ascii_only fake_net fake_Net secret_remote "k" "(request-target)"
              (mkURL "https" "" "keys.example" "/sign" false "") deliver_world)
    as (body & text & req & Hp & Hb & _ & _ & Hbody & _ & _ & _ & Hout); [vm_compute; reflexivity|].
  exists req, text. rewrite Hout, Hbody. split; [reflexivity|]. split; [exact Hp|exact Hb].
Defined.
