(* ===== verification/KeyCache.v ===== *)
(** * Concurrent loads of a key directory (executor/apdeliver/signer.go)

    A worker's deliveries share one dirSigner, so its [load] runs in several
    goroutines at once: the stat, the look at the cache under the read lock, the
    read of the file and the store under the write lock are separate moments,
    between which other loads move and files are replaced. [next] is one such
    moment of [Signers.load]; [run_load] says that four of them without anything
    in between are the sequential function. *)

From S2P Require Import Prelude GoErrors GoStrings Logging Utf8 Crypto Http Json JsonFacts Httpsig.
From S2P Require Import Httpsend Config Executor Register ApDeliver Signers.

(** Where a load is: what it does next, and what its earlier steps left it. *)
Inductive load_pc {R : RSA} : Type :=
| AtStat
| AtCache (info : FileInfo)
| AtRead (info : FileInfo)
| AtStore (info : FileInfo) (key : PrivateKey)
| Loaded (r : res PrivateKey).

Section load.
Context {R : RSA}.
Context (pem_Decode : string -> option (string * string)).
Context (ParsePKCS1PrivateKey : string -> res PrivateKey).
Context (ParsePKCS8PrivateKey : string -> res (PrivateKey + string)).

Let parse := parse_key pem_Decode ParsePKCS1PrivateKey ParsePKCS8PrivateKey.

Section next.
Context {W : Type} `{!FS W}.

(** One step of [dirSigner.load]: a call of package os or a section under the
    lock. *)
Definition next (dir keyID : string) (pc : load_pc) (s : key_cache * W)
  : load_pc * (key_cache * W) :=
  let path := filepath_Join dir (KeyFileName keyID) in
  let '(cached, w) := s in
  match pc with
  | AtStat =>
      match os_Stat path w with
      | (Fail err, w) =>
          (Loaded (Fail (if errors_Is err ErrNotExist then unknown_key keyID path
                         else Errorf "apdeliver: stat %s: %w" [OStr path; OWrap err])), (cached, w))
      | (Ok info, w) => (AtCache info, (cached, w))
      end
  | AtCache info =>
      match cached !! keyID with
      | Some hit =>
          if (ck_modTime hit =? ModTime info) && (ck_size hit =? Size info)
          then (Loaded (Ok (ck_key hit)), s) else (AtRead info, s)
      | None => (AtRead info, s)
      end
  | AtRead info =>
      match os_ReadFile path w with
      | (Fail err, w) =>
          (Loaded (Fail (if errors_Is err ErrNotExist then unknown_key keyID path
                         else Errorf "apdeliver: read %s: %w" [OStr path; OWrap err])), (cached, w))
      | (Ok pemBytes, w) =>
          match parse pemBytes with
          | Fail err => (Loaded (Fail (Errorf "apdeliver: %s: %w" [OStr path; OWrap err])), (cached, w))
          | Ok key => (AtStore info key, (cached, w))
          end
      end
  | AtStore info key =>
      (Loaded (Ok key), (<[keyID := mkCached key (ModTime info) (Size info)]> cached, w))
  | Loaded r => (Loaded r, s)
  end.

Fixpoint run_next (n : nat) (dir keyID : string) (pc : load_pc) (s : key_cache * W)
  : load_pc * (key_cache * W) :=
  match n with
  | O => (pc, s)
  | S n => let '(pc, s) := next dir keyID pc s in run_next n dir keyID pc s
  end.

Lemma run_next_loaded n dir keyID r (s : key_cache * W) :
  run_next n dir keyID (Loaded r) s = (Loaded r, s).
Proof. induction n as [|n IH]; [done|]. destruct s as [c w]. exact IH. Qed.

(** The sequential [load] is the schedule in which nothing else moves. *)
Lemma run_load dir keyID (s : key_cache * W) :
  run_next 4 dir keyID AtStat s =
  let '(r, s) := load pem_Decode ParsePKCS1PrivateKey ParsePKCS8PrivateKey dir keyID s in (Loaded r, s).
Proof.
  destruct s as [cached w]. unfold load. change 4%nat with (S 3).
  set (path := filepath_Join dir (KeyFileName keyID)). fold parse.
  cbn [run_next]. cbn [next]. fold path.
  destruct (os_Stat path w) as [[info|err] w1]; [|by destruct (errors_Is err ErrNotExist)].
  change 3%nat with (S 2). cbn [run_next]. cbn [next].
  assert (run_next 2 dir keyID (AtRead info) (cached, w1) =
    let '(r, s) := match os_ReadFile path w1 with
          | (Fail err, w) =>
              if errors_Is err ErrNotExist then (Fail (unknown_key keyID path), (cached, w))
              else (Fail (Errorf "apdeliver: read %s: %w" [OStr path; OWrap err]), (cached, w))
          | (Ok pemBytes, w) =>
              match parse pemBytes with
              | Fail err => (Fail (Errorf "apdeliver: %s: %w" [OStr path; OWrap err]), (cached, w))
              | Ok key =>
                  (Ok key, (<[keyID := mkCached key (ModTime info) (Size info)]> cached, w))
              end
          end in (Loaded r, s)) as Hread.
  { cbn [run_next]. cbn [next]. fold path. destruct (os_ReadFile path w1) as [[pem|err] w2].
    - by destruct (parse pem).
    - by destruct (errors_Is err ErrNotExist). }
  destruct (cached !! keyID) as [hit|]; [destruct (_ && _)|]; [done|apply Hread..].
Qed.

(** How many steps are left at most. *)
Definition rank (pc : load_pc) : nat :=
  match pc with AtStat => 4 | AtCache _ => 3 | AtRead _ => 2 | AtStore _ _ => 1 | Loaded _ => 0 end.

Lemma next_rank dir keyID pc (s : key_cache * W) :
  (rank (next dir keyID pc s).1 <= pred (rank pc))%nat.
Proof.
  destruct s as [cached w], pc; cbn [next]; repeat case_match; simplify_eq; cbn; lia.
Qed.
End next.

(** ** Loads in parallel *)

(** A call of [load]: when it began and when it last moved. *)
Record loader := mkLoader {
  l_keyID : string;
  l_start : nat;
  l_last : nat;
  l_pc : load_pc;
}.

(** The signer shared by the loads in progress, and the clock of the file
    system. *)
Record pool := mkPool {
  p_cache : key_cache;
  p_now : nat;
  p_loads : list loader;
}.

Inductive pool_event : Set := Call (keyID : string) | Move (i : nat) | Wait (n : nat).

Section pool.
Context (h : history) (dir : string).

Definition moved (l : loader) (cached : key_cache) (now : nat) : load_pc * (key_cache * nat) :=
  @next nat (hist_FS h) dir (l_keyID l) (l_pc l) (cached, now).

(** A load that has returned moves no more. *)
Definition answered (pc : load_pc) : bool := match pc with Loaded _ => true | _ => false end.

(** What happens next: a delivery asks for a key, a load moves, time passes. *)
Definition pool_step (st : pool) (e : pool_event) : pool :=
  match e with
  | Call keyID =>
      mkPool (p_cache st) (p_now st) (p_loads st ++ [mkLoader keyID (p_now st) (p_now st) AtStat])
  | Wait n => mkPool (p_cache st) (p_now st + n) (p_loads st)
  | Move i =>
      match p_loads st !! i with
      | None => st
      | Some l =>
          if answered (l_pc l) then st
          else
            let '(pc, (cached, now)) := moved l (p_cache st) (p_now st) in
            mkPool cached now (<[i := mkLoader (l_keyID l) (l_start l) now pc]> (p_loads st))
      end
  end.

Definition pool_run (st : pool) (events : list pool_event) : pool := fold_left pool_step events st.

(** The interpretations shared by what follows. *)
Abbreviation directory_inv := (cache_inv pem_Decode ParsePKCS1PrivateKey ParsePKCS8PrivateKey h dir).
Abbreviation answer_ok := (load_ok pem_Decode ParsePKCS1PrivateKey ParsePKCS8PrivateKey h dir).

Let key_path (keyID : string) : string := dir +:+ "/" +:+ KeyFileName keyID.

(** What a load knows: the stamp it carries was the file's during its call, so was
    the key it is about to store, and its answer is justified. *)
Definition loader_ok (now : nat) (l : loader) : Prop :=
  (l_start l <= l_last l <= now)%nat /\
  match l_pc l with
  | AtStat => True
  | AtCache info | AtRead info =>
      exists t c, (l_start l <= t <= now)%nat /\ h t !! key_path (l_keyID l) = Some (info, c)
  | AtStore info key =>
      exists t1 t2 c1 i2 c2, (l_start l <= t1 <= t2)%nat /\ (t2 <= l_last l)%nat /\
        h t1 !! key_path (l_keyID l) = Some (info, c1) /\
        h t2 !! key_path (l_keyID l) = Some (i2, c2) /\ parse c2 = Ok key
  | Loaded r =>
      answer_ok (l_keyID l) (l_start l) (l_last l) r
  end.

Definition pool_inv (st : pool) : Prop :=
  directory_inv (p_cache st) (p_now st) /\
  Forall (loader_ok (p_now st)) (p_loads st).

Lemma loader_ok_later now now' l : loader_ok now l -> (now <= now')%nat -> loader_ok now' l.
Proof.
  intros [Ht H] Hn. split; [lia|]. destruct (l_pc l); try done;
    destruct H as (t & c & ? & ?); exists t, c; (split; [lia|done]).
Qed.

(** A cached key whose stamp is the one the load has just seen was the file's
    during the load. *)
Lemma hit_ok cached now l info ck r :
  stamps_fresh h ->
  directory_inv cached now ->
  loader_ok now l -> l_pc l = AtCache info -> cached !! l_keyID l = Some ck ->
  ck_modTime ck = ModTime info -> ck_size ck = Size info -> r = Ok (ck_key ck) ->
  answer_ok (l_keyID l) (l_start l) now r.
Proof.
  intros Hf Hinv [Hl H] Hpc Hck Hm Hs ->. rewrite Hpc in H. destruct H as (t & c & Ht & Hstat).
  destruct (Hinv _ _ Hck) as (t1 & t2 & i1 & c1 & i2 & c2 & Ht12 & H1 & E1 & E2 & H2 & Hp).
  cbn. destruct (decide (l_start l <= t2)%nat) as [Hin|Hout].
  - exists t2, i2, c2. split; [lia|]. by split.
  - destruct (Hf (key_path (l_keyID l)) t1 t2 t i1 c1 info c) as [H2' [= -> ->]];
      [lia|done|done|congruence..|].
    unfold key_path in H2'. rewrite H2' in H2. injection H2 as <- <-.
    exists t, i1, c1. split; [lia|]. by split.
Qed.

(** One move of a load. *)
Lemma moved_ok cached now l :
  stamps_fresh h ->
  directory_inv cached now ->
  loader_ok now l ->
  let '(pc, (cached', now')) := moved l cached now in
  (now <= now')%nat /\
  directory_inv cached' now' /\
  loader_ok now' (mkLoader (l_keyID l) (l_start l) now' pc).
Proof.
  intros Hf Hinv Hl. pose proof Hl as [Hb Hpc].
  pose proof (cache_inv_later _ _ _ h dir cached now (S now) Hinv ltac:(lia)) as HinvS.
  unfold moved, next. cbn [filepath_Join os_Stat os_ReadFile hist_FS]. fold (key_path (l_keyID l)).
  destruct (l_pc l) as [|info|info|info key|r] eqn:E.
  - destruct (h now !! _) as [[info c]|] eqn:Hstat.
    + split_and!; [lia|done|split; cbn; [lia|]]. exists now, c. split; [lia|done].
    + split_and!; [lia|done|split; cbn; [lia|]]. exists now. split; [lia|by left].
  - assert (forall pc, pc = AtRead info -> loader_ok now (mkLoader (l_keyID l) (l_start l) now pc))
      as Hmiss by (intros ? ->; split; cbn; [lia|exact Hpc]).
    destruct (cached !! l_keyID l) as [ck|] eqn:Hck; [|by split_and!; [lia|done|apply Hmiss]].
    destruct (Z.eqb_spec (ck_modTime ck) (ModTime info)), (Z.eqb_spec (ck_size ck) (Size info));
      cbn [andb]; try by split_and!; [lia|done|apply Hmiss].
    split_and!; [lia|done|split; cbn -[load_ok]; [lia|]]. by eapply hit_ok.
  - destruct Hpc as (t & c & Ht & Hstat). destruct (h now !! _) as [[i2 c2]|] eqn:Hread.
    + destruct (parse c2) as [key|e] eqn:Hp.
      * split_and!; [lia|done|split; cbn; [lia|]]. exists t, now, c, i2, c2. split_and!; try done; lia.
      * split_and!; [lia|done|split; cbn; [lia|]].
        exists now. split; [lia|]. right. by exists i2, c2, e.
    + split_and!; [lia|done|split; cbn; [lia|]]. exists now. split; [lia|by left].
  - destruct Hpc as (t1 & t2 & c1 & i2 & c2 & Ht & Ht2 & H1 & H2 & Hp).
    split_and!; [lia| |split; cbn; [lia|]; exists t2, i2, c2; split; [lia|by split]].
    intros k ck Hck. apply (lookup_insert_Some (M := gmap string)) in Hck.
    destruct Hck as [[<- <-]|[_ Hck]]; [|exact (Hinv k ck Hck)].
    exists t1, t2, info, c1, i2, c2. split_and!; try done; lia.
  - split_and!; [lia|done|]. split; cbn -[load_ok]; [lia|].
    destruct r; cbn in *; destruct Hpc as (t0 & Hpc).
    + destruct Hpc as (i & c & ? & ?). exists t0, i, c. split; [lia|done].
    + exists t0. destruct Hpc as [? ?]. split; [lia|done].
Qed.

Lemma pool_step_inv st e : stamps_fresh h -> pool_inv st -> pool_inv (pool_step st e).
Proof.
  intros Hf [Hc Hl]. destruct e as [keyID|i|n]; cbn [pool_step].
  - split; [exact Hc|]. cbn. apply Forall_app. split; [done|].
    repeat constructor; cbn; lia.
  - destruct (p_loads st !! i) as [l|] eqn:Hi; [|done].
    pose proof (Forall_lookup_1 _ _ _ _ Hl Hi) as Hli.
    pose proof (moved_ok (p_cache st) (p_now st) l Hf Hc Hli) as H.
    destruct (answered (l_pc l)); [done|].
    destruct (moved l _ _) as [pc [cached now]]. destruct H as (Hn & Hc' & Hl'). split; [exact Hc'|].
    cbn. apply Forall_insert; [|exact Hl'].
    eapply Forall_impl; [exact Hl|]. intros. by eapply loader_ok_later.
  - split; cbn.
    + apply (cache_inv_later _ _ _ h dir (p_cache st) (p_now st)); [done|lia].
    + eapply Forall_impl; [exact Hl|]. intros l' Hl'. apply (loader_ok_later (p_now st)); [done|lia].
Qed.

Lemma pool_run_inv st events : stamps_fresh h -> pool_inv st -> pool_inv (pool_run st events).
Proof.
  intros Hf. revert st. induction events as [|e events IH]; intros st H; [done|].
  cbn. by apply IH, pool_step_inv.
Qed.

(** A signer just built. *)
Definition fresh_pool (start : nat) : pool := mkPool ∅ start [].

Lemma fresh_pool_inv start : pool_inv (fresh_pool start).
Proof.
  split; [|constructor]. intros k ck Hk.
  by apply (lookup_empty_Some (M := gmap string) k ck) in Hk.
Qed.

(** ** Progress *)

Definition is_move (i : nat) (e : pool_event) : bool :=
  match e with Move j => bool_decide (j = i) | _ => false end.
Definition moves (i : nat) (events : list pool_event) : nat := length (List.filter (is_move i) events).

Lemma moved_rank l cached now :
  answered (l_pc l) = false -> (rank (moved l cached now).1 < rank (l_pc l))%nat.
Proof.
  intros Ha. unfold moved.
  pose proof (@next_rank nat (hist_FS h) dir (l_keyID l) (l_pc l) (cached, now)) as Hr.
  destruct (l_pc l); try done; cbn [rank pred] in *; lia.
Qed.

Lemma pool_step_load st e i l :
  p_loads st !! i = Some l ->
  exists l', p_loads (pool_step st e) !! i = Some l' /\ l_keyID l' = l_keyID l /\
    l_start l' = l_start l /\ (rank (l_pc l') <= rank (l_pc l) - if is_move i e then 1 else 0)%nat.
Proof.
  intros Hl. assert (forall st',
    p_loads st' !! i = Some l -> is_move i e = false \/ rank (l_pc l) = 0%nat ->
    exists l', p_loads st' !! i = Some l' /\ l_keyID l' = l_keyID l /\
    l_start l' = l_start l /\ (rank (l_pc l') <= rank (l_pc l) - if is_move i e then 1 else 0)%nat)
    as Hsame.
  { intros st' H He. exists l. split_and!; [done..|]. destruct He as [->| ->]; lia. }
  destruct e as [keyID|j|n]; cbn [pool_step].
  - apply Hsame; [by apply lookup_app_l_Some|by left].
  - destruct (decide (j = i)) as [->|Hne].
    + rewrite Hl. destruct (answered (l_pc l)) eqn:Ha.
      { apply Hsame; [done|right]. by destruct (l_pc l). }
      pose proof (moved_rank l (p_cache st) (p_now st) Ha) as Hr.
      destruct (moved l _ _) as [pc [cached now]]. eexists. cbn [p_loads]. split.
      { rewrite list_lookup_insert_eq; [done|]. by eapply lookup_lt_Some. }
      cbn [fst] in Hr. cbn [l_keyID l_start l_pc is_move]. rewrite bool_decide_eq_true_2 by done.
      split_and!; [done..|lia].
    + assert (is_move i (Move j) = false) as Hm by by apply bool_decide_eq_false_2.
      destruct (p_loads st !! j) as [lj|]; [|apply Hsame; [done|by left]].
      destruct (answered (l_pc lj)); [apply Hsame; [done|by left]|].
      destruct (moved lj _ _) as [pc [cached now]]. apply Hsame; [|by left].
      cbn [p_loads]. by rewrite list_lookup_insert_ne.
  - apply Hsame; [done|by left].
Qed.

Lemma pool_run_load events st i l :
  p_loads st !! i = Some l ->
  exists l', p_loads (pool_run st events) !! i = Some l' /\ l_keyID l' = l_keyID l /\
    l_start l' = l_start l /\ (rank (l_pc l') <= rank (l_pc l) - moves i events)%nat.
Proof.
  revert st l. induction events as [|e events IH]; intros st l Hl.
  - exists l. split_and!; [done..|cbn; lia].
  - destruct (pool_step_load st e i l Hl) as (l1 & H1 & Hk1 & Hs1 & Hr1).
    destruct (IH _ _ H1) as (l2 & H2 & Hk2 & Hs2 & Hr2). exists l2.
    split_and!; [done|congruence..|]. unfold moves in *. cbn [List.filter].
    destruct (is_move i e); cbn [length]; lia.
Qed.
End pool.
End load.
Arguments loader {R}.
Arguments pool {R}.

(** ** Properties *)

(** C15 Key rotation takes effect, however deliveries interleave: in every
    schedule of concurrent loads on a new dir signer, whatever is replaced on
    disk meanwhile, a load that has answered hands out a key the file held at
    some moment of that very call, or reports an unknown key at a moment the file
    was absent, or failed to parse what it held; provided a replaced file differs
    in modification time or size from what the path held before. A load in
    progress stays in the pool and has answered once it was scheduled four
    times, whatever the others do in between. *)
Theorem concurrent_load_fresh {R : RSA} pem_Decode pkcs1 pkcs8 h dir start before i l later :
  stamps_fresh h ->
  let run := pool_run pem_Decode pkcs1 pkcs8 h dir in
  p_loads (run (fresh_pool start) before) !! i = Some l ->
  exists l',
    p_loads (run (run (fresh_pool start) before) later) !! i = Some l' /\
    l_keyID l' = l_keyID l /\ l_start l' = l_start l /\
    (forall r, l_pc l' = Loaded r ->
       load_ok pem_Decode pkcs1 pkcs8 h dir (l_keyID l) (l_start l) (l_last l') r) /\
    (4 <= moves i later -> exists r, l_pc l' = Loaded r)%nat.
Proof.
  intros Hf run Hl.
  destruct (pool_run_load pem_Decode pkcs1 pkcs8 h dir later _ i l Hl) as (l' & Hl' & Hk & Hs & Hr).
  exists l'. split_and!; [done..| |].
  - intros r Hpc.
    pose proof (pool_run_inv pem_Decode pkcs1 pkcs8 h dir (fresh_pool start) (before ++ later) Hf
                  (fresh_pool_inv pem_Decode pkcs1 pkcs8 h dir start)) as [_ H].
    unfold pool_run in H at 2. rewrite fold_left_app in H.
    pose proof (Forall_lookup_1 _ _ _ _ H Hl') as [_ Hok]. rewrite Hpc, Hk, Hs in Hok. exact Hok.
  - intros Hm. destruct (l_pc l) eqn:E1, (l_pc l') eqn:E2; cbn in Hr; try lia; by eexists.
Qed.

(** ** Witnesses *)

(** Two deliveries of the same actor around the rotation: the first one has read
    the old file when it is replaced, the second one begins after that, and the
    first one's store comes in between the second one's stat and its look at
    the cache. *)
Definition racing_calls : list pool_event :=
  [Call "https://a/alice#main-key"; Move 0; Move 0; Move 0; Wait 3;
   Call "https://a/alice#main-key"; Move 1].
Definition racing_rest : list pool_event := [Move 0; Move 1; Move 1; Move 1; Move 1].

Definition race : @pool named_RSA -> list pool_event -> @pool named_RSA :=
  @pool_run named_RSA any_pem any_pkcs1 any_pkcs8 rotated "/keys".
Definition raced : @pool named_RSA := race (race (fresh_pool 0) racing_calls) racing_rest.

Lemma concurrent_load_fresh_witness :
  (l_pc <$> p_loads raced)
    = [@Loaded named_RSA (@Ok string "old"); @Loaded named_RSA (@Ok string "new")] /\
  exists l r, p_loads raced !! 1%nat = Some l /\ l_pc l = Loaded r /\
    @load_ok named_RSA any_pem any_pkcs1 any_pkcs8 rotated "/keys" "https://a/alice#main-key"
      5 (l_last l) r.
Proof.
  split; [vm_compute; reflexivity|].
  destruct (@concurrent_load_fresh named_RSA any_pem any_pkcs1 any_pkcs8 rotated "/keys" 0%nat
              racing_calls 1%nat
              (@mkLoader named_RSA "https://a/alice#main-key" 5 6 (AtCache (mkFileInfo 2 3 false)))
              racing_rest rotated_fresh)
    as (l & Hl & _ & _ & H & Hd); [vm_compute; reflexivity|].
  destruct Hd as [r Hr]; [vm_compute; lia|]. exists l, r. split_and!; [exact Hl|exact Hr|].
  exact (H r Hr).
Defined.
