(* ===== verification/Standalone.v ===== *)
(** * The standalone worker (executor.go, executor/httpexec, executor/apdeliver)

    The binary links every executor package: their init functions fill the
    registry, and a queue of the configuration file gets the executor its type's
    factory builds. This file puts the pieces together - YAML block, factory,
    executor, HTTP client, dialer, runtime - and states what holds of a
    configured queue end to end. The world is the process: the key caches of its
    delivery executors, one per executor, and the outside. *)

From S2P Require Import Prelude GoErrors GoStrings Logging Utf8 Crypto Json NetAddr Safedial Http Httpsig.
From S2P Require Import RetryAfter Httpsend Transport Config Executor Register Runtime HttpExec ApDeliver Signers.

(** ** Worlds with private parts *)

(** A world that also has what the first component holds. *)
#[local] Instance paired_Net {C W} `{!Net W} : Net (C * W) := {|
  http_Do c limit req '(x, w) := let '(r, w) := http_Do c limit req w in (r, (x, w));
  time_Now s := time_Now s.2;
  log_write r '(x, w) := (x, log_write r w);
  url_Parse := url_Parse (W := W);
  http_ParseTime := http_ParseTime (W := W);
|}.

(** The file system beside the connections. *)
#[local] Instance paired_FS {C W} `{!FS W} : FS (C * W) := {|
  os_Stat p '(x, w) := let '(r, w) := os_Stat p w in (r, (x, w));
  os_ReadFile p '(x, w) := let '(r, w) := os_ReadFile p w in (r, (x, w));
  filepath_Join := filepath_Join (W := W);
|}.

(** An operation of the outside, and of one executor's cache. *)
Definition on_outside {C W A} (f : W -> A * W) (p : C * W) : A * (C * W) :=
  let '(a, w) := f p.2 in (a, (p.1, w)).
Definition at_slot {C W A} (zero : C) (n : nat) (f : C * W -> A * (C * W)) (p : list C * W)
  : A * (list C * W) :=
  let '(a, (c, w)) := f (default zero (p.1 !! n), p.2) in (a, (<[n := c]> p.1, w)).

(** ** The linked executors *)

Section linked.
Context {U : Unicode} {R : RSA}.
Context (pem_Decode : string -> option (string * string)).
Context (ParsePKCS1PrivateKey : string -> res PrivateKey).
Context (ParsePKCS8PrivateKey : string -> res (PrivateKey + string)).
Context (range : gmap string string -> list (string * string)) (zone : Z -> Z).
(** The YAML library: writing a node, and decoding text into each option struct
    with unknown keys rejected. *)
Context (yaml_Marshal : node -> res string).
Context (yaml_http : string -> HttpExec.Options -> HttpExec.Options * option error).
Context (yaml_webhook : string -> WebhookOptions -> WebhookOptions * option error).
Context (yaml_deliver : string -> DeliverConfig -> DeliverConfig * option error).
Context {W : Type} `{!Net W} `{!FS W}.

Definition process : Type := list key_cache * W.

(** [var opts Options] *)
Definition zero_options : HttpExec.Options := HttpExec.mkOptions "" 0 "" "" ∅ 0 None.
Definition zero_webhook : WebhookOptions := mkWebhookOptions 0 "" "" ∅ 0 None.
Definition zero_deliver : DeliverConfig :=
  mkDeliverConfig 0 "" 0 false (mkSignerConfig "" "" "" "" "" "" 0 None).

Definition decode_http := DecodeStrict yaml_Marshal yaml_http.
Definition decode_webhook_options := DecodeStrict yaml_Marshal yaml_webhook.
Definition decode_deliver := DecodeStrict yaml_Marshal yaml_deliver.

(** The factory of the "log" executor: its records go to the runtime's log. *)
Definition log_factory : ExecutorFactory process := fun _ _ p =>
  (Ok (ExecutorFunc (fun job =>
         on_outside (fun w =>
           let '(r, records) := Execute log_executor job [] in
           (r, fold_left (fun w l => log_write l w) records w)))), p).

Definition http_factory : ExecutorFactory process := fun _ raw p =>
  (mkExecutor ∘ (fun e job => on_outside (http_Execute range zone e job))
     <$> newHTTPExecutor range decode_http zero_options raw, p).

Definition webhook_factory : ExecutorFactory process := fun _ raw p =>
  (mkExecutor ∘ (fun e job => on_outside (webhook_Execute range e job))
     <$> newWebhookExecutor range decode_webhook_options zero_webhook raw, p).

(** A delivery executor is built with a cache of its own. *)
Definition deliver_factory : ExecutorFactory process := fun _ raw p =>
  match newExecutor pem_Decode ParsePKCS1PrivateKey ParsePKCS8PrivateKey decode_deliver zero_deliver
          raw p.2 with
  | (Fail err, w) => (Fail err, (p.1, w))
  | (Ok e, w) =>
      (Ok (mkExecutor (fun job => at_slot ∅ (length p.1) (Execute (deliver_executor range e) job))),
       (p.1 ++ [∅], w))
  end.

(** What the init functions of the linked packages register. *)
Definition inits : list (string * ExecutorFactory process) :=
  [("log", log_factory); ("activitypub_deliver", deliver_factory);
   ("http", http_factory); ("webhook", webhook_factory)].
End linked.

(** ** Lemmas: what a built executor does to the outside *)

(** A relation on the outside, whatever happens to the private part. *)
Definition outside {C W} (R : W -> W -> Prop) (p p' : C * W) : Prop := R p.2 p'.2.

#[export] Instance outside_preorder {C W} (R : W -> W -> Prop) `{!PreOrder R} :
  PreOrder (@outside C W R).
Proof.
  split.
  - intros p. unfold outside. reflexivity.
  - intros p1 p2 p3 H1 H2. unfold outside in *. by etransitivity.
Qed.

Section confined.
Context {U : Unicode} {R : RSA}.
Context (pem_Decode : string -> option (string * string)).
Context (ParsePKCS1PrivateKey : string -> res PrivateKey).
Context (ParsePKCS8PrivateKey : string -> res (PrivateKey + string)).
Context (range : gmap string string -> list (string * string)) (zone : Z -> Z).
Context {W : Type} `{!Net W} `{!FS W} (C : W -> W -> Prop) `{!PreOrder C}.
(** What the log, the file system and a guarded client do is allowed. *)
Context (Hlog : forall r (w : W), C w (log_write r w)).
Context (Hstat : forall p (w : W), C w (os_Stat p w).2).
Context (Hread : forall p (w : W), C w (os_ReadFile p w).2).
Context (Hguarded : forall limit req (w : W), C w (http_Do (NewClient false) limit req w).2).

Abbreviation sealed sg := (forall keyID str w, outside C w (Httpsig.Sign sg keyID str w).2).

Lemma on_outside_confined {X A} (f : W -> A * W) (p : X * W) :
  (forall w, C w (f w).2) -> outside C p (on_outside f p).2.
Proof.
  intros H. unfold outside, on_outside. specialize (H p.2). by destruct (f p.2).
Qed.

Lemma at_slot_confined {X A} (zero : X) n (f : X * W -> A * (X * W)) p :
  (forall q, outside C q (f q).2) -> outside C p (at_slot zero n f p).2.
Proof.
  intros H. unfold at_slot. specialize (H (default zero (p.1 !! n), p.2)).
  by destruct (f _) as [a [c w]].
Qed.

Lemma dir_signer_confined dir :
  sealed (dir_signer pem_Decode ParsePKCS1PrivateKey ParsePKCS8PrivateKey dir).
Proof.
  intros keyID str [cached w]. unfold outside. cbn [Httpsig.Sign dir_signer]. unfold dirSigner_Sign.
  case_bool_decide; [reflexivity|]. unfold load.
  pose proof (Hstat (filepath_Join dir (KeyFileName keyID)) w) as H1.
  destruct (os_Stat _ w) as [[info|e] w1]; [|by destruct (errors_Is e ErrNotExist)].
  destruct (match cached !! keyID with Some hit => _ | None => None end) as [key|];
    [by destruct (NewLocalSigner keyID (Some key))|].
  pose proof (Hread (filepath_Join dir (KeyFileName keyID)) w1) as H2.
  assert (forall w2, C w1 w2 -> C w w2) as Hw by (intros w2 H12; etransitivity; [exact H1|exact H12]).
  destruct (os_ReadFile _ w1) as [[pem|e] w2]; [|by destruct (errors_Is e ErrNotExist); apply Hw].
  destruct (parse_key _ _ _ pem) as [key|e]; [|by apply Hw].
  destruct (NewLocalSigner keyID (Some key)); by apply Hw.
Qed.

Lemma remote_signer_confined r keyID str (w : W) :
  rs_client r = NewClient false -> C w (Httpsig.Sign (remote_signer r) keyID str w).2.
Proof.
  intros Hc. cbn [Httpsig.Sign remote_signer]. unfold remoteSigner_Sign. rewrite Hc.
  destruct (Marshal _); [|reflexivity]. destruct (NewRequest _ _ _ _) as [req|]; [|reflexivity]. cbv zeta.
  match goal with |- context [http_Do ?c ?l ?r w] =>
    pose proof (Hguarded l r w) as H; destruct (http_Do c l r w) as [[resp|e] w'] end; cbn [after_sign_do].
  - exact H.
  - by destruct (errors_Is e ErrBlocked).
Qed.

(** Whose endpoint is not on the private network. *)
Definition guarded_signer (cfg : SignerConfig) : Prop :=
  sc_Type cfg = "remote" -> sc_AllowPrivateNetwork cfg = Some false.

Lemma BuildSigner_confined cfg (w w' : W) sg :
  guarded_signer cfg ->
  BuildSigner pem_Decode ParsePKCS1PrivateKey ParsePKCS8PrivateKey cfg w = (Ok sg, w') -> sealed sg.
Proof.
  unfold BuildSigner. intros Hg. repeat case_bool_decide; try done.
  - destruct (newFileSigner _ _ _ cfg w) as [[s|] w1]; [|done]. by intros [= <- _] keyID str q.
  - destruct (newDirSigner cfg w) as [[dir|] w1]; [|done].
    intros [= <- _]. apply dir_signer_confined.
  - destruct (newRemoteSigner cfg) as [r|] eqn:Hr; [|done]. intros [= <- _] keyID str [c q].
    unfold outside. cbn [Httpsig.Sign lift_signer compose].
    assert (rs_client r = NewClient false) as Hc.
    { unfold newRemoteSigner in Hr. rewrite Hg in Hr by done.
      repeat case_match; try done; by injection Hr as <-. }
    pose proof (remote_signer_confined r keyID str q Hc) as HC.
    by destruct (Httpsig.Sign (remote_signer r) keyID str q).
Qed.

Context (yaml_Marshal : node -> res string).
Context (yaml_http : string -> HttpExec.Options -> HttpExec.Options * option error).
Context (yaml_webhook : string -> WebhookOptions -> WebhookOptions * option error).
Context (yaml_deliver : string -> DeliverConfig -> DeliverConfig * option error).

(** A block of the configuration that leaves the private network out. *)
Definition guarded_block (raw : ExecutorConfig) : Prop :=
  ec_Type raw = "log" \/
  (ec_Type raw = "http" /\
     HttpExec.allowPrivate (decode_http yaml_Marshal yaml_http raw zero_options).1 = false) \/
  (ec_Type raw = "webhook" /\
     wh_AllowPrivateNetwork (decode_webhook_options yaml_Marshal yaml_webhook raw zero_webhook).1 <> Some true) \/
  (ec_Type raw = "activitypub_deliver" /\
     let cfg := (decode_deliver yaml_Marshal yaml_deliver raw zero_deliver).1 in
     dc_AllowPrivateNetwork cfg = false /\ guarded_signer (dc_Signer cfg)).

Abbreviation linked_inits :=
  (inits pem_Decode ParsePKCS1PrivateKey ParsePKCS8PrivateKey range zone yaml_Marshal yaml_http
     yaml_webhook yaml_deliver).

Lemma http_built_confined raw e :
  newHTTPExecutor range (decode_http yaml_Marshal yaml_http) zero_options raw = Ok e ->
  HttpExec.allowPrivate (decode_http yaml_Marshal yaml_http raw zero_options).1 = false ->
  forall job w, C w (http_Execute range zone e job w).2.
Proof.
  intros He Ha job w. apply http_Execute_confined; try done. revert He Ha. unfold newHTTPExecutor.
  destruct (decode_http _ _ raw _) as [opts [e'|]]; [done|]. case_bool_decide; [done|].
  destruct (checkTarget _); [done|]. destruct (checkHeaders _); [done|].
  intros [= <-] Ha. cbn in *. by rewrite Ha.
Qed.

Lemma webhook_built_confined raw e :
  newWebhookExecutor range (decode_webhook_options yaml_Marshal yaml_webhook) zero_webhook raw = Ok e ->
  wh_AllowPrivateNetwork (decode_webhook_options yaml_Marshal yaml_webhook raw zero_webhook).1
    <> Some true ->
  forall job w, C w (webhook_Execute range e job w).2.
Proof.
  intros He Ha job w. apply webhook_Execute_confined; try done. revert He Ha. unfold newWebhookExecutor.
  destruct (decode_webhook_options _ _ raw _) as [opts [e'|]]; [done|]. destruct (checkHeaders _); [done|].
  intros [= <-] Ha. cbn in *. unfold wh_allowPrivate.
  destruct (wh_AllowPrivateNetwork opts) as [[]|]; done.
Qed.

Lemma deliver_built_confined raw (w w' : W) e :
  newExecutor pem_Decode ParsePKCS1PrivateKey ParsePKCS8PrivateKey
    (decode_deliver yaml_Marshal yaml_deliver) zero_deliver raw w = (Ok e, w') ->
  (let cfg := (decode_deliver yaml_Marshal yaml_deliver raw zero_deliver).1 in
   dc_AllowPrivateNetwork cfg = false /\ guarded_signer (dc_Signer cfg)) ->
  forall job q, outside C q (Deliver range e job q).2.
Proof.
  unfold newExecutor. destruct (decode_deliver _ _ raw _) as [cfg [e'|]]; [done|]. cbn [fst].
  destruct (BuildSigner _ _ _ _ w) as [[sg|] w1] eqn:Hb; [|done].
  intros He [Ha Hg] job q. cbv zeta in He. injection He as <- _. rewrite Ha.
  apply Deliver_confined.
  - apply _.
  - intros r [c w2]. apply Hlog.
  - by apply (BuildSigner_confined _ _ _ _ Hg Hb).
  - intros limit req [c w2]. unfold outside. cbn [http_Do paired_Net client].
    specialize (Hguarded limit req w2). by destruct (http_Do _ limit req w2).
Qed.

(** Whatever factory a type names, a guarded block gives an executor whose effects
    on the outside are allowed. *)
Lemma linked_confined typ factory bc raw (p p' : process) ex :
  (typ, factory) ∈ linked_inits -> typ = ec_Type raw -> guarded_block raw ->
  factory bc raw p = (Ok ex, p') -> forall job q, outside C q (Execute ex job q).2.
Proof.
  unfold inits. rewrite !elem_of_cons, elem_of_nil. intros Hin -> Hg Hf job q.
  destruct Hin as [[= Ht ->]|[[= Ht ->]|[[= Ht ->]|[[= Ht ->]|[]]]]].
  - injection Hf as <- _. apply on_outside_confined. intros w. cbn. apply Hlog.
  - destruct Hg as [?|[[? _]|[[? _]|[_ Hg]]]]; try congruence. unfold deliver_factory in Hf.
    destruct (newExecutor _ _ _ _ _ raw p.2) as [[e|] w1] eqn:He; [|done]. injection Hf as <- _.
    apply at_slot_confined. by apply (deliver_built_confined _ _ _ _ He Hg).
  - destruct Hg as [?|[[_ Hg]|[[? _]|[? _]]]]; try congruence. unfold http_factory in Hf.
    destruct (newHTTPExecutor _ _ _ raw) as [e|] eqn:He; [|done]. injection Hf as <- _.
    apply on_outside_confined. by apply http_built_confined with raw.
  - destruct Hg as [?|[[? _]|[[_ Hg]|[? _]]]]; try congruence. unfold webhook_factory in Hf.
    destruct (newWebhookExecutor _ _ _ raw) as [e|] eqn:He; [|done]. injection Hf as <- _.
    apply on_outside_confined. by apply webhook_built_confined with raw.
Qed.
End confined.

(** The verdict of the retry hook, from the hint an error carries. *)
Lemma hinted_delay err id queue attempts (hinted : bool) d :
  fst <$> errors_As_opt err = (if hinted then Some d else None) ->
  (hinted = true -> 0 < d) ->
  (retryDelay (mkBackoffContext err id queue attempts)).1 =
  if hinted then (Z.min d maxRetryAfter, true) else (0, false).
Proof.
  intros H Hd. destruct (errors_As_opt err) as [[d' oe]|] eqn:E; destruct hinted; try done.
  - injection H as ->. rewrite (retryDelay_found (mkBackoffContext err id queue attempts) d oe E). specialize (Hd eq_refl).
    by destruct (Z.ltb_spec d 0); [lia|].
  - by rewrite (retryDelay_absent (mkBackoffContext err id queue attempts) E).
Qed.

(** Where a guarded client does not go: the send fails for good. *)
Lemma send_blocked {U : Unicode} {W} `{!Dialing W} s limit target body secret extra job
    req u addrs tr (w w' : W) :
  snd_client s = NewClient false ->
  NewRequest net_ParseURL MethodPost target body = Ok req -> req_URL req = Some u ->
  net_Resolve u w = (Ok addrs, w') -> addrs <> [] -> Forall (fun a => CheckAddr a <> None) addrs ->
  let out := send s limit target body secret extra job (tr, w) in
  errors_Is_opt out.1.2 ErrUnrecoverable = true /\ out.2 = (tr, w').
Proof.
  intros Hc Hq Hu Hr Hne HF. cbv zeta. unfold send. rewrite Hc.
  cbn [url_Parse dialing_Net]. rewrite Hq. cbv zeta.
  match goal with |- context [http_Do ?c limit ?r (tr, w)] =>
    destruct (Do_blocked limit r u addrs tr w w') as (e & -> & He); [exact Hu|done..|] end.
  cbn [after_do HttpExec.after_do]. unfold isBlocked. rewrite He. by split.
Qed.

(** The registry that registrations in any order leave. *)
Lemma register_all_perm {F} (regs linked : list (string * F)) :
  regs ≡ₚ linked -> NoDup linked.*1 -> "" ∉ linked.*1 ->
  exists m, register_all ∅ regs = Ok m /\
    (forall typ f, m !! typ = Some f <-> (typ, f) ∈ linked) /\
    (map_to_list m).*1 ≡ₚ linked.*1.
Proof.
  intros Hp Hnd Hne. assert (NoDup regs.*1) as Hnd' by (by rewrite Hp).
  destruct (register_all_complete regs ∅ Hnd') as [m Hm].
  { intros t f Hin. split; [|apply lookup_empty]. intros ->. apply Hne.
    apply list_elem_of_fmap. exists ("", f). split; [done|]. by rewrite <- Hp. }
  exists m. split; [exact Hm|]. apply register_all_ok in Hm as (_ & _ & ->).
  rewrite (right_id_L ∅ (∪)). split.
  - intros t f. rewrite <- elem_of_list_to_map by done. by rewrite Hp.
  - rewrite map_to_list_to_map by done. by rewrite Hp.
Qed.

(** A queue whose block is guarded is registered with a guarded handler. *)
Lemma configured_handler_guarded {U : Unicode} {R : RSA} pem_Decode pkcs1 pkcs8 range zone
    yaml_Marshal yaml_http yaml_webhook yaml_deliver {W} `{!Dialing W} `{!FS W} {K}
    (regs : list (string * ExecutorFactory (process (W := list string * W)))) factories
    (rt rt' : Runtime (process (W := list string * W)) K) p p' qc raw :
  regs ≡ₚ inits pem_Decode pkcs1 pkcs8 range zone yaml_Marshal yaml_http yaml_webhook yaml_deliver ->
  register_all ∅ regs = Ok factories ->
  valid_config (cfg rt) ->
  buildConfiguredQueues factories rt p = (None, rt', p') ->
  qc ∈ Queues (cfg rt) -> claimed rt (q_Name qc) = false -> q_Executor qc = Some raw ->
  guarded_block yaml_Marshal yaml_http yaml_webhook yaml_deliver raw ->
  exists r, registry rt' !! q_Name qc = Some r /\
    forall job q, connects_public q.2 (r_handler r job q).2.2.
Proof.
  intros Hp Hm Hv Hb Hqc Hc Hraw Hg.
  pose proof (build_queues_ok _ _ _ _ _ _ Hb) as (_ & _ & _ & _ & _ & Hbuilt).
  destruct (Hbuilt (valid_names _ Hv) qc Hqc Hc) as (r & Hr & e & f & ex & p1 & p2 & He & Hf & Hx & ->).
  rewrite Hraw in He. injection He as <-. eexists. split; [exact Hr|]. intros job q.
  cbn [r_handler]. unfold executorHandler.
  apply register_all_ok in Hm as (Hnd & _ & ->). rewrite (right_id_L ∅ (∪)) in Hf.
  apply elem_of_list_to_map in Hf; [|exact Hnd]. rewrite Hp in Hf.
  eapply (linked_confined pem_Decode pkcs1 pkcs8 range zone connects_public);
    [..|exact Hf|reflexivity|exact Hg|exact Hx].
  - intros l [tr w]. apply connects_none.
  - intros path [tr w]. cbn. destruct (os_Stat path w). apply connects_none.
  - intros path [tr w]. cbn. destruct (os_ReadFile path w). apply connects_none.
  - intros limit req w. apply Do_public.
Qed.

(** Workers that remember the handler mkq was given for them. *)
Definition handled_Process {W K}
  (answer : list (event (K * handler W)) -> string -> list WorkerOption -> res K)
  : list (event (K * handler W)) -> string -> handler W -> list WorkerOption -> res (K * handler W) :=
  fun tr queue h opts => k ← answer tr queue opts; Ok (k, h).

(** A worker runs the handler its queue was registered with. *)
Definition runs_registered {W K} (rt : Runtime W (K * handler W)) (p : string * (K * handler W)) : Prop :=
  exists r, registry rt !! p.1 = Some r /\ p.2.2 = r_handler r.

Lemma launch_handlers {W K} answer mkq_Stop schedule names (rt rt' : Runtime W (K * handler W)) tr tr' :
  launch (handled_Process answer) mkq_Stop schedule rt tr names = (None, rt', tr') ->
  Forall (runs_registered rt) (workers rt) -> Forall (runs_registered rt) (workers rt').
Proof.
  revert rt tr. induction names as [|name names IH]; intros rt tr; cbn [launch].
  { by intros [= <- _]. }
  destruct (registry rt !! name) as [r|] eqn:Hr; [|done]. cbv zeta. unfold handled_Process at 1.
  destruct (answer _ _ _) as [k|e]; cbn [mbind res_bind];
    [|by destruct (abortWorkers mkq_Stop schedule rt tr)].
  intros H HF. apply IH in H; [exact H|]. cbn [workers with_log with_workers].
  apply Forall_app. split; [exact HF|]. repeat constructor. by exists r.
Qed.

Lemma Start_handlers {W K} answer mkq_Stop net_Listen schedule factories
    (rt rt' : Runtime W (K * handler W)) tr tr' w w' :
  workers rt = [] ->
  Start (handled_Process answer) mkq_Stop net_Listen schedule factories rt tr w = (None, rt', tr', w') ->
  exists rt1 w1, buildConfiguredQueues factories (with_started rt) w = (None, rt1, w1) /\
    Forall (runs_registered rt1) (workers rt').
Proof.
  intros Hw. unfold Start. destruct (started rt); [done|].
  destruct (buildConfiguredQueues _ _ w) as [[[e|] rt1] w1] eqn:Hb; [done|].
  destruct (registeredQueues rt1) as [|n ns]; [done|]. cbv zeta.
  destruct (warnPoolSize_same rt1 (n :: ns)) as [(_ & Hr & _) Hw1].
  destruct (launch _ _ _ (warnPoolSize rt1 _) tr _) as [[[e|] rt2] tr2] eqn:Hl; [done|].
  apply launch_handlers in Hl.
  2:{ rewrite Hw1. apply build_setup in Hb as (_ & -> & _). cbn. by rewrite Hw. }
  unfold start_server. intros H. exists rt1, w1. split; [done|].
  assert (workers rt' = workers rt2) as ->.
  { destruct (serverEnabled (cfg rt2)); [|by injection H as <- _ _].
    destruct (newHealthServer net_Listen rt2 tr2) as [addr|e]; [by injection H as <- _ _|].
    by destruct (abortWorkers mkq_Stop schedule rt2 tr2). }
  eapply Forall_impl; [exact Hl|]. intros p (r & Hp & He). exists r. by rewrite <- Hr.
Qed.

(** ** Properties *)

(** The binary's executors: in whatever order the packages of the standalone
    worker initialise, no registration panics, exactly the four types log, http,
    webhook and activitypub_deliver are known, each with its own factory and
    listed sorted, every type documented as built in is linked, and a queue that
    names any other type is refused with the list. *)
Theorem linked_types {U : Unicode} {R : RSA} pem_Decode pkcs1 pkcs8 range zone
    yaml_Marshal yaml_http yaml_webhook yaml_deliver {W} `{!Net W} `{!FS W} {K}
    (regs : list (string * ExecutorFactory (process (W := W)))) :
  let known := ["activitypub_deliver"; "http"; "log"; "webhook"] in
  let linked := inits pem_Decode pkcs1 pkcs8 range zone yaml_Marshal yaml_http yaml_webhook
                  yaml_deliver in
  regs ≡ₚ linked ->
  exists factories,
    register_all ∅ regs = Ok factories /\
    (forall typ f, lookupExecutorFactory factories typ = Some f <-> (typ, f) ∈ linked) /\
    (forall keys, keys ≡ₚ (map_to_list factories).*1 -> RegisteredExecutors_of keys = known) /\
    (forall typ, is_Some (builtinExecutorPackages !! typ) ->
       is_Some (lookupExecutorFactory factories typ)) /\
    (forall (rt : Runtime (process (W := W)) K) qc raw p,
       claimed rt (q_Name qc) = false -> q_Executor qc = Some raw -> ec_Type raw ∉ known ->
       build_queue factories rt qc p =
         (Some (Errorf "mkqd: queue %q: %w"
            [OStr (q_Name qc);
             OWrap (Errorf "unknown executor type %q (registered: %v)"
                      [OStr (ec_Type raw); OSprintf "%v" (map OStr known)])]), rt, p)).
Proof.
  cbv zeta. intros Hp.
  destruct (register_all_perm regs _ Hp) as (m & Hm & Hl & Hk);
    [by vm_compute; repeat constructor; set_solver|cbn; set_solver|].
  assert (forall keys, keys ≡ₚ (map_to_list m).*1 ->
    RegisteredExecutors_of keys = ["activitypub_deliver"; "http"; "log"; "webhook"]) as Hlist.
  { intros keys Hkeys. unfold RegisteredExecutors_of. rewrite (sort_strings_unique keys _ Hkeys).
    rewrite (sort_strings_unique _ _ Hk). vm_compute. reflexivity. }
  assert (forall typ, typ ∈ ["activitypub_deliver"; "http"; "log"; "webhook"] <-> is_Some (m !! typ)) as Hin.
  { intros typ. rewrite <- (Hlist _ (reflexivity _)). unfold RegisteredExecutors_of.
    rewrite sort_strings_elem, list_elem_of_fmap. split.
    - intros ([t f] & -> & H%elem_of_map_to_list). by exists f.
    - intros [f H]. exists (typ, f). split; [done|]. by apply elem_of_map_to_list. }
  exists m. split_and!; [done|exact Hl|exact Hlist| |].
  - intros typ Htyp. apply Hin. unfold builtinExecutorPackages in Htyp.
    apply elem_of_dom in Htyp. rewrite dom_list_to_map_L in Htyp. set_solver.
  - intros rt qc raw p Hc Hq Hn. unfold build_queue. rewrite Hc, Hq. unfold lookupExecutorFactory.
    destruct (m !! ec_Type raw) as [f|] eqn:E; [by destruct Hn; apply Hin|].
    unfold RegisteredExecutors. rewrite (Hlist _ (reflexivity _)). unfold unknownExecutorError.
    assert (builtinExecutorPackages !! ec_Type raw = None) as ->; [|done].
    unfold builtinExecutorPackages. apply not_elem_of_list_to_map_1. set_solver.
Qed.

(** C1 From the configuration file to the socket: once a process that links the
    built-in executors has started, the worker of every configured queue whose
    block does not open the private network (no allow_private_network for
    webhook and activitypub_deliver, an explicit false for http and for a remote
    signer) runs a handler that, for every job anyone enqueues, whatever the
    name service answers and wherever redirects point, connects to addresses of
    the public internet only (a zoned IPv6 address, which the range tables do not
    match, excepted). *)
Theorem configured_queue_guarded {U : Unicode} {R : RSA} pem_Decode pkcs1 pkcs8 range zone
    yaml_Marshal yaml_http yaml_webhook yaml_deliver {W} `{!Dialing W} `{!FS W} {K}
    (regs : list (string * ExecutorFactory (process (W := list string * W)))) factories
    answer mkq_Stop net_Listen schedule
    (rt rt' : Runtime (process (W := list string * W)) (K * handler (process (W := list string * W))))
    tr tr' p p' name k h qc raw :
  regs ≡ₚ inits pem_Decode pkcs1 pkcs8 range zone yaml_Marshal yaml_http yaml_webhook yaml_deliver ->
  register_all ∅ regs = Ok factories ->
  valid_config (cfg rt) -> workers rt = [] ->
  Start (handled_Process answer) mkq_Stop net_Listen schedule factories rt tr p = (None, rt', tr', p') ->
  (name, (k, h)) ∈ workers rt' ->
  qc ∈ Queues (cfg rt) -> q_Name qc = name -> claimed rt name = false ->
  q_Executor qc = Some raw -> guarded_block yaml_Marshal yaml_http yaml_webhook yaml_deliver raw ->
  forall job q, connects_public q.2 (h job q).2.2.
Proof.
  intros Hp Hm Hv Hw Hs Hin Hqc <- Hc Hraw Hg.
  destruct (Start_handlers _ _ _ _ _ _ _ _ _ _ _ Hw Hs) as (rt1 & w1 & Hb & HF).
  rewrite Forall_forall in HF. destruct (HF _ Hin) as (r & Hr & Hh). cbn in Hr, Hh. subst h.
  destruct (configured_handler_guarded pem_Decode pkcs1 pkcs8 range zone yaml_Marshal yaml_http
              yaml_webhook yaml_deliver regs factories (with_started rt) rt1 p w1 qc raw)
    as (r' & Hr' & H); try done.
  assert (r = r') as -> by (apply (inj Some); exact (eq_trans (eq_sym Hr) Hr')). exact H.
Qed.

(** C26 A payload aimed at the inside is not retried: a webhook job whose target's
    host resolves to refused addresses only, under an executor built without
    allow_private_network, fails for good, and no connection was made. *)
Theorem private_target_fails {U : Unicode} range yaml_Marshal yaml_webhook {W} `{!Dialing W}
    raw e job p req u addrs tr (w w' : W) :
  newWebhookExecutor range (decode_webhook_options yaml_Marshal yaml_webhook) zero_webhook raw
    = Ok e ->
  wh_AllowPrivateNetwork (decode_webhook_options yaml_Marshal yaml_webhook raw zero_webhook).1
    <> Some true ->
  decode_webhook (job_Data job) = Ok p ->
  NewRequest net_ParseURL MethodPost (wp_URL p)
    (if bool_decide (wp_Body p = "") then "null" else wp_Body p) = Ok req ->
  req_URL req = Some u ->
  net_Resolve u w = (Ok addrs, w') -> addrs <> [] -> Forall (fun a => CheckAddr a <> None) addrs ->
  let out := webhook_Execute range e job (tr, w) in
  errors_Is_opt out.1.2 ErrUnrecoverable = true /\ out.2.1 = tr.
Proof.
  intros He Ha Hd Hq Hu Hr Hne HF. cbv zeta.
  assert (snd_client (we_snd e) = NewClient false) as Hc.
  { revert He Ha. unfold newWebhookExecutor.
    destruct (decode_webhook_options _ _ raw _) as [opts [e'|]]; [done|].
    destruct (checkHeaders _); [done|]. intros [= <-] Ha. cbn in *. unfold wh_allowPrivate.
    destruct (wh_AllowPrivateNetwork opts) as [[]|]; done. }
  unfold webhook_Execute. rewrite Hd. destruct (checkTarget _); [by split|].
  destruct (checkHeaders _); [by split|]. cbv zeta.
  match goal with |- context [send ?s ?l ?t ?b ?sc ?x job (tr, w)] =>
    destruct (send_blocked s l t b sc x job req u addrs tr w w' Hc Hq Hu Hr Hne HF) as [H1 H2] end.
  by rewrite H1, H2.
Qed.

(** C22 What an endpoint's answer to an http or webhook dispatch means for the
    job, down to the delay mkq is told: a 2xx completes it with the answer's
    value; X-Mkqd-Retry: no, a redirect, 400, 409, 410 and 422 fail it for good;
    anything else is retried, after the answer's Retry-After cut to an hour when
    it can be read and is positive, with mkq's own backoff otherwise. *)
Theorem endpoint_answer_decides {U : Unicode} {W} `{!Net W} s limit target body secret extra job
    req resp (w w1 : W) payload rest id queue attempts :
  NewRequest url_Parse MethodPost target body = Ok req ->
  http_Do (snd_client s) limit
    (with_header req (dispatch_headers s extra job (time_Now w / Second) secret body)) w
    = (Ok resp, w1) ->
  ReadBody resp (snd_maxBytes s) = (payload, None, rest) ->
  let status := StatusCode resp in
  let h := resp_Header resp in
  let hint := ParseRetryAfter http_ParseTime (header_Get h "Retry-After") (time_Now w1) in
  let '((value, err), _) := send s limit target body secret extra job w in
  (err = None <-> 200 <= status < 300) /\
  (err = None -> value = returnValue h payload) /\
  errors_Is_opt err ErrUnrecoverable = HttpExec.is_final status h /\
  (retryDelay (mkBackoffContext err id queue attempts)).1 =
    (if negb (is_success status) && negb (HttpExec.is_final status h) && hint.2 && (0 <? hint.1)
     then (Z.min hint.1 maxRetryAfter, true) else (0, false)).
Proof.
  intros Hq Hd Hread. cbv zeta. unfold send. rewrite Hq. cbv zeta. rewrite Hd. cbn [HttpExec.after_do].
  pose proof (response_outcome s target job resp w1 payload rest Hread) as H. cbv zeta in H.
  destruct (HttpExec.handle_response s target job resp w1) as [[value err] w2]. cbn [fst snd] in H.
  destruct H as (Hok & Hval & Hf & Hh). split_and!; [exact Hok| |exact Hf|].
  - intros Hn. by apply Hval, Hok.
  - apply hinted_delay; [exact Hh|]. by intros (_ & ?%Z.ltb_lt)%andb_prop.
Qed.

(** C33 What an inbox's answer to a signed delivery means for the job, down to the
    delay mkq is told: a 2xx completes it; 300-499 but 401, 408 and 429 fail it
    for good; anything else is retried, after the answer's Retry-After cut to an
    hour when it can be read and is positive, with mkq's own backoff
    otherwise. *)
Theorem inbox_answer_decides {U : Unicode} {W} `{!Net W} (e : Deliverer W) inbox job req resp
    (w w1 : W) payload rest id queue attempts :
  http_Do (client e) (e_timeout e) req w = (Ok resp, w1) ->
  ReadBody resp (maxBytes e) = (payload, None, rest) ->
  let status := StatusCode resp in
  let success := (200 <=? status) && (status <? 300) in
  let hint := ParseRetryAfter http_ParseTime (header_Get (resp_Header resp) "Retry-After")
                (time_Now w1) in
  let '((value, err), _) := after_sign e inbox job (None, req, w) in
  (err = None <-> success = true) /\
  errors_Is_opt err ErrUnrecoverable = ApDeliver.is_final status /\
  (retryDelay (mkBackoffContext err id queue attempts)).1 =
    (if negb success && negb (ApDeliver.is_final status) && hint.2 && (0 <? hint.1)
     then (Z.min hint.1 maxRetryAfter, true) else (0, false)).
Proof.
  intros Hd Hread. cbv zeta. cbn [after_sign]. rewrite Hd. cbn [ApDeliver.after_do].
  pose proof (delivery_outcome e inbox job resp w1 payload rest Hread) as H. cbv zeta in H.
  destruct (ApDeliver.handle_response e inbox job resp w1) as [[value err] w2]. cbn [fst snd] in H.
  destruct H as (Hok & Hf & Hh). split_and!; [exact Hok|exact Hf|].
  apply hinted_delay; [exact Hh|]. by intros (_ & ?%Z.ltb_lt)%andb_prop.
Qed.

(** ** Witnesses *)

(** A name service with one name inside and every other one outside, no key
    file, and endpoints that accept everything; the world is the log. *)
Definition sample_dns : Dialing (list log_record) := {|
  net_Proxy _ := None;
  net_Resolve u w :=
    (Ok [if bool_decide (url_Host u = "inside.example") then "10.0.0.7:443" else "93.184.215.14:443"], w);
  net_Connect _ w := (None, w);
  net_Exchange _ _ _ w := (Ok accepted, w);
  net_Redirect _ _ := None;
  net_Now _ := 1758500000 * Second;
  net_Log r w := w ++ [r];
  net_ParseURL := fake_Parse;
  net_ParseTime _ := None;
|}.
Definition no_files : FS (list log_record) := {|
  os_Stat _ w := (Fail (Sentinel ErrNotExist), w);
  os_ReadFile _ w := (Fail (Sentinel ErrNotExist), w);
  filepath_Join d n := d +:+ "/" +:+ n;
|}.

(** Blocks that hold the type alone. *)
Definition bare_yaml (n : node) : res string := Ok "{}".
Definition bare_options {V} (_ : string) (v : V) : V * option error := (v, None).
Definition hooks_queue : QueueConfig :=
  mkQueueConfig "hooks" None None None None None None (Some (mkExecutorConfig "webhook" None)).
Definition hooks_config : Config :=
  mkConfig (Redis sample_config) "bull" (Log sample_config) (Server sample_config)
    (ShutdownTimeout sample_config) (Defaults sample_config) [hooks_queue].

Abbreviation sample_process := (@process named_RSA (list string * list log_record)).
Definition sample_outside : Net (list string * list log_record) := @dialing_Net _ sample_dns.
Definition sample_files : FS (list string * list log_record) := @paired_FS (list string) _ no_files.
Definition sample_inits : list (string * ExecutorFactory sample_process) :=
  @inits ascii_only named_RSA any_pem any_pkcs1 any_pkcs8 map_to_list (fun _ => 0)
    bare_yaml bare_options bare_options bare_options (list string * list log_record)
    sample_outside sample_files.
Definition hooks_runtime : Runtime sample_process (nat * handler sample_process) :=
  mkRuntime hooks_config [] ∅ [] [] false false None (5 * Second) None.
Definition quiet : sample_process := ([], ([], [])).

Lemma sample_linked :
  exists factories f, register_all ∅ (rev sample_inits) = Ok factories /\
    factories !! "webhook" = Some f /\
    f = @webhook_factory ascii_only named_RSA map_to_list bare_yaml bare_options
          (list string * list log_record) sample_outside.
Proof.
  destruct (register_all_perm (rev sample_inits) sample_inits) as (m & Hm & Hl & _).
  - symmetry. apply Permutation.Permutation_rev.
  - cbn. repeat constructor; set_solver.
  - cbn. set_solver.
  - eexists m, _. split; [exact Hm|]. split; [|reflexivity]. apply Hl. do 3 right. by left.
Qed.

Lemma linked_types_witness :
  exists factories : gmap string (ExecutorFactory sample_process),
    register_all ∅ (rev sample_inits) = Ok factories /\
    RegisteredExecutors factories = ["activitypub_deliver"; "http"; "log"; "webhook"].
Proof.
  destruct (@linked_types ascii_only named_RSA any_pem any_pkcs1 any_pkcs8 map_to_list (fun _ => 0)
              bare_yaml bare_options bare_options bare_options (list string * list log_record)
              sample_outside sample_files nat (rev sample_inits)) as (m & Hm & _ & Hl & _).
  - symmetry. apply Permutation.Permutation_rev.
  - exists m. split; [exact Hm|]. by apply Hl.
Defined.

Lemma hooks_built factories (f : ExecutorFactory sample_process) :
  factories !! "webhook" = Some f ->
  f = @webhook_factory ascii_only named_RSA map_to_list bare_yaml bare_options
        (list string * list log_record) sample_outside ->
  exists rt' tr' p' k h,
    Start (handled_Process (fun tr _ _ => Ok (length tr))) (fun _ _ => None) (fun _ a => Ok a)
      (fun l => l) factories hooks_runtime [] quiet = (None, rt', tr', p') /\
    workers rt' = [("hooks", (k, h))].
Proof.
  intros Hf ->. eexists _, _, _, _, _. split.
  - unfold Start, buildConfiguredQueues. cbn [started hooks_runtime with_started cfg Queues hooks_config build_queues].
    unfold build_queue, claimed. cbn [registry with_started hooks_runtime q_Name hooks_queue q_Executor ec_Type].
    rewrite lookup_empty. unfold lookupExecutorFactory. rewrite Hf. reflexivity.
  - reflexivity.
Qed.

Lemma configured_queue_guarded_witness :
  exists factories rt' tr' p' k h,
    Start (handled_Process (fun tr _ _ => Ok (length tr))) (fun _ _ => None) (fun _ a => Ok a)
      (fun l => l) factories hooks_runtime [] quiet = (None, rt', tr', p') /\
    workers rt' = [("hooks", (k, h))] /\
    forall job q, connects_public q.2 (h job q).2.2.
Proof.
  destruct sample_linked as (m & f & Hm & Hf & Hw).
  destruct (hooks_built m f Hf Hw) as (rt' & tr' & p' & k & h & Hs & Hws).
  exists m, rt', tr', p', k, h. split; [exact Hs|]. split; [exact Hws|].
  apply (@configured_queue_guarded ascii_only named_RSA any_pem any_pkcs1 any_pkcs8 map_to_list
           (fun _ => 0) bare_yaml bare_options bare_options bare_options (list log_record)
           sample_dns no_files nat (rev sample_inits) m (fun tr _ _ => Ok (length tr)) (fun _ _ => None)
           (fun _ a => Ok a) (fun l => l) hooks_runtime rt' [] tr' quiet p' "hooks" k h hooks_queue
           (mkExecutorConfig "webhook" None)).
  - symmetry. apply Permutation.Permutation_rev.
  - exact Hm.
  - apply Validate_valid. vm_compute. reflexivity.
  - reflexivity.
  - exact Hs.
  - rewrite Hws. by left.
  - by left.
  - reflexivity.
  - reflexivity.
  - reflexivity.
  - right. right. left. by split.
Defined.

Definition inside_job : Job :=
  mkJob "hooks" "7" "hooks" (quoted "{'url': 'https://inside.example/admin', 'body': {}}") 0 0 None.
Definition bare_webhook : webhookExecutor :=
  mkWebhookExecutor zero_webhook (newSender false HttpExec.defaultMaxResponseBytes UserAgent).

Lemma private_target_fails_witness :
  let out := @webhook_Execute ascii_only map_to_list _ (@dialing_Net _ sample_dns) bare_webhook
               inside_job ([], []) in
  errors_Is_opt out.1.2 ErrUnrecoverable = true /\ out.2.1 = [].
Proof.
  eapply (@private_target_fails ascii_only map_to_list bare_yaml bare_options (list log_record) sample_dns
            (mkExecutorConfig "webhook" None) bare_webhook inside_job
            (mkWebhookPayload "https://inside.example/admin" "" ∅ "{}") _ _ ["10.0.0.7:443"] [] [] []).
  - reflexivity.
  - discriminate.
  - vm_compute. reflexivity.
  - reflexivity.
  - reflexivity.
  - vm_compute. reflexivity.
  - discriminate.
  - constructor; [|constructor]. vm_compute. discriminate.
Defined.

Lemma endpoint_answer_decides_witness :
  let out := @send ascii_only fake_net fake_Net sample_sender (30 * Second) "https://a.example/hook"
               "{}" "" [] sample_job fake_world in
  (retryDelay (mkBackoffContext out.1.2 "7" "hooks" 1)).1 = (120 * Second, true).
Proof.
  pose proof (@endpoint_answer_decides ascii_only fake_net fake_Net sample_sender (30 * Second)
                "https://a.example/hook" "{}" "" [] sample_job _ busy fake_world _
                "later" (mkBody "" None) "7" "hooks" 1 eq_refl eq_refl ltac:(vm_compute; reflexivity)) as H.
  cbv zeta in H |- *.
  destruct (send sample_sender _ _ _ _ _ _ _) as [[value err] w2]. destruct H as (_ & _ & _ & H).
  cbn [fst snd]. rewrite H. vm_compute. reflexivity.
Defined.

(** An inbox that is overloaded, and asks for a day. *)
Definition overloaded : Response :=
  mkResponse 503 "503 Service Unavailable" (header_Set ∅ "Retry-After" "86400") (mkBody "" None).

Lemma inbox_answer_decides_witness :
  let out := @after_sign fake_net fake_Net sample_deliverer "https://a.example/inbox" deliver_job
               (None, toy_request, mkFake (Ok overloaded) 0 [] []) in
  (retryDelay (mkBackoffContext out.1.2 "1" "deliver" 1)).1 = (Hour, true).
Proof.
  pose proof (@inbox_answer_decides ascii_only fake_net fake_Net sample_deliverer "https://a.example/inbox"
                deliver_job toy_request overloaded (mkFake (Ok overloaded) 0 [] [])
                (mkFake (Ok overloaded) 0 [toy_request] []) "" (mkBody "" None) "1" "deliver" 1
                eq_refl ltac:(vm_compute; reflexivity)) as H.
  cbv zeta in H |- *.
  destruct (after_sign _ _ _ _) as [[value err] w2]. destruct H as (_ & _ & H).
  cbn [fst snd]. rewrite H. vm_compute. reflexivity.
Defined.
