(* ===== verification/Delivery.v ===== *)
(** * Deliveries end to end (executor/apdeliver)

    A delivery executor whose keys are in a directory, over a network and a disk
    that change under it: deliveries follow each other on one cache, key files
    are replaced in between, and every request that leaves carries a signature
    the rest of the fediverse verifies with the key the file held. The deliverer
    is used through what its signer promises ([SignsUnder]); the directory signer
    keeps that promise for any file system that follows a history. *)

From S2P Require Import Prelude GoErrors GoStrings Logging Utf8 Crypto Json Http Httpsig Httpsend.
From S2P Require Import Config Executor Register ApDeliver Signers Standalone.

#[local] Existing Instance paired_Net.

Section delivery.
Context {U : Unicode} {R : RSA} (HR : RSALaws R).
Context (pem_Decode : string -> option (string * string)).
Context (ParsePKCS1PrivateKey : string -> res PrivateKey).
Context (ParsePKCS8PrivateKey : string -> res (PrivateKey + string)).
Context (range : gmap string string -> list (string * string)).
(** A disk with a history, the moment a world is at, and a network and a log that
    take time but do not turn it back. *)
Context {W : Type} `{!Net W} `{F : !FS W} (h : history) (clock : W -> nat).
Context `{!FollowsHistory F h clock}.
Context (Hdo : forall c limit req w, (clock w <= clock (http_Do c limit req w).2)%nat).
Context (Hlog : forall r w, (clock w <= clock (log_write r w))%nat).
Context (dir : string) (Hfresh : stamps_fresh h).

Abbreviation key_held := (load_ok pem_Decode ParsePKCS1PrivateKey ParsePKCS8PrivateKey h dir).
Abbreviation signer_of := (dir_signer pem_Decode ParsePKCS1PrivateKey ParsePKCS8PrivateKey dir).

(** The cache holds what the files held. *)
Definition cache_true (s : key_cache * W) : Prop :=
  cache_inv pem_Decode ParsePKCS1PrivateKey ParsePKCS8PrivateKey h dir s.1 (clock s.2).

(** A key of the file, at some moment of the call. *)
Definition held_during (keyID : string) (pub : PublicKey) (s s' : key_cache * W) : Prop :=
  keyID <> "" /\ exists key, pub = public_of key /\ key_held keyID (clock s.2) (clock s'.2) (Ok key).

Lemma dir_Sign_cases keyID str (s : key_cache * W) :
  cache_true s ->
  let '(r, s') := Httpsig.Sign signer_of keyID str s in
  (clock s.2 <= clock s'.2)%nat /\ cache_true s' /\
  match r with
  | Ok sig =>
      keyID <> "" /\
      exists key, key_held keyID (clock s.2) (clock s'.2) (Ok key) /\
                  LocalSigner_Sign (mkLocalSigner keyID key) keyID str = Ok sig
  | Fail _ => True
  end.
Proof.
  destruct s as [cached w]. intros Hinv. cbn [Httpsig.Sign dir_signer]. unfold dirSigner_Sign.
  case_bool_decide as Hk; [by split_and!|].
  pose proof (load_follows pem_Decode ParsePKCS1PrivateKey ParsePKCS8PrivateKey h dir keyID cached w
                Hfresh Hinv) as H.
  destruct (load _ _ _ dir keyID (cached, w)) as [[key|err] [cached' w']];
    destruct H as (Ht & Hinv' & Hok); [|by split_and!].
  unfold NewLocalSigner. rewrite bool_decide_eq_false_2 by done. cbn [fst snd].
  destruct (LocalSigner_Sign _ keyID str) as [sig|err] eqn:Hs; [|by split_and!].
  split_and!; [done|done|done|]. by exists key.
Qed.

#[export] Instance dir_signs_under : SignsUnder signer_of cache_true held_during.
Proof.
  split.
  - intros keyID str s Hinv. pose proof (dir_Sign_cases keyID str s Hinv) as H.
    destruct (Httpsig.Sign signer_of keyID str s) as [r s']. by destruct H as (_ & ? & _).
  - intros keyID str s sig s' Hinv Hs. pose proof (dir_Sign_cases keyID str s Hinv) as H.
    rewrite Hs in H. destruct H as (_ & _ & Hk & key & Hheld & Hsig).
    apply LocalSigner_Sign_under in Hsig as (-> & Hb & Hv); [|exact HR].
    split_and!; [reflexivity|done|]. exists (public_of key). split; [|exact Hv].
    split; [done|]. by exists key.
Qed.

Lemma cache_true_later cached w w' :
  (clock w <= clock w')%nat -> cache_true (cached, w) -> cache_true (cached, w').
Proof. intros Ht H. exact (cache_inv_later _ _ _ h dir cached _ _ H Ht). Qed.

(** What every part of a delivery does to the cache. *)
Definition stays_true (s s' : key_cache * W) : Prop := cache_true s -> cache_true s'.

#[export] Instance stays_true_preorder : PreOrder stays_true.
Proof. unfold stays_true. split; [by intros s H|intros s1 s2 s3; tauto]. Qed.

Lemma Deliver_stays_true (e : Deliverer (key_cache * W)) job s :
  signer e = signer_of -> stays_true s (Deliver range e job s).2.
Proof.
  intros Hs. apply Deliver_confined; [apply _|..].
  - intros r [cached w]. exact (cache_true_later cached w _ (Hlog r w)).
  - intros keyID str s1 Hinv. rewrite Hs. by apply (signs_inv (SignsUnder := dir_signs_under)).
  - intros limit req [cached w]. cbn. pose proof (Hdo (client e) limit req w) as H.
    destruct (http_Do (client e) limit req w). exact (cache_true_later cached w _ H).
Qed.

(** Its signatures are rsa-sha256. *)
Lemma dir_algorithm keyID str (s s' : key_cache * W) sig :
  Httpsig.Sign signer_of keyID str s = (Ok sig, s') -> Algorithm sig = AlgorithmRSASHA256.
Proof.
  cbn [Httpsig.Sign dir_signer]. unfold dirSigner_Sign. case_bool_decide as Hk; [done|].
  destruct (load _ _ _ dir keyID s) as [[key|err] s1]; [|done].
  destruct (NewLocalSigner keyID (Some key)) as [local|err]; [|done]. intros [= Hs _].
  by apply LocalSigner_Sign_under in Hs as (-> & _).
Qed.

(** Deliveries one after the other, from a new executor. *)
Definition deliveries (e : Deliverer (key_cache * W)) (jobs : list Job) (s : key_cache * W)
  : key_cache * W :=
  fold_left (fun s job => (Deliver range e job s).2) jobs s.

Lemma deliveries_true e jobs s :
  signer e = signer_of -> cache_true s -> cache_true (deliveries e jobs s).
Proof.
  intros He. revert s. induction jobs as [|job jobs IH]; intros s Hs; [done|].
  cbn. by apply IH, Deliver_stays_true.
Qed.

Lemma cache_true_empty w : cache_true (∅, w).
Proof. intros k ck Hk. by apply (lookup_empty_Some (M := gmap string) k ck) in Hk. Qed.
End delivery.

(** ** Properties *)

(** C6 Every delivery of an executor with a key directory is authentic: after any
    sequence of earlier deliveries, whatever key files were replaced meanwhile,
    a delivery either fails with no request made, or makes one request, to the
    payload's inbox and with the resolved body, whose Signature header names the
    payload's key id and verifies under the public half of a key that id's file
    held while the delivery was being signed; provided a replaced file differs in
    modification time or size from what the path held before. [sent] is any view of
    the world that the signer's calls on the disk leave alone. *)
Theorem directory_deliveries_verify {U : Unicode} {R : RSA} (HR : RSALaws R) pem_Decode pkcs1 pkcs8 range
    {W} `{!Net W} `{F : !FS W} h clock `{!FollowsHistory F h clock} {A} (sent : W -> A) dir
    (e : Deliverer (key_cache * W)) earlier job (w0 : W) :
  (forall c limit req w, clock w <= clock (http_Do c limit req w).2)%nat ->
  (forall r w, clock w <= clock (log_write r w))%nat ->
  (forall p w, sent (os_Stat p w).2 = sent w) -> (forall p w, sent (os_ReadFile p w).2 = sent w) ->
  (forall m, range m ≡ₚ map_to_list m) -> stamps_fresh h ->
  signer e = dir_signer pem_Decode pkcs1 pkcs8 dir ->
  let s := deliveries range e earlier (∅, w0) in
  let out := Deliver range e job s in
  (out.1.2 <> None /\ sent out.2.2 = sent s.2) \/
  exists p body ct inbox req u s1 key parsed,
    decode_payload (job_Data job) = Ok p /\ resolveBody p (contentType e) = Ok (body, ct) /\
    url_Parse (W := W) (Inbox p) = Ok inbox /\
    req = with_header (unsigned e inbox body ct ∅) (req_Header req) /\ req_URL req = Some u /\
    ParseSignatureHeader (header_Get (req_Header req) "Signature") = Ok parsed /\
    p_KeyID parsed = p_KeyId p /\
    load_ok pem_Decode pkcs1 pkcs8 h dir (p_KeyId p) (clock s.2) (clock s1.2) (Ok key) /\
    Verify req u body (public_of key) = None /\
    sent s1.2 = sent s.2 /\
    out = after_do e (Inbox p) job (http_Do (client e) (e_timeout e) req s1).
Proof.
  intros Hdo Hlog Hst Hrd Hr Hfresh Hs. cbv zeta.
  assert (cache_true pem_Decode pkcs1 pkcs8 h clock dir (deliveries range e earlier (∅, w0))) as Hinv
    by (eapply (deliveries_true HR); eauto using cache_true_empty).
  set (s := deliveries range e earlier (∅, w0)) in *.
  assert (forall keyID str q, sent q.2 = sent (Httpsig.Sign (signer e) keyID str q).2.2) as Hquiet.
  { intros keyID str q. rewrite Hs.
    assert (PreOrder (fun w w' : W => sent w = sent w')) as HP
      by (split; [by intros w|intros w1 w2 w3; congruence]).
    apply (dir_signer_confined pem_Decode pkcs1 pkcs8 (fun w w' => sent w = sent w')); by intros. }
  assert (SignsUnder (signer e) (cache_true pem_Decode pkcs1 pkcs8 h clock dir)
            (held_during pem_Decode pkcs1 pkcs8 h clock dir)) as HS
    by (rewrite Hs; by apply dir_signs_under).
  assert (PreOrder (fun q q' : key_cache * W => sent q.2 = sent q'.2)) as HPre
    by (split; [by intros q|intros q1 q2 q3; congruence]).
  assert (SignerLaws (signer e)) as HL by (rewrite Hs; by apply dir_signer_laws).
  destruct (Deliver_verified range e _ _ job s Hr Hinv)
    as [[Hn Hw]|(p & body & ct & req & u & s1 & pub & Hp & Hb & Hout & Hu & _ & _ & _ & _ &
                 (Hk & key & -> & Hheld) & Hv & inbox & h0 & Hinbox & Hsign)].
  - left. split; [done|]. destruct Hw as [->|(now & req & body & keyID & ->)]; [done|].
    symmetry.
    apply (SignRequest_world (fun q q' : key_cache * W => sent q.2 = sent q'.2)), Hquiet.
  - right.
    assert (sent s.2 = sent s1.2) as Hs1.
    { pose proof (SignRequest_world (fun q q' : key_cache * W => sent q.2 = sent q'.2)
                    (time_Now s) (unsigned e inbox body ct h0) body (p_KeyId p) (signer e) s) as H.
      rewrite Hsign in H. apply H, Hquiet. }
    destruct (signed_header_names_key (signer e) (time_Now s) (unsigned e inbox body ct h0) body
                (p_KeyId p) s req s1)
      as (parsed & _ & Hparse & _ & Hname & _); [|exact Hsign|].
    { intros k str q sig q' Hsig. rewrite Hs in Hsig. apply dir_algorithm in Hsig as ->; done. }
    exists p, body, ct, inbox, req, u, s1, key, parsed. split_and!; try done; [|by apply Hname].
    by apply SignRequest_ok_inv in Hsign as (? & ? & ? & _ & _ & _ & _ & ->).
Qed.

(** ** Witnesses *)

(** A network beside the clock of a disk: every request and every call on the disk
    takes a moment. *)
Definition timed : Type := fake_net * nat.
Definition timed_Net : Net timed := {|
  http_Do c limit req w := let '(r, n) := http_Do (Net := fake_Net) c limit req w.1 in (r, (n, S w.2));
  time_Now w := fake_now w.1;
  log_write r w := (log_write (Net := fake_Net) r w.1, w.2);
  url_Parse := fake_Parse;
  http_ParseTime _ := None;
|}.
Definition timed_FS : FS timed := {|
  os_Stat p w := let '(r, t) := os_Stat (FS := hist_FS rotated) p w.2 in (r, (w.1, t));
  os_ReadFile p w := let '(r, t) := os_ReadFile (FS := hist_FS rotated) p w.2 in (r, (w.1, t));
  filepath_Join := filepath_Join (FS := hist_FS rotated);
|}.

Lemma timed_follows : FollowsHistory timed_FS rotated snd.
Proof.
  split; [intros p [n t]; exists (n, S t); split; [cbn; lia|done]..|done].
Qed.

Definition keyed_deliverer : Deliverer (@key_cache named_RSA * timed) :=
  mkDeliverer (@dir_signer named_RSA any_pem any_pkcs1 any_pkcs8 timed timed_FS "/keys")
    (NewClient false) defaultTimeout UserAgent 65536 defaultContentType.
Definition keyed_job : Job :=
  mkJob "deliver" "1" "deliver"
    (quoted "{'inbox': 'https://a.example/inbox', 'keyId': 'https://a/alice#main-key', 'activity': {}}")
    0 0 None.

(** The first delivery reads the old key, then the file is replaced. *)
Definition after_first :=
  @deliveries ascii_only named_RSA map_to_list timed timed_Net keyed_deliverer [keyed_job]
    (∅, (deliver_world, 0%nat)).
Definition second_delivery :=
  @Deliver ascii_only map_to_list _ (@paired_Net _ timed timed_Net) keyed_deliverer keyed_job after_first.

Lemma directory_deliveries_verify_witness :
  second_delivery.1.2 = None /\
  exists first req u body, fake_sent second_delivery.2.2.1 = [first; req] /\
    @Verify named_RSA ascii_only req u body "new" = None.
Proof.
  assert (second_delivery.1.2 = None) as Hok by (vm_compute; reflexivity).
  split; [exact Hok|].
  destruct (@directory_deliveries_verify ascii_only named_RSA named_laws any_pem any_pkcs1 any_pkcs8
              map_to_list timed timed_Net timed_FS rotated snd timed_follows _
              fst "/keys" keyed_deliverer [keyed_job] keyed_job (deliver_world, 0%nat))
    as [[Hn _]|H].
  - by intros c limit req [n t]; cbn; lia.
  - by intros r w.
  - by intros p w.
  - by intros p w.
  - by intros m.
  - exact rotated_fresh.
  - reflexivity.
  - destruct (Hn Hok).
  - destruct H as (p & body & ct & inbox & req & u & s1 & key & parsed & Hp & _ & _ & _ & _ & _ & _ & Hheld & HV & Hs1 & Hout).
    assert (@decode_payload ascii_only (job_Data keyed_job)
            = Ok (mkPayload "https://a.example/inbox" "https://a/alice#main-key" "{}" "" "" ∅)) as Hp'
      by (vm_compute; reflexivity).
    rewrite Hp' in Hp. injection Hp as <-.
    destruct Hheld as (t0 & i & c & [Ht0 _] & Hc & Hkey).
    assert (key = "new") as ->.
    { assert (after_first.2.2 = 3%nat) as E by (vm_compute; reflexivity).
      assert (3 <= t0)%nat as Ht by (rewrite <- E; exact Ht0).
      unfold rotated in Hc. rewrite (proj2 (Nat.ltb_ge t0 3) Ht) in Hc.
      apply lookup_singleton_Some in Hc as [_ [= _ <-]]. vm_compute in Hkey. congruence. }
    destruct s1 as [cached [n t]].
    assert (n = after_first.2.1) as -> by exact Hs1.
    eexists _, req, u, body. split; [|exact HV].
    refine (eq_trans (f_equal (fun out => fake_sent out.2.2.1) Hout) _). vm_compute. reflexivity.
Defined.
