(* ===== verification/RemoteDelivery.v ===== *)
(** * Deliveries signed by the application (executor/apdeliver/remote.go)

    A delivery executor whose signer is a remote endpoint: the text to sign goes
    out in a JSON request, the signature comes back in a JSON answer, and the
    request that then goes to the inbox carries it. The endpoint is outside the
    program; what it must do is the contract RemoteRequest and RemoteResponse
    document ([honours_contract]). The file proves that this is enough: the
    remote signer keeps the promise a delivery needs of its signer ([SignsUnder]). *)

From S2P Require Import Prelude GoErrors GoStrings Logging Utf8 Crypto Json JsonFacts Http Httpsig Httpsend.
From S2P Require Import Config Executor Register ApDeliver Signers Delivery.

Section remote.
Context {U : Unicode} {R : RSA} {W : Type} `{!Net W}.
Context (range : gmap string string -> list (string * string)).
(** The signer, and the public key the endpoint holds for each id; an empty id is
    its default key. *)
Context (r : remoteSigner) (keys : string -> PublicKey).

(** The documented contract: an answer to a signing request that is read as a
    RemoteResponse names rsa-sha256 or no algorithm, and its signature is, in
    base64, one by the key asked for over the bytes that were sent in base64. *)
Definition honours_contract : Prop :=
  forall body h to_endpoint w resp w' keyID text str payload rest v sig,
    NewRequest url_Parse MethodPost (rs_url r) body = Ok to_endpoint ->
    http_Do (rs_client r) (rs_timeout r) (with_header to_endpoint h) w = (Ok resp, w') ->
    parse_json body = Some (JObject [("keyId", JString keyID); ("signingString", JString text);
                                     ("algorithm", JString AlgorithmRSASHA256)]) ->
    b64_decode text = Some str ->
    ReadBody resp DefaultMaxResponseBytes = (payload, None, rest) -> decode_response payload = Ok v ->
    b64_decode (rp_Signature v) = Some sig ->
    (rp_Algorithm v = "" \/ rp_Algorithm v = AlgorithmRSASHA256) /\
    VerifyPKCS1v15 (keys keyID) (Sum256 str) sig = None.

Lemma decode_signature_inv keyID payload sig :
  decode_signature r keyID payload = Ok sig ->
  exists v, decode_response payload = Ok v /\ b64_decode (rp_Signature v) = Some (Bytes sig) /\
    Bytes sig <> "" /\
    Algorithm sig = (if bool_decide (rp_Algorithm v = "") then AlgorithmRSASHA256 else rp_Algorithm v).
Proof.
  intros Hd. pose proof (decode_signature_ok r keyID payload sig Hd) as (_ & _ & Hb).
  unfold decode_signature in Hd. cbv zeta in Hd.
  destruct (decode_response payload) as [v|]; [|done]. cbn [map_err mbind res_bind] in Hd.
  exists v. destruct (b64_decode (rp_Signature v)) as [raw|] eqn:Hraw; [|done].
  destruct (bool_decide (raw = "")); [done|]. destruct (_ && _); [done|].
  destruct (bool_decide (_ = "")); [done|]. injection Hd as <-. by split_and!.
Qed.

(** Against the contract, the remote signer signs under the endpoint's keys. *)
Lemma remote_signs_under :
  honours_contract ->
  SignsUnder (remote_signer r) (fun _ => True) (fun keyID pub _ _ => pub = keys (to_valid keyID)).
Proof.
  intros Hc. split; [done|]. intros keyID str w sig w' _.
  cbn [Httpsig.Sign remote_signer]. unfold remoteSigner_Sign.
  destruct (sign_body_reads keyID str) as (body & -> & Hbody).
  destruct (NewRequest url_Parse MethodPost (rs_url r) body) as [req|] eqn:Hreq; [|done]. cbv zeta.
  match goal with |- context [with_header req ?h] => set (hs := h) end.
  destruct (http_Do _ _ _ w) as [[resp|err] w1] eqn:Hdo; cbn [after_sign_do];
    [|by destruct (errors_Is err ErrBlocked)].
  intros [= Hs _]. unfold handle_sign_response in Hs. destruct (isNoSuchKey resp); [done|].
  destruct (ReadBody resp _) as [[payload [e|]] rest] eqn:Hread; [done|].
  destruct (_ || _); [done|]. apply decode_signature_inv in Hs as (v & Hv & Hsig & Hb & Ha).
  destruct (Hc body hs req w resp w1 (to_valid keyID) (b64_encode str) str payload rest v (Bytes sig))
    as [Halg Hver]; [done..|apply b64_decode_encode|done|done|done|].
  split_and!; [|done|by eexists].
  rewrite Ha. case_bool_decide; [reflexivity|]. by destruct Halg as [| ->].
Qed.
End remote.

(** ** Properties *)

(** C7 The signing protocol is enough: with an endpoint that honours its documented
    contract, a delivery either fails, having asked the endpoint at most once and
    sent nothing else, or asked it to sign the signing string of the very request
    that then goes to the payload's inbox with the resolved body, and that request
    verifies under the key the endpoint holds for the payload's key id (its default
    key when there is none), which its Signature header names. *)
Theorem remote_deliveries_verify {U : Unicode} {R : RSA} {W} `{!Net W} range r keys
    (e : Deliverer W) job (w : W) :
  (forall m, range m ≡ₚ map_to_list m) -> honours_contract r keys -> signer e = remote_signer r ->
  let out := Deliver range e job w in
  (out.1.2 <> None /\ (out.2 = w \/ exists keyID str, out.2 = (remoteSigner_Sign r keyID str w).2)) \/
  exists p body ct inbox req u str sig w1 parsed,
    decode_payload (job_Data job) = Ok p /\ resolveBody p (contentType e) = Ok (body, ct) /\
    url_Parse (Inbox p) = Ok inbox /\
    req = with_header (unsigned e inbox body ct ∅) (req_Header req) /\ req_URL req = Some u /\
    SigningString req u DefaultHeaders = Ok str /\
    remoteSigner_Sign r (p_KeyId p) str w = (Ok sig, w1) /\
    ParseSignatureHeader (header_Get (req_Header req) "Signature") = Ok parsed /\
    (p_KeyId p <> "" -> p_KeyID parsed = p_KeyId p) /\
    Verify req u body (keys (to_valid (p_KeyId p))) = None /\
    out = after_do e (Inbox p) job (http_Do (client e) (e_timeout e) req w1).
Proof.
  intros Hr Hc Hs. cbv zeta.
  assert (SignsUnder (signer e) (fun _ => True) (fun keyID pub _ _ => pub = keys (to_valid keyID))) as HS
    by (rewrite Hs; by apply remote_signs_under).
  assert (SignerLaws (signer e)) as HL by (rewrite Hs; apply remote_signer_laws).
  destruct (Deliver_verified range e _ _ job w Hr I)
    as [[Hn Hw]|(p & body & ct & req & u & w1 & pub & Hp & Hb & Hout & Hu & _ & _ & _ & _ & -> & Hv &
                 inbox & h0 & Hinbox & Hsign)].
  - left. split; [done|]. destruct Hw as [->|(now & req & body & keyID & ->)]; [by left|].
    set (via := fun w w' : W => w' = w \/ exists k s, w' = (Sign (signer e) k s w).2).
    assert (Reflexive via) as HRefl by by left.
    destruct (SignRequest_world via now req body keyID (signer e) w) as [H|(k & s & H)]; [|by left|].
    { intros k s q. right. by exists k, s. }
    right. exists k, s. by rewrite H, Hs.
  - right. pose proof Hsign as Hreq. apply SignRequest_ok_inv in Hreq.
    destruct Hreq as (u' & str & sig & Hu' & Hstr & Hsig & _ & Hreq).
    destruct (signed_header_names_key (signer e) (time_Now w) (unsigned e inbox body ct h0) body
                (p_KeyId p) w req w1) as (parsed & _ & Hparse & _ & Hname & _); [|exact Hsign|].
    { intros k s q sg q' Hq. by destruct (signs_good _ _ _ _ _ I Hq). }
    exists p, body, ct, inbox, req, u, str, sig, w1, parsed.
    assert (u' = u) as -> by (rewrite Hreq in Hu; cbn in Hu, Hu'; congruence).
    split_and!; try done; [by rewrite Hreq|by rewrite Hreq, SigningString_Signature|].
    by rewrite Hs in Hsig.
Qed.

(** ** Witnesses *)

(** An endpoint that knows one request: the one a delivery to alice's inbox makes
    it get. *)
Definition asking_deliverer `{!Net fake_net} : Deliverer fake_net :=
  mkDeliverer (@remote_signer ascii_only fake_net _ secret_remote) (NewClient false) defaultTimeout
    UserAgent 65536 defaultContentType.
Definition asked : string :=
  match fake_sent (@Deliver ascii_only map_to_list fake_net fake_Net
                     (@asking_deliverer fake_Net) keyed_job deliver_world).2 with
  | req :: _ => req_Body req
  | [] => ""
  end.
Definition asked_bytes : string :=
  match parse_json asked with
  | Some (JObject [_; (_, JString text); _]) => default "" (b64_decode text)
  | _ => ""
  end.
Definition endpoint_keys (keyID : string) : string :=
  if bool_decide (keyID = "https://a/alice#main-key") then "alice" else "actor".
Definition endpoint_answer : string :=
  match Marshal (OObject [("keyId", OString "https://a/alice#main-key");
                          ("signature", OString (b64_encode ("sig:alice" +:+ Sum256 asked_bytes)))]) with
  | Ok s => s
  | Fail _ => ""
  end.
Definition endpoint_response : Response :=
  mkResponse 200 "200 OK" ∅ (mkBody endpoint_answer None).

Definition endpoint_Net : Net fake_net := {|
  http_Do _ _ req w :=
    (Ok (if bool_decide (req_Body req = asked) then endpoint_response else accepted),
     mkFake (fake_answer w) (fake_now w) (fake_sent w ++ [req]) (fake_logs w));
  time_Now := fake_now;
  log_write r w := mkFake (fake_answer w) (fake_now w) (fake_sent w) (fake_logs w ++ [r]);
  url_Parse := fake_Parse;
  http_ParseTime _ := None;
|}.

Lemma asked_reads :
  exists text, parse_json asked
    = Some (JObject [("keyId", JString "https://a/alice#main-key"); ("signingString", JString text);
                     ("algorithm", JString AlgorithmRSASHA256)]) /\ b64_decode text = Some asked_bytes.
Proof. eexists. vm_compute. split; reflexivity. Qed.

Lemma endpoint_response_read :
  ReadBody endpoint_response DefaultMaxResponseBytes = (endpoint_answer, None, mkBody "" None).
Proof. vm_compute. reflexivity. Qed.

Lemma endpoint_answer_reads :
  @decode_response ascii_only endpoint_answer
    = Ok (mkRemoteResponse "https://a/alice#main-key" ""
            (b64_encode ("sig:alice" +:+ Sum256 asked_bytes))).
Proof. vm_compute. reflexivity. Qed.

Lemma alice_signed str sig :
  b64_decode (b64_encode ("sig:alice" +:+ Sum256 str)) = Some sig ->
  @VerifyPKCS1v15 named_RSA (endpoint_keys "https://a/alice#main-key") (Sum256 str) sig = None.
Proof. rewrite b64_decode_encode. intros [= <-]. cbn. by rewrite bool_decide_eq_true_2. Qed.

Lemma endpoint_honours :
  @honours_contract ascii_only named_RSA fake_net endpoint_Net secret_remote endpoint_keys.
Proof.
  intros body h req w resp w' keyID text str payload rest v sig Hreq Hdo Hbody Hstr Hread Hv Hsig.
  assert (req_Body req = body) as Eb.
  { unfold NewRequest in Hreq. destruct (url_Parse _); [|done]. by injection Hreq as <-. }
  cbn [http_Do endpoint_Net req_Body with_header] in Hdo. rewrite Eb in Hdo. injection Hdo as <- _.
  destruct (bool_decide_reflect (body = asked)) as [->|_].
  - destruct asked_reads as (t & Hp & Ht). rewrite Hp in Hbody. injection Hbody as <- <-.
    assert (str = asked_bytes) as -> by congruence.
    assert (payload = endpoint_answer) as ->.
    { rewrite endpoint_response_read in Hread. congruence. }
    rewrite endpoint_answer_reads in Hv.
    assert (v = mkRemoteResponse "https://a/alice#main-key" ""
                  (b64_encode ("sig:alice" +:+ Sum256 asked_bytes))) as -> by congruence.
    split; [by left|]. exact (alice_signed asked_bytes sig Hsig).
  - exfalso. vm_compute in Hread. injection Hread as <- _. vm_compute in Hv. discriminate.
Qed.

Definition remote_delivery :=
  @Deliver ascii_only map_to_list fake_net endpoint_Net (@asking_deliverer endpoint_Net) keyed_job
    deliver_world.

(** The endpoint is asked once. *)
Lemma endpoint_asked keyID str w sig w1 :
  @remoteSigner_Sign ascii_only fake_net endpoint_Net secret_remote keyID str w = (Ok sig, w1) ->
  exists req, fake_sent w1 = fake_sent w ++ [req].
Proof.
  unfold remoteSigner_Sign. destruct (Marshal _) as [body|]; [|done].
  destruct (NewRequest _ _ _ body) as [req|]; [|done]. cbn [http_Do endpoint_Net after_sign_do].
  intros Hw. injection Hw as _ <-. by eexists.
Qed.

(** What is sent to the inbox is sent after what was sent before. *)
Lemma inbox_sent inbox job limit req w :
  fake_sent (@after_do fake_net endpoint_Net (@asking_deliverer endpoint_Net) inbox job
               (@http_Do fake_net endpoint_Net (NewClient false) limit req w)).2 = fake_sent w ++ [req].
Proof.
  cbn [http_Do endpoint_Net after_do]. destruct (bool_decide _); [|reflexivity].
  unfold handle_response. change (maxBytes _) with 65536.
  assert (ReadBody endpoint_response 65536 = (endpoint_answer, None, mkBody "" None)) as ->
    by exact endpoint_response_read.
  reflexivity.
Qed.

Lemma remote_deliveries_verify_witness :
  remote_delivery.1.2 = None /\
  exists asking req u body, fake_sent remote_delivery.2 = [asking; req] /\
    @Verify named_RSA ascii_only req u body "alice" = None.
Proof.
  assert (remote_delivery.1.2 = None) as Hok by (vm_compute; reflexivity).
  split; [exact Hok|].
  destruct (@remote_deliveries_verify ascii_only named_RSA fake_net endpoint_Net map_to_list
              secret_remote endpoint_keys (@asking_deliverer endpoint_Net) keyed_job deliver_world)
    as [[Hn _]|H]; [by intros|exact endpoint_honours|reflexivity|destruct (Hn Hok)|].
  destruct H as (p & body & ct & inbox & req & u & str & sig & w1 & parsed & Hp & _ & _ & _ & _ & _ &
                 Hsig & _ & _ & HV & Hout).
  assert (@decode_payload ascii_only (job_Data keyed_job)
          = Ok (mkPayload "https://a.example/inbox" "https://a/alice#main-key" "{}" "" "" ∅)) as Hp'
    by (vm_compute; reflexivity).
  rewrite Hp' in Hp. injection Hp as <-.
  apply endpoint_asked in Hsig as [asking Hw1].
  exists asking, req, u, body. split; [|exact HV].
  refine (eq_trans (f_equal (fun out => fake_sent out.2) Hout) _).
  rewrite inbox_sent, Hw1. reflexivity.
Defined.
