(* ===== verification/Embedded.v ===== *)
(** * The embedding example (examples/embedded/main.go)

    The smallest complete embedding: a typed handler, a producer and the runtime.
    The program is modelled as it runs against Redis (what mkq answers to its
    calls), a clock and a context that a signal may cancel; the deliveries its
    workers make meanwhile are what the counter shows when the main goroutine
    looks at it. *)

From S2P Require Import Prelude GoErrors GoStrings Logging Config Executor Register.
From S2P Require Import Runtime Shutdown.

Record Delivery := mkDelivery { d_Inbox : string; d_Body : string }.

(** The literal given to [mkqd.New]. *)
Definition example_config (redisAddr : string) : Config :=
  mkConfig (mkRedisConfig [redisAddr] 0 "" "" "" 0) "mkqd-example" (mkLogConfig "info" "text")
    (mkServerConfig "off" false) 0 (mkQueueDefaults 0 0 0 0 0) [].

Definition redis_addr (Getenv : string -> string) : string :=
  let redisAddr := Getenv "MKQD_REDIS_ADDR" in
  if bool_decide (redisAddr = "") then "127.0.0.1:6379" else redisAddr.

(** The handler: [handled] and the lines of package log are its world. *)
Definition deliver (id : string) (d : Delivery) (s : Z * list string)
  : (any * option error) * (Z * list string) :=
  ((ANil, None),
   (wrap64 (s.1 + 1),
    s.2 ++ ["delivering job " +:+ id +:+ " to " +:+ d_Inbox d +:+ ": " +:+ d_Body d])).

(** What the i-th turn of the waiting loop sees: the counter, the clock, which
    channel was ready, and the clock after that. *)
Inductive wake : Set := CtxDone | After50ms.
Record turn := mkTurn { t_handled : Z; t_now : Z; t_wake : wake; t_woken : Z }.

(** 50 ms *)
Definition poll : Z := 50 * 1000000.

(** The loop, up to [fuel] looks at its condition: the turn at which it ended. *)
Fixpoint wait (turns : nat -> turn) (fuel i : nat) (deadline : Z) : option nat :=
  match fuel with
  | O => None
  | S fuel =>
      let t := turns i in
      if (t_handled t <? 3) && (t_now t <? deadline) then
        wait turns fuel (S i) (match t_wake t with CtxDone => t_woken t | After50ms => deadline end)
      else Some i
  end.

(** Ten seconds of 50 ms turns, and the last look. *)
Definition wait_fuel : nat := 201.

Section example.
Context {K : Type}.
Abbreviation example_world := (Z * list string)%type.
Abbreviation example_runtime := (Runtime example_world K).

(** The environment, mkq's client and its workers. [mkq_typed] is the decoding mkq
    does for a typed handler, [mkq_Add] what it answers to the i-th Add: the
    job's id. *)
Context (Getenv : string -> string).
Context (NewClient : mkqConfig -> option error).
Context (mkq_Process : list (event K) -> string -> handler example_world -> list WorkerOption -> res K).
Context (mkq_Stop : list (event K) -> K -> option error).
Context (net_Listen : list (event K) -> string -> res string).
Context (schedule : list (string * K) -> list (string * K)).
Context (factories : gmap string (ExecutorFactory example_world)).
Context (mkq_typed : (string -> Delivery -> example_world -> (any * option error) * example_world) ->
                     handler example_world).
Context (mkq_Add : nat -> Delivery -> res string).
(** The clock when the deadline is set, the turns of the loop, the counter after
    it, and the answers to a shutdown given that long. *)
Context (now : Z) (turns : nat -> turn) (handled_after : Z) (down : Z -> sd_answers).

Definition nth_delivery (i : nat) : Delivery :=
  mkDelivery ("https://remote" +:+ Itoa (Z.of_nat i) +:+ ".example/inbox") "hello".

(** The producer's loop: what it logged, and the error that ends [run]. *)
Fixpoint produce (n i : nat) (lines : list string) : option error * list string :=
  match n with
  | O => (None, lines)
  | S n =>
      match mkq_Add i (nth_delivery i) with
      | Fail err => (Some err, lines)
      | Ok id => produce n (S i) (lines ++ ["enqueued " +:+ id])
      end
  end.

(** How [run] ended: its error, the runtime it made, what mkq was asked, and the
    lines the main goroutine logged. *)
Record ended := mkEnded {
  e_err : option error;
  e_rt : option example_runtime;
  e_trace : list (event K);
  e_lines : list string;
}.

(** [run]; [None] would be a loop that is still running. *)
Definition run (w : example_world) : option ended :=
  match New_runtime NewClient (example_config (redis_addr Getenv)) with
  | Fail err => Some (mkEnded (Some err) None [] [])
  | Ok rt =>
  match Handle rt "deliver" (Some (mkq_typed deliver)) [Some (WithConcurrency 4)] with
  | (Some err, rt) => Some (mkEnded (Some err) (Some rt) [] [])
  | (None, rt) =>
  match Start mkq_Process mkq_Stop net_Listen schedule factories rt [] w with
  | (Some err, rt, tr, _) => Some (mkEnded (Some err) (Some rt) tr [])
  | (None, rt, tr, _) =>
  match produce 3 0 [] with
  | (Some err, lines) => Some (mkEnded (Some err) (Some rt) tr lines)
  | (None, lines) =>
  match wait turns wait_fuel 0 (now + 10 * Second) with
  | None => None
  | Some _ =>
      let lines := lines ++ ["handled " +:+ FormatInt handled_after +:+ " job(s)"] in
      let '(err, rt) := Shutdown rt (down (30 * Second)) in
      Some (mkEnded err (Some rt) tr lines)
  end end end end end.

(** [main]: the exit code, and what log.Fatal writes. *)
Definition main (e : ended) : Z * option error :=
  match e_err e with
  | Some err => (1, Some err)
  | None => (0, None)
  end.
End example.

(** ** Lemmas: the waiting loop *)

(** Clocks do not go back, and a turn that was not cut short takes its 50 ms. *)
Record clock (now : Z) (turns : nat -> turn) : Prop := {
  clock_start : now <= t_now (turns 0%nat);
  clock_turn : forall i, t_now (turns i) <= t_woken (turns i) <= t_now (turns (S i));
  clock_poll : forall i, t_wake (turns i) = After50ms -> t_now (turns i) + poll <= t_woken (turns i);
}.

(** Why the loop ended. *)
Definition over (turns : nat -> turn) (deadline : Z) (i : nat) : Prop :=
  3 <= t_handled (turns i) \/ deadline <= t_now (turns i) \/
  exists j, (j < i)%nat /\ t_wake (turns j) = CtxDone.

(** After a cancelled context one look is left. *)
Lemma wait_cancelled turns now fuel i deadline :
  clock now turns -> deadline <= t_now (turns i) -> wait turns (S fuel) i deadline = Some i.
Proof.
  intros Hc Hd. cbn [wait]. destruct (Z.ltb_spec (t_now (turns i)) deadline); [lia|].
  by rewrite andb_false_r.
Qed.

Lemma wait_ends turns now fuel i deadline :
  clock now turns -> (0 < fuel)%nat -> deadline <= t_now (turns i) + (Z.of_nat fuel - 1) * poll ->
  exists j, (i <= j)%nat /\ wait turns fuel i deadline = Some j /\ over turns deadline j.
Proof.
  intros Hc. revert i. induction fuel as [|fuel IH]; intros i Hf Hd; [lia|]. cbn [wait].
  destruct (Z.ltb_spec (t_handled (turns i)) 3) as [Hh|Hh]; cbn [andb].
  2:{ exists i. split; [lia|]. split; [done|]. left. lia. }
  destruct (Z.ltb_spec (t_now (turns i)) deadline) as [Ht|Ht].
  2:{ exists i. split; [lia|]. split; [done|]. right. left. lia. }
  destruct fuel as [|fuel]; [unfold poll in Hd; lia|].
  pose proof (clock_turn _ _ Hc i) as [H1 H2]. destruct (t_wake (turns i)) eqn:Hw.
  - rewrite (wait_cancelled turns now) by done. exists (S i). split; [lia|]. split; [done|].
    right. right. exists i. split; [lia|done].
  - pose proof (clock_poll _ _ Hc i Hw). destruct (IH (S i)) as (j & Hj & Hr & Ho); [lia| |].
    + unfold poll in *. lia.
    + exists j. split; [lia|]. by split.
Qed.

(** ** Lemmas: the start *)

Definition example_options : list WorkerOption :=
  [MkqConcurrency 4; MkqLockDuration defaultLockDuration; MkqStalledInterval defaultStalledInterval;
   MkqMaxStalledCount defaultMaxStalled; MkqRetryDelayOverride].

Section start.
Context {K : Type}.
Abbreviation world := (Z * list string)%type.
Context (mkq_Process : list (event K) -> string -> handler world -> list WorkerOption -> res K).
Context (mkq_Stop : list (event K) -> K -> option error).
Context (net_Listen : list (event K) -> string -> res string).
Context (schedule : list (string * K) -> list (string * K)).
Context (factories : gmap string (ExecutorFactory world)).
Context (addr : string) (h : handler world).

Definition example_fresh : Runtime world K :=
  mkRuntime (applyDefaults (example_config addr)) [] ∅ [] [] false false None defaultUnwindGrace None.
Definition example_registered : Runtime world K :=
  with_registry example_fresh
    {[ "deliver" := mkRegistration "deliver" (tuningFromOptions [Some (WithConcurrency 4)]) h true ]}
    ["deliver"].

Lemma example_New NewClient :
  New_runtime NewClient (example_config addr) =
  match NewClient (mkq_config (applyDefaults (example_config addr))) with
  | Some e => Fail e | None => Ok example_fresh
  end.
Proof. reflexivity. Qed.

Lemma example_Handle :
  Handle example_fresh "deliver" (Some h) [Some (WithConcurrency 4)] = (None, example_registered).
Proof. reflexivity. Qed.

Lemma example_Start w :
  (forall l, schedule l ≡ₚ l) ->
  let '(err, rt, tr, _) :=
    Start mkq_Process mkq_Stop net_Listen schedule factories example_registered [] w in
  srv rt = None /\ cfg rt = applyDefaults (example_config addr) /\ stopErr rt = None /\
  match mkq_Process [] "deliver" h example_options with
  | Ok k =>
      err = None /\ workers rt = [("deliver", k)] /\ tr = [EvProcess "deliver" example_options k]
  | Fail e =>
      err = Some (Errorf "mkqd: start worker for queue %q: %w" [OStr "deliver"; OWrap e]) /\
      workers rt = [] /\ tr = []
  end.
Proof.
  intros Hs. assert (schedule [] = []) as Hnil by (apply Permutation_nil_r, Hs).
  unfold Start. change (started example_registered) with false. cbv iota.
  change (buildConfiguredQueues factories (with_started example_registered) w)
    with (@None error, with_started example_registered, w). cbv iota beta.
  change (registeredQueues (with_started example_registered)) with ["deliver"]. cbv zeta iota.
  change (warnPoolSize (with_started example_registered) ["deliver"])
    with (with_started example_registered).
  cbn [launch]. change (registry (with_started example_registered) !! "deliver")
    with (Some (mkRegistration "deliver" (tuningFromOptions [Some (WithConcurrency 4)]) h true)).
  cbv iota zeta beta. cbn [r_queue r_handler].
  change (workerOptionsFor _) with example_options.
  destruct (mkq_Process [] "deliver" h example_options) as [k|e]; [by split_and!|].
  unfold abortWorkers, takeWorkers. cbn [workers with_started example_registered with_registry example_fresh].
  rewrite Hnil. by split_and!.
Qed.
End start.

(** ** Properties *)

(** C40 What the example does: on any Redis address its configuration is valid, it
    registers one queue and starts one worker of concurrency 4 with the default
    locks, without a health listener; a client or a worker that cannot be made
    ends it with nothing running; a failed Add ends it with that error and the
    worker still running; otherwise it enqueues its three deliveries, stops
    waiting within 201 looks at the counter - because all three were handled, ten
    seconds went by or a signal came - and returns what the shutdown of its 30
    seconds reported, with no worker left. *)
Theorem example_run {K} Getenv NewClient mkq_Process mkq_Stop net_Listen schedule factories
    mkq_typed mkq_Add now turns handled_after down w :
  (forall l, schedule l ≡ₚ l) -> clock now turns ->
  let c := applyDefaults (example_config (redis_addr Getenv)) in
  valid_config c /\
  exists e : ended (K := K),
    run Getenv NewClient mkq_Process mkq_Stop net_Listen schedule factories mkq_typed mkq_Add
      now turns handled_after down w = Some e /\
    match NewClient (mkq_config c) with
    | Some err => e = mkEnded (Some err) None [] []
    | None =>
        exists rt, e_rt e = Some rt /\ cfg rt = c /\ srv rt = None /\
        match mkq_Process [] "deliver" (mkq_typed deliver) example_options with
        | Fail err =>
            e_err e = Some (Errorf "mkqd: start worker for queue %q: %w" [OStr "deliver"; OWrap err]) /\
            workers rt = [] /\ e_trace e = []
        | Ok k =>
            e_trace e = [EvProcess "deliver" example_options k] /\
            match produce mkq_Add 3 0 [] with
            | (Some err, lines) =>
                e_err e = Some err /\ e_lines e = lines /\ workers rt = [("deliver", k)]
            | (None, lines) =>
                e_lines e = lines ++ ["handled " +:+ FormatInt handled_after +:+ " job(s)"] /\
                workers rt = [] /\ isServing rt = false /\ stopErr rt = Some (e_err e) /\
                exists i, wait turns wait_fuel 0 (now + 10 * Second) = Some i /\
                          over turns (now + 10 * Second) i
            end
        end
    end.
Proof.
  intros Hs Hc. cbv zeta. split; [apply Validate_valid; reflexivity|].
  unfold run. rewrite example_New. set (c := applyDefaults (example_config (redis_addr Getenv))).
  destruct (NewClient (mkq_config c)) as [err|]; [by eexists|].
  rewrite example_Handle.
  pose proof (example_Start mkq_Process mkq_Stop net_Listen schedule factories (redis_addr Getenv)
                (mkq_typed deliver) w Hs) as H. fold c in H.
  destruct (Start _ _ _ _ _ _ _ w) as [[[err rt] tr] w'].
  destruct H as (Hsrv & Hcfg & Hstop & H).
  destruct (mkq_Process [] "deliver" _ _) as [k|e]; destruct H as (-> & Hw & ->).
  2:{ eexists. split; [reflexivity|]. exists rt. by split_and!. }
  destruct (produce mkq_Add 3 0 []) as [[err|] lines].
  { eexists. split; [reflexivity|]. exists rt. by split_and!. }
  destruct (wait_ends turns now wait_fuel 0 (now + 10 * Second) Hc) as (i & _ & Hi & Ho).
  { unfold wait_fuel. lia. }
  { pose proof (clock_start _ _ Hc). unfold wait_fuel, poll, Second. lia. }
  rewrite Hi. pose proof (Shutdown_keeps rt (down (30 * Second))) as HK. cbv zeta in HK.
  pose proof (Shutdown_first rt (down (30 * Second)) Hstop) as HF.
  destruct (Shutdown rt (down (30 * Second))) as [err rt']. cbn [snd] in HK.
  destruct HK as (Hk1 & _ & _ & _ & Hk2), HF as (_ & Hw' & Hserv & Hst').
  eexists. split; [reflexivity|]. exists rt'. split_and!; try done; try congruence.
  by exists i.
Qed.

(** ** Witnesses *)

(** Three deliveries are counted by the third look. *)
Definition sample_turns (i : nat) : turn :=
  mkTurn (Z.min 3 (Z.of_nat i + 1)) (Z.of_nat i * poll) After50ms (Z.of_nat i * poll + poll).

Lemma sample_clock : clock 0 sample_turns.
Proof. split; [done|intros i|intros i _]; unfold sample_turns; cbn [t_now t_woken]; unfold poll; lia. Qed.

Definition sample_typed
  (h : string -> Delivery -> Z * list string -> (any * option error) * (Z * list string))
  : handler (Z * list string) :=
  fun job w => h (mkq_ID job) (mkDelivery (mkq_Data job) "") w.

Definition sample_example (Add : nat -> Delivery -> res string) : option (ended (K := nat)) :=
  run (fun _ => "") (fun _ => None) (fun tr _ _ _ => Ok (length tr)) (fun _ _ => None)
    (fun _ a => Ok a) (fun l => l) ∅ sample_typed Add 0 sample_turns 3 (fun _ => all_well) (0, []).

Lemma example_run_witness :
  exists e, sample_example (fun i _ => Ok (Itoa (Z.of_nat i + 1))) = Some e /\
    e_err e = None /\ e_trace e = [EvProcess "deliver" example_options 0%nat] /\
    e_lines e = ["enqueued 1"; "enqueued 2"; "enqueued 3"; "handled 3 job(s)"].
Proof.
  destruct (example_run (fun _ => "") (fun _ => None) (fun tr _ _ _ => Ok (length tr)) (fun _ _ => None)
              (fun _ a => Ok a) (fun l => l) ∅ sample_typed
              (fun i _ => Ok (Itoa (Z.of_nat i + 1))) 0 sample_turns 3 (fun _ => all_well) (0, [])
              ltac:(done) sample_clock) as [_ (e & He & H)].
  exists e. split; [exact He|]. destruct H as (rt & _ & _ & _ & Htr & H).
  split; [|split; [exact Htr|]].
  - assert (e_err <$> sample_example (fun i _ => Ok (Itoa (Z.of_nat i + 1))) = Some None) as Herr
      by (vm_compute; reflexivity).
    unfold sample_example in Herr. rewrite He in Herr. by injection Herr.
  - assert (produce (fun i _ => Ok (Itoa (Z.of_nat i + 1))) 3 0 []
            = (None, ["enqueued 1"; "enqueued 2"; "enqueued 3"])) as Hp by (vm_compute; reflexivity).
    rewrite Hp in H. destruct H as [-> _]. reflexivity.
Defined.

(** A Redis that goes away after the start: the worker is left running. *)
Example failed_add :
  (fun e => (e_err e, fmap workers (e_rt e)))
    <$> sample_example (fun _ _ => Fail (New "connection refused"))
  = Some (Some (New "connection refused"), Some [("deliver", 0%nat)]).
Proof. vm_compute. reflexivity. Qed.
