(* ===== verification/Tabwriter.v ===== *)
(** * Tables (package text/tabwriter)

    A writer with no minimal width, a padding of two spaces and no flags: what
    [inspect.go] opens for its tables. *)

From S2P Require Import Prelude GoStrings Utf8.

(** A cell: its bytes and its width in runes. *)
Record cell := mkCell { c_text : string; c_width : Z }.

Definition rune_count (s : string) : Z := Z.of_nat (length (runes s)).
Definition escape_mark : ascii := "255"%char.

(** The text written, cut into lines of cells; a line with whether a form feed
    ended it. [piece] is the end of [text] whose width is not counted yet;
    between two escape marks, which do not count, no byte is special. *)
Fixpoint scan (escaped : bool) (cells : list cell) (text piece : string) (width : Z) (s : string)
  : list (list cell * bool) :=
  let counted := width + rune_count piece in
  match s with
  | EmptyString =>
      let width := if escaped then counted - 2 else counted in
      [(if bool_decide (text = "") then cells else cells ++ [mkCell text width], false)]
  | String c r =>
      let text' := text +:+ String c "" in
      let piece' := piece +:+ String c "" in
      if escaped then
        if bool_decide (c = escape_mark)
        then scan false cells text' "" (width + rune_count piece' - 2) r
        else scan true cells text' piece' width r
      else if bool_decide (c = tab) || bool_decide (c = "011"%char) then
        scan false (cells ++ [mkCell text counted]) "" "" 0 r
      else if bool_decide (c = newline) || bool_decide (c = "012"%char) then
        (cells ++ [mkCell text counted], bool_decide (c = "012"%char)) :: scan false [] "" "" 0 r
      else if bool_decide (c = escape_mark) then scan true cells text' (String c "") counted r
      else scan false cells text' piece' width r
  end.

Definition padding : Z := 2.

(** The width of a column over a block: the lines, from the first on, in which the
    cell is not the last. *)
Fixpoint block_width (rows : list (string * list cell)) : Z :=
  match rows with
  | (_, c :: _ :: _) :: rows => Z.max (c_width c + padding) (block_width rows)
  | _ => 0
  end.

Definition pad (c : cell) (width : Z) : string :=
  c_text c +:+ Join (replicate (Z.to_nat (width - c_width c)) " ") "".

(** One column: what each line printed so far and the cells it has left. [cur] is
    the width of the block a line stands in. *)
Fixpoint column (cur : option Z) (rows : list (string * list cell)) : list (string * list cell) :=
  match rows with
  | [] => []
  | (out, cells) :: rest =>
      match cells with
      | [] => (out, []) :: column None rest
      | [c] => (out +:+ c_text c, []) :: column None rest
      | c :: cells =>
          let width := default (block_width rows) cur in
          (out +:+ pad c width, cells) :: column (Some width) rest
      end
  end.

Fixpoint columns (n : nat) (rows : list (string * list cell)) : list string :=
  match n with O => rows.*1 | S n => columns n (column None rows) end.

(** As many columns as the longest line has cells. *)
Definition most_cells (lines : list (list cell)) : nat :=
  fold_right Nat.max 0%nat (map length lines).
Definition format (lines : list (list cell)) : list string :=
  columns (most_cells lines) (map (pair "") lines).

(** A form feed ends a block of lines. *)
Fixpoint blocks (acc : list (list cell)) (lines : list (list cell * bool)) : list (list (list cell)) :=
  match lines with
  | [] => [acc]
  | (l, feed) :: lines =>
      if (feed : bool) then (acc ++ [l]) :: blocks [] lines else blocks (acc ++ [l]) lines
  end.

(** What is written once the writer is flushed. *)
Definition tabwriter (s : string) : string :=
  Join (concat (map format (blocks [] (scan false [] "" "" 0 s)))) (String newline "").

Definition tabbed (cells : list string) : string := Join cells (String tab "") +:+ String newline "".

Example table :
  tabwriter (tabbed ["QUEUE"; "CONFIGURED"; "STATUS"] +:+ tabbed ["deliver"; "yes"; "running"]
             +:+ tabbed ["é"; "no"; "paused"])
  = Join ["QUEUE    CONFIGURED  STATUS"; "deliver  yes         running"; "é        no          paused"; ""]
      (String newline "").
Proof. vm_compute. reflexivity. Qed.

(** ** Every cell is printed *)

Definition cells_left (rows : list (string * list cell)) : nat := most_cells (rows.*2).

Lemma column_left rows cur : cells_left (column cur rows) = Nat.pred (cells_left rows).
Proof.
  revert cur. unfold cells_left, most_cells. induction rows as [|[out cells] rows IH]; intros cur; [done|].
  cbn [column]. destruct cells as [|c [|d cells]]; cbn [fmap list_fmap map fold_right snd length];
    rewrite IH; lia.
Qed.

(** The cells of a line, in order, whatever else is printed. *)
Lemma column_text rows cur i out cells :
  rows !! i = Some (out, cells) ->
  match cells with
  | [] => column cur rows !! i = Some (out, [])
  | c :: cells => exists spaces, column cur rows !! i = Some (out +:+ c_text c +:+ spaces, cells)
  end.
Proof.
  revert cur i. induction rows as [|[o cs] rows IH]; intros cur i; [done|].
  destruct i as [|i].
  - intros [= -> ->]. cbn [column]. destruct cells as [|c [|d cells]]; [done| |].
    + exists "". by rewrite str_app_nil_r.
    + eexists. reflexivity.
  - intros H. cbn [column]. destruct cs as [|c [|d cs]]; cbn [lookup list_lookup]; by apply IH.
Qed.
