(* ===== verification/Flags.v ===== *)
(** * Command-line flags (package flag)

    A [flag.FlagSet] as mkqd's commands use it: boolean, string, integer and
    duration flags, parsed from the front of the arguments up to the first one
    that is not a flag. *)

From S2P Require Import Prelude GoErrors GoStrings Duration.

#[local] Set Warnings "-register-all".

(** ** Values *)

Inductive flag_value : Set :=
| FBool (b : bool)
| FString (s : string)
| FInt (z : Z)
| FUint (z : Z)
| FDuration (d : Z).

(** The flags defined and their values, defaults at first. *)
Abbreviation FlagSet := (list (string * flag_value)).

(** [strconv.ParseBool] *)
Definition ParseBool (s : string) : option bool :=
  if str_mem s ["1"; "t"; "T"; "TRUE"; "true"; "True"] then Some true
  else if str_mem s ["0"; "f"; "F"; "FALSE"; "false"; "False"] then Some false
  else None.

(** The value of a digit in the bases up to 36. *)
Definition digit36 (c : ascii) : option Z :=
  if is_digit c then Some (Z.of_N (digit_val c))
  else if byte_in 97 122 (lower_byte c) then Some (Z.of_N (b2n (lower_byte c)) - 87)
  else None.

Fixpoint parse_digits (base n : Z) (s : string) : num_result :=
  match s with
  | EmptyString => NumOk n
  | String c s =>
      if bool_decide (c = "_"%char) then parse_digits base n s
      else
        match digit36 c with
        | None => NumSyntax
        | Some d =>
            if base <=? d then NumSyntax
            else if MaxUint64 <? n * base + d then NumRange MaxUint64
            else parse_digits base (n * base + d) s
        end
  end.

(** The base prefix of base 0. *)
Definition base_prefix (s : string) : Z * string :=
  match s with
  | String "0" r =>
      match r with
      | String c (String d r') =>
          let l := lower_byte c in
          if bool_decide (l = "b"%char) then (2, String d r')
          else if bool_decide (l = "o"%char) then (8, String d r')
          else if bool_decide (l = "x"%char) then (16, String d r')
          else (8, r)
      | _ => (8, r)
      end
  | _ => (10, s)
  end.

(** [underscoreOK]: underscores stand between digits, the prefix counting as
    one. The state is the kind of the byte before. *)
Inductive saw : Set := SawStart | SawDigit | SawUnderscore | SawOther.
Fixpoint underscores_go (hex : bool) (st : saw) (s : string) : bool :=
  match s with
  | EmptyString => match st with SawUnderscore => false | _ => true end
  | String c s =>
      if is_digit c || (hex && byte_in 97 102 (lower_byte c)) then underscores_go hex SawDigit s
      else if bool_decide (c = "_"%char) then
        match st with SawDigit => underscores_go hex SawUnderscore s | _ => false end
      else match st with SawUnderscore => false | _ => underscores_go hex SawOther s end
  end.
Definition underscoreOK (s : string) : bool :=
  match s with
  | String "0" (String c r) =>
      let l := lower_byte c in
      if bool_decide (l = "x"%char) then underscores_go true SawDigit r
      else if bool_decide (l = "b"%char) || bool_decide (l = "o"%char) then underscores_go false SawDigit r
      else underscores_go false SawStart s
  | _ => underscores_go false SawStart s
  end.

(** [strconv.ParseUint(s, 0, 64)] *)
Definition ParseUint0 (s : string) : num_result :=
  if bool_decide (s = "") then NumSyntax
  else
    let '(base, ds) := base_prefix s in
    match parse_digits base 0 ds with
    | NumOk n => if has_byte ds "_" && negb (underscoreOK s) then NumSyntax else NumOk n
    | r => r
    end.

(** [strconv.ParseInt(s, 0, 64)] *)
Definition ParseInt0 (s : string) : num_result :=
  let '(neg, r) :=
    match s with
    | String "-" r => (true, r)
    | String "+" r => (false, r)
    | _ => (false, s)
    end in
  match ParseUint0 r with
  | NumSyntax => NumSyntax
  | NumOk n | NumRange n =>
      if neg then (if 2 ^ 63 <? n then NumRange MinInt64 else NumOk (- n))
      else if 2 ^ 63 <=? n then NumRange MaxInt64 else NumOk n
  end.

Example numbers :
  map ParseInt0 ["20"; "-1"; "+7"; "0x1F"; "0b101"; "017"; "1_000"; "1__0"; "_1"; "0x_1"; "08"; "";
                 "-"; "9223372036854775807"; "9223372036854775808"; "-9223372036854775808"; "5m"; "0x"]
  = [NumOk 20; NumOk (-1); NumOk 7; NumOk 31; NumOk 5; NumOk 15; NumOk 1000; NumSyntax; NumSyntax;
     NumOk 1; NumSyntax; NumSyntax; NumSyntax; NumOk MaxInt64; NumRange MaxInt64; NumOk MinInt64;
     NumSyntax; NumSyntax].
Proof. vm_compute. reflexivity. Qed.

Definition errParse : error := New "parse error".
Definition errRange : error := New "value out of range".

Definition num_value (r : num_result) : res Z :=
  match r with NumOk n => Ok n | NumRange _ => Fail errRange | NumSyntax => Fail errParse end.

(** [Value.Set] *)
Definition set_value (v : flag_value) (s : string) : res flag_value :=
  match v with
  | FBool _ => match ParseBool s with Some b => Ok (FBool b) | None => Fail errParse end
  | FString _ => Ok (FString s)
  | FInt _ => z ← num_value (ParseInt0 s); Ok (FInt z)
  | FUint _ => z ← num_value (ParseUint0 s); Ok (FUint z)
  | FDuration _ =>
      match ParseDuration s with Ok d => Ok (FDuration d) | Fail _ => Fail errParse end
  end.

(** ** Parsing *)

Definition lookup_flag (fs : FlagSet) (name : string) : option flag_value :=
  snd <$> List.find (fun p => bool_decide (p.1 = name)) fs.

Fixpoint assign (fs : FlagSet) (name : string) (v : flag_value) : FlagSet :=
  match fs with
  | [] => []
  | (n, old) :: fs =>
      if bool_decide (n = name) then (n, v) :: fs else (n, old) :: assign fs name v
  end.

(** What an argument is: the end of the flags ([true]: it is itself dropped),
    a syntax error, or a flag with the value after its equals sign. *)
Inductive flag_arg : Set :=
| EndOfFlags (drop : bool)
| BadSyntax
| FlagArg (name : string) (value : option string).

(** The first equals sign that is not the first byte. *)
Definition cut_value (name : string) : string * option string :=
  match name with
  | EmptyString => ("", None)
  | String c r =>
      let '(a, b, found) := Cut r "=" in
      (String c a, if found then Some b else None)
  end.

Definition classify_arg (s : string) : flag_arg :=
  match s with
  | String "-" (String c r) =>
      let name := if bool_decide (c = "-"%char) then r else String c r in
      if bool_decide (s = "--") then EndOfFlags true
      else
        match name with
        | EmptyString => BadSyntax
        | String d _ =>
            if bool_decide (d = "-"%char) || bool_decide (d = "="%char) then BadSyntax
            else let '(n, v) := cut_value name in FlagArg n v
        end
  | _ => EndOfFlags false
  end.

Definition bad_value (value name : string) (e : error) : error :=
  Errorf "invalid value %q for flag -%s: %v" [OStr value; OStr name; OVal e].

(** [FlagSet.Parse]: the flags with their values, and the arguments left. *)
Fixpoint Parse (fs : FlagSet) (args : list string) {struct args} : res (FlagSet * list string) :=
  match args with
  | [] => Ok (fs, [])
  | s :: rest =>
      match classify_arg s with
      | EndOfFlags drop => Ok (fs, if drop then rest else args)
      | BadSyntax => Fail (Errorf "bad flag syntax: %s" [OStr s])
      | FlagArg name value =>
          match lookup_flag fs name with
          | None =>
              if str_mem name ["help"; "h"] then Fail (Sentinel ErrHelp)
              else Fail (Errorf "flag provided but not defined: -%s" [OStr name])
          | Some (FBool b) =>
              let text := default "true" value in
              match set_value (FBool b) text with
              | Ok v => Parse (assign fs name v) rest
              | Fail e =>
                  Fail (Errorf "invalid boolean value %q for -%s: %v" [OStr text; OStr name; OVal e])
              end
          | Some old =>
              match value with
              | Some text =>
                  match set_value old text with
                  | Ok v => Parse (assign fs name v) rest
                  | Fail e => Fail (bad_value text name e)
                  end
              | None =>
                  match rest with
                  | [] => Fail (Errorf "flag needs an argument: -%s" [OStr name])
                  | text :: rest =>
                      match set_value old text with
                      | Ok v => Parse (assign fs name v) rest
                      | Fail e => Fail (bad_value text name e)
                      end
                  end
              end
          end
      end
  end.

(** ** Reading the values *)

Definition flag_bool (fs : FlagSet) (name : string) : bool :=
  match lookup_flag fs name with Some (FBool b) => b | _ => false end.
Definition flag_string (fs : FlagSet) (name : string) : string :=
  match lookup_flag fs name with Some (FString s) => s | _ => "" end.
Definition flag_int (fs : FlagSet) (name : string) : Z :=
  match lookup_flag fs name with Some (FInt z) | Some (FUint z) | Some (FDuration z) => z | _ => 0 end.

Example parsed :
  Parse [("c", FString "mkqd.yaml"); ("json", FBool false); ("size", FInt 20)]
    ["-c"; "a=b.yaml"; "--json"; "-size=5"; "deliver"; "-size"; "7"]
  = Ok ([("c", FString "a=b.yaml"); ("json", FBool true); ("size", FInt 5)], ["deliver"; "-size"; "7"]).
Proof. vm_compute. reflexivity. Qed.
