(* ===== verification/Cli.v ===== *)
(** * The command line (cmd/mkqd: inspect.go, admin.go)

    The subcommands, each from its parsed flags and positional arguments on: the
    gate that keeps a mistyped queue name from creating a queue, the read-only
    views, and the mutations. mkq's client is an interface over the world it
    reads and writes; what a command finds is a value, which Output.v prints.
    Commands.v puts the flags in front. *)

From S2P Require Import Prelude GoErrors GoStrings Utf8 Json Httpsend Config.

(** ** mkq, as the commands use it *)

Inductive JobBucket : Set :=
  | BucketWait | BucketActive | BucketDelayed | BucketPrioritized | BucketCompleted
  | BucketFailed | BucketPaused.

#[global] Instance JobBucket_eq_dec : EqDecision JobBucket.
Proof. solve_decision. Defined.

(** mkq's string for a bucket. *)
Definition bucket_string (b : JobBucket) : string :=
  match b with
  | BucketWait => "wait" | BucketActive => "active" | BucketDelayed => "delayed"
  | BucketPrioritized => "prioritized" | BucketCompleted => "completed"
  | BucketFailed => "failed" | BucketPaused => "paused"
  end.

Record counts := mkCounts {
  Wait : Z; Active : Z; Delayed : Z; Prioritized : Z; Completed : Z; Failed : Z; Paused : Z;
}.

(** mkq.Job and mkq.JobState; a nil slice is [None], an unset time [None]. *)
Record cli_job := mkCliJob {
  cj_ID : string;
  cj_Name : string;
  cj_Timestamp : Z;
  cj_AttemptsMade : Z;
  cj_AttemptsStarted : Z;
  cj_StalledCounter : Z;
  cj_ProcessedBy : string;
  cj_Data : option string;
}.

Record JobState := mkJobState {
  js_ProcessedOn : option Z;
  js_FinishedOn : option Z;
  js_ReturnValue : string;
  js_FailedReason : string;
  js_Stacktrace : list string;
  js_Progress : string;
  js_Opts : string;
  js_Delay : Z;
  js_AttemptsAt : list Z;
}.

Inductive AddOption : Type :=
| WithJobName (name : string)
| WithJobID (id : string)
| WithDelay (d : Z)
| WithPriority (p : Z)
| WithAttempts (n : Z)
| WithLifo (b : bool).

(** A runtime opened without workers, its client, and the handle of a queue (its
    name). [Define] writes. *)
Class MkqClient (W : Type) := {
  open_runtime : string -> W -> res (list string) * W;    (* NewFromFile: configured names *)
  close_runtime : W -> W;                                  (* Shutdown *)
  DiscoverQueues : W -> res (list string) * W;
  Define : string -> W -> W;
  IsPaused : string -> W -> res bool * W;
  Counts : string -> W -> res counts * W;
  ListJobs : string -> JobBucket -> Z -> Z -> bool -> W ->
             res (list (option cli_job * option JobState)) * W;
  GetJob : string -> string -> W -> res (option cli_job * option JobState) * W;
  GetJobLogs : string -> string -> W -> res (Z * list string) * W;
  AddJob : string -> string -> list AddOption -> W -> res string * W;
  PauseQueue : string -> W -> option error * W;
  ResumeQueue : string -> W -> option error * W;
  RetryJob : string -> string -> JobBucket -> W -> option error * W;
  PromoteJob : string -> string -> W -> option error * W;
  RemoveJob : string -> string -> W -> option error * W;
  DrainPending : string -> bool -> W -> option error * W;
}.

Definition buckets : list JobBucket :=
  [BucketWait; BucketActive; BucketDelayed; BucketPrioritized; BucketCompleted; BucketFailed;
   BucketPaused].
Definition bucketNames : list string := map bucket_string buckets.

(** ** Views *)

(** Newlines become spaces, and what is cut is cut between runes. *)
Definition truncate (s : string) (n : nat) : string :=
  let s := ReplaceByte s newline " " in
  let r := runes s in
  if (length r <=? n)%nat then s else Join (take n r) "" +:+ "...".

Record stateView := mkStateView {
  sv_ProcessedOn : option Z;
  sv_FinishedOn : option Z;
  sv_ReturnValue : string;
  sv_FailedReason : string;
  sv_Stacktrace : list string;
  sv_Progress : string;
  sv_Opts : string;
  sv_DelayMillis : Z;
  sv_AttemptsAt : list Z;
}.

Record jobView := mkJobView {
  v_ID : string;
  v_Name : string;
  v_Timestamp : option Z;
  v_AttemptsMade : Z;
  v_AttemptsStarted : Z;
  v_StalledCounter : Z;
  v_ProcessedBy : string;
  v_Data : string;
  v_State : stateView;
}.

Definition zero_state : stateView := mkStateView None None "" "" [] "" "" 0 [].

Definition newJobView (job : option cli_job) (state : option JobState) : jobView :=
  let sv := match state with
            | Some s =>
                mkStateView (js_ProcessedOn s) (js_FinishedOn s) (js_ReturnValue s)
                  (js_FailedReason s) (js_Stacktrace s) (js_Progress s) (js_Opts s) (js_Delay s)
                  (js_AttemptsAt s)
            | None => zero_state
            end in
  match job with
  | Some j =>
      mkJobView (cj_ID j) (cj_Name j) (Some (cj_Timestamp j)) (cj_AttemptsMade j)
        (cj_AttemptsStarted j) (cj_StalledCounter j) (cj_ProcessedBy j)
        (default "null" (cj_Data j)) sv
  | None => mkJobView "" "" None 0 0 0 "" "null" sv
  end.

Definition summarise (j : jobView) : string :=
  if negb (bool_decide (sv_FailedReason (v_State j) = "")) then
    truncate (sv_FailedReason (v_State j)) 60
  else if negb (bool_decide (sv_ReturnValue (v_State j) = ""))
          && negb (bool_decide (sv_ReturnValue (v_State j) = "null")) then
    truncate (sv_ReturnValue (v_State j)) 60
  else "".

(** What a command emits. *)
Inductive output : Type :=
| OutQueues (rows : list (string * bool * bool))             (* name, configured, paused *)
| OutCounts (rows : list (string * bool * counts))
| OutList (queue bucket : string) (page size : Z) (jobs : list jobView)
| OutJob (queue : string) (job : jobView) (count : Z) (lines : list string)
| OutMutation (queue action jobID : string)
| OutDrain (queue : string) (removed : list (string * Z)) (delayed : bool).

Record inspector := mkInspector { present : list string; confNames : list string }.

(** [int64(page)*int64(size)] and the inclusive end. *)
Definition list_range (page size : Z) : Z * Z :=
  let start := wrap64 (page * size) in
  let stop := wrap64 (wrap64 (start + size) - 1) in
  (start, stop).

(** What disappeared between two counts, in the order it is printed. *)
Definition removed_counts (before after : counts) : list (string * Z) :=
  List.filter (fun p => 0 <? p.2)
    [("wait", wrap64 (Wait before - Wait after));
     ("prioritized", wrap64 (Prioritized before - Prioritized after));
     ("delayed", wrap64 (Delayed before - Delayed after))].

Section commands.
Context {W : Type} `{!MkqClient W}.

(** What a command leaves: an error or an output, and the world. *)
Abbreviation outcome := (res output * W)%type.

Definition openInspector (path : string) (w : W) : res inspector * W :=
  match open_runtime path w with
  | (Fail err, w) => (Fail err, w)
  | (Ok conf, w) =>
      match DiscoverQueues w with
      | (Fail err, w) => (Fail (Errorf "discover queues: %w" [OWrap err]), close_runtime w)
      | (Ok names, w) => (Ok (mkInspector names conf), w)
      end
  end.

(** [inspector.queue]: the gate in front of [Define]. *)
Definition inspector_queue (i : inspector) (name : string) (w : W) : res string * W :=
  if negb (str_mem name (present i)) then
    (Fail (Errorf "queue %q does not exist in Redis (run `mkqd queues` to list them)" [OStr name]), w)
  else (Ok name, Define name w).

Definition createQueue (name : string) (w : W) : string * W := (name, Define name w).

Definition resolveQueues (i : inspector) (args : list string) : list string :=
  match args with [] => present i | _ => args end.

(** [defer cleanup()] around a body. *)
Definition with_inspector (path : string) (body : inspector -> W -> outcome) (w : W) : outcome :=
  match openInspector path w with
  | (Fail err, w) => (Fail err, w)
  | (Ok i, w) => let '(r, w) := body i w in (r, close_runtime w)
  end.

(** A step of a command that may fail. *)
Definition step {A B} (r : res A * W) (k : A -> W -> res B * W) : res B * W :=
  match r with (Ok a, w) => k a w | (Fail e, w) => (Fail e, w) end.
(** An error under the queue's name. *)
Definition named {A} (name : string) (r : res A * W) : res A * W :=
  (map_err (fun e => Errorf "queue %q: %w" [OStr name; OWrap e]) r.1, r.2).

Fixpoint queue_rows (i : inspector) (names : list string) (w : W)
  : res (list (string * bool * bool)) * W :=
  match names with
  | [] => (Ok [], w)
  | name :: names =>
      step (inspector_queue i name w) (fun q w =>
      step (named name (IsPaused q w)) (fun paused w =>
      step (queue_rows i names w) (fun rows w =>
      (Ok ((name, str_mem name (confNames i), paused) :: rows), w))))
  end.

Definition cmdQueues (path : string) (args : list string) (w : W) : outcome :=
  match args with
  | _ :: _ => (Fail (New "usage: mkqd queues [-c CONFIG] [--json]"), w)
  | [] =>
      with_inspector path (fun i w =>
        step (queue_rows i (present i) w) (fun rows w => (Ok (OutQueues rows), w))) w
  end.

Fixpoint count_rows (i : inspector) (names : list string) (w : W)
  : res (list (string * bool * counts)) * W :=
  match names with
  | [] => (Ok [], w)
  | name :: names =>
      step (inspector_queue i name w) (fun q w =>
      step (named name (Counts q w)) (fun c w =>
      step (named name (IsPaused q w)) (fun paused w =>
      step (count_rows i names w) (fun rows w =>
      (Ok ((name, paused, c) :: rows), w)))))
  end.

Definition cmdCounts (path : string) (args : list string) (w : W) : outcome :=
  with_inspector path (fun i w =>
    step (count_rows i (resolveQueues i args) w) (fun rows w => (Ok (OutCounts rows), w))) w.

Definition cmdList (path : string) (page size : Z) (asc : bool) (args : list string) (w : W)
  : outcome :=
  match args with
  | [name; bucketArg] =>
      if page <? 0 then (Fail (New "-page must not be negative"), w)
      else if size <? 1 then (Fail (New "-size must be at least 1"), w)
      else match List.find (fun b => bool_decide (bucket_string b = bucketArg)) buckets with
      | None =>
          (Fail (Errorf "unknown bucket %q (want one of: %s)"
                   [OStr bucketArg; OStr (Join bucketNames ", ")]), w)
      | Some bucket =>
          with_inspector path (fun i w =>
            step (inspector_queue i name w) (fun q w =>
            let '(start, stop) := list_range page size in
            step (named name (ListJobs q bucket start stop asc w)) (fun listed w =>
            (Ok (OutList name (bucket_string bucket) page size
                   (map (fun lj => newJobView lj.1 lj.2) listed)), w)))) w
      end
  | _ =>
      (Fail (Errorf "usage: mkqd list [-c CONFIG] [--json] [-page N] [-size N] [-asc] <queue> <%s>"
               [OStr (Join bucketNames "|")]), w)
  end.

Definition cmdJob (path : string) (args : list string) (w : W) : outcome :=
  match args with
  | [name; jobID] =>
      with_inspector path (fun i w =>
        step (inspector_queue i name w) (fun q w =>
        let err fmt (e : error) := Errorf fmt [OStr name; OStr jobID; OWrap e] in
        match GetJob q jobID w with
        | (Fail e, w) => (Fail (err "queue %q job %q: %w" e), w)
        | (Ok (job, state), w) =>
            match GetJobLogs q jobID w with
            | (Fail e, w) => (Fail (err "queue %q job %q logs: %w" e), w)
            | (Ok (count, lines), w) => (Ok (OutJob name (newJobView job state) count lines), w)
            end
        end)) w
  | _ => (Fail (New "usage: mkqd job [-c CONFIG] [--json] <queue> <jobId>"), w)
  end.

(** ** Mutations *)

Record enqueue_flags := mkEnqueueFlags {
  f_create : bool;
  f_name : string;
  f_id : string;
  f_delay : Z;
  f_priority : Z;
  f_attempts : Z;
  f_lifo : bool;
}.

Definition add_options (f : enqueue_flags) : list AddOption :=
  (if bool_decide (f_name f = "") then [] else [WithJobName (f_name f)])
  ++ (if bool_decide (f_id f = "") then [] else [WithJobID (f_id f)])
  ++ (if 0 <? f_delay f then [WithDelay (f_delay f)] else [])
  ++ (if 0 <? f_priority f then [WithPriority (f_priority f)] else [])
  ++ (if 0 <? f_attempts f then [WithAttempts (f_attempts f)] else [])
  ++ (if f_lifo f then [WithLifo true] else []).

Definition cmdEnqueue (path : string) (f : enqueue_flags)
  (args : list string) (w : W) : outcome :=
  match args with
  | [queueName; payload] =>
      if negb (Valid payload) then
        (Fail (Errorf "payload is not valid JSON: %s" [OStr (truncate payload 60)]), w)
      else if 4294967295 <? f_priority f then (Fail (New "-priority must fit in 32 bits"), w)
      else
        with_inspector path (fun i w =>
          step (if str_mem queueName (present i) then inspector_queue i queueName w
                else if negb (f_create f) then
                  (Fail (Errorf "queue %q does not exist in Redis (pass --create to make it)"
                           [OStr queueName]), w)
                else let '(q, w) := createQueue queueName w in (Ok q, w)) (fun q w =>
          match AddJob q payload (add_options f) w with
          | (Fail e, w) => (Fail (Errorf "queue %q: enqueue: %w" [OStr queueName; OWrap e]), w)
          | (Ok id, w) => (Ok (OutMutation queueName "enqueue" id), w)
          end)) w
  | _ =>
      (Fail (New "usage: mkqd enqueue [-c CONFIG] [--json] [--create] [flags] <queue> '<json payload>'"), w)
  end.

Definition pauseResumeCmd (action : string) (path : string) (args : list string) (w : W) : outcome :=
  match args with
  | [queueName] =>
      with_inspector path (fun i w =>
        step (inspector_queue i queueName w) (fun q w =>
        match (if bool_decide (action = "pause") then PauseQueue q w else ResumeQueue q w) with
        | (Some e, w) =>
            (Fail (Errorf "queue %q: %s: %w" [OStr queueName; OStr action; OWrap e]), w)
        | (None, w) => (Ok (OutMutation queueName action ""), w)
        end)) w
  | _ => (Fail (Errorf "usage: mkqd %s [-c CONFIG] [--json] <queue>" [OStr action]), w)
  end.

(** [withJob] *)
Definition withJob (path action queueName jobID : string)
  (fn : string -> string -> W -> option error * W) (w : W) : outcome :=
  with_inspector path (fun i w =>
    step (inspector_queue i queueName w) (fun q w =>
    match fn q jobID w with
    | (Some e, w) =>
        (Fail (Errorf "queue %q job %q: %s: %w"
                 [OStr queueName; OStr jobID; OStr action; OWrap e]), w)
    | (None, w) => (Ok (OutMutation queueName action jobID), w)
    end)) w.

Definition cmdRetry (path from : string) (args : list string) (w : W) : outcome :=
  match args with
  | [queueName; jobID] =>
      if bool_decide (from = "failed") then
        withJob path "retry" queueName jobID (fun q id w => RetryJob q id BucketFailed w) w
      else if bool_decide (from = "completed") then
        withJob path "retry" queueName jobID (fun q id w => RetryJob q id BucketCompleted w) w
      else (Fail (Errorf "-from must be failed or completed, got %q" [OStr from]), w)
  | _ =>
      (Fail (New "usage: mkqd retry [-c CONFIG] [--json] [-from failed|completed] <queue> <jobId>"), w)
  end.

Definition cmdPromote (path : string) (args : list string) (w : W) : outcome :=
  match args with
  | [queueName; jobID] => withJob path "promote" queueName jobID PromoteJob w
  | _ => (Fail (New "usage: mkqd promote [-c CONFIG] [--json] <queue> <jobId>"), w)
  end.

Definition cmdRm (path : string) (args : list string) (w : W) : outcome :=
  match args with
  | [queueName; jobID] => withJob path "rm" queueName jobID RemoveJob w
  | _ => (Fail (New "usage: mkqd rm [-c CONFIG] [--json] <queue> <jobId>"), w)
  end.

Definition cmdDrain (path : string) (yes withDelayed : bool) (args : list string) (w : W) : outcome :=
  match args with
  | [queueName] =>
      if negb yes then
        (Fail (Errorf "drain deletes the queued jobs in %q and cannot be undone; pass --yes to proceed. This is not the graceful drain `mkqd run` does on shutdown, which lets in-flight jobs finish and deletes nothing"
                 [OStr queueName]), w)
      else
        with_inspector path (fun i w =>
          step (inspector_queue i queueName w) (fun q w =>
          step (named queueName (Counts q w)) (fun before w =>
          match DrainPending q withDelayed w with
          | (Some e, w) => (Fail (Errorf "queue %q: drain: %w" [OStr queueName; OWrap e]), w)
          | (None, w) =>
              step (named queueName (Counts q w)) (fun after w =>
              (Ok (OutDrain queueName (removed_counts before after) withDelayed), w))
          end))) w
  | _ => (Fail (New "usage: mkqd drain [-c CONFIG] [--json] [-delayed] --yes <queue>"), w)
  end.
End commands.

(** ** Labels *)

Definition poolDescription (c : Config) : string :=
  if PoolSize (Redis c) =? 0 then "auto" else FormatInt (PoolSize (Redis c)).
Definition keyPrefixDescription (c : Config) : string :=
  if bool_decide (KeyPrefix c = "") then "bull (BullMQ default)" else KeyPrefix c.
Definition yesNo (b : bool) : string := if b then "yes" else "no".
Definition status (paused : bool) : string := if paused then "paused" else "running".

(** ** Properties *)

Section properties.
Context {W : Type} `{!MkqClient W}.

Lemma gate_refuses i name w :
  name ∉ present i -> exists e, inspector_queue i name w = (Fail e, w).
Proof.
  intros Hn. unfold inspector_queue. apply str_mem_false in Hn as ->. by eexists.
Qed.

(** The commands that act on one queue, on queue [name]. *)
Definition queue_commands (path name arg : string) (page size : Z)
  (asc delayed : bool) (f : enqueue_flags) : list (W -> res output * W) :=
  [cmdCounts path [name]; cmdList path page size asc [name; arg]; cmdJob path [name; arg];
   pauseResumeCmd "pause" path [name]; pauseResumeCmd "resume" path [name];
   cmdRetry path "failed" [name; arg]; cmdRetry path "completed" [name; arg];
   cmdPromote path [name; arg]; cmdRm path [name; arg]; cmdDrain path true delayed [name];
   cmdEnqueue path f [name; arg]].

(** C27 Looking at a queue does not create it: on a name that is not in Redis,
    every command that takes one fails before mkq's writing [Define] or any
    other operation is reached; the world is as the discovery left it, closed
    again. Enqueueing is no exception unless --create is given. *)
Theorem unknown_queue_untouched path name arg page size asc delayed f w conf w1 names w2 :
  open_runtime path w = (Ok conf, w1) -> DiscoverQueues w1 = (Ok names, w2) -> name ∉ names ->
  f_create f = false ->
  Forall (fun cmd => exists e, cmd w = (Fail e, close_runtime w2) \/ cmd w = (Fail e, w))
    (queue_commands path name arg page size asc delayed f).
Proof.
  intros Ho Hd Hn Hf.
  destruct (gate_refuses (mkInspector names conf) name w2 Hn) as [e He].
  assert (forall body : inspector -> W -> res output * W,
    (exists e, body (mkInspector names conf) w2 = (Fail e, w2)) ->
    exists e, with_inspector path body w = (Fail e, close_runtime w2) \/
              with_inspector path body w = (Fail e, w)) as Hopen.
  { intros body [e' Hb]. exists e'. left. unfold with_inspector, openInspector.
    by rewrite Ho, Hd, Hb. }
  unfold queue_commands. repeat (constructor; [|]); try constructor.
  - apply Hopen. exists e. cbn [resolveQueues count_rows]. by rewrite He.
  - unfold cmdList. destruct (page <? 0); [eexists; by right|].
    destruct (size <? 1); [eexists; by right|].
    destruct (List.find _ buckets); [|eexists; by right].
    apply Hopen. exists e. by rewrite He.
  - apply Hopen. exists e. by rewrite He.
  - apply Hopen. exists e. by rewrite He.
  - apply Hopen. exists e. by rewrite He.
  - apply Hopen. exists e. by rewrite He.
  - apply Hopen. exists e. by rewrite He.
  - apply Hopen. exists e. by rewrite He.
  - apply Hopen. exists e. by rewrite He.
  - apply Hopen. exists e. by rewrite He.
  - unfold cmdEnqueue. destruct (Valid arg); [cbn [negb]|eexists; by right].
    destruct (_ <? f_priority f); [eexists; by right|].
    apply Hopen. cbn [present]. apply str_mem_false in Hn as ->. rewrite Hf. by eexists.
Qed.

(** The destructive drain asks first and reports what it did: without --yes
    nothing is opened or touched; when it succeeds, what it reports as removed
    is, for each of wait, prioritized and delayed, the positive difference of
    the counts around the deletion, and nothing for a bucket that did not
    shrink. *)
Lemma cmdDrain_spec path yes delayed name w out w' :
  cmdDrain path yes delayed [name] w = (Ok out, w') ->
  yes = true /\
  exists i q before after w1 w2 w3 w4 w5,
    openInspector path w = (Ok i, w1) /\ inspector_queue i name w1 = (Ok q, w2) /\
    Counts q w2 = (Ok before, w3) /\ DrainPending q delayed w3 = (None, w4) /\
    Counts q w4 = (Ok after, w5) /\ w' = close_runtime w5 /\
    exists removed, out = OutDrain name removed delayed /\
      forall bucket n, (bucket, n) ∈ removed <->
        0 < n /\ ((bucket = "wait" /\ n = wrap64 (Wait before - Wait after)) \/
                  (bucket = "prioritized" /\ n = wrap64 (Prioritized before - Prioritized after)) \/
                  (bucket = "delayed" /\ n = wrap64 (Delayed before - Delayed after))).
Proof.
  unfold cmdDrain. destruct yes; cbn [negb]; [|done]. unfold with_inspector.
  destruct (openInspector path w) as [[i|] w1] eqn:Ho; [|done].
  destruct (inspector_queue i name w1) as [[q|] w2] eqn:Hq; cbn [step]; [|done].
  destruct (Counts q w2) as [[before|] w3] eqn:Hb; cbn [step named map_err fst snd]; [|done].
  destruct (DrainPending q delayed w3) as [[e|] w4] eqn:Hd; [done|].
  destruct (Counts q w4) as [[after|] w5] eqn:Ha; cbn [step named map_err fst snd]; [|done].
  intros [= <- <-]. split; [done|].
  exists i, q, before, after, w1, w2, w3, w4, w5. split_and!; try done.
  eexists. split; [done|]. intros bucket n.
  unfold removed_counts. rewrite filter_elem, Z.ltb_lt. cbn [snd].
  rewrite !elem_of_cons, elem_of_nil. naive_solver.
Qed.
End properties.

(** A world with one queue, whose counts change under a drain. *)
Definition one_queue_client : MkqClient nat := {|
  open_runtime _ w := (Ok ["deliver"], w);
  close_runtime w := w;
  DiscoverQueues w := (Ok ["deliver"], w);
  Define _ w := w;
  IsPaused _ w := (Ok false, w);
  Counts _ w := (Ok (mkCounts (Z.of_nat w) 1 5 0 0 0 0), w);
  ListJobs _ _ _ _ _ w := (Ok [], w);
  GetJob _ _ w := (Fail (New "no job"), w);
  GetJobLogs _ _ w := (Ok (0, []), w);
  AddJob _ _ _ w := (Ok "1", S w);
  PauseQueue _ w := (None, w);
  ResumeQueue _ w := (None, w);
  RetryJob _ _ _ w := (None, w);
  PromoteJob _ _ w := (None, w);
  RemoveJob _ _ w := (None, w);
  DrainPending _ _ _ := (None, 0%nat);
|}.

Lemma unknown_queue_untouched_witness :
  exists e, @cmdRm nat one_queue_client "mkqd.yaml" ["delivre"; "1"] 7%nat = (Fail e, 7%nat).
Proof.
  pose proof (@unknown_queue_untouched nat one_queue_client "mkqd.yaml" "delivre" "1"
                0 20 true false (mkEnqueueFlags false "" "" 0 0 0 false) 7%nat ["deliver"] 7%nat
                ["deliver"] 7%nat eq_refl eq_refl) as H.
  assert ("delivre" ∉ ["deliver"]) as Hn by (apply str_mem_false; reflexivity).
  specialize (H Hn eq_refl). apply Forall_lookup_1 with (i := 8%nat) (x := @cmdRm nat one_queue_client "mkqd.yaml" ["delivre"; "1"]) in H; [|reflexivity].
  destruct H as [e [H|H]]; exists e; exact H.
Defined.

(** ** Paging *)

Lemma list_range_exact page size :
  0 <= page -> 1 <= size -> (page + 1) * size <= MaxInt64 ->
  list_range page size = (page * size, page * size + size - 1).
Proof.
  intros Hp Hs Hb. unfold list_range. cbv zeta. unfold MaxInt64 in Hb.
  rewrite (wrap64_id (page * size)) by (unfold in_int64, MinInt64, MaxInt64; nia).
  rewrite (wrap64_id (page * size + size)) by (unfold in_int64, MinInt64, MaxInt64; nia).
  rewrite wrap64_id by (unfold in_int64, MinInt64, MaxInt64; nia). done.
Qed.

(** The pages of a listing partition it: every index short of the integer
    range is on exactly one page of a given size. *)
Theorem list_pages size i :
  1 <= size -> 0 <= i -> i + size <= MaxInt64 ->
  exists page, 0 <= page /\ (page + 1) * size <= MaxInt64 /\
    (list_range page size).1 <= i <= (list_range page size).2 /\
    forall page', 0 <= page' -> (page' + 1) * size <= MaxInt64 ->
      (list_range page' size).1 <= i <= (list_range page' size).2 -> page' = page.
Proof.
  intros Hs Hi Hb. exists (i / size). pose proof (Z.div_mod i size ltac:(lia)) as Hd.
  pose proof (Z.mod_pos_bound i size ltac:(lia)) as Hm.
  assert (0 <= i / size) by (apply Z.div_pos; lia).
  assert ((i / size + 1) * size <= MaxInt64) by nia.
  rewrite list_range_exact by done. cbn [fst snd]. split_and!; [done|done|nia|nia|].
  intros page' Hp' Hb'. rewrite list_range_exact by done. cbn [fst snd]. intros Hin.
  apply (Z.div_unique i size page' (i - page' * size)); lia.
Qed.

Lemma list_pages_witness :
  exists page, 0 <= page /\ (list_range page 20).1 <= 45 <= (list_range page 20).2.
Proof.
  destruct (list_pages 20 45) as (page & H1 & _ & H2 & _); [lia|lia| |].
  - unfold MaxInt64. lia.
  - exists page. split; [exact H1|exact H2].
Defined.

(** Past that range the page arithmetic wraps: a page number far beyond the end
    of any queue lists the first page. *)
Lemma list_range_wraps :
  exists page, in_int64 page /\ 0 < page /\ list_range page 4 = list_range 0 4.
Proof.
  exists (2 ^ 62). split; [|split; [lia|vm_compute; reflexivity]].
  unfold in_int64, MinInt64, MaxInt64. lia.
Qed.
