(* ===== verification/Output.v ===== *)
(** * What the commands print (cmd/mkqd: the output half of inspect.go, admin.go)

    Each output as the JSON of --json, whose contract OutputShape.v states, and as
    the text for people. Times are printed in the local zone, a parameter. *)

From S2P Require Import Prelude GoErrors GoStrings RetryAfter Utf8 Crypto Json JsonFacts Rfc3339.
From S2P Require Import Tabwriter Config Cli.

#[local] Set Warnings "-register-all".

(** The zero time.Time, which is in UTC. *)
Definition zero_time : Z := -62135596800 * Second.

(** ** JSON *)

(** Members that [omitempty] leaves out. *)
Definition omit_string (key s : string) : list (string * jout) :=
  if bool_decide (s = "") then [] else [(key, OString s)].
Definition omit_raw (key raw : string) : list (string * jout) :=
  if bool_decide (raw = "") then [] else [(key, ORaw raw)].
Definition omit_list (key : string) (l : list jout) : list (string * jout) :=
  match l with [] => [] | _ => [(key, OArray l)] end.
(** A raw message that is not nil. *)
Definition raw_json (raw : string) : jout :=
  if bool_decide (raw = "") then OError raw_error else ORaw raw.

Section output.
Context (zone : Z -> Z).

Definition stateView_json (s : stateView) : jout :=
  let time key (t : option Z) :=
    match t with Some t => [(key, time_json zone t)] | None => [] end in
  OObject
    (time "processed_on" (sv_ProcessedOn s) ++ time "finished_on" (sv_FinishedOn s)
     ++ omit_raw "return_value" (sv_ReturnValue s) ++ omit_string "failed_reason" (sv_FailedReason s)
     ++ omit_list "stacktrace" (map OString (sv_Stacktrace s))
     ++ omit_raw "progress" (sv_Progress s) ++ omit_raw "opts" (sv_Opts s)
     ++ (if sv_DelayMillis s =? 0 then [] else [("delay_millis", OInt64 (sv_DelayMillis s))])
     ++ omit_list "attempts_at" (map OInt64 (sv_AttemptsAt s))).

Definition timestamp_json (t : option Z) : jout :=
  match t with Some t => time_json zone t | None => time_json utc zero_time end.

Definition jobView_json (j : jobView) : jout :=
  OObject
    ([("id", OString (v_ID j)); ("name", OString (v_Name j)); ("timestamp", timestamp_json (v_Timestamp j));
      ("attempts_made", OInt64 (v_AttemptsMade j)); ("attempts_started", OInt64 (v_AttemptsStarted j));
      ("stalled_counter", OInt64 (v_StalledCounter j))]
     ++ omit_string "processed_by" (v_ProcessedBy j)
     ++ [("data", raw_json (v_Data j)); ("state", stateView_json (v_State j))]).

Definition counts_json (c : counts) : jout :=
  OObject [("wait", OInt64 (Wait c)); ("active", OInt64 (Active c)); ("delayed", OInt64 (Delayed c));
           ("prioritized", OInt64 (Prioritized c)); ("completed", OInt64 (Completed c));
           ("failed", OInt64 (Failed c)); ("paused", OInt64 (Paused c))].

(** A map is written in the order of its keys. *)
Definition assoc (k : string) (m : list (string * Z)) : Z :=
  match List.find (fun p => bool_decide (p.1 = k)) m with Some p => p.2 | None => 0 end.
Definition map_json (m : list (string * Z)) : jout :=
  OObject (map (fun k => (k, OInt64 (assoc k m))) (merge_sort String.le m.*1)).

Definition queueRow (row : string * bool * bool) : jout :=
  let '(name, configured, paused) := row in
  OObject [("name", OString name); ("configured", OBool configured); ("paused", OBool paused)].
Definition queuesOutput (rows : list (string * bool * bool)) : jout :=
  OObject [("queues", OArray (map queueRow rows))].

Definition countsRow (row : string * bool * counts) : jout :=
  let '(name, paused, c) := row in
  OObject [("name", OString name); ("paused", OBool paused); ("counts", counts_json c)].
Definition countsOutput (rows : list (string * bool * counts)) : jout :=
  OObject [("queues", OArray (map countsRow rows))].

Definition listOutput (queue bucket : string) (page size : Z) (jobs : list jobView) : jout :=
  OObject [("queue", OString queue); ("bucket", OString bucket); ("page", OInt64 page);
           ("size", OInt64 size); ("jobs", OArray (map jobView_json jobs))].

Definition logsView (count : Z) (lines : list string) : jout :=
  OObject [("count", OInt64 count); ("lines", OArray (map OString lines))].
Definition jobOutput (queue : string) (job : jobView) (count : Z) (lines : list string) : jout :=
  OObject [("queue", OString queue); ("job", jobView_json job); ("logs", logsView count lines)].

Definition mutationResult (queue action jobID : string) : jout :=
  OObject ([("queue", OString queue); ("action", OString action)] ++ omit_string "job_id" jobID
           ++ [("ok", OBool true)]).

Definition drainResult (queue : string) (removed : list (string * Z)) (delayed : bool) : jout :=
  OObject [("queue", OString queue); ("removed", map_json removed);
           ("included_delayed", OBool delayed); ("ok", OBool true)].

Definition output_json (out : output) : jout :=
  match out with
  | OutQueues rows => queuesOutput rows
  | OutCounts rows => countsOutput rows
  | OutList queue bucket page size jobs => listOutput queue bucket page size jobs
  | OutJob queue job count lines => jobOutput queue job count lines
  | OutMutation queue action jobID => mutationResult queue action jobID
  | OutDrain queue removed delayed => drainResult queue removed delayed
  end.

Definition emitJSON (v : jout) : res string := Encode "" "  " v.

(** ** Text *)

Definition line (s : string) : string := s +:+ String newline "".
Definition d (z : Z) : string := FormatInt z.

Definition indentJSON (raw : string) : string :=
  if bool_decide (raw = "") then "  (empty)"
  else "  " +:+ default raw (Indent raw "  " "  ").

Definition timestamp_text (t : option Z) : string :=
  match t with Some t => rfc3339 zone false t | None => rfc3339 utc false zero_time end.

Definition no_queues : string := line "no queues found under this key prefix".

Definition queues_text (rows : list (string * bool * bool)) : string :=
  match rows with
  | [] => no_queues
  | _ =>
      tabwriter (tabbed ["QUEUE"; "CONFIGURED"; "STATUS"]
        +:+ Join (map (fun '(name, configured, paused) =>
                         tabbed [name; yesNo configured; status paused]) rows) "")
  end.

Definition counts_text (rows : list (string * bool * counts)) : string :=
  match rows with
  | [] => no_queues
  | _ =>
      tabwriter (tabbed ["QUEUE"; "WAIT"; "ACTIVE"; "DELAYED"; "PRIO"; "COMPLETED"; "FAILED"; "STATUS"]
        +:+ Join (map (fun '(name, paused, c) =>
                         tabbed [name; d (Wait c); d (Active c); d (Delayed c); d (Prioritized c);
                                 d (Completed c); d (Failed c); status paused]) rows) "")
      +:+ (if existsb (fun '(_, paused, _) => paused) rows
           then line "" +:+ line "WAIT on a paused queue is held back, not being worked." else "")
  end.

Definition list_text (queue bucket : string) (page : Z) (jobs : list jobView) : string :=
  match jobs with
  | [] => line ("no jobs in " +:+ queue +:+ "/" +:+ bucket +:+ " at page " +:+ d page)
  | _ =>
      tabwriter (tabbed ["ID"; "NAME"; "CREATED"; "ATTEMPTS"; "DETAIL"]
        +:+ Join (map (fun j => tabbed [v_ID j; v_Name j; timestamp_text (v_Timestamp j);
                                        d (v_AttemptsMade j); summarise j]) jobs) "")
  end.

(** [printJob] *)
Definition job_text (queue : string) (j : jobView) (count : Z) (lines : list string) : string :=
  let st := v_State j in
  let unless_empty s row := if bool_decide (s = "") then "" else row in
  let time label (t : option Z) :=
    match t with Some t => tabbed [label; rfc3339 zone false t] | None => "" end in
  let block label raw :=
    unless_empty raw (line "" +:+ line label +:+ line (indentJSON raw)) in
  let listing label (l : list string) :=
    match l with [] => "" | _ => line "" +:+ line label +:+ Join (map (fun s => line ("  " +:+ s)) l) "" end in
  tabwriter
    (tabbed ["queue"; queue] +:+ tabbed ["id"; v_ID j] +:+ tabbed ["name"; v_Name j]
     +:+ tabbed ["created"; timestamp_text (v_Timestamp j)]
     +:+ tabbed ["attempts"; "made=" +:+ d (v_AttemptsMade j) +:+ " started=" +:+ d (v_AttemptsStarted j)
                              +:+ " stalled=" +:+ d (v_StalledCounter j)]
     +:+ unless_empty (v_ProcessedBy j) (tabbed ["processed by"; v_ProcessedBy j])
     +:+ time "processed on" (sv_ProcessedOn st) +:+ time "finished on" (sv_FinishedOn st)
     +:+ unless_empty (sv_FailedReason st) (tabbed ["failed reason"; sv_FailedReason st]))
  +:+ line "" +:+ line "data" +:+ line (indentJSON (v_Data j))
  +:+ block "opts" (sv_Opts st) +:+ block "return value" (sv_ReturnValue st)
  +:+ listing "stacktrace" (sv_Stacktrace st)
  +:+ listing ("logs (" +:+ d count +:+ ")") lines.

(** The line of [emitMutation]. *)
Definition mutation_text (queue action jobID : string) : string :=
  if str_mem action ["pause"; "resume"] then line (action +:+ "d " +:+ queue)
  else if bool_decide (action = "enqueue") then line ("enqueued " +:+ queue +:+ " job " +:+ jobID)
  else line (action +:+ " " +:+ queue +:+ " job " +:+ jobID).

Definition drain_text (queue : string) (removed : list (string * Z)) : string :=
  match removed with
  | [] => line ("drained " +:+ queue +:+ ": nothing was queued")
  | _ =>
      line ("drained " +:+ queue +:+ ":"
            +:+ Join (map (fun '(name, n) => " " +:+ name +:+ "=" +:+ d n) removed) "")
  end.

Definition output_text (out : output) : string :=
  match out with
  | OutQueues rows => queues_text rows
  | OutCounts rows => counts_text rows
  | OutList queue bucket page _ jobs => list_text queue bucket page jobs
  | OutJob queue job count lines => job_text queue job count lines
  | OutMutation queue action jobID => mutation_text queue action jobID
  | OutDrain queue removed _ => drain_text queue removed
  end.

(** The end of a command: its JSON or its text. *)
Definition render (asJSON : bool) (out : output) : res string :=
  if asJSON then emitJSON (output_json out) else Ok (output_text out).
End output.

(** ** Examples *)

Definition sample_view : jobView :=
  newJobView (Some (mkCliJob "7" "mail" (1758500000 * Second) 2 3 0 "host:1" (Some (quoted "{'a' : 1}"))))
    (Some (mkJobState (Some (1758500001 * Second)) None "" "boom" ["at x"] "0" "" 0 [])).

Example drained :
  render utc true (OutDrain "deliver" [("wait", 3); ("delayed", 1)] true)
  = Ok (Join [quoted "{"; quoted "  'queue': 'deliver',"; quoted "  'removed': {"; quoted "    'delayed': 1,";
              quoted "    'wait': 3"; "  },"; quoted "  'included_delayed': true,"; quoted "  'ok': true"; "}"; ""]
          (String newline "")) /\
  render utc false (OutDrain "deliver" [("wait", 3); ("delayed", 1)] true)
  = Ok (line "drained deliver: wait=3 delayed=1").
Proof. vm_compute. done. Qed.

Example shown :
  render utc false (OutJob "q" sample_view 1 ["hello"])
  = Ok (Join ["queue          q"; "id             7"; "name           mail";
              "created        2025-09-22T00:13:20Z"; "attempts       made=2 started=3 stalled=0";
              "processed by   host:1"; "processed on   2025-09-22T00:13:21Z"; "failed reason  boom"; "";
              "data"; "  {"; quoted "    'a': 1"; "  }"; ""; "stacktrace"; "  at x"; ""; "logs (1)"; "  hello"; ""]
          (String newline "")).
Proof. vm_compute. reflexivity. Qed.

(** ** Lemmas: what can be written *)

Section facts.
Context (zone : Z -> Z).

Definition time_ok (t : Z) : Prop := time_json zone t = OString (rfc3339 zone true t).
Definition raw_ok (raw : string) : Prop := raw <> "" -> Valid raw = true.

(** The parts of a job that are copied into its JSON are JSON themselves, and its
    times have four-digit years. *)
Definition view_ok (j : jobView) : Prop :=
  from_option time_ok True (v_Timestamp j) /\ Valid (v_Data j) = true /\
  from_option time_ok True (sv_ProcessedOn (v_State j)) /\
  from_option time_ok True (sv_FinishedOn (v_State j)) /\
  raw_ok (sv_ReturnValue (v_State j)) /\ raw_ok (sv_Progress (v_State j)) /\ raw_ok (sv_Opts (v_State j)).
Definition output_ok (out : output) : Prop :=
  match out with
  | OutList _ _ _ _ jobs => Forall view_ok jobs
  | OutJob _ job _ _ => view_ok job
  | _ => True
  end.

Lemma time_ok_denote t : is_Some (denote (time_json zone t)) <-> time_ok t.
Proof.
  unfold time_ok, time_json. cbv zeta. repeat case_match; cbn; split; try done; by intros [? ?].
Qed.

Lemma Valid_denote raw : is_Some (denote (raw_json raw)) <-> Valid raw = true.
Proof.
  unfold raw_json. case_bool_decide as Hr.
  - subst raw. split; [by intros [? ?]|done].
  - cbn [denote]. rewrite bool_decide_eq_false_2 by done. unfold Valid.
    destruct (parse_json raw); split; try done; by intros [? ?].
Qed.

Lemma omit_raw_denote key raw :
  Forall (fun m => is_Some (denote m.2)) (omit_raw key raw) <-> raw_ok raw.
Proof.
  unfold omit_raw, raw_ok. case_bool_decide as Hr; [by split|]. rewrite Forall_singleton. cbn [snd denote].
  rewrite bool_decide_eq_false_2 by done. unfold Valid.
  destruct (parse_json raw); split; intros H; try done; by specialize (H Hr).
Qed.

Lemma omit_string_denote key s : Forall (fun m => is_Some (denote m.2)) (omit_string key s).
Proof. unfold omit_string. case_bool_decide; [constructor|]. by repeat constructor. Qed.

Lemma omit_list_denote key l :
  Forall (fun v => is_Some (denote v)) l -> Forall (fun m => is_Some (denote m.2)) (omit_list key l).
Proof.
  intros H. unfold omit_list. destruct l; [constructor|]. apply Forall_singleton. by apply denote_array.
Qed.

Lemma strings_denote l : Forall (fun v => is_Some (denote v)) (map OString l).
Proof. apply Forall_map, Forall_true. by eexists. Qed.
Lemma ints_denote l : Forall (fun v => is_Some (denote v)) (map OInt64 l).
Proof. apply Forall_map, Forall_true. by eexists. Qed.

Lemma state_denote s :
  is_Some (denote (stateView_json zone s)) <->
  from_option time_ok True (sv_ProcessedOn s) /\ from_option time_ok True (sv_FinishedOn s) /\
  raw_ok (sv_ReturnValue s) /\ raw_ok (sv_Progress s) /\ raw_ok (sv_Opts s).
Proof.
  unfold stateView_json. cbv zeta. rewrite denote_object, !Forall_app, !omit_raw_denote.
  assert (forall key (t : option Z),
    Forall (fun m : string * jout => is_Some (denote m.2))
      (match t with Some t => [(key, time_json zone t)] | None => [] end) <-> from_option time_ok True t) as Htime.
  { intros key [t|]; cbn [from_option]; [|by split; [|constructor]].
    rewrite Forall_singleton. apply time_ok_denote. }
  rewrite !Htime. pose proof (omit_string_denote "failed_reason" (sv_FailedReason s)) as H1.
  pose proof (omit_list_denote "stacktrace" _ (strings_denote (sv_Stacktrace s))) as H2.
  pose proof (omit_list_denote "attempts_at" _ (ints_denote (sv_AttemptsAt s))) as H3.
  assert (Forall (fun m : string * jout => is_Some (denote m.2))
            (if sv_DelayMillis s =? 0 then [] else [("delay_millis", OInt64 (sv_DelayMillis s))])) as H4
    by (case_match; by repeat constructor).
  tauto.
Qed.

Lemma view_denote j : is_Some (denote (jobView_json zone j)) <-> view_ok j.
Proof.
  unfold jobView_json, view_ok. rewrite denote_object, !Forall_app, !Forall_cons. cbn [snd].
  rewrite state_denote, Valid_denote.
  pose proof (omit_string_denote "processed_by" (v_ProcessedBy j)) as H1.
  assert (is_Some (denote (timestamp_json zone (v_Timestamp j))) <-> from_option time_ok True (v_Timestamp j)) as ->.
  { destruct (v_Timestamp j) as [t|]; cbn [timestamp_json from_option]; [apply time_ok_denote|].
    split; [done|]. intros _. eexists. vm_compute. reflexivity. }
  assert (forall s, is_Some (denote (OString s))) as Hs by (by eexists).
  assert (forall z, is_Some (denote (OInt64 z))) as Hz by (by eexists).
  rewrite !Forall_nil. naive_solver.
Qed.

Lemma map_denote m : is_Some (denote (map_json m)).
Proof. apply denote_object, Forall_map, Forall_true. by eexists. Qed.

Lemma output_denote out : is_Some (denote (output_json zone out)) <-> output_ok out.
Proof.
  destruct out as [rows|rows|queue bucket page size jobs|queue job count lines|queue action jobID|queue removed delayed];
    cbn [output_json output_ok]; unfold queuesOutput, countsOutput, listOutput, jobOutput, logsView,
      mutationResult, drainResult; rewrite denote_object, ?Forall_app, ?Forall_cons, ?Forall_nil; cbn [snd].
  - split; [done|]. intros _. split; [|done]. apply denote_array, Forall_map, Forall_true.
    intros [[n c] p]. by eexists.
  - split; [done|]. intros _. split; [|done]. apply denote_array, Forall_map, Forall_true.
    intros [[n p] c]. by eexists.
  - rewrite denote_array, Forall_map, (Forall_iff _ jobs view_ok) by apply view_denote.
    split; [by intros (_ & _ & _ & _ & H & _)|]. intros H. split_and!; try done; by eexists.
  - rewrite view_denote. split; [by intros (_ & H & _)|]. intros H.
    assert (is_Some (denote (OObject [("count", OInt64 count); ("lines", OArray (map OString lines))]))) as Hl.
    { apply denote_object. constructor; [by eexists|]. constructor; [|constructor].
      apply denote_array, strings_denote. }
    split_and!; try done; by eexists.
  - split; [done|]. intros _. split_and!; try done; try (by eexists). apply omit_string_denote.
  - split; [done|]. intros _. split_and!; try done; try (by eexists). apply map_denote.
Qed.
End facts.
