(* ===== verification/OutputShape.v ===== *)
(** * What a program that reads --json gets (cmd/mkqd: the json tags of inspect.go,
      admin.go)

    The documents the commands print, from the reader's side: which members an
    object has and what is found under each name. Nothing here is built from what
    Output.v encodes; the file proves that what is printed reads this way. *)

From S2P Require Import Prelude GoErrors GoStrings Utf8 Json JsonFacts Rfc3339 Config Cli Output.

#[local] Set Warnings "-register-all".

(** ** Reading *)

(** The value under a name, and the names in order. *)
Definition field (x : json) (k : string) : option json :=
  match x with JObject ms => snd <$> List.find (fun m => bool_decide (m.1 = k)) ms | _ => None end.
Definition fields (x : json) : list string := match x with JObject ms => ms.*1 | _ => [] end.
Definition elements (x : json) : option (list json) := match x with JArray l => Some l | _ => None end.

Definition is_str (v : option json) (s : string) : Prop := v = Some (JString (to_valid s)).
Definition is_num (v : option json) (z : Z) : Prop := v = Some (JNumber (FormatInt z)).
Definition is_bool (v : option json) (b : bool) : Prop := v = Some (JBool b).
(** An array, element by element. *)
Definition is_list {A} (P : A -> json -> Prop) (v : option json) (l : list A) : Prop :=
  exists vs, v = Some (JArray vs) /\ Forall2 P l vs.

(** A member that is there exactly when there is something to show. *)
Definition optional {A} (P : option json -> A -> Prop) (v : option json) (a : option A) : Prop :=
  match a with Some a => P v a | None => v = None end.
Definition unless_empty (s : string) : option string := if bool_decide (s = "") then None else Some s.
Definition unless_nil {A} (l : list A) : option (list A) := match l with [] => None | _ => Some l end.
Definition unless_zero (z : Z) : option Z := if z =? 0 then None else Some z.

(** ** The documents *)

Section shapes.
Context (zone : Z -> Z).

Definition is_time (v : option json) (t : Z) : Prop := v = Some (JString (rfc3339 zone true t)).

Record shows_counts (c : counts) (x : json) : Prop := {
  counts_names : fields x = ["wait"; "active"; "delayed"; "prioritized"; "completed"; "failed"; "paused"];
  counts_wait : is_num (field x "wait") (Wait c);
  counts_active : is_num (field x "active") (Active c);
  counts_delayed : is_num (field x "delayed") (Delayed c);
  counts_prioritized : is_num (field x "prioritized") (Prioritized c);
  counts_completed : is_num (field x "completed") (Completed c);
  counts_failed : is_num (field x "failed") (Failed c);
  counts_paused : is_num (field x "paused") (Paused c);
}.

(** Data, results, progress and options are the JSON they are. *)
Record shows_state (s : stateView) (x : json) : Prop := {
  state_names : fields x `sublist_of`
    ["processed_on"; "finished_on"; "return_value"; "failed_reason"; "stacktrace"; "progress"; "opts";
     "delay_millis"; "attempts_at"];
  state_processed : optional is_time (field x "processed_on") (sv_ProcessedOn s);
  state_finished : optional is_time (field x "finished_on") (sv_FinishedOn s);
  state_result : field x "return_value" = parse_json (sv_ReturnValue s);
  state_reason : optional is_str (field x "failed_reason") (unless_empty (sv_FailedReason s));
  state_trace : optional (is_list (fun s v => v = JString (to_valid s))) (field x "stacktrace")
                  (unless_nil (sv_Stacktrace s));
  state_progress : field x "progress" = parse_json (sv_Progress s);
  state_opts : field x "opts" = parse_json (sv_Opts s);
  state_delay : optional is_num (field x "delay_millis") (unless_zero (sv_DelayMillis s));
  state_attempts : optional (is_list (fun z v => v = JNumber (FormatInt z))) (field x "attempts_at")
                     (unless_nil (sv_AttemptsAt s));
}.

Record shows_job (j : jobView) (x : json) : Prop := {
  job_names : fields x `sublist_of`
    ["id"; "name"; "timestamp"; "attempts_made"; "attempts_started"; "stalled_counter"; "processed_by";
     "data"; "state"];
  job_id : is_str (field x "id") (v_ID j);
  job_name : is_str (field x "name") (v_Name j);
  job_time : match v_Timestamp j with
             | Some t => is_time (field x "timestamp") t
             | None => field x "timestamp" = Some (JString "0001-01-01T00:00:00Z")
             end;
  job_made : is_num (field x "attempts_made") (v_AttemptsMade j);
  job_started : is_num (field x "attempts_started") (v_AttemptsStarted j);
  job_stalled : is_num (field x "stalled_counter") (v_StalledCounter j);
  job_by : optional is_str (field x "processed_by") (unless_empty (v_ProcessedBy j));
  job_data : field x "data" = parse_json (v_Data j);
  job_state : exists st, field x "state" = Some st /\ shows_state (v_State j) st;
}.

Definition shows_queue (row : string * bool * bool) (x : json) : Prop :=
  fields x = ["name"; "configured"; "paused"] /\ is_str (field x "name") row.1.1 /\
  is_bool (field x "configured") row.1.2 /\ is_bool (field x "paused") row.2.

Definition shows_count_row (row : string * bool * counts) (x : json) : Prop :=
  fields x = ["name"; "paused"; "counts"] /\ is_str (field x "name") row.1.1 /\
  is_bool (field x "paused") row.1.2 /\ exists c, field x "counts" = Some c /\ shows_counts row.2 c.

(** The buckets that lost jobs, each under its name with its number. The names are
    mkqd's own, ASCII and different. *)
Definition shows_removed (removed : list (string * Z)) (x : json) : Prop :=
  NoDup removed.*1 -> Forall (fun b => is_ascii b = true) removed.*1 ->
  fields x ≡ₚ removed.*1 /\ Forall (fun p => is_num (field x p.1) p.2) removed.

Definition shows (out : output) (x : json) : Prop :=
  match out with
  | OutQueues rows => fields x = ["queues"] /\ is_list shows_queue (field x "queues") rows
  | OutCounts rows => fields x = ["queues"] /\ is_list shows_count_row (field x "queues") rows
  | OutList queue bucket page size jobs =>
      fields x = ["queue"; "bucket"; "page"; "size"; "jobs"] /\
      is_str (field x "queue") queue /\ is_str (field x "bucket") bucket /\
      is_num (field x "page") page /\ is_num (field x "size") size /\
      is_list shows_job (field x "jobs") jobs
  | OutJob queue job count lines =>
      fields x = ["queue"; "job"; "logs"] /\ is_str (field x "queue") queue /\
      (exists j, field x "job" = Some j /\ shows_job job j) /\
      exists l, field x "logs" = Some l /\ fields l = ["count"; "lines"] /\
        is_num (field l "count") count /\
        is_list (fun s v => v = JString (to_valid s)) (field l "lines") lines
  | OutMutation queue action jobID =>
      fields x `sublist_of` ["queue"; "action"; "job_id"; "ok"] /\
      is_str (field x "queue") queue /\ is_str (field x "action") action /\
      optional is_str (field x "job_id") (unless_empty jobID) /\ is_bool (field x "ok") true
  | OutDrain queue removed delayed =>
      fields x = ["queue"; "removed"; "included_delayed"; "ok"] /\ is_str (field x "queue") queue /\
      (exists r, field x "removed" = Some r /\ shows_removed removed r) /\
      is_bool (field x "included_delayed") delayed /\ is_bool (field x "ok") true
  end.
End shapes.

(** ** Lemmas: what is found in an encoding *)

(** The member of an encoding under a name. *)
Definition member (ms : list (string * jout)) (k : string) : option jout :=
  snd <$> List.find (fun m => bool_decide (m.1 = k)) ms.

Lemma member_app a b k :
  member (a ++ b) k = match member a k with Some v => Some v | None => member b k end.
Proof.
  unfold member. induction a as [|m a IH]; [done|]. cbn [app List.find].
  by destruct (bool_decide (m.1 = k)).
Qed.

Lemma denote_elements l x :
  denote (OArray l) = Some x -> exists vs, x = JArray vs /\ Forall2 (fun o v => denote o = Some v) l vs.
Proof.
  cbn [denote]. rewrite fmap_Some. intros (vs & H & ->). exists vs. split; [done|].
  revert vs H. induction l as [|o l IH]; intros vs H; [by injection H as <-|].
  destruct (denote o) as [v|] eqn:Hv; [|done]. cbn [mbind option_bind] in H.
  match type of H with mbind _ ?g = _ => destruct g as [vs'|] eqn:Hg end; [|done].
  injection H as <-. constructor; [done|by apply IH].
Qed.

Lemma denote_members ms x :
  denote (OObject ms) = Some x ->
  exists vs, x = JObject vs /\ Forall2 (fun m v => v.1 = to_valid m.1 /\ denote m.2 = Some v.2) ms vs.
Proof.
  cbn [denote]. rewrite fmap_Some. intros (vs & H & ->). exists vs. split; [done|].
  revert vs H. induction ms as [|[k o] ms IH]; intros vs H; [by injection H as <-|].
  destruct (denote o) as [v|] eqn:Hv; [|done]. cbn [mbind option_bind] in H.
  match type of H with mbind _ ?g = _ => destruct g as [vs'|] eqn:Hg end; [|done].
  injection H as <-. constructor; [done|by apply IH].
Qed.

(** An object whose names are ASCII is read member by member. *)
Definition ascii_names (ms : list (string * jout)) : Prop :=
  Forall (fun m => is_ascii m.1 = true) ms.

Lemma denote_fields ms x :
  ascii_names ms -> denote (OObject ms) = Some x ->
  fields x = ms.*1 /\ forall k, field x k = member ms k ≫= denote.
Proof.
  intros Ha (vs & -> & H2)%denote_members. cbn [fields field]. unfold member.
  induction H2 as [|[k o] [k' v] ms vs [Hk Hv] _ IH]; [done|].
  apply Forall_cons in Ha as [Ha Ham]. cbn [fst snd] in *. rewrite (to_valid_ascii k Ha) in Hk. subst k'.
  destruct (IH Ham) as [Hf Hm]. split; [cbn; by rewrite Hf|]. intros n. cbn [List.find fst snd].
  destruct (bool_decide (k = n)); [cbn; by rewrite Hv|apply Hm].
Qed.

Lemma denote_field_inv ms x k o :
  ascii_names ms -> denote (OObject ms) = Some x -> member ms k = Some o ->
  exists v, field x k = Some v /\ denote o = Some v.
Proof.
  intros Ha Hx Hm. destruct (denote_fields ms x Ha Hx) as [_ Hf]. rewrite Hf, Hm. cbn [mbind option_bind].
  assert (is_Some (denote o)) as [v Hv]; [|by exists v].
  assert (is_Some (denote (OObject ms))) as Hs by by eexists.
  rewrite denote_object, Forall_forall in Hs. unfold member in Hm.
  apply fmap_Some in Hm as ([k' o'] & Hin & ->). apply List.find_some in Hin as [Hin _].
  by apply (Hs (k', o')), list_elem_of_In.
Qed.

(** Arrays of rows. *)
Lemma denote_list {A} (f : A -> jout) (P : A -> json -> Prop) l v :
  (forall a x, denote (f a) = Some x -> P a x) -> denote (OArray (map f l)) = Some v -> is_list P (Some v) l.
Proof.
  intros HP (vs & -> & H2)%denote_elements. exists vs. split; [done|].
  rewrite Forall2_fmap_l in H2. eapply Forall2_impl; [exact H2|]. intros a x. apply HP.
Qed.

(** An object some of whose members may be left out. *)
Definition layout (parts : list (string * option jout)) : list (string * jout) :=
  omap (fun p => pair p.1 <$> p.2) parts.

Lemma layout_app a b : layout (a ++ b) = layout a ++ layout b.
Proof. apply omap_app. Qed.

Lemma layout_names parts : (layout parts).*1 `sublist_of` parts.*1.
Proof.
  unfold layout. induction parts as [|[k [v|]] parts IH]; cbn; [done|..]; by constructor.
Qed.

Lemma layout_absent parts k : k ∉ parts.*1 -> member (layout parts) k = None.
Proof.
  unfold layout, member. induction parts as [|[k' [v|]] parts IH]; cbn; [done|..];
    rewrite not_elem_of_cons; intros [Hk Hp].
  - rewrite bool_decide_eq_false_2 by congruence. by apply IH.
  - by apply IH.
Qed.

Lemma layout_member parts k :
  NoDup parts.*1 ->
  member (layout parts) k = (snd <$> List.find (fun p => bool_decide (p.1 = k)) parts) ≫= id.
Proof.
  induction parts as [|[k' o] parts IH]; [done|]. cbn [fmap list_fmap fst]. intros [Hk Hn]%NoDup_cons.
  cbn [List.find fst]. destruct (bool_decide_reflect (k' = k)) as [->|Hne].
  - cbn [fmap option_fmap option_map snd mbind option_bind]. destruct o as [v|].
    + unfold member, layout. cbn. by rewrite bool_decide_eq_true_2.
    + exact (layout_absent parts k Hk).
  - rewrite <- IH by done. destruct o as [v|]; [|done]. unfold member, layout. cbn.
    by rewrite bool_decide_eq_false_2.
Qed.

(** Reading an object laid out this way. *)
Lemma layout_fields parts x :
  Forall (fun k => is_ascii k = true) parts.*1 -> NoDup parts.*1 -> denote (OObject (layout parts)) = Some x ->
  fields x `sublist_of` parts.*1 /\
  forall k, field x k = ((snd <$> List.find (fun p => bool_decide (p.1 = k)) parts) ≫= id) ≫= denote.
Proof.
  intros Ha Hd H. apply denote_fields in H as [Hn Hf].
  - split; [rewrite Hn; apply layout_names|]. intros k. by rewrite Hf, layout_member.
  - unfold ascii_names, layout. clear -Ha. induction parts as [|[k [v|]] parts IH]; cbn in *; [constructor|..];
      apply Forall_cons in Ha as [? ?]; [constructor; [done|]|]; by apply IH.
Qed.

Lemma layout_string key s : omit_string key s = layout [(key, OString <$> unless_empty s)].
Proof. unfold omit_string, unless_empty. by destruct (bool_decide (s = "")). Qed.
Lemma layout_raw key raw : omit_raw key raw = layout [(key, ORaw <$> unless_empty raw)].
Proof. unfold omit_raw, unless_empty. by destruct (bool_decide (raw = "")). Qed.
Lemma layout_list {A} key (f : A -> jout) l :
  omit_list key (map f l) = layout [(key, OArray ∘ map f <$> unless_nil l)].
Proof. by destruct l. Qed.
Lemma layout_int key z : (if z =? 0 then [] else [(key, OInt64 z)]) = layout [(key, OInt64 <$> unless_zero z)].
Proof. unfold unless_zero. by destruct (z =? 0). Qed.

(** What a left-out member reads as. *)
Lemma raw_reads raw : (ORaw <$> unless_empty raw) ≫= denote = parse_json raw.
Proof.
  unfold unless_empty. destruct (bool_decide_reflect (raw = "")) as [->|Hr]; [done|].
  cbn [fmap option_fmap option_map mbind option_bind denote]. by rewrite bool_decide_eq_false_2.
Qed.
Lemma string_reads s : optional is_str ((OString <$> unless_empty s) ≫= denote) (unless_empty s).
Proof. by destruct (unless_empty s). Qed.
Lemma int_reads z : optional is_num ((OInt64 <$> unless_zero z) ≫= denote) (unless_zero z).
Proof. by destruct (unless_zero z). Qed.
Lemma list_reads {A} (f : A -> jout) (P : A -> json -> Prop) l :
  (forall a, exists v, denote (f a) = Some v /\ P a v) ->
  optional (is_list P) ((OArray ∘ map f <$> unless_nil l) ≫= denote) (unless_nil l).
Proof.
  intros HP. destruct l as [|a l]; [done|]. cbn [unless_nil optional fmap option_fmap option_map mbind option_bind].
  assert (is_Some (denote (OArray (map f (a :: l))))) as [v Hv].
  { apply denote_array, Forall_map, Forall_true. intros b. destruct (HP b) as (v & Hv & _). by exists v. }
  unfold compose. rewrite Hv. apply (denote_list f P _ _) in Hv; [done|].
  intros b x Hx. destruct (HP b) as (v' & Hv' & Hp). congruence.
Qed.

Ltac distinct_names := apply (bool_decide_unpack (NoDup _)); vm_compute; exact I.

Section shaped.
Context (zone : Z -> Z).

Lemma counts_shape c x : denote (counts_json c) = Some x -> shows_counts c x.
Proof.
  intros H. apply denote_fields in H as [Hn Hf]; [|by repeat constructor].
  constructor; unfold is_num; rewrite ?Hf; done.
Qed.

Lemma layout_time key (t : option Z) :
  (match t with Some t => [(key, time_json zone t)] | None => [] end) = layout [(key, time_json zone <$> t)].
Proof. by destruct t. Qed.
Lemma time_reads t :
  from_option (time_ok zone) True t -> optional (is_time zone) ((time_json zone <$> t) ≫= denote) t.
Proof.
  destruct t as [t|]; [|done]. cbn. intros ->. cbn [denote]. unfold is_time.
  by rewrite to_valid_ascii by apply rfc3339_ascii.
Qed.

Lemma state_layout s :
  stateView_json zone s = OObject (layout
    [("processed_on", time_json zone <$> sv_ProcessedOn s); ("finished_on", time_json zone <$> sv_FinishedOn s);
     ("return_value", ORaw <$> unless_empty (sv_ReturnValue s));
     ("failed_reason", OString <$> unless_empty (sv_FailedReason s));
     ("stacktrace", OArray ∘ map OString <$> unless_nil (sv_Stacktrace s));
     ("progress", ORaw <$> unless_empty (sv_Progress s)); ("opts", ORaw <$> unless_empty (sv_Opts s));
     ("delay_millis", OInt64 <$> unless_zero (sv_DelayMillis s));
     ("attempts_at", OArray ∘ map OInt64 <$> unless_nil (sv_AttemptsAt s))]).
Proof.
  unfold stateView_json. cbv zeta.
  rewrite !layout_time, !layout_raw, layout_string, !layout_list, layout_int, <- !layout_app. reflexivity.
Qed.

Lemma state_shape s x :
  from_option (time_ok zone) True (sv_ProcessedOn s) -> from_option (time_ok zone) True (sv_FinishedOn s) ->
  denote (stateView_json zone s) = Some x -> shows_state zone s x.
Proof.
  intros Hp Hf H. rewrite state_layout in H.
  apply layout_fields in H as [Hn Hm]; [|by repeat constructor|distinct_names].
  constructor; rewrite ?Hm; first
    [exact Hn|by apply time_reads|apply raw_reads|apply string_reads|apply int_reads
    |apply (list_reads OString); by eexists|apply (list_reads OInt64); by eexists].
Qed.

Lemma job_layout j :
  jobView_json zone j = OObject (layout
    [("id", Some (OString (v_ID j))); ("name", Some (OString (v_Name j)));
     ("timestamp", Some (timestamp_json zone (v_Timestamp j)));
     ("attempts_made", Some (OInt64 (v_AttemptsMade j)));
     ("attempts_started", Some (OInt64 (v_AttemptsStarted j)));
     ("stalled_counter", Some (OInt64 (v_StalledCounter j)));
     ("processed_by", OString <$> unless_empty (v_ProcessedBy j));
     ("data", Some (raw_json (v_Data j))); ("state", Some (stateView_json zone (v_State j)))]).
Proof. unfold jobView_json. rewrite layout_string. by destruct (unless_empty (v_ProcessedBy j)). Qed.

Lemma data_reads raw : denote (raw_json raw) = parse_json raw.
Proof.
  unfold raw_json. destruct (bool_decide_reflect (raw = "")) as [->|Hr]; [done|].
  cbn [denote]. by rewrite bool_decide_eq_false_2.
Qed.

Lemma job_shape j x : view_ok zone j -> denote (jobView_json zone j) = Some x -> shows_job zone j x.
Proof.
  intros (Ht & _ & Hp & Hf & Hraw) H. rewrite job_layout in H.
  apply layout_fields in H as [Hn Hm]; [|by repeat constructor|distinct_names].
  constructor; unfold is_str, is_num; rewrite ?Hm; try first [exact Hn|done|apply string_reads|apply data_reads].
  - destruct (v_Timestamp j) as [t|]; [|vm_compute; reflexivity].
    exact (time_reads (Some t) Ht).
  - assert (is_Some (denote (stateView_json zone (v_State j)))) as [st Hst] by by apply state_denote.
    exists st. split; [exact Hst|by apply state_shape].
Qed.

Lemma member_map (f : string -> jout) keys k :
  k ∈ keys -> member (map (fun k => (k, f k)) keys) k = Some (f k).
Proof.
  unfold member. induction keys as [|k' keys IH]; [by intros ?%elem_of_nil|]. cbn [map List.find fst].
  destruct (bool_decide_reflect (k' = k)) as [->|Hne]; [done|].
  rewrite elem_of_cons. intros [?|Hk]; [congruence|by apply IH].
Qed.

Lemma assoc_in (m : list (string * Z)) k n : NoDup m.*1 -> (k, n) ∈ m -> assoc k m = n.
Proof.
  unfold assoc. induction m as [|[k' n'] m IH]; [by intros _ ?%elem_of_nil|]. cbn [fmap list_fmap fst].
  intros [Hk Hd]%NoDup_cons. rewrite elem_of_cons. cbn [List.find fst].
  intros [[= <- <-]|Hin]; [by rewrite bool_decide_eq_true_2|].
  rewrite bool_decide_eq_false_2; [by apply IH|]. intros ->. apply Hk.
  by apply (list_elem_of_fmap_2 fst) in Hin.
Qed.

Lemma removed_shape removed x : denote (map_json removed) = Some x -> shows_removed removed x.
Proof.
  intros H Hd Ha. unfold map_json in H.
  pose proof (merge_sort_Permutation String.le removed.*1) as Hp.
  set (keys := merge_sort String.le removed.*1) in *.
  apply denote_fields in H as [Hn Hm].
  2:{ unfold ascii_names. rewrite Forall_map. cbn. by rewrite Hp. }
  split.
  - rewrite Hn. rewrite <- Hp at 1. rewrite <- list_fmap_compose. by rewrite list_fmap_id.
  - apply Forall_forall. intros [b n] Hin. unfold is_num. cbn [fst snd].
    rewrite Hm, (member_map (fun k => OInt64 (assoc k removed))).
    + by rewrite (assoc_in _ _ n).
    + rewrite Hp. by apply (list_elem_of_fmap_2 fst) in Hin.
Qed.

Lemma strings_shape l v :
  denote (OArray (map OString l)) = Some v -> is_list (fun s v => v = JString (to_valid s)) (Some v) l.
Proof. apply denote_list. by intros s x [= <-]. Qed.

Lemma queue_shape row x : denote (queueRow row) = Some x -> shows_queue row x.
Proof.
  destruct row as [[name c] p]. intros H. apply denote_fields in H as [Hn Hm]; [|by repeat constructor].
  unfold shows_queue, is_str, is_bool. by rewrite !Hm.
Qed.

Lemma count_row_shape row x : denote (countsRow row) = Some x -> shows_count_row row x.
Proof.
  destruct row as [[name p] c]. intros H.
  assert (exists v, field x "counts" = Some v /\ denote (counts_json c) = Some v) as (v & Hv & Hc)
    by (eapply denote_field_inv; [|exact H|reflexivity]; by repeat constructor).
  apply denote_fields in H as [Hn Hm]; [|by repeat constructor].
  unfold shows_count_row, is_str, is_bool. rewrite Hv, !Hm. split_and!; try done.
  exists v. split; [done|by apply counts_shape].
Qed.

Lemma jobs_shape jobs v :
  Forall (view_ok zone) jobs -> denote (OArray (map (jobView_json zone) jobs)) = Some v ->
  is_list (shows_job zone) (Some v) jobs.
Proof.
  intros Hok (vs & -> & H2)%denote_elements. exists vs. split; [done|]. rewrite Forall2_fmap_l in H2.
  induction H2 as [|j x jobs vs Hx _ IH]; constructor; apply Forall_cons in Hok as [Hj Hok];
    [by apply job_shape|by apply IH].
Qed.

(** The value under a name, for the parts that are read further. *)
Ltac part H k v Hv Hd :=
  match type of H with
  | denote (OObject ?ms) = Some ?x =>
      destruct (denote_field_inv ms x k _ ltac:(by repeat constructor) H eq_refl) as (v & Hv & Hd)
  end.

Lemma output_shape out x : output_ok zone out -> denote (output_json zone out) = Some x -> shows zone out x.
Proof.
  destruct out as [rows|rows|queue bucket page size jobs|queue job count lines|queue action jobID|queue removed delayed];
    cbn [output_json output_ok shows]; unfold queuesOutput, countsOutput, listOutput, jobOutput, drainResult;
    intros Hok H.
  - part H "queues" v Hv Hd. apply denote_fields in H as [Hn _]; [|by repeat constructor].
    split; [exact Hn|]. rewrite Hv. exact (denote_list _ _ _ _ queue_shape Hd).
  - part H "queues" v Hv Hd. apply denote_fields in H as [Hn _]; [|by repeat constructor].
    split; [exact Hn|]. rewrite Hv. exact (denote_list _ _ _ _ count_row_shape Hd).
  - part H "jobs" v Hv Hd. apply denote_fields in H as [Hn Hm]; [|by repeat constructor].
    rewrite Hv. split; [exact Hn|]. unfold is_str, is_num. rewrite !Hm. split_and!; try done.
    by apply jobs_shape.
  - part H "job" v Hv Hd. part H "logs" l Hl Hld.
    apply denote_fields in H as [Hn Hm]; [|by repeat constructor].
    rewrite Hv, Hl. split; [exact Hn|]. unfold is_str. rewrite Hm. split_and!; [done| |].
    + exists v. split; [done|by apply job_shape].
    + unfold logsView in Hld. cbn [snd] in Hld. part Hld "lines" ls Hls Hlsd.
      apply denote_fields in Hld as [Hln Hlm]; [|by repeat constructor].
      exists l. split_and!; [done|exact Hln|by unfold is_num; rewrite Hlm|].
      rewrite Hls. by apply strings_shape.
  - assert (mutationResult queue action jobID = OObject (layout
      [("queue", Some (OString queue)); ("action", Some (OString action));
       ("job_id", OString <$> unless_empty jobID); ("ok", Some (OBool true))])) as E
      by (unfold mutationResult; rewrite layout_string; by destruct (unless_empty jobID)).
    rewrite E in H. apply layout_fields in H as [Hn Hm]; [|by repeat constructor|distinct_names].
    split; [exact Hn|]. unfold is_str at 1 2, is_bool. rewrite !Hm. split_and!; try done. apply string_reads.
  - part H "removed" v Hv Hd. apply denote_fields in H as [Hn Hm]; [|by repeat constructor].
    rewrite Hv. split; [exact Hn|]. unfold is_str, is_bool. rewrite !Hm. split_and!; try done.
    exists v. split; [done|by apply removed_shape].
Qed.
End shaped.

(** ** Properties *)

(** C29 What --json prints is one JSON text of the documented shape, or nothing. When
    the parts of a job that are copied (its data, result, progress and options) are
    JSON and the times have four-digit years, a reader finds in it, under the names
    of the contract and under no others, what the command found: every count under
    its bucket, the page and size asked for, each job with its copied parts as the
    values they are, which flags hold, and each bucket that lost jobs with the number
    it lost. Otherwise the command fails and prints no half of it. *)
Theorem json_output zone out :
  (output_ok zone out ->
     exists s x, render zone true out = Ok s /\ (ts ← lex s; parse_tokens ts) = Some x /\ shows zone out x) /\
  (~ output_ok zone out -> exists e, render zone true out = Fail e).
Proof.
  unfold render, emitJSON. split.
  - intros Hok. pose proof Hok as Hd. apply output_denote in Hd as [x Hx].
    destruct (Encode_parses "" "  " _ x eq_refl eq_refl Hx) as (s & Hs & Hw).
    exists s, x. split; [done|]. split; [|by apply output_shape].
    apply written_parse in Hw as (ts & -> & Hp). exact Hp.
  - intros Hn. unfold Encode. pose proof (Marshal_encodes (output_json zone out)) as HM.
    destruct (Marshal (output_json zone out)) as [s|e]; [|by exists e].
    destruct Hn. apply output_denote. by destruct (denote (output_json zone out)).
Qed.

(** The drain's counts and a listed job, read back from what is printed. *)
Lemma json_output_witness :
  (exists s x r, render utc true (OutDrain "deliver" [("wait", 3); ("delayed", 1)] false) = Ok s /\
    (ts ← lex s; parse_tokens ts) = Some x /\ is_bool (field x "included_delayed") false /\
    field x "removed" = Some r /\ is_num (field r "wait") 3 /\ is_num (field r "delayed") 1) /\
  exists s x job, render utc true (OutList "q" "failed" 2 20 [sample_view]) = Ok s /\
    (ts ← lex s; parse_tokens ts) = Some x /\ is_num (field x "page") 2 /\ is_num (field x "size") 20 /\
    field x "jobs" = Some (JArray [job]) /\ is_num (field job "attempts_started") 3 /\
    field job "data" = Some (JObject [("a", JNumber "1")]).
Proof.
  split.
  - destruct (json_output utc (OutDrain "deliver" [("wait", 3); ("delayed", 1)] false)) as [H _].
    destruct H as (s & x & Hs & Hx & _ & _ & (r & Hr & Hrem) & Hd & _); [done|].
    exists s, x, r. destruct Hrem as [_ Hnum]; [distinct_names|by repeat constructor|].
    apply Forall_cons in Hnum as [H1 Hnum]. apply Forall_cons in Hnum as [H2 _]. by split_and!.
  - destruct (json_output utc (OutList "q" "failed" 2 20 [sample_view])) as [H _].
    destruct H as (s & x & Hs & Hx & _ & _ & _ & Hp & Hz & vs & Hj & Hvs).
    { cbn [output_ok]. constructor; [|constructor]. unfold view_ok. split_and!; vm_compute; done. }
    apply Forall2_cons_inv_l in Hvs as (job & vs' & Hjob & Hnil & ->). apply Forall2_nil_inv_l in Hnil as ->.
    exists s, x, job. destruct Hjob as [_ _ _ _ _ Hst _ _ Hdata _].
    split_and!; try done.
Defined.
