(* ===== verification/Main.v ===== *)
(** * The process commands (cmd/mkqd/main.go)

    The subcommands that do not go through the inspector: [run], [check], [keys]
    and [version], from their parsed flags on. What a command prints is the list
    of its lines. *)

From S2P Require Import Prelude GoErrors GoStrings Utf8 Duration Config Executor Register Runtime Shutdown.
From S2P Require Import Signers Cli.

(** ** Formatting *)

(** [%-20s]: the width counts characters. *)
Fixpoint spaces (n : nat) : string :=
  match n with O => "" | S n => String " " (spaces n) end.
Definition pad_right (width : nat) (s : string) : string :=
  s +:+ spaces (width - length (runes s)).

(** [%t] *)
Definition bool_string (b : bool) : string := if b then "true" else "false".

(** ** The commands *)

(** The default of the -c flag; an empty MKQD_CONFIG counts as unset. *)
Definition configFlag (Getenv : string -> string) : string :=
  if bool_decide (Getenv "MKQD_CONFIG" = "") then "mkqd.yaml" else Getenv "MKQD_CONFIG".

Definition cmdVersion : list string := [Version].

Definition cmdKeys {W} `{!FS W} (dir : string) (args : list string) : res (list string) :=
  match args with
  | [keyId] =>
      let name := KeyFileName keyId in
      Ok [if bool_decide (dir = "") then name else filepath_Join (W := W) dir name]
  | _ => Fail (New "usage: mkqd keys [-dir DIR] <keyId>")
  end.

Section commands.
Context {W K : Type}.
(** The environment of a process: mkq's NewClient, the file and its parse, the
    linked executors. *)
Context (NewClient : mkqConfig -> option error).
Context (LoadConfig : string -> res Config).
Context (factories : gmap string (ExecutorFactory W)).

Section run.
Context (mkq_Process : list (event K) -> string -> handler W -> list WorkerOption -> res K).
Context (mkq_Stop : list (event K) -> K -> option error).
Context (net_Listen : list (event K) -> string -> res string).
Context (schedule : list (string * K) -> list (string * K)).

Definition cmdRun (path : string) (w : W) (a : Z -> sd_answers)
  : option error * list (event K) * W :=
  match NewFromFile NewClient LoadConfig path with
  | Fail err => (Some err, [], w)
  | Ok rt =>
      let '(err, _, tr, w) :=
        Run mkq_Process mkq_Stop net_Listen schedule factories rt [] w a in
      (err, tr, w)
  end.
End run.

(** The line of one queue; none when it has no tuning. *)
Definition queue_line (rt : Runtime W K) (name : string) : list string :=
  match QueueTuning rt name with
  | None => []
  | Some (concurrency, lock) =>
      ["  " +:+ pad_right 20 name +:+ " concurrency=" +:+ FormatInt concurrency
       +:+ " lock=" +:+ Duration_String lock]
  end.

(** What a successful [check] prints. *)
Definition check_report (path : string) (rt : Runtime W K) : list string :=
  let c := cfg rt in
  ["config     " +:+ path;
   "redis      " +:+ Join (Addrs (Redis c)) "," +:+ " db=" +:+ FormatInt (DB (Redis c))
     +:+ " pool=" +:+ poolDescription c;
   "prefix     " +:+ keyPrefixDescription c;
   "server     " +:+ srv_Addr (Server c) +:+ " metrics=" +:+ bool_string (Metrics (Server c));
   "shutdown   " +:+ Duration_String (ShutdownTimeout c);
   "queues"]
  ++ flat_map (queue_line rt) (runtime_Queues rt)
  ++ ["executors  " +:+ Join (RegisteredExecutors factories) ", "; "ok"].

(** [check]; [rdb] is what Redis answers to the ping. The runtime is shut down
    whatever happens, and what that answers is dropped. *)
Definition cmdCheck (path : string) (rdb : option error) (a : sd_answers) (w : W)
  : res (list string) * option (Runtime W K) * W :=
  match NewFromFile NewClient LoadConfig path with
  | Fail err => (Fail err, None, w)
  | Ok rt =>
      let '(err, rt, w) := Check factories rt (Some rdb) w in
      let out := match err with Some e => Fail e | None => Ok (check_report path rt) end in
      let '(_, rt) := Shutdown rt a in
      (out, Some rt, w)
  end.
End commands.

(** ** Lemmas *)

(** A runtime fresh from [New]. *)
Lemma New_runtime_ok {W K} NewClient c (rt : Runtime W K) :
  New_runtime NewClient c = Ok rt ->
  cfg rt = applyDefaults c /\ valid_config (cfg rt) /\ registry rt = ∅ /\ order rt = [] /\
  stopErr rt = None.
Proof.
  unfold New_runtime. destruct (Validate (applyDefaults c)) eqn:Hv; [done|].
  apply Validate_valid in Hv. intros H. inv_bind H.
  destruct (NewClient _); [done|]. by injection H as <-.
Qed.

Lemma built_tuning {W K} (factories : gmap string (ExecutorFactory W)) (rt : Runtime W K) c qc r :
  NoDup (map q_Name (Queues (cfg rt))) -> qc ∈ Queues (cfg rt) -> built factories c qc r ->
  let t := resolveTuning rt r in
  r_concurrency t = default (d_Concurrency (Defaults (cfg rt))) (q_Concurrency qc) /\
  r_lockDuration t = default (d_LockDuration (Defaults (cfg rt))) (q_LockDuration qc).
Proof.
  intros Hnd Hin (? & ? & ? & ? & ? & _ & _ & _ & ->). unfold resolveTuning. cbn [r_queue r_tune].
  rewrite queueConfig_in by done. cbn. by destruct (q_Concurrency qc), (q_LockDuration qc).
Qed.

(** The line a configured queue should get. *)
Definition report_line (c : Config) (qc : QueueConfig) : string :=
  "  " +:+ pad_right 20 (q_Name qc)
  +:+ " concurrency=" +:+ FormatInt (default (d_Concurrency (Defaults c)) (q_Concurrency qc))
  +:+ " lock=" +:+ Duration_String (default (d_LockDuration (Defaults c)) (q_LockDuration qc)).

Lemma queue_lines {W K} (factories : gmap string (ExecutorFactory W)) (rt : Runtime W K) c qcs :
  NoDup (map q_Name (Queues (cfg rt))) ->
  (forall qc, qc ∈ qcs -> qc ∈ Queues (cfg rt) /\
     exists r, registry rt !! q_Name qc = Some r /\ built factories c qc r) ->
  flat_map (queue_line rt) (map q_Name qcs) = map (report_line (cfg rt)) qcs.
Proof.
  intros Hnd. induction qcs as [|qc qcs IH]; intros H; [done|]. cbn [map flat_map].
  rewrite IH by (intros qc' Hin; apply H; by right).
  destruct (H qc ltac:(by left)) as (Hin & r & Hr & Hb).
  destruct (built_tuning _ _ _ _ _ Hnd Hin Hb) as [Hc Hl].
  unfold queue_line, QueueTuning. rewrite Hr. cbv zeta. by rewrite Hc, Hl.
Qed.

(** ** Properties *)

(** What [mkqd check] vouches for: when it reports, Redis answered, the
    configuration is valid and every executor it names was built; and the report
    has one line per configured queue, in order of their names, with the
    concurrency and the lock its block sets or else the defaults. *)
Theorem cmdCheck_report {W K} NewClient LoadConfig (factories : gmap string (ExecutorFactory W))
    path rdb a w lines (rt : Runtime W K) w' :
  cmdCheck NewClient LoadConfig factories path rdb a w = (Ok lines, Some rt, w') ->
  rdb = None /\ valid_config (cfg rt) /\
  (forall qc, qc ∈ Queues (cfg rt) -> exists r, built factories (cfg rt) qc r) /\
  exists before qcs after,
    lines = before ++ map (report_line (cfg rt)) qcs ++ after /\
    qcs ≡ₚ Queues (cfg rt) /\ Sorted String.le (map q_Name qcs).
Proof.
  unfold cmdCheck, NewFromFile. destruct (LoadConfig path) as [c|]; [|done].
  cbn [mbind res_bind].
  destruct (New_runtime NewClient c) as [rt0|] eqn:Hnew; [|done].
  apply New_runtime_ok in Hnew as (_ & Hv & Hreg & Hord & _).
  unfold Check, ping. destruct rdb as [e|]; [by destruct (Shutdown rt0 a)|].
  destruct (buildConfiguredQueues factories rt0 w) as [[[e|] rt1] w1] eqn:Hb;
    [by destruct (Shutdown rt1 a)|].
  apply fresh_build in Hb as (Hc & Hq & Hbuilt); [|done..].
  destruct (Shutdown_keeps rt1 a) as [Hk _]. destruct (Shutdown rt1 a) as [err rt2]. cbn in Hk.
  intros H. injection H as <- <- <-. rewrite Hk, Hc.
  split; [reflexivity|]. split; [exact Hv|]. split.
  { intros qc Hin. destruct (Hbuilt qc Hin) as (r & _ & ?). by exists r. }
  pose proof (merge_sort_Permutation String.le (map q_Name (Queues (cfg rt0)))) as Hp.
  apply Permutation.Permutation_map_inv in Hp as (qcs & Hs & Hp).
  unfold check_report, runtime_Queues. rewrite Hq. fold (sortedQueueNames (map q_Name (Queues (cfg rt0)))) in Hs.
  rewrite Hs, (queue_lines factories rt1 (cfg rt0) qcs).
  - eexists _, qcs, _. split_and!; [by rewrite Hc|done|].
    rewrite <- Hs. apply (Sorted_merge_sort String.le).
  - rewrite Hc. by apply valid_names.
  - intros qc Hin. rewrite <- Hp in Hin. rewrite Hc. auto.
Qed.

Definition checked :=
  cmdCheck (K := nat) (fun _ => None) (fun _ => Ok (cfg one_queue_runtime)) nop_factories "mkqd.yaml" None
    all_well tt.

Lemma cmdCheck_report_witness :
  match checked with
  | (Ok lines, Some rt, _) =>
      valid_config (cfg rt) /\
      nth 6 lines "" = "  mail                 concurrency=128 lock=30s"
  | _ => False
  end.
Proof.
  destruct checked as [[[lines|e] [rt|]] w'] eqn:H;
    [|apply (f_equal (fun r => (match r.1.1 with Ok _ => true | _ => false end,
                                 match r.1.2 with Some _ => true | None => false end))) in H; vm_compute in H; discriminate..].
  split.
  - by apply (cmdCheck_report _ _ _ _ _ _ _ _ _ _ H).
  - assert (match checked.1.1 with Ok l => nth 6 l "" | Fail _ => "" end =
            "  mail                 concurrency=128 lock=30s") as Hline
      by (vm_compute; reflexivity).
    rewrite H in Hline. exact Hline.
Defined.
