(* ===== verification/Commands.v ===== *)
(** * The commands from their arguments (cmd/mkqd)

    Every subcommand with its own flags, as package flag parses them, and the
    table through which [dispatch] reaches them. *)

From S2P Require Import Prelude GoErrors GoStrings Rfc3339 Duration Flags Config Executor Register Runtime.
From S2P Require Import Shutdown Signers Cli Output Main.

#[local] Set Warnings "-register-all".

(** What a command prints on standard output. *)
Abbreviation printed := string.
Definition print_lines (lines : list string) : printed := Join (map line lines) "".

(** [fs.Parse(args)] in front of a command. *)
Definition with_flags {A W} (fs : FlagSet) (args : list string)
  (body : FlagSet -> list string -> W -> res A * W) (w : W) : res A * W :=
  match Parse fs args with
  | Fail e => (Fail e, w)
  | Ok (fs, rest) => body fs rest w
  end.

Section inspect.
Context {W : Type} `{!MkqClient W}.
Context (Getenv : string -> string) (zone : Z -> Z).

(** [configFlag] *)
Definition config_flag : string * flag_value := ("c", FString (configFlag Getenv)).
Definition jsonFlag : string * flag_value := ("json", FBool false).
Definition config_path (fs : FlagSet) : string := flag_string fs "c".

(** The end of a command: what it found is printed, as --json says. *)
Definition emit (fs : FlagSet) (r : res output * W) : res printed * W :=
  (out ← r.1; render zone (flag_bool fs "json") out, r.2).

Definition queues_flags : FlagSet := [config_flag; jsonFlag].
Definition queues_command (args : list string) : W -> res printed * W :=
  with_flags queues_flags args (fun fs rest w => emit fs (cmdQueues (config_path fs) rest w)).

Definition counts_command (args : list string) : W -> res printed * W :=
  with_flags queues_flags args (fun fs rest w => emit fs (cmdCounts (config_path fs) rest w)).

Definition list_flags : FlagSet :=
  [config_flag; jsonFlag; ("page", FInt 0); ("size", FInt 20); ("asc", FBool true)].
Definition list_command (args : list string) : W -> res printed * W :=
  with_flags list_flags args (fun fs rest w =>
    emit fs (cmdList (config_path fs) (flag_int fs "page") (flag_int fs "size")
               (flag_bool fs "asc") rest w)).

Definition job_command (args : list string) : W -> res printed * W :=
  with_flags queues_flags args (fun fs rest w => emit fs (cmdJob (config_path fs) rest w)).

Definition enqueue_flag_set : FlagSet :=
  [config_flag; jsonFlag; ("create", FBool false); ("name", FString ""); ("id", FString "");
   ("delay", FDuration 0); ("priority", FUint 0); ("attempts", FInt 0); ("lifo", FBool false)].
Definition enqueue_values (fs : FlagSet) : enqueue_flags :=
  mkEnqueueFlags (flag_bool fs "create") (flag_string fs "name") (flag_string fs "id")
    (flag_int fs "delay") (flag_int fs "priority") (flag_int fs "attempts") (flag_bool fs "lifo").
Definition enqueue_command (args : list string) : W -> res printed * W :=
  with_flags enqueue_flag_set args (fun fs rest w =>
    emit fs (cmdEnqueue (config_path fs) (enqueue_values fs) rest w)).

Definition pause_command (action : string) (args : list string) : W -> res printed * W :=
  with_flags queues_flags args (fun fs rest w =>
    emit fs (pauseResumeCmd action (config_path fs) rest w)).

Definition retry_flags : FlagSet := [config_flag; jsonFlag; ("from", FString "failed")].
Definition retry_command (args : list string) : W -> res printed * W :=
  with_flags retry_flags args (fun fs rest w =>
    emit fs (cmdRetry (config_path fs) (flag_string fs "from") rest w)).

Definition promote_command (args : list string) : W -> res printed * W :=
  with_flags queues_flags args (fun fs rest w => emit fs (cmdPromote (config_path fs) rest w)).
Definition rm_command (args : list string) : W -> res printed * W :=
  with_flags queues_flags args (fun fs rest w => emit fs (cmdRm (config_path fs) rest w)).

Definition drain_flags : FlagSet :=
  [config_flag; jsonFlag; ("yes", FBool false); ("delayed", FBool false)].
Definition drain_command (args : list string) : W -> res printed * W :=
  with_flags drain_flags args (fun fs rest w =>
    emit fs (cmdDrain (config_path fs) (flag_bool fs "yes") (flag_bool fs "delayed") rest w)).

(** The commands on queues: the number of arguments each takes (any, when none is
    given), its flags, and what it does with both. *)
Record queue_command := mkQueueCommand {
  qc_name : string;
  qc_arity : option nat;
  qc_flags : FlagSet;
  qc_body : FlagSet -> list string -> W -> res output * W;
  qc_run : list string -> W -> res printed * W;
}.

Definition queue_commands : list queue_command :=
  [mkQueueCommand "queues" (Some 0%nat) queues_flags (fun fs => cmdQueues (config_path fs)) queues_command;
   mkQueueCommand "counts" None queues_flags (fun fs => cmdCounts (config_path fs)) counts_command;
   mkQueueCommand "list" (Some 2%nat) list_flags
     (fun fs => cmdList (config_path fs) (flag_int fs "page") (flag_int fs "size") (flag_bool fs "asc"))
     list_command;
   mkQueueCommand "job" (Some 2%nat) queues_flags (fun fs => cmdJob (config_path fs)) job_command;
   mkQueueCommand "enqueue" (Some 2%nat) enqueue_flag_set
     (fun fs => cmdEnqueue (config_path fs) (enqueue_values fs)) enqueue_command;
   mkQueueCommand "pause" (Some 1%nat) queues_flags (fun fs => pauseResumeCmd "pause" (config_path fs))
     (pause_command "pause");
   mkQueueCommand "resume" (Some 1%nat) queues_flags (fun fs => pauseResumeCmd "resume" (config_path fs))
     (pause_command "resume");
   mkQueueCommand "retry" (Some 2%nat) retry_flags
     (fun fs => cmdRetry (config_path fs) (flag_string fs "from")) retry_command;
   mkQueueCommand "promote" (Some 2%nat) queues_flags (fun fs => cmdPromote (config_path fs)) promote_command;
   mkQueueCommand "rm" (Some 2%nat) queues_flags (fun fs => cmdRm (config_path fs)) rm_command;
   mkQueueCommand "drain" (Some 1%nat) drain_flags
     (fun fs => cmdDrain (config_path fs) (flag_bool fs "yes") (flag_bool fs "delayed")) drain_command].
End inspect.
Arguments queue_command : clear implicits.

(** ** The process's own commands *)

Section process.
Context {W K : Type} `{!FS W}.
Context (Getenv : string -> string).
Context (NewClient : mkqConfig -> option error).
Context (LoadConfig : string -> res Config).
Context (factories : gmap string (ExecutorFactory W)).
Context (mkq_Process : list (event K) -> string -> handler W -> list WorkerOption -> res K).
Context (mkq_Stop : list (event K) -> K -> option error).
Context (net_Listen : list (event K) -> string -> res string).
Context (schedule : list (string * K) -> list (string * K)).

(** [run]; positional arguments are not looked at. *)
Definition run_command (a : Z -> sd_answers) (args : list string) : W -> res printed * W :=
  with_flags [config_flag Getenv] args (fun fs _ w =>
    let '(err, _, w) :=
      cmdRun NewClient LoadConfig factories mkq_Process mkq_Stop net_Listen schedule
        (config_path fs) w a in
    (match err with Some e => Fail e | None => Ok "" end, w)).

Definition check_command (rdb : option error) (a : sd_answers) (args : list string)
  : W -> res printed * W :=
  with_flags [config_flag Getenv] args (fun fs _ w =>
    let '(out, _, w) := cmdCheck (K := K) NewClient LoadConfig factories (config_path fs) rdb a w in
    (print_lines <$> out, w)).

Definition keys_command (args : list string) : W -> res printed * W :=
  with_flags [("dir", FString "")] args (fun fs rest w =>
    (print_lines <$> cmdKeys (W := W) (flag_string fs "dir") rest, w)).

Definition version_command (args : list string) : W -> res printed * W :=
  with_flags [] args (fun _ _ w => (Ok (print_lines cmdVersion), w)).

(** ** The table, and [dispatch] *)

Context `{!MkqClient W} (zone : Z -> Z).
Context (rdb : option error) (a : Z -> sd_answers) (a_check : sd_answers).

Record command := mkCommand {
  c_name : string;
  c_summary : string;
  c_run : list string -> W -> res printed * W;
}.

Definition commands : list command :=
  [mkCommand "run" "consume the configured queues until interrupted" (run_command a);
   mkCommand "check" "validate the config, build executors, ping Redis" (check_command rdb a_check);
   mkCommand "queues" "list the queues present in Redis" (queues_command Getenv zone);
   mkCommand "counts" "job counts per bucket, for one queue or all" (counts_command Getenv zone);
   mkCommand "list" "list the jobs in one bucket of a queue" (list_command Getenv zone);
   mkCommand "job" "show one job with its state and logs" (job_command Getenv zone);
   mkCommand "enqueue" "add a job from a JSON payload" (enqueue_command Getenv zone);
   mkCommand "pause" "stop handing jobs to workers" (pause_command Getenv zone "pause");
   mkCommand "resume" "let workers take jobs again" (pause_command Getenv zone "resume");
   mkCommand "retry" "move a failed job back to wait" (retry_command Getenv zone);
   mkCommand "promote" "run a delayed job now" (promote_command Getenv zone);
   mkCommand "rm" "delete one job" (rm_command Getenv zone);
   mkCommand "drain" "DELETE the queued jobs (not the shutdown drain)" (drain_command Getenv zone);
   mkCommand "keys" "print where a dir signer looks for a key id" keys_command;
   mkCommand "version" "print the mkqd version" version_command].

(** What [usage] writes to standard error. *)
Definition usage : list string :=
  ["mkqd — standalone worker for mkq / BullMQ-compatible queues"; "";
   "usage: mkqd <command> [flags]"; ""]
  ++ map (fun c => "  " +:+ pad_right 9 (c_name c) +:+ " " +:+ c_summary c) commands
  ++ [""; "run `mkqd <command> -h` for the flags of a command."].

(** The result, with what was written to standard error by [dispatch]. *)
Definition dispatch (args : list string) (w : W) : res printed * list string * W :=
  match args with
  | [] => (Fail (Sentinel ErrHelp), usage, w)
  | name :: rest =>
      if str_mem name ["-h"; "--help"; "help"] then (Ok "", usage, w)
      else
        match List.find (fun c => bool_decide (c_name c = name)) commands with
        | Some c => let '(r, w) := c_run c rest w in (r, [], w)
        | None => (Fail (Errorf "unknown command %q" [OStr name]), usage, w)
        end
  end.

(** The exit code of [main]. *)
Definition exit_code {A} (r : res A) : Z :=
  match r with
  | Ok _ => 0
  | Fail e => if errors_Is e ErrHelp then 2 else 1
  end.
End process.

(** ** Lemmas: parsing *)

(** A flag that ends up with another value than its default was written as an
    argument. *)
Lemma lookup_assign fs name v n :
  lookup_flag (assign fs name v) n =
  if bool_decide (n = name) then (match lookup_flag fs n with Some _ => Some v | None => None end)
  else lookup_flag fs n.
Proof.
  unfold lookup_flag. induction fs as [|[m old] fs IH]; cbn [assign List.find fst].
  - by case_bool_decide.
  - destruct (bool_decide_reflect (m = name)) as [->|Hm]; cbn [List.find fst].
    + destruct (bool_decide_reflect (name = n)) as [->|Hn]; cbn.
      * by rewrite bool_decide_eq_true_2.
      * by rewrite bool_decide_eq_false_2.
    + destruct (bool_decide_reflect (m = n)) as [->|Hn]; cbn.
      * by rewrite bool_decide_eq_false_2.
      * exact IH.
Qed.

Lemma Parse_written fs args fs' rest n :
  Parse fs args = Ok (fs', rest) -> lookup_flag fs' n <> lookup_flag fs n ->
  exists arg value, arg ∈ args /\ classify_arg arg = FlagArg n value.
Proof.
  remember (length args) as k eqn:Hk. revert fs args Hk.
  induction (lt_wf k) as [k _ IH]. intros fs args -> Hp Hne.
  destruct args as [|s args]; cbn [Parse] in Hp; [by injection Hp as <- _|].
  destruct (classify_arg s) as [drop| |name value] eqn:Hs; [by injection Hp as <- _|done|].
  destruct (decide (name = n)) as [->|Hn].
  { exists s, value. split; [by left|done]. }
  assert (forall v args', Parse (assign fs name v) args' = Ok (fs', rest) ->
            (length args' < length (s :: args))%nat -> (forall x, x ∈ args' -> x ∈ s :: args) ->
            exists arg value, arg ∈ s :: args /\ classify_arg arg = FlagArg n value) as Hrec.
  { intros v args' Hp' Hlen Hin.
    destruct (IH (length args') Hlen _ args' eq_refl Hp') as (x & u & Hx & Hc).
    - rewrite lookup_assign, bool_decide_eq_false_2 by congruence. done.
    - exists x, u. split; [by apply Hin|done]. }
  destruct (lookup_flag fs name) as [old|]; [|by destruct (str_mem name _)].
  destruct old as [b|s'|z|z|d].
  { destruct (set_value (FBool b) _) as [v|]; [|done].
    apply (Hrec v args Hp); [cbn; lia|]. intros x Hx. by right. }
  all: destruct value as [text|];
    [destruct (set_value _ text) as [v|]; [|done];
     apply (Hrec v args Hp); [cbn; lia|]; intros x Hx; by right
    |destruct args as [|text args]; [done|];
     destruct (set_value _ text) as [v|]; [|done];
     apply (Hrec v args Hp); [cbn; lia|]; intros x Hx; by right; right].
Qed.

(** A word that does not begin with a hyphen, or is nothing else. *)
Definition plain_word (q : string) : Prop := HasPrefix q "-" = false \/ q = "-".

Lemma plain_word_ends q : plain_word q -> classify_arg q = EndOfFlags false.
Proof.
  intros [Hq| ->]; [|done]. destruct q as [|c q]; [done|].
  destruct (decide (c = "-"%char)) as [->|Hc]; [by destruct q|]. by byte_cases c.
Qed.

(** The first plain word ends the flags: those are what the words before it say. *)
Lemma Parse_front fs front q rest fs' :
  plain_word q -> Parse fs front = Ok (fs', []) -> Parse fs (front ++ q :: rest) = Ok (fs', q :: rest).
Proof.
  intros Hq%plain_word_ends. remember (length front) as k eqn:Hk. revert fs front Hk.
  induction (lt_wf k) as [k _ IH]. intros fs front -> Hp.
  destruct front as [|s front]; cbn [app Parse] in *.
  { injection Hp as <-. by rewrite Hq. }
  destruct (classify_arg s) as [[]| |name value]; [injection Hp as <- ->; done|done|done|].
  assert (forall v front', Parse (assign fs name v) front' = Ok (fs', []) ->
            (length front' < length (s :: front))%nat ->
            Parse (assign fs name v) (front' ++ q :: rest) = Ok (fs', q :: rest)) as Hrec
    by (intros v front' H Hlen; by eapply (IH _ Hlen)).
  destruct (lookup_flag fs name) as [old|]; [|by destruct (str_mem name _)].
  destruct old as [b|s'|z|z|d].
  { destruct (set_value (FBool b) _) as [v|]; [|done]. apply Hrec; [done|cbn; lia]. }
  all: destruct value as [text|];
    [destruct (set_value _ text) as [v|]; [|done]; apply Hrec; [done|cbn; lia]
    |destruct front as [|text front]; [done|];
     cbn [app]; destruct (set_value _ text) as [v|]; [|done]; apply Hrec; [done|cbn; lia]].
Qed.

(** A command that takes a number of arguments looks at nothing when it gets
    another. *)
Lemma wrong_arity {W} `{!MkqClient W} Getenv zone (c : queue_command W) n fs args (w : W) :
  c ∈ queue_commands Getenv zone -> qc_arity c = Some n -> length args <> n ->
  exists e, qc_body c fs args w = (Fail e, w) /\ errors_Is e ErrHelp = false.
Proof.
  intros Hin Ha Hlen. unfold queue_commands in Hin.
  repeat (apply elem_of_cons in Hin as [->|Hin];
    [cbn [qc_arity qc_body] in *; first [discriminate Ha|injection Ha as <-];
     destruct args as [|x [|y [|z args]]]; try done; by eexists|]).
  by apply elem_of_nil in Hin.
Qed.

(** ** Properties *)

(** C30 Flags come before the arguments: once a word that is no flag is met, it and
    everything after it, options included, are the command's arguments, and the
    flags have the values that the words before it gave them. So a command on queues
    that takes a fixed number of arguments and gets another number of words from
    there on is refused, before a connection is opened, with exit code 1; and one
    that gets the right number (counts takes any) runs with an option spelled after
    the queue as an argument: in [mkqd job deliver --json] it is the job's id. *)
Theorem flags_after_arguments {W} `{!MkqClient W} Getenv zone (c : queue_command W) front q rest fs (w : W) :
  c ∈ queue_commands Getenv zone -> plain_word q ->
  Parse (qc_flags c) front = Ok (fs, []) ->
  let out := qc_run c (front ++ q :: rest) w in
  out = emit zone fs (qc_body c fs (q :: rest) w) /\
  forall n, qc_arity c = Some n -> length (q :: rest) <> n ->
    exists e, out = (Fail e, w) /\ exit_code out.1 = 1.
Proof.
  intros Hin Hq Hf. cbv zeta.
  assert (qc_run c (front ++ q :: rest) w = emit zone fs (qc_body c fs (q :: rest) w)) as Hrun.
  { clear -Hin Hq Hf. unfold queue_commands in Hin.
    repeat (apply elem_of_cons in Hin as [->|Hin];
      [cbn [qc_run qc_flags qc_body] in *; unfold queues_command, counts_command, list_command, job_command,
         enqueue_command, pause_command, retry_command, promote_command, rm_command, drain_command, with_flags;
       by rewrite (Parse_front _ _ _ rest _ Hq Hf)|]).
    by apply elem_of_nil in Hin. }
  split; [exact Hrun|]. intros n Hn Hlen. rewrite Hrun.
  destruct (wrong_arity Getenv zone c n fs (q :: rest) w Hin Hn Hlen) as (e & -> & He).
  exists e. split; [done|]. unfold exit_code. cbn. by rewrite He.
Qed.

(** The line README.md shows for the drain, and an option after the queue of
    [mkqd job]: it is looked up as a job. *)
Lemma flags_after_arguments_witness :
  @drain_command nat one_queue_client (fun _ => "") utc ["deliver"; "--yes"] 120%nat
    = (Fail (New "usage: mkqd drain [-c CONFIG] [--json] [-delayed] --yes <queue>"), 120%nat) /\
  (exists e, @drain_command nat one_queue_client (fun _ => "") utc ["deliver"; "--yes"] 120%nat
    = (Fail e, 120%nat)) /\
  @job_command nat one_queue_client (fun _ => "") utc ["-c"; "a.yaml"; "deliver"; "--json"] 120%nat
    = emit utc [("c", FString "a.yaml"); ("json", FBool false)]
        (@cmdJob nat one_queue_client "a.yaml" ["deliver"; "--json"] 120%nat).
Proof.
  split; [reflexivity|]. split.
  - destruct (@flags_after_arguments nat one_queue_client (fun _ => "") utc
                (mkQueueCommand "drain" (Some 1%nat) (drain_flags (fun _ => ""))
                   (fun fs => @cmdDrain nat one_queue_client (config_path fs) (flag_bool fs "yes") (flag_bool fs "delayed"))
                   (@drain_command nat one_queue_client (fun _ => "") utc))
                [] "deliver" ["--yes"] (drain_flags (fun _ => "")) 120%nat) as [_ H].
    + apply list_elem_of_lookup. exists 10%nat. reflexivity.
    + by left.
    + reflexivity.
    + destruct (H 1%nat) as (e & He & _); [done|done|]. by exists e.
  - destruct (@flags_after_arguments nat one_queue_client (fun _ => "") utc
                (mkQueueCommand "job" (Some 2%nat) (queues_flags (fun _ => ""))
                   (fun fs => @cmdJob nat one_queue_client (config_path fs))
                   (@job_command nat one_queue_client (fun _ => "") utc))
                ["-c"; "a.yaml"] "deliver" ["--json"]
                [("c", FString "a.yaml"); ("json", FBool false)] 120%nat) as [H _].
    + apply list_elem_of_lookup. exists 3%nat. reflexivity.
    + by left.
    + reflexivity.
    + exact H.
Defined.

(** C28 The destructive drain asks first and reports what it did: when [mkqd drain]
    succeeds, one of its arguments spelled the flag --yes, one queue was named
    and is in Redis, and what is reported as removed is, for each of wait,
    prioritized and delayed, the positive difference of the counts around the
    deletion, and nothing for a bucket that did not shrink. *)
Theorem drain_command_reports {W} `{!MkqClient W} Getenv zone args (w w' : W) p :
  drain_command Getenv zone args w = (Ok p, w') ->
  (exists arg value, arg ∈ args /\ classify_arg arg = FlagArg "yes" value) /\
  exists path asJSON delayed name i q before after w1 w2 w3 w4 w5,
    openInspector path w = (Ok i, w1) /\ name ∈ present i /\
    inspector_queue i name w1 = (Ok q, w2) /\
    Counts q w2 = (Ok before, w3) /\ DrainPending q delayed w3 = (None, w4) /\
    Counts q w4 = (Ok after, w5) /\ w' = close_runtime w5 /\
    exists removed, render zone asJSON (OutDrain name removed delayed) = Ok p /\
      forall bucket n, (bucket, n) ∈ removed <->
        0 < n /\ ((bucket = "wait" /\ n = wrap64 (Wait before - Wait after)) \/
                  (bucket = "prioritized" /\ n = wrap64 (Prioritized before - Prioritized after)) \/
                  (bucket = "delayed" /\ n = wrap64 (Delayed before - Delayed after))).
Proof.
  unfold drain_command, with_flags. destruct (Parse _ args) as [[fs rest]|] eqn:Hp; [|done].
  unfold emit. destruct (cmdDrain _ _ _ rest w) as [[out|] w''] eqn:Hd; [|done].
  cbn [fst snd mbind res_bind]. intros H. injection H as Hp' ->.
  assert (exists name, rest = [name]) as [name ->].
  { unfold cmdDrain in Hd. destruct rest as [|name [|? ?]]; [done|by exists name|done]. }
  apply cmdDrain_spec in Hd as (Hyes & i & q & before & after & w1 & w2 & w3 & w4 & w5 & Ho & Hq & Hb &
    Hdr & Ha & -> & removed & -> & Hrem). split.
  - apply (Parse_written _ _ _ _ "yes" Hp). unfold flag_bool in Hyes. intros Heq.
    rewrite Heq in Hyes. done.
  - exists (config_path fs), (flag_bool fs "json"), (flag_bool fs "delayed"), name, i, q, before, after,
      w1, w2, w3, w4, w5. split_and!; try done; [|by exists removed].
    unfold inspector_queue in Hq. destruct (str_mem name (present i)) eqn:Hm; [|done].
    by apply str_mem_spec.
Qed.

Lemma drain_command_reports_witness :
  @drain_command nat one_queue_client (fun _ => "") utc ["--yes"; "deliver"] 120%nat
    = (Ok (line "drained deliver: wait=120"), 0%nat) /\
  exists arg value, arg ∈ ["--yes"; "deliver"] /\ classify_arg arg = FlagArg "yes" value.
Proof.
  split; [reflexivity|].
  destruct (@drain_command_reports nat one_queue_client (fun _ => "") utc ["--yes"; "deliver"] 120%nat 0%nat
              (line "drained deliver: wait=120") eq_refl) as [H _].
  exact H.
Defined.
